(** * quick-scripts: the branch clean-up tool and the route scanner

    A shallow embedding of [src/git/delete-stale-and-merged-branches.ts] and
    [src/get-express-endpoints.ts], and the properties of their
    classification, listing, confirmation and deletion steps.

    Conventions of the embedding:
    - a JavaScript string is a [string]: a sequence of code units below 256;
    - a JavaScript number is a [Num]: NaN, an infinity or the rational that
      a finite binary64 value denotes; the conversion of a numeric literal,
      the product and the difference round to binary64 (to nearest, ties to
      even; past the largest finite value, to an infinity); the two zeros
      are one value, since no operation of the code tells them apart;
    - a [Date] is its time value in milliseconds, or the invalid date;
    - what a run does to the outside is a trace of events: the commands it
      starts, their outputs, what the runner passes through to the console,
      what is printed and what is asked;
    - a [Set<string>] is a [gset string]. *)

From Stdlib Require Import ZArith QArith List String Ascii Permutation Sorted Lia.
From Stdlib Require Import DecimalString DecimalN.
From stdpp Require Import base list strings gmap.
Import ListNotations.
Close Scope Q_scope.
Local Open Scope string_scope.
Local Open Scope Z_scope.

(** ** JavaScript numbers *)

Module JS.

Inductive Num : Type :=
| NaN
| Inf (negative : bool)
| Fin (q : Q).

Definition ofZ (z : Z) : Num := Fin (inject_Z z).

Definition Qltb (x y : Q) : bool := negb (Qle_bool y x).

(** *** Rounding to binary64

    The Number value for a real: the nearest of the values [m * 2^e] with
    [m < 2^53] and [-1074 <= e], ties to the even [m]; an infinity when the
    nearest value would be [2^1024] or more. *)

(** The integer nearest to [a / b], the even one of two that are equally
    near, for [0 <= a] and [0 < b]. *)
Definition nearest (a b : Z) : Z :=
  let q := a / b in
  match (2 * (a mod b)) ?= b with
  | Lt => q
  | Gt => q + 1
  | Eq => if Z.even q then q else q + 1
  end.

(** The [k] with [2^k <= n / d < 2^(k+1)]. *)
Definition exponentOf (n d : positive) : Z :=
  let k := Z.log2 (Z.pos n) - Z.log2 (Z.pos d) in
  if Z.pos n * 2 ^ Z.max 0 (- k) <? Z.pos d * 2 ^ Z.max 0 k then k - 1 else k.

(** The binary64 value nearest to [n / d], or nothing when it overflows. *)
Definition magnitude (n d : positive) : option Q :=
  let e := Z.max (exponentOf n d - 52) (-1074) in
  let m := nearest (Z.pos n * 2 ^ Z.max 0 (- e)) (Z.pos d * 2 ^ Z.max 0 e) in
  if 1024 <=? Z.log2 m + e then None
  else Some (Qred (m * 2 ^ Z.max 0 e # Z.to_pos (2 ^ Z.max 0 (- e)))).

Definition round64 (q : Q) : Num :=
  match Qnum q with
  | 0 => Fin 0
  | Z.pos n => match magnitude n (Qden q) with Some v => Fin v | None => Inf false end
  | Z.neg n => match magnitude n (Qden q) with Some v => Fin (- v) | None => Inf true end
  end.

(** [isNaN(x)]. *)
Definition isNaN (x : Num) : bool :=
  match x with NaN => true | _ => false end.

(** [x > y]: false as soon as one side is NaN. *)
Definition gt (x y : Num) : bool :=
  match x, y with
  | NaN, _ | _, NaN => false
  | Inf nx, Inf ny => negb nx && ny
  | Inf nx, Fin _ => negb nx
  | Fin _, Inf ny => ny
  | Fin p, Fin q => Qltb q p
  end.

(** [x - y]: the difference, rounded. *)
Definition sub (x y : Num) : Num :=
  match x, y with
  | NaN, _ | _, NaN => NaN
  | Inf nx, Inf ny => if Bool.eqb nx ny then NaN else Inf nx
  | Inf nx, Fin _ => Inf nx
  | Fin _, Inf ny => Inf (negb ny)
  | Fin p, Fin q => round64 (p - q)%Q
  end.

(** [x * k] for a positive integer [k] (the code only multiplies by 1000):
    the product, rounded. *)
Definition scale (x : Num) (k : positive) : Num :=
  match x with
  | NaN => NaN
  | Inf n => Inf n
  | Fin q => round64 (q * inject_Z (Z.pos k))%Q
  end.

(** [!x] on a number: NaN and zero are falsy. *)
Definition falsy (x : Num) : bool :=
  match x with
  | NaN => true
  | Inf _ => false
  | Fin q => Qeq_bool q 0
  end.

(** ** Dates *)

Inductive Date : Type :=
| InvalidDate
| DateAt (ms : Z).

Definition maxTime : Z := 8640000000000000.

(** [new Date(x)] on a number: TimeClip, then truncation towards zero. *)
Definition newDate (x : Num) : Date :=
  match x with
  | Fin q =>
      if Qle_bool (inject_Z (- maxTime)) q && Qle_bool q (inject_Z maxTime)
      then DateAt (Z.quot (Qnum q) (Z.pos (Qden q)))
      else InvalidDate
  | _ => InvalidDate
  end.

(** [Number(d)] on a date: its time value. *)
Definition NumberOfDate (d : Date) : Num :=
  match d with
  | InvalidDate => NaN
  | DateAt ms => ofZ ms
  end.

Definition Date_eqb (a b : Date) : bool :=
  match a, b with
  | InvalidDate, InvalidDate => true
  | DateAt x, DateAt y => x =? y
  | _, _ => false
  end.

(** ** [Array.prototype.sort] with a comparator

    The sort is stable (ECMAScript 2019) and, for a comparator that is a
    consistent ordering, its result is determined: the elements in
    non-decreasing order, equal ones in their order of arrival.  It is
    embedded as the stable insertion sort.  A comparator result of NaN counts
    as [+0], as SortCompare prescribes. *)

Definition isPositive (v : Num) : bool :=
  match v with
  | NaN => false
  | Inf n => negb n
  | Fin q => Qltb 0 q
  end.

Section Sort.
Context {A : Type} (comparefn : A -> A -> Num).

Fixpoint insert (x : A) (l : list A) : list A :=
  match l with
  | [] => [x]
  | y :: l' =>
      if isPositive (comparefn x y) then y :: insert x l' else x :: l
  end.

Definition sort (l : list A) : list A := fold_right insert [] l.
End Sort.

End JS.

(** ** The branch clean-up tool: constants and records *)

Definition second : Z := 1000.
Definition minute : Z := 60 * second.
Definition hour : Z := 60 * minute.
Definition day : Z := 24 * hour.
Definition month : Z := day * 30.

Definition staleBranchAge : Z := 3 * month.
Definition mergedBranchAge : Z := 14 * day.

(** [new Date(Date.now() - age)], for the clock reading [now]. *)
Definition staleBranchDate (now : Z) : JS.Date :=
  JS.newDate (JS.sub (JS.ofZ now) (JS.ofZ staleBranchAge)).
Definition mergedBranchDate (now : Z) : JS.Date :=
  JS.newDate (JS.sub (JS.ofZ now) (JS.ofZ mergedBranchAge)).

Record BranchNameWithDate : Type := {
  name : string;
  lastCommitDate : JS.Date;
}.

Definition ignoreTheseBranches : list string :=
  ["main"; "master"; "staging"; "production"].

(** [Array.prototype.includes] on strings. *)
Definition includes (l : list string) (s : string) : bool :=
  existsb (String.eqb s) l.

Definition filterOutKeyBranchNames (branchNames : list string) : list string :=
  List.filter (fun branchName => negb (includes ignoreTheseBranches branchName))
    branchNames.

(** The predicate of the [filter] call of the classifier. *)
Definition olderThan (modifiedDate : JS.Date) (gitBranch : BranchNameWithDate) : bool :=
  JS.gt (JS.NumberOfDate modifiedDate) (JS.NumberOfDate (lastCommitDate gitBranch)).

(** The comparator of the [sort] call of the classifier. *)
Definition byCommitDate (a b : BranchNameWithDate) : JS.Num :=
  JS.sub (JS.NumberOfDate (lastCommitDate a)) (JS.NumberOfDate (lastCommitDate b)).

Definition filterToBranchesModifiedSinceDate
    (branchesWithDates : list BranchNameWithDate) (modifiedDate : JS.Date)
    : list BranchNameWithDate :=
  JS.sort byCommitDate (List.filter (olderThan modifiedDate) branchesWithDates).

(** The order the classifier's result is in: both commit dates are valid and
    the first is not after the second. *)
Definition commitNotAfter (a b : BranchNameWithDate) : Prop :=
  match lastCommitDate a, lastCommitDate b with
  | JS.DateAt x, JS.DateAt y => x <= y
  | _, _ => False
  end.

Definition committedAt (d : JS.Date) (b : BranchNameWithDate) : bool :=
  JS.Date_eqb (lastCommitDate b) d.

(** ** Strings *)

Module Str.

Definition dquote : string := String (ascii_of_nat 34) EmptyString.
Definition newline : ascii := ascii_of_nat 10.

(** WhiteSpace and LineTerminator code units below 256: what [trim], [\s]
    and the number grammar skip. *)
Definition isWhiteSpace (c : ascii) : bool :=
  match nat_of_ascii c with
  | 9%nat | 10%nat | 11%nat | 12%nat | 13%nat | 32%nat | 160%nat => true
  | _ => false
  end.

Definition isLineTerminator (c : ascii) : bool :=
  match nat_of_ascii c with
  | 10%nat | 13%nat => true
  | _ => false
  end.

Fixpoint dropWhile {A : Type} (p : A -> bool) (l : list A) : list A :=
  match l with
  | [] => []
  | x :: l' => if p x then dropWhile p l' else l
  end.

Definition trimChars (l : list ascii) : list ascii :=
  rev (dropWhile isWhiteSpace (rev (dropWhile isWhiteSpace l))).

(** [s.trim()]. *)
Definition trim (s : string) : string :=
  string_of_list_ascii (trimChars (list_ascii_of_string s)).

(** [s.split(sep)] for a separator of one character. *)
Fixpoint split (sep : ascii) (s : string) : list string :=
  match s with
  | EmptyString => [EmptyString]
  | String c s' =>
      if Ascii.eqb c sep then EmptyString :: split sep s'
      else match split sep s' with
           | [] => [String c EmptyString]
           | first :: others => String c first :: others
           end
  end.

(** [isTruthy] on a string: the empty string is the only falsy one. *)
Definition isTruthy (s : string) : bool :=
  match s with EmptyString => false | _ => true end.

Definition startsWith (s searchString : string) : bool := String.prefix searchString s.

End Str.

(** ** Regular expressions

    The four patterns of the sources are sequences of character classes, each
    taken once, [+] or [*], with one capture group.  [matchHere] is the
    backtracking matcher on that fragment: a quantified class first takes as
    many characters as it can and gives them back one by one while the rest of
    the pattern fails.  It returns the text of the capture group. *)

Module RegExp.

Inductive Quantifier : Type := Once | Plus | Star.

Record Atom : Type := {
  class : ascii -> bool;
  quantifier : Quantifier;
  captured : bool;
}.

Definition Pattern : Type := list Atom.

Definition keep (a : Atom) (c : ascii) (group : list ascii) : list ascii :=
  if captured a then c :: group else group.

Fixpoint matchHere (r : Pattern) (toEnd : bool) (s : list ascii) {struct r}
    : option (list ascii) :=
  match r with
  | [] =>
      match s with
      | [] => Some []
      | _ :: _ => if toEnd then None else Some []
      end
  | a :: r' =>
      let many :=
        fix many (s : list ascii) : option (list ascii) :=
          match s with
          | c :: s' =>
              if class a c then
                match many s' with
                | Some group => Some (keep a c group)
                | None => matchHere r' toEnd s
                end
              else matchHere r' toEnd s
          | [] => matchHere r' toEnd []
          end in
      match quantifier a with
      | Once =>
          match s with
          | c :: s' =>
              if class a c then option_map (keep a c) (matchHere r' toEnd s')
              else None
          | [] => None
          end
      | Plus =>
          match s with
          | c :: s' => if class a c then option_map (keep a c) (many s') else None
          | [] => None
          end
      | Star => many s
      end
  end.

(** A pattern without [^]: the leftmost position where it matches. *)
Fixpoint search (r : Pattern) (toEnd : bool) (s : list ascii) : option (list ascii) :=
  match matchHere r toEnd s with
  | Some group => Some group
  | None =>
      match s with
      | [] => None
      | _ :: s' => search r toEnd s'
      end
  end.

Record RegExp : Type := {
  fromStart : bool;   (* the pattern begins with ^ *)
  pattern : Pattern;
  toEnd : bool;       (* the pattern ends with $ *)
}.

(** [safeMatch(input, regExp)[1]]: the first capture group, or [None] for
    [undefined] when the input does not match. *)
Definition safeMatch1 (input : string) (regExp : RegExp) : option string :=
  option_map string_of_list_ascii
    ((if fromStart regExp then matchHere else search)
       (pattern regExp) (toEnd regExp) (list_ascii_of_string input)).

(** Character classes. *)
Definition space : ascii -> bool := Str.isWhiteSpace.
Definition dot (c : ascii) : bool := negb (Str.isLineTerminator c).
Definition lit (x : ascii) (c : ascii) : bool := Ascii.eqb c x.
Definition notLit (x : ascii) (c : ascii) : bool := negb (Ascii.eqb c x).
Definition digit (c : ascii) : bool :=
  let n := nat_of_ascii c in (48 <=? n)%nat && (n <=? 57)%nat.
Definition word (c : ascii) : bool :=
  let n := nat_of_ascii c in
  digit c || ((65 <=? n)%nat && (n <=? 90)%nat)
          || ((97 <=? n)%nat && (n <=? 122)%nat) || (n =? 95)%nat.
Definition quote (c : ascii) : bool :=
  let n := nat_of_ascii c in (n =? 39)%nat || (n =? 34)%nat || (n =? 96)%nat.

Definition once (p : ascii -> bool) : Atom :=
  {| class := p; quantifier := Once; captured := false |}.
Definition plus (p : ascii -> bool) : Atom :=
  {| class := p; quantifier := Plus; captured := false |}.
Definition star (p : ascii -> bool) : Atom :=
  {| class := p; quantifier := Star; captured := false |}.
Definition group (a : Atom) : Atom :=
  {| class := class a; quantifier := quantifier a; captured := true |}.
Definition text (s : string) : Pattern :=
  map (fun x => once (lit x)) (list_ascii_of_string s).

End RegExp.

Import RegExp.

(** [/^\s*[^\/]+\/(.+)$/] *)
Definition mergedBranchLine : RegExp :=
  {| fromStart := true;
     pattern := ([star space; plus (notLit "/"%char)] ++ text "/"
                 ++ [group (plus dot)])%list;
     toEnd := true |}.

(** [/^[\d\w]+\s+refs\/heads\/(.+)$/] *)
Definition remoteHeadLine : RegExp :=
  {| fromStart := true;
     pattern := ([plus word; plus space] ++ text "refs/heads/"
                 ++ [group (plus dot)])%list;
     toEnd := true |}.

(** [/app\.([^\(]+)\(/] *)
Definition appMethod : RegExp :=
  {| fromStart := false;
     pattern := (text "app." ++ [group (plus (notLit "("%char))] ++ text "(")%list;
     toEnd := false |}.

(** [/\(\s*[Q]([^Q]+)[Q]/], where [Q] stands for the three quote characters
    (single quote, double quote, backquote). *)
Definition quotedPath : RegExp :=
  {| fromStart := false;
     pattern := (text "(" ++ [star space; once quote;
                              group (plus (fun c => negb (quote c))); once quote])%list;
     toEnd := false |}.

(** ** [Number(text)]: the StringNumericLiteral grammar

    Surrounding white space is skipped; the empty text is 0; a binary, octal
    or hexadecimal literal has no sign; a decimal literal has an optional
    sign, an integer part, a fraction and an exponent; anything else is NaN.
    The result is the Number value for the mathematical value of the
    literal, whatever the number of its digits (as V8 computes it). *)

Module StringToNumber.

Definition digitValue (base : Z) (c : ascii) : option Z :=
  let n := Z.of_nat (nat_of_ascii c) in
  let v := if (48 <=? n) && (n <=? 57) then Some (n - 48)
           else if (97 <=? n) && (n <=? 102) then Some (n - 87)
           else if (65 <=? n) && (n <=? 70) then Some (n - 55)
           else None in
  match v with
  | Some d => if d <? base then Some d else None
  | None => None
  end.

(** The longest prefix of digits, and what follows it. *)
Fixpoint digits (base : Z) (s : list ascii) : list Z * list ascii :=
  match s with
  | [] => ([], [])
  | c :: s' =>
      match digitValue base c with
      | Some d => let (ds, rest) := digits base s' in (d :: ds, rest)
      | None => ([], s)
      end
  end.

Definition valueOf (base : Z) (ds : list Z) : Z :=
  fold_left (fun acc d => acc * base + d) ds 0.

Definition integerLiteral (base : Z) (s : list ascii) : JS.Num :=
  match digits base s with
  | (d :: ds, []) => JS.round64 (inject_Z (valueOf base (d :: ds)))
  | _ => JS.NaN
  end.

Definition isChar (x : string) (c : ascii) : bool :=
  match x with
  | String y EmptyString => Ascii.eqb c y
  | _ => false
  end.

(** An optional exponent that ends the text. *)
Definition exponentPart (s : list ascii) : option Z :=
  match s with
  | [] => Some 0
  | c :: s' =>
      if isChar "e" c || isChar "E" c then
        let (negative, s'') :=
          match s' with
          | x :: r => if isChar "+" x then (false, r)
                      else if isChar "-" x then (true, r) else (false, s')
          | [] => (false, s')
          end in
        match digits 10 s'' with
        | (d :: ds, []) =>
            let e := valueOf 10 (d :: ds) in Some (if negative then - e else e)
        | _ => None
        end
      else None
  end.

(** [m * 10^e] *)
Definition timesPowerOfTen (m e : Z) : Q :=
  if 0 <=? e then inject_Z (m * 10 ^ e) else (m # Z.to_pos (10 ^ (- e)))%Q.

Definition unsignedDecimal (s : list ascii) : JS.Num :=
  if String.eqb (string_of_list_ascii s) "Infinity" then JS.Inf false else
  let (integerPart, r1) := digits 10 s in
  let (fraction, r2) :=
    match r1 with
    | c :: r => if isChar "." c then digits 10 r else ([], r1)
    | [] => ([], r1)
    end in
  match (integerPart ++ fraction)%list with
  | [] => JS.NaN
  | ds =>
      match exponentPart r2 with
      | Some e =>
          JS.round64 (timesPowerOfTen (valueOf 10 ds) (e - Z.of_nat (length fraction)))
      | None => JS.NaN
      end
  end.

Definition negate (x : JS.Num) : JS.Num :=
  match x with
  | JS.NaN => JS.NaN
  | JS.Inf n => JS.Inf (negb n)
  | JS.Fin q => JS.Fin (- q)%Q
  end.

Definition numericLiteral (s : list ascii) : JS.Num :=
  match s with
  | [] => JS.ofZ 0
  | c :: r =>
      if isChar "+" c then unsignedDecimal r
      else if isChar "-" c then negate (unsignedDecimal r)
      else match r with
           | x :: r' =>
               if isChar "0" c && (isChar "x" x || isChar "X" x) then integerLiteral 16 r'
               else if isChar "0" c && (isChar "o" x || isChar "O" x) then integerLiteral 8 r'
               else if isChar "0" c && (isChar "b" x || isChar "B" x) then integerLiteral 2 r'
               else unsignedDecimal s
           | [] => unsignedDecimal s
           end
  end.

End StringToNumber.

(** [Number(text)] on a string. *)
Definition Number (text : string) : JS.Num :=
  StringToNumber.numericLiteral (Str.trimChars (list_ascii_of_string text)).

(** ** Errors, the command runner and asynchronous tasks *)

Record ShellOutput : Type := {
  exitCode : Z;
  stdout : string;
  stderr : string;
}.

Record ShellOptions : Type := {
  cwd : string;
  rejectOnError : bool;
  hookUpToConsole : bool;
}.

(** The errors of the two scripts, one constructor per [throw] site, with the
    values its message interpolates; [ShellRejection] is the rejection of the
    command runner. *)
Inductive Error : Type :=
| ShellRejection (command : string) (output : ShellOutput)
| StderrError (text : string)
| NoNumericTimestamp (loggedTimestamp : string)
| NoLastCommitDate (branchName : string) (date : JS.Date)
| NoBranchName (line : string)
| EmptyFilePath
| ReadFileError (filePath : string).

Inductive Result (A : Type) : Type :=
| Ok (a : A)
| Thrown (e : Error).
Arguments Ok {A} a.
Arguments Thrown {A} e.

(** An asynchronous computation that awaits shell commands: it has returned,
    has thrown, or waits for the output of a command it has started;
    [hooked] tells whether the runner passes the output of that command
    through to the console. *)
Inductive Task (A : Type) : Type :=
| Return (a : A)
| Throw (e : Error)
| Await (dir command : string) (hooked : bool) (k : ShellOutput -> Task A).
Arguments Return {A} a.
Arguments Throw {A} e.
Arguments Await {A} dir command hooked k.

Fixpoint Task_bind {A B : Type} (f : A -> Task B) (t : Task A) : Task B :=
  match t with
  | Return a => f a
  | Throw e => Throw e
  | Await dir command hooked k =>
      Await dir command hooked (fun output => Task_bind f (k output))
  end.

#[global] Instance Task_mbind : MBind Task := @Task_bind.
#[global] Instance Task_mret : MRet Task := @Return.

Definition ofResult {A : Type} (r : Result A) : Task A :=
  match r with
  | Ok a => Return a
  | Thrown e => Throw e
  end.

(** Modelled from the spec: the command runner [runShellCommand] of the
    augment-vir package, which executes a command in a working directory and
    returns its exit code, standard output and standard error; with
    [rejectOnError] it converts a non-zero exit into an error, and with
    [hookUpToConsole] it passes the command's own output through to the
    console. *)
Definition runShellCommand (command : string) (options : ShellOptions) : Task ShellOutput :=
  Await (cwd options) command (hookUpToConsole options) (fun output =>
    if rejectOnError options && negb (exitCode output =? 0)
    then Throw (ShellRejection command output)
    else Return output).

(** ** The branch lister *)

(** The callback of the [map] call of both listers: the branch name of a
    line, or the error it throws. *)
Definition branchNameOfLine (regExp : RegExp) (line : string) : Result string :=
  match safeMatch1 line regExp with
  | Some branchName =>
      if Str.isTruthy branchName then Ok branchName else Thrown (NoBranchName line)
  | None => Thrown (NoBranchName line)
  end.

(** [lines.map(callback)] for a callback that may throw: the first line on
    which it throws ends the loop. *)
Fixpoint mapLines (callback : string -> Result string) (lines : list string)
    : Result (list string) :=
  match lines with
  | [] => Ok []
  | line :: lines' =>
      match callback line with
      | Thrown e => Thrown e
      | Ok branchName =>
          match mapLines callback lines' with
          | Thrown e => Thrown e
          | Ok branchNames => Ok (branchName :: branchNames)
          end
      end
  end.

Definition mergedCommand : string := "git branch -r --merged".
Definition remoteCommand : string := "git ls-remote --heads origin".
Definition pruneCommand : string := "git remote prune origin".
Definition fetchCommand (branchName : string) : string :=
  "git fetch origin " ++ branchName.
Definition showCommand (branchName : string) : string :=
  "git show -s --format=%ct origin/" ++ branchName.
Definition deleteCommand (branchName : string) : string :=
  "git push origin --delete " ++ branchName.

Definition quiet (contextDir : string) : ShellOptions :=
  {| cwd := contextDir; rejectOnError := true; hookUpToConsole := false |}.

Definition getAllMergedRemoteBranches (contextDir : string) : Task (list string) :=
  results ← runShellCommand mergedCommand (quiet contextDir);
  let lines := Str.split Str.newline (stdout results) in
  branchNames ← ofResult
    (mapLines (branchNameOfLine mergedBranchLine) (List.filter Str.isTruthy lines));
  mret (List.filter Str.isTruthy branchNames).

Definition getAllRemoteBranches (contextDir : string) : Task (list string) :=
  scriptResult ← runShellCommand remoteCommand (quiet contextDir);
  let lines := List.filter Str.isTruthy (Str.split Str.newline (stdout scriptResult)) in
  branchNames ← ofResult (mapLines (branchNameOfLine remoteHeadLine) lines);
  mret (List.filter Str.isTruthy branchNames).

Definition pruneRemote (contextDir : string) : Task unit :=
  _ ← runShellCommand pruneCommand (quiet contextDir);
  mret tt.

(** ** The commit-date resolver *)

Definition getLastCommitDateOfBranch (contextDir branchName : string) : Task JS.Date :=
  fetchResult ← runShellCommand (fetchCommand branchName) (quiet contextDir);
  if negb (exitCode fetchResult =? 0) then Throw (StderrError (stderr fetchResult)) else
  scriptResult ← runShellCommand (showCommand branchName) (quiet contextDir);
  if negb (exitCode scriptResult =? 0) then Throw (StderrError (stderr scriptResult)) else
  let loggedTimestamp := Str.trim (stdout scriptResult) in
  let numericTimestamp := Number loggedTimestamp in
  if JS.isNaN numericTimestamp then Throw (NoNumericTimestamp loggedTimestamp) else
  mret (JS.newDate (JS.scale numericTimestamp 1000)).

(** The callback of the [map] call of [getBranchDates].  A [Date] object is
    truthy, so the test [!lastCommitDate || !Number(lastCommitDate)] is the
    test of its time value. *)
Definition branchDate (contextDir branchName : string) : Task BranchNameWithDate :=
  lastCommitDate ← getLastCommitDateOfBranch contextDir branchName;
  if JS.falsy (JS.NumberOfDate lastCommitDate)
  then Throw (NoLastCommitDate branchName lastCommitDate)
  else mret {| name := branchName; lastCommitDate := lastCommitDate |}.

Definition deleteBranch (contextDir branchName : string) : Task unit :=
  _ ← runShellCommand (deleteCommand branchName)
        {| cwd := contextDir; rejectOnError := true; hookUpToConsole := true |};
  mret tt.

(** ** Running the tool against its environment *)

(** What [console.info] prints, one constructor per call site. *)
Inductive Message : Type :=
| UsingDirectory (gitDir : string)
| StaleCount (n : nat)
| MergedCount (n : nat)
| BranchList (branches : list BranchNameWithDate)
| StaleWillBeDeleted (n : nat)
| MergedWillBeDeleted (n : nat)
| StaleCutoff (date : JS.Date)
| MergedCutoff (date : JS.Date)
| Done
| Declined.

(** What the run does to the outside, in the order it does it.  The echo of
    a command run with [hookUpToConsole] is recorded once, when the command
    has completed: its standard output and its standard error have then
    reached the console, before the promise of the runner is settled.  What
    a command that has not completed has printed so far is not recorded. *)
Inductive Event : Type :=
| Spawned (dir command : string)                 (* a command is started *)
| Echoed (command : string) (output : ShellOutput)
                                   (* its own output is passed to the console *)
| Settled (command : string) (output : ShellOutput) (* its output arrives *)
| Info (message : Message)                       (* console.info *)
| Asked (question response : string)             (* askQuestion *)
| ErrorLogged (e : Error).     (* console.error(error) of the entry point *)

(** What the completion of a command adds to the trace. *)
Definition arrival (hooked : bool) (command : string) (output : ShellOutput)
    : list Event :=
  if hooked then [Echoed command output; Settled command output]
  else [Settled command output].

(** How an asynchronous function ends: its promise is fulfilled or rejected,
    the process has exited, or a command it waits for never completes. *)
Inductive Outcome (A : Type) : Type :=
| Resolved (a : A)
| Rejected (e : Error)
| Exited (code : Z)
| Pending.
Arguments Resolved {A} a.
Arguments Rejected {A} e.
Arguments Exited {A} code.
Arguments Pending {A}.

Definition question : string :=
  "Are you sure you want to delete all these? (Type " ++ Str.dquote ++ "yes"
  ++ Str.dquote ++ " and hit enter to proceed.) ".

Section Run.
(** The environment: the state of the repository, its remote and the
    terminal; what a command does to it and prints; what the user types;
    the order in which the commands started together complete; and the two
    readings of [Date.now()] made when the module is loaded. *)
Context {World : Type}.
Variable exec : string -> string -> World -> ShellOutput * World.
Variable askQuestion : string -> World -> string * World.
Variable settleOrder : World -> list nat.
Variables staleNow mergedNow : Z.

Record State : Type := {
  world : World;
  trace : list Event;
}.

Definition M (A : Type) : Type := State -> Outcome A * State.

Definition M_bind {A B : Type} (f : A -> M B) (m : M A) : M B :=
  fun st =>
    match m st with
    | (Resolved a, st') => f a st'
    | (Rejected e, st') => (Rejected e, st')
    | (Exited code, st') => (Exited code, st')
    | (Pending, st') => (Pending, st')
    end.

#[local] Instance M_mbind : MBind M := @M_bind.
#[local] Instance M_mret : MRet M := fun A a st => (Resolved a, st).

Definition emit (events : list Event) (st : State) : State :=
  {| world := world st; trace := trace st ++ events |}.

Definition info (message : Message) : M unit :=
  fun st => (Resolved tt, emit [Info message] st).

(** [process.exit(code)] *)
Definition exit {A : Type} (code : Z) : M A :=
  fun st => (Exited code, st).

(** Modelled from the spec: [askQuestion] of [../wait-for-cli-input], which
    presents a prompt, blocks for one line of input and returns it. *)
Definition ask (prompt : string) : M string :=
  fun st =>
    let (response, w) := askQuestion prompt (world st) in
    (Resolved response, {| world := w; trace := trace st ++ [Asked prompt response] |}).

(** [await task]: the commands of one task, one after the other. *)
Fixpoint await {A : Type} (task : Task A) (st : State) : Outcome A * State :=
  match task with
  | Return a => (Resolved a, st)
  | Throw e => (Rejected e, st)
  | Await dir command hooked k =>
      let (output, w) := exec dir command (world st) in
      await (k output)
        {| world := w;
           trace := trace st ++ Spawned dir command :: arrival hooked command output |}
  end.

(** *** [Promise.all]

    Every task runs up to its first command when it is created, so all the
    first commands are started, in array order, before any output arrives.
    Then outputs arrive in the order the environment decides; the task that
    receives one runs up to its next command.  The first task to throw
    rejects the whole: the rejection reaches the top-level handler, which
    exits the process, so no other task continues.  Tasks that are never
    served leave the whole pending. *)

Definition started {A : Type} (task : Task A) : list Event :=
  match task with
  | Await dir command _ _ => [Spawned dir command]
  | _ => []
  end.

Fixpoint rejection {A : Type} (slots : list (Task A)) : option Error :=
  match slots with
  | [] => None
  | Throw e :: _ => Some e
  | _ :: slots' => rejection slots'
  end.

Fixpoint fulfilled {A : Type} (slots : list (Task A)) : option (list A) :=
  match slots with
  | [] => Some []
  | Return a :: slots' => option_map (cons a) (fulfilled slots')
  | _ :: _ => None
  end.

Fixpoint settleAll {A : Type} (order : list nat) (slots : list (Task A)) (st : State)
    : Outcome (list A) * State :=
  match rejection slots with
  | Some e => (Rejected e, st)
  | None =>
      match fulfilled slots with
      | Some values => (Resolved values, st)
      | None =>
          match order with
          | [] => (Pending, st)
          | i :: order' =>
              match slots !! i with
              | Some (Await dir command hooked k) =>
                  let (output, w) := exec dir command (world st) in
                  let task := k output in
                  settleAll order' (<[i := task]> slots)
                    {| world := w;
                       trace := trace st ++ arrival hooked command output
                                         ++ started task |}
              | _ => settleAll order' slots st
              end
          end
      end
  end.

Definition promiseAll {A : Type} (tasks : list (Task A)) : M (list A) :=
  fun st =>
    settleAll (settleOrder (world st)) tasks (emit (flat_map started tasks) st).

(** *** The functions of the script that await several things *)

Definition getBranchDates (contextDir : string) (branchNames : list string)
    : M (list BranchNameWithDate) :=
  promiseAll (map (branchDate contextDir) branchNames).

Definition deleteBranches (contextDir : string) (branches : list BranchNameWithDate)
    : M unit :=
  _ ← promiseAll (map (fun branch => deleteBranch contextDir (name branch)) branches);
  mret tt.

Definition waitForUserToAccept (staleBranches mergedBranches : list BranchNameWithDate)
    : M string :=
  _ ← info (StaleCount (length staleBranches));
  _ ← info (BranchList staleBranches);
  _ ← info (MergedCount (length mergedBranches));
  _ ← info (BranchList mergedBranches);
  _ ← info (StaleWillBeDeleted (length staleBranches));
  _ ← info (MergedWillBeDeleted (length mergedBranches));
  _ ← info (StaleCutoff (staleBranchDate staleNow));
  _ ← info (MergedCutoff (mergedBranchDate mergedNow));
  response ← ask question;
  mret response.

(** [staleBranchNames.has(name)] *)
Definition has (names : gset string) (branchName : string) : bool :=
  bool_decide (branchName ∈ names).

(** Lines 31 to 51 of [deleteStaleAndMergedBranches]: the two sets it goes
    on to show and delete. *)
Definition classifyBranches (contextDir : string)
    : M (list BranchNameWithDate * list BranchNameWithDate) :=
  _ ← await (pruneRemote contextDir);
  remoteBranches ← await (getAllRemoteBranches contextDir);
  let remoteBranchNames := filterOutKeyBranchNames remoteBranches in
  mergedBranches ← await (getAllMergedRemoteBranches contextDir);
  let mergedBranchNames := filterOutKeyBranchNames mergedBranches in
  remoteBranchesWithDates ← getBranchDates contextDir remoteBranchNames;
  let staleBranchesToDelete :=
    filterToBranchesModifiedSinceDate remoteBranchesWithDates (staleBranchDate staleNow) in
  let staleBranchNames : gset string := list_to_set (map name staleBranchesToDelete) in
  allMergedBranchesWithDates ← getBranchDates contextDir mergedBranchNames;
  let mergedBranchesWithDates :=
    List.filter (fun branch => negb (has staleBranchNames (name branch)))
      allMergedBranchesWithDates in
  let mergedBranchesToDelete :=
    filterToBranchesModifiedSinceDate mergedBranchesWithDates (mergedBranchDate mergedNow) in
  mret (staleBranchesToDelete, mergedBranchesToDelete).

(** Lines 53 to 64: the confirmation gate and the deletion. *)
Definition confirmAndDelete (contextDir : string)
    (staleBranchesToDelete mergedBranchesToDelete : list BranchNameWithDate) : M unit :=
  userResponse ← waitForUserToAccept staleBranchesToDelete mergedBranchesToDelete;
  if String.eqb userResponse "yes" then
    _ ← deleteBranches contextDir (staleBranchesToDelete ++ mergedBranchesToDelete);
    info Done
  else
    _ ← info Declined;
    exit 0.

Definition deleteStaleAndMergedBranches (contextDir : string) : M unit :=
  sets ← classifyBranches contextDir;
  confirmAndDelete contextDir sets.1 sets.2.

(** The entry point, once the directory has been read from the arguments: a
    rejection is printed and the process exits with code 1.  The result is
    the exit code, if the process ends, and everything the run did. *)
Definition main (gitDir : string) (w : World) : option Z * list Event :=
  let start := {| world := w; trace := [Info (UsingDirectory gitDir)] |} in
  match deleteStaleAndMergedBranches gitDir start with
  | (Resolved _, st) => (Some 0, trace st)
  | (Rejected e, st) => (Some 1, (trace st ++ [ErrorLogged e])%list)
  | (Exited code, st) => (Some code, trace st)
  | (Pending, st) => (None, trace st)
  end.
End Run.

(** The commands of a trace that delete a branch. *)
Definition isDeletion (event : Event) : bool :=
  match event with
  | Spawned _ command => String.prefix "git push origin --delete " command
  | _ => false
  end.

Definition isAsked (event : Event) : bool :=
  match event with
  | Asked _ _ => true
  | _ => false
  end.

(** ** Scripted environments, for running the tool on examples *)

Module Scripted.

Definition ok (text : string) : ShellOutput :=
  {| exitCode := 0; stdout := text; stderr := "" |}.

Definition failed (code : Z) (text : string) : ShellOutput :=
  {| exitCode := code; stdout := ""; stderr := text |}.

Fixpoint unlines (lines : list string) : string :=
  match lines with
  | [] => ""
  | line :: lines' => line ++ String Str.newline (unlines lines')
  end.

Fixpoint lookup (table : list (string * ShellOutput)) (command : string) : ShellOutput :=
  match table with
  | [] => ok ""
  | (c, output) :: table' => if String.eqb c command then output else lookup table' command
  end.

(** An environment without state: every command prints what the table says
    (nothing, successfully, when the table does not list it). *)
Definition exec (table : list (string * ShellOutput))
    (dir command : string) (w : unit) : ShellOutput * unit :=
  (lookup table command, w).

Definition respond (response : string) (prompt : string) (w : unit) : string * unit :=
  (response, w).

Definition inOrder (order : list nat) (w : unit) : list nat := order.

End Scripted.

(** ** The route scanner *)

Record Endpoint : Type := {
  type : string;
  path : string;
}.

Section Scanner.
(** [collapseWhiteSpace] of the augment-vir package and the file system are
    given. *)
Variable collapseWhiteSpace : string -> string.
Variable readFile : string -> Result string.

(** The test of the [if] in the callback of [forEach]. *)
Definition isAppLine (rawLine : string) : bool :=
  Str.startsWith (Str.trim rawLine) "app.".

(** The record built in the body of the [if]. *)
Definition newEndpoint (fileLines : list string) (index : nat) (rawLine : string)
    : Endpoint :=
  let trimmedLine := Str.trim rawLine in
  let method := default "" (safeMatch1 trimmedLine appMethod) in
  let nextLine := default "" (fileLines !! (index + 1)%nat) in
  let combinedLines := collapseWhiteSpace (trimmedLine ++ nextLine) in
  let path := default "" (safeMatch1 combinedLines quotedPath) in
  {| type := method; path := path |}.

(** [fileLines.forEach((rawLine, index) => ...)], from [index] on, pushing
    to [endpoints]. *)
Fixpoint forEachLine (fileLines : list string) (index : nat) (rest : list string)
    (endpoints : list Endpoint) : list Endpoint :=
  match rest with
  | [] => endpoints
  | rawLine :: rest' =>
      forEachLine fileLines (S index) rest'
        (if isAppLine rawLine
         then (endpoints ++ [newEndpoint fileLines index rawLine])%list
         else endpoints)
  end.

Definition getFileEndpoints (filePath : string) : Result (list Endpoint) :=
  if negb (Str.isTruthy filePath) then Thrown EmptyFilePath else
  match readFile filePath with
  | Thrown e => Thrown e
  | Ok content =>
      let fileLines := Str.split Str.newline content in
      Ok (forEachLine fileLines 0 fileLines [])
  end.
End Scanner.

(** The state a run starts in. *)
Definition fresh {World : Type} (w : World) : State :=
  {| world := w; trace := [] |}.

(** *** Example environments *)

(** A remote whose listings contain a line of the wrong shape. *)
Definition oddListing : list (string * ShellOutput) :=
  [ (remoteCommand,
     Scripted.ok (Scripted.unlines ["garbage"; "a1 refs/heads/feature-a"]));
    (mergedCommand,
     Scripted.ok (Scripted.unlines ["  origin/feature-a"; "nothing merged"])) ].

(** A remote whose merged listing alone contains lines of the wrong shape,
    after a line of the right one. *)
Definition oddMerged : list (string * ShellOutput) :=
  [ (remoteCommand, Scripted.ok (Scripted.unlines ["a1 refs/heads/feature-a"]));
    (mergedCommand,
     Scripted.ok (Scripted.unlines
       ["  origin/feature-a"; "nothing merged"; "also not a branch"])) ].

(** The number of lines before [index] that start with [app.]: the position
    in the result of the record of line [index]. *)
Definition appLinesBefore (fileLines : list string) (index : nat) : nat :=
  length (List.filter isAppLine (firstn index fileLines)).

(** A file of three route lines: one with a path, one without a quoted
    argument, one without a call. *)
Definition routeFile : string :=
  Scripted.unlines ["app.get('/users', list)"; "  app.use(router) "; "app.listen"].

Definition oneFile (content : string) (filePath : string) : Result string :=
  if String.eqb filePath "routes.ts" then Ok content else Thrown (ReadFileError filePath).

(** *** What one task of a [Promise.all] goes through

    [reaches task history task']: served the outputs recorded in [history],
    [task] has become [task']; the history also records the commands it
    started on the way. *)
Inductive reaches {A : Type} : Task A -> list Event -> Task A -> Prop :=
| reaches_here (task : Task A) : reaches task [] task
| reaches_settle (dir command : string) (hooked : bool) (k : ShellOutput -> Task A)
    (output : ShellOutput) (history : list Event) (task' : Task A) :
    reaches (k output) history task' ->
    reaches (Await dir command hooked k)
      (arrival hooked command output ++ started (k output) ++ history) task'.

(** The outcome of a [Promise.all] whose tasks have stopped in [finals]. *)
Definition outcomeOf {A : Type} (finals : list (Task A)) : Outcome (list A) :=
  match rejection finals with
  | Some e => Rejected e
  | None =>
      match fulfilled finals with
      | Some values => Resolved values
      | None => Pending
      end
  end.

(** [finals], [histories] and the events [new] describe a [Promise.all] over
    [slots] that has stopped: each task has reached its final form through
    its own history, and the events seen are those of the histories. *)
Definition stoppedIn {A : Type} (slots finals : list (Task A))
    (histories : list (list Event)) (new : list Event) : Prop :=
  length finals = length slots /\
  length histories = length slots /\
  (forall i task, slots !! i = Some task ->
     exists history task',
       histories !! i = Some history /\ finals !! i = Some task' /\
       reaches task history task') /\
  (forall event, In event new <->
     exists i history, histories !! i = Some history /\ In event history).

(** *** Failed date lookups *)

(** The date the resolver makes of the output of the date query. *)
Definition commitDateOf (output : ShellOutput) : JS.Date :=
  JS.newDate (JS.scale (Number (Str.trim (stdout output))) 1000).

(** The two tests on that output: [isNaN(numericTimestamp)] in the resolver
    and [!Number(lastCommitDate)] in [getBranchDates]. *)
Definition unusable (output : ShellOutput) : bool :=
  JS.isNaN (Number (Str.trim (stdout output)))
  || JS.falsy (JS.NumberOfDate (commitDateOf output)).

(** The event is the failure of a date lookup: a fetch or a date query that
    exits with a non-zero code, or a date query whose text is unusable. *)
Definition lookupFails (event : Event) : Prop :=
  match event with
  | Settled command output =>
      (exists branchName, command = fetchCommand branchName /\ exitCode output <> 0) \/
      (exists branchName, command = showCommand branchName /\
                          (exitCode output <> 0 \/ unusable output = true))
  | _ => False
  end.

(** Nothing is asked and nothing is deleted by the event. *)
Definition harmless (event : Event) : Prop :=
  isAsked event = false /\ isDeletion event = false.

(** The spec's wording of a usable timestamp: the text is a positive integer
    in decimal digits. *)
Definition isPositiveInteger (text : string) : bool :=
  match StringToNumber.digits 10 (list_ascii_of_string text) with
  | (d :: ds, []) => 0 <? StringToNumber.valueOf 10 (d :: ds)
  | _ => false
  end.

(** The events [new] of a step that ended in [outcome] ask nothing and delete
    nothing, a failed date lookup among them has rejected the step, and the
    step has not exited the process. *)
Definition beforeGate {A : Type} (outcome : Outcome A) (new : list Event) : Prop :=
  Forall harmless new /\
  (forall event, In event new -> lookupFails event -> exists e, outcome = Rejected e) /\
  (forall code, outcome <> Exited code).

(** *** The gate and the deleter, as seen from outside *)

(** What [waitForUserToAccept] prints before it asks. *)
Definition gateReport (staleNow mergedNow : Z)
    (staleBranches mergedBranches : list BranchNameWithDate) : list Event :=
  [ Info (StaleCount (length staleBranches));
    Info (BranchList staleBranches);
    Info (MergedCount (length mergedBranches));
    Info (BranchList mergedBranches);
    Info (StaleWillBeDeleted (length staleBranches));
    Info (MergedWillBeDeleted (length mergedBranches));
    Info (StaleCutoff (staleBranchDate staleNow));
    Info (MergedCutoff (mergedBranchDate mergedNow)) ].

(** The deletion commands of [branches], in order. *)
Definition deletions (contextDir : string) (branches : list BranchNameWithDate)
    : list Event :=
  map (fun branch => Spawned contextDir (deleteCommand (name branch))) branches.

(** The events of the deletions that have completed, in the order in which
    they completed: the echo of each, then its output. *)
Definition completions (served : list (BranchNameWithDate * ShellOutput)) : list Event :=
  flat_map (fun p => arrival true (deleteCommand (name (fst p))) (snd p)) served.

(** How the deleter of [branches] ended, after the deletions [ok] and then
    [failed] have completed: those of [ok] have succeeded; when the deleter
    is fulfilled none has failed and every deletion is among them; when it is
    rejected, [failed] is the one deletion that failed, the last to complete,
    and the error is its rejection; otherwise none has failed and the
    deleter is still waiting. *)
Definition deleterRan (branches : list BranchNameWithDate) (outcome : Outcome unit)
    (ok failed : list (BranchNameWithDate * ShellOutput)) : Prop :=
  Forall (fun p => In (fst p) branches /\ exitCode (snd p) = 0) ok /\
  (match outcome with
   | Resolved _ =>
       failed = [] /\
       forall branch, In branch branches -> exists output, In (branch, output) ok
   | Rejected e =>
       exists branch output,
         failed = [(branch, output)] /\ In branch branches /\ exitCode output <> 0 /\
         e = ShellRejection (deleteCommand (name branch)) output
   | Exited _ => False
   | Pending => failed = []
   end).

(** A slot of the deleter: its deletion has not completed, or it has
    succeeded. *)
Definition slotOf (contextDir : string) (branch : BranchNameWithDate) (task : Task unit)
    : Prop :=
  task = deleteBranch contextDir (name branch) \/ task = Return tt.

(** [settled] are the events that followed the start of the deletion
    commands of [branches], and [outcome] is how the deleter ended: only
    echoes and outputs of those commands arrive; a failed deletion rejects
    the deleter; a rejection is the failure of a deletion that was seen; when
    the deleter is fulfilled every deletion has succeeded; the deleter does
    not exit the process; and the events are those of the deletions that
    completed, of which only the last can have failed. *)
Definition deleterEnded (branches : list BranchNameWithDate)
    (outcome : Outcome unit) (settled : list Event) : Prop :=
  (forall event, In event settled ->
     exists branch output,
       In branch branches /\
       (event = Echoed (deleteCommand (name branch)) output \/
        event = Settled (deleteCommand (name branch)) output)) /\
  (forall command output,
     In (Settled command output) settled -> exitCode output <> 0 ->
     exists e, outcome = Rejected e) /\
  (forall e, outcome = Rejected e ->
     exists branch output,
       In branch branches /\ exitCode output <> 0 /\
       e = ShellRejection (deleteCommand (name branch)) output /\
       In (Settled (deleteCommand (name branch)) output) settled) /\
  (outcome = Resolved tt ->
     forall branch, In branch branches ->
       exists output, exitCode output = 0 /\
                      In (Settled (deleteCommand (name branch)) output) settled) /\
  (forall code, outcome <> Exited code) /\
  (exists ok failed,
     settled = completions (ok ++ failed)%list /\
     deleterRan branches outcome ok failed).

(** What follows the deleter in the script: [console.info('done.')] when the
    deleter is fulfilled. *)
Definition afterDeleter (outcome : Outcome unit) : list Event :=
  match outcome with
  | Resolved _ => [Info Done]
  | _ => []
  end.

(** How the entry point ends, for the outcome of the asynchronous function:
    the exit code, when the process ends, and what is printed last. *)
Definition exitCodeOf (outcome : Outcome unit) : option Z :=
  match outcome with
  | Resolved _ => Some 0
  | Rejected _ => Some 1
  | Exited code => Some code
  | Pending => None
  end.

Definition errorLog (outcome : Outcome unit) : list Event :=
  match outcome with
  | Rejected e => [ErrorLogged e]
  | _ => []
  end.

(** The scenario of the spec, with one more branch: [feature-a] is 400 days
    old and merged, [feature-b] is 10 days old, [feature-c] is 20 days old and
    merged; the clock reads 1700000000000. *)
Definition scenarioNow : Z := 1700000000000.

Definition scenario : list (string * ShellOutput) :=
  [ (remoteCommand,
     Scripted.ok (Scripted.unlines
       ["a0 refs/heads/main"; "a1 refs/heads/feature-a";
        "a2 refs/heads/feature-b"; "a3 refs/heads/feature-c"]));
    (mergedCommand,
     Scripted.ok (Scripted.unlines
       ["  origin/feature-a"; "  origin/feature-c"; "  origin/main"]));
    (showCommand "feature-a", Scripted.ok "1665440000");
    (showCommand "feature-b", Scripted.ok "1699136000");
    (showCommand "feature-c", Scripted.ok "1698272000") ].

Definition scenarioOrder : list nat := [0; 1; 2; 0; 1; 2]%nat.

Definition featureA : BranchNameWithDate :=
  {| name := "feature-a"; lastCommitDate := JS.DateAt 1665440000000 |}.
Definition featureC : BranchNameWithDate :=
  {| name := "feature-c"; lastCommitDate := JS.DateAt 1698272000000 |}.

(** The same, where the date query of [feature-b] fails. *)
Definition brokenLookup : list (string * ShellOutput) :=
  (showCommand "feature-b", Scripted.failed 128 "fatal: bad revision") :: scenario.

(** The same, where the deletion of [feature-c] fails. *)
Definition brokenDeletion : list (string * ShellOutput) :=
  (deleteCommand "feature-c", Scripted.failed 1 "remote rejected") :: scenario.

(** The same, where the deletions print on their standard error and
    succeed. *)
Definition chattyDeletion : list (string * ShellOutput) :=
  (deleteCommand "feature-a",
   {| exitCode := 0; stdout := ""; stderr := " - [deleted] feature-a" |})
  :: (deleteCommand "feature-c",
      {| exitCode := 0; stdout := ""; stderr := " - [deleted] feature-c" |})
  :: scenario.

(** A remote with one branch whose date query prints a negative number. *)
Definition beforeEpoch : list (string * ShellOutput) :=
  [ (remoteCommand, Scripted.ok (Scripted.unlines ["a1 refs/heads/x"]));
    (showCommand "x", Scripted.ok "-5") ].

Definition scenarioStart (gitDir : string) : @State unit :=
  {| world := tt; trace := [Info (UsingDirectory gitDir)] |}.

(** Finds an event in a trace that has been computed. *)
Ltac find_event := repeat (first [left; reflexivity | right]).

(** ** What a date lookup leaves behind *)

(** [e] is the error of a date lookup of [branchName] that ended with the
    output [output] of the command [command]: the rejection of the fetch or
    of the date query, or one of the two errors thrown on the text of the
    date query. *)
Definition lookupError (branchName command : string) (output : ShellOutput) (e : Error)
    : Prop :=
  (command = fetchCommand branchName /\ exitCode output <> 0 /\
   e = ShellRejection command output) \/
  (command = showCommand branchName /\ exitCode output <> 0 /\
   e = ShellRejection command output) \/
  (command = showCommand branchName /\ exitCode output = 0 /\
   JS.isNaN (Number (Str.trim (stdout output))) = true /\
   e = NoNumericTimestamp (Str.trim (stdout output))) \/
  (command = showCommand branchName /\ exitCode output = 0 /\
   JS.isNaN (Number (Str.trim (stdout output))) = false /\
   JS.falsy (JS.NumberOfDate (commitDateOf output)) = true /\
   e = NoLastCommitDate branchName (commitDateOf output)).

(** The record [branch] was made for [branchName] from outputs seen in
    [events]: its fetch and its date query succeeded, and its date is the one
    made of the text of the date query, valid and not the epoch. *)
Definition resolvedFrom (events : list Event) (branchName : string)
    (branch : BranchNameWithDate) : Prop :=
  name branch = branchName /\
  exists fetched shown ms,
    In (Settled (fetchCommand branchName) fetched) events /\ exitCode fetched = 0 /\
    In (Settled (showCommand branchName) shown) events /\ exitCode shown = 0 /\
    lastCommitDate branch = commitDateOf shown /\
    commitDateOf shown = JS.DateAt ms /\ ms <> 0.

(** The event belongs to the date lookup of one of [branchNames]. *)
Definition lookupEvent (contextDir : string) (branchNames : list string) (event : Event)
    : Prop :=
  exists branchName,
    In branchName branchNames /\
    (event = Spawned contextDir (fetchCommand branchName) \/
     event = Spawned contextDir (showCommand branchName) \/
     (exists output, event = Settled (fetchCommand branchName) output) \/
     (exists output, event = Settled (showCommand branchName) output)).
(** ** What a run leaves behind *)

(** The branch names a listing command printed: the code of both listers
    after the command has returned. *)
Definition namesOfListing (regExp : RegExp) (output : ShellOutput) : Result (list string) :=
  match mapLines (branchNameOfLine regExp)
          (List.filter Str.isTruthy (Str.split Str.newline (stdout output))) with
  | Ok branchNames => Ok (List.filter Str.isTruthy branchNames)
  | Thrown e => Thrown e
  end.

(** [e] is an error that the outputs seen in [events] explain: a command that
    exited with a non-zero code, a non-empty line of a listing from which no
    branch name is extracted, or a date query whose text is not usable. *)
Definition runError (events : list Event) (e : Error) : Prop :=
  (exists command output,
     In (Settled command output) events /\ exitCode output <> 0 /\
     e = ShellRejection command output) \/
  (exists command output line,
     (command = remoteCommand \/ command = mergedCommand) /\
     In (Settled command output) events /\ exitCode output = 0 /\
     In line (Str.split Str.newline (stdout output)) /\ line <> "" /\
     e = NoBranchName line) \/
  (exists branchName output,
     In (Settled (showCommand branchName) output) events /\ exitCode output = 0 /\
     ((JS.isNaN (Number (Str.trim (stdout output))) = true /\
       e = NoNumericTimestamp (Str.trim (stdout output))) \/
      (JS.isNaN (Number (Str.trim (stdout output))) = false /\
       JS.falsy (JS.NumberOfDate (commitDateOf output)) = true /\
       e = NoLastCommitDate branchName (commitDateOf output)))).

(** The two sets were made from outputs seen in [events]: the names of the
    two listings, without the protected ones, each resolved to a record; the
    stale set classified from the records of the remote listing, the merged
    set from the records of the merged listing that do not bear the name of a
    stale record. *)
Definition classifiedFrom (events : list Event) (staleNow mergedNow : Z)
    (stale merged : list BranchNameWithDate) : Prop :=
  exists listedRemote listedMerged remoteNames mergedNames remoteDated mergedDated,
    In (Settled remoteCommand listedRemote) events /\
    namesOfListing remoteHeadLine listedRemote = Ok remoteNames /\
    In (Settled mergedCommand listedMerged) events /\
    namesOfListing mergedBranchLine listedMerged = Ok mergedNames /\
    Forall2 (resolvedFrom events) (filterOutKeyBranchNames remoteNames) remoteDated /\
    Forall2 (resolvedFrom events) (filterOutKeyBranchNames mergedNames) mergedDated /\
    stale = filterToBranchesModifiedSinceDate remoteDated (staleBranchDate staleNow) /\
    merged = filterToBranchesModifiedSinceDate
               (List.filter
                  (fun branch => negb (has (list_to_set (map name stale)) (name branch)))
                  mergedDated)
               (mergedBranchDate mergedNow).

(** The commands of the classification stage. *)
Definition stageCommand (command : string) : Prop :=
  command = pruneCommand \/ command = remoteCommand \/ command = mergedCommand \/
  exists branchName,
    command = fetchCommand branchName \/ command = showCommand branchName.

(** The event is the start or the output of such a command. *)
Definition stageEvent (event : Event) : Prop :=
  match event with
  | Spawned _ command | Settled command _ => stageCommand command
  | _ => False
  end.

(** What a step of the run leaves behind when it ends in [outcome] with the
    events [events]: a command that fails rejects it; a rejection is
    explained by what was seen; nothing is asked and nothing is deleted;
    every command runs in the working directory; the step does not exit the
    process; it only starts commands of the classification stage and sees
    their outputs. *)
Definition stepLeaves {A : Type} (contextDir : string) (outcome : Outcome A)
    (events : list Event) : Prop :=
  (forall command output,
     In (Settled command output) events -> exitCode output <> 0 ->
     exists e, outcome = Rejected e) /\
  (forall e, outcome = Rejected e -> runError events e) /\
  Forall harmless events /\
  (forall dir command, In (Spawned dir command) events -> dir = contextDir) /\
  (forall code, outcome <> Exited code) /\
  Forall stageEvent events.

(** What the classification stage leaves behind: besides, it begins by
    pruning and does nothing more when pruning fails, and the sets it returns
    are made from what was seen. *)
Definition classifyLeaves (contextDir : string) (staleNow mergedNow : Z)
    (outcome : Outcome (list BranchNameWithDate * list BranchNameWithDate))
    (new : list Event) : Prop :=
  stepLeaves contextDir outcome new /\
  (exists pruned rest,
     new = ([Spawned contextDir pruneCommand; Settled pruneCommand pruned] ++ rest)%list /\
     (exitCode pruned <> 0 -> rest = [])) /\
  (forall stale merged, outcome = Resolved (stale, merged) ->
     classifiedFrom new staleNow mergedNow stale merged).
(** More example environments: pruning fails; only protected branches are
    listed. *)
Definition brokenPrune : list (string * ShellOutput) :=
  (pruneCommand, Scripted.failed 1 "could not prune") :: scenario.

Definition onlyProtected : list (string * ShellOutput) :=
  [ (remoteCommand,
     Scripted.ok (Scripted.unlines ["a0 refs/heads/main"; "a1 refs/heads/staging"]));
    (mergedCommand, Scripted.ok (Scripted.unlines ["  origin/main"])) ].

(** The events of a run, by the part of the run they belong to. *)
Ltac split_trace H :=
  repeat match type of H with
         | In _ (_ :: _) => destruct H as [H | H]
         | In _ (_ ++ _) => apply in_app_or in H as [H | H]
         | In _ [] => destruct H
         end.

(** Shows that an event is in a trace given by its parts. *)
Ltac in_trace :=
  cbn [afterDeleter errorLog app];
  repeat (progress (cbn [In]; rewrite ?in_app_iff));
  repeat first [left; reflexivity | left; assumption | right];
  first [assumption | reflexivity].


(** The task runs at most [n] commands, whatever they print. *)
Fixpoint atMost {A : Type} (n : nat) (task : Task A) {struct task} : Prop :=
  match task with
  | Await _ _ _ k =>
      match n with
      | O => False
      | S n' => forall output, atMost n' (k output)
      end
  | _ => True
  end.

(** The order serves every task as often as the task may need. *)
Definition serves {A : Type} (order : list nat) (slots : list (Task A)) : Prop :=
  forall i task, slots !! i = Some task -> atMost (count_occ Nat.eq_dec order i) task.

(** ** What the matcher decides *)

(** The loop of a quantified class, by itself: [next] is the matcher of the
    rest of the pattern. *)
Definition manyOf (a : Atom) (next : list ascii -> option (list ascii))
    : list ascii -> option (list ascii) :=
  fix many (s : list ascii) : option (list ascii) :=
    match s with
    | c :: s' =>
        if class a c then
          match many s' with
          | Some group => Some (keep a c group)
          | None => next s
          end
        else next s
    | [] => next []
    end.

(** What a class that has taken [run] adds to the capture group. *)
Definition kept (a : Atom) (run : list ascii) : list ascii :=
  if captured a then run else [].

Definition repeats (q : Quantifier) (n : nat) : Prop :=
  match q with
  | Once => n = 1%nat
  | Plus => (1 <= n)%nat
  | Star => True
  end.

(** [Matches toEnd r s g]: the text [s] begins with a match of the pattern
    [r] (is one, when [toEnd]) whose capture group is [g]. *)
Inductive Matches (toEnd : bool) : Pattern -> list ascii -> list ascii -> Prop :=
| MatchesEnd (s : list ascii) :
    (toEnd = true -> s = []) -> Matches toEnd [] s []
| MatchesAtom (a : Atom) (r : Pattern) (run s g : list ascii) :
    Forall (fun c => class a c = true) run ->
    repeats (quantifier a) (length run) ->
    Matches toEnd r s g ->
    Matches toEnd (a :: r) (run ++ s) (kept a run ++ g).

(** The characters of a text. *)
Definition chars (s : string) : list ascii := list_ascii_of_string s.

(** No character of the text is [x]. *)
Definition without (x : ascii) (s : string) : Prop :=
  Forall (fun c => c <> x) (chars s).

(** The text is on one line: it holds no line terminator. *)
Definition onOneLine (s : string) : Prop :=
  Forall (fun c => Str.isLineTerminator c = false) (chars s).

(** ** Decimal texts *)

(** The decimal notation of a natural number: what
    [git show -s --format=%ct] prints for a time in seconds. *)
Definition decimal (n : N) : string := NilEmpty.string_of_uint (N.to_uint n).

(** The digits of a decimal numeral, as numbers. *)
Fixpoint uintDigits (d : Decimal.uint) : list Z :=
  match d with
  | Decimal.Nil => []
  | Decimal.D0 d' => 0 :: uintDigits d'
  | Decimal.D1 d' => 1 :: uintDigits d'
  | Decimal.D2 d' => 2 :: uintDigits d'
  | Decimal.D3 d' => 3 :: uintDigits d'
  | Decimal.D4 d' => 4 :: uintDigits d'
  | Decimal.D5 d' => 5 :: uintDigits d'
  | Decimal.D6 d' => 6 :: uintDigits d'
  | Decimal.D7 d' => 7 :: uintDigits d'
  | Decimal.D8 d' => 8 :: uintDigits d'
  | Decimal.D9 d' => 9 :: uintDigits d'
  end.

(** The text is made of white space only. *)
Definition blank (s : string) : Prop :=
  Forall (fun c => Str.isWhiteSpace c = true) (chars s).

(** ** The arguments of the scripts

    Both scripts begin with the same function, which looks in
    [process.argv] for the argument that names the script and returns what
    follows it.  The name of the file, [basename(__filename)], is given. *)

(** [thisFileName.replace(/\.ts$/, '')] *)
Definition withoutTsExtension (thisFileName : string) : string :=
  match rev (chars thisFileName) with
  | "s"%char :: "t"%char :: "."%char :: r => string_of_list_ascii (rev r)
  | _ => thisFileName
  end.

(** The characters with a meaning in the source of a regular expression. *)
Definition isSyntax (c : ascii) : bool :=
  existsb (Ascii.eqb c) (chars "\^$.*+?()[]{}|/").

(** A file name whose characters all stand for themselves in a pattern. *)
Definition plain (name : string) : Prop :=
  Forall (fun c => isSyntax c = false) (chars name).

(** What [new RegExp] makes of a file name in which the dot is the only
    character with a meaning: every character stands for itself, the dot for
    any character of a line. *)
Definition nameSource (name : string) : Pattern :=
  map (fun c => if Ascii.eqb c "." then once dot else once (lit c)) (chars name).

(** The pattern [name.ts$] or [name.js$]: in the template of the source the
    backslash before the dot is dropped, so the dot that precedes the
    extension stands for any character. *)
Definition scriptPattern (name extension : string) : Pattern :=
  (nameSource name ++ [once dot] ++ text extension)%list.

(** [!!argv.match(new RegExp(...))], the alternative [(?:ts|js)] tried on
    both sides. *)
Definition namesScript (name argv : string) : bool :=
  let found (extension : string) : bool :=
    match search (scriptPattern name extension) true (chars argv) with
    | Some _ => true
    | None => false
    end in
  found "ts" || found "js".

(** [array.findIndex(predicate)], [None] for -1. *)
Fixpoint findIndex {A : Type} (predicate : A -> bool) (l : list A) : option nat :=
  match l with
  | [] => None
  | x :: l' => if predicate x then Some 0%nat else option_map S (findIndex predicate l')
  end.

(** What [getRelevantArguments] returns, or the arguments it throws on. *)
Inductive ScriptArguments : Type :=
| RelevantArguments (args : list string)
| ScriptNotFound (argv : list string).

Definition getRelevantArguments (thisFileName : string) (argv : list string)
    : ScriptArguments :=
  let thisFileNameWithoutExtension := withoutTsExtension thisFileName in
  match findIndex (namesScript thisFileNameWithoutExtension) argv with
  | None => ScriptNotFound argv
  | Some thisScriptIndex => RelevantArguments (skipn (thisScriptIndex + 1) argv)
  end.

(** The block run when the module is the main one: the directory is the
    first relevant argument, or the working directory of the process when
    there is none; when [getRelevantArguments] throws nothing has been
    started. *)
Inductive ScriptRun (R : Type) : Type :=
| NotStarted (argv : list string)
| Started (contextDir : string) (result : R).
Arguments NotStarted {R} argv.
Arguments Started {R} contextDir result.

Definition runAsMain {R : Type} (script : string -> R) (thisFileName : string)
    (argv : list string) (cwd : string) : ScriptRun R :=
  match getRelevantArguments thisFileName argv with
  | ScriptNotFound thrown => NotStarted thrown
  | RelevantArguments relevantArgs =>
      let contextDir := default cwd (head relevantArgs) in
      Started contextDir (script contextDir)
  end.

(** ** The report of the route scanner *)

(** The object that maps file names to their endpoints: its own properties,
    in the order they were made.  ([Object.keys] lists the names that are
    array indices first; the report sorts the names, so the order is
    immaterial, see [sort_names_unique].) *)
Definition Endpoints : Type := list (string * list Endpoint).

Fixpoint assign (accum : Endpoints) (fileName : string) (fileEndpoints : list Endpoint)
    : Endpoints :=
  match accum with
  | [] => [(fileName, fileEndpoints)]
  | (key, value) :: accum' =>
      if String.eqb key fileName then (key, fileEndpoints) :: accum'
      else (key, value) :: assign accum' fileName fileEndpoints
  end.

(** [accum[fileName] = fileEndpoints] on an object made by [{}]: the name
    [__proto__] sets the prototype of the object and makes no property. *)
Definition setProperty (accum : Endpoints) (fileName : string)
    (fileEndpoints : list Endpoint) : Endpoints :=
  if String.eqb fileName "__proto__" then accum else assign accum fileName fileEndpoints.

(** [Object.keys(endpoints)] *)
Definition ownKeys (endpoints : Endpoints) : list string := map fst endpoints.

(** [endpoints[fileName]] for an own property. *)
Fixpoint getProperty (endpoints : Endpoints) (fileName : string) : option (list Endpoint) :=
  match endpoints with
  | [] => None
  | (key, value) :: endpoints' =>
      if String.eqb key fileName then Some value else getProperty endpoints' fileName
  end.

(** The comparison of [sort()] without a comparator: by code units. *)
Definition codeUnitOrder (a b : string) : JS.Num :=
  match String.compare a b with
  | Lt => JS.ofZ (-1)
  | Eq => JS.ofZ 0
  | Gt => JS.ofZ 1
  end.

(** [lines.join('\n')] *)
Fixpoint joinLines (lines : list string) : string :=
  match lines with
  | [] => ""
  | [line] => line
  | line :: lines' => line ++ String Str.newline (joinLines lines')
  end.

Definition tab : ascii := ascii_of_nat 9.

(** The line of an endpoint: a tab, a star, the type, a colon and the path
    between backquotes. *)
Definition endpointLine (endpoint : Endpoint) : string :=
  String tab ("* " ++ type endpoint ++ ": `" ++ path endpoint ++ "`").

Section Report.
(** The directory listing, the joining of paths and the comparison of
    strings of the locale are given, besides what the scanner of one file is
    given. *)
Variable collapseWhiteSpace : string -> string.
Variable readFile : string -> Result string.
Variable readdir : string -> Result (list string).
Variable join : string -> string -> string.
Variable localeCompare : string -> string -> Z.

(** The comparator of the [sort] call on the endpoints of a file. *)
Definition byTypeAndPath (a b : Endpoint) : JS.Num :=
  JS.ofZ (localeCompare (type a ++ path a) (type b ++ path b)).

(** The callback of the [map] call of [formatEndpoints]. *)
Definition fileReport (fileName : string) (fileEndpoints : list Endpoint) : string :=
  let title := " * **" ++ fileName ++ "**" in
  let endPoints := JS.sort byTypeAndPath fileEndpoints in
  let endpointLines := joinLines (map endpointLine endPoints) in
  title ++ String Str.newline endpointLines.

Definition formatEndpoints (endpoints : Endpoints) : string :=
  joinLines
    (map (fun fileName => fileReport fileName (default [] (getProperty endpoints fileName)))
         (JS.sort codeUnitOrder (ownKeys endpoints))).

(** The callback of the [reduce] call: it waits for the files before, then
    reads its own file. *)
Definition reduceStep (routeFilePaths : list string) (accumPromise : Result Endpoints)
    (entry : nat * string) : Result Endpoints :=
  match accumPromise with
  | Thrown e => Thrown e
  | Ok accum =>
      let (fileIndex, fileName) := entry in
      let filePath := routeFilePaths !! fileIndex in
      match getFileEndpoints collapseWhiteSpace readFile (default "" filePath) with
      | Thrown e => Thrown e
      | Ok fileEndpoints => Ok (setProperty accum fileName fileEndpoints)
      end
  end.

(** The report that [getExpressEndpoints] prints, or the error that rejects
    it. *)
Definition getExpressEndpoints (directory : string) : Result string :=
  match readdir directory with
  | Thrown e => Thrown e
  | Ok routeFileNames =>
      let routeFilePaths := map (join directory) routeFileNames in
      match fold_left (reduceStep routeFilePaths) (imap pair routeFileNames) (Ok []) with
      | Thrown e => Thrown e
      | Ok endpoints => Ok (formatEndpoints endpoints)
      end
  end.
End Report.

(** The name is not [__proto__]. *)
Definition makesProperty (fileName : string) : bool :=
  negb (String.eqb fileName "__proto__").

(** *** A directory for examples *)

Definition routesOf (fileName : string) : string :=
  if String.eqb fileName "dir/users.ts" then "app.get('/users', list);"
  else if String.eqb fileName "dir/admin.ts" then "app.post('/admin', save);"
  else if String.eqb fileName "dir/orders.ts"
  then "app.post('/orders', add);" ++ String Str.newline "app.get('/orders', list);"
  else "".

Definition listing (names : list string) (directory : string) : Result (list string) :=
  Ok names.

Definition slashJoin (directory fileName : string) : string :=
  directory ++ "/" ++ fileName.

Definition plainCompare (a b : string) : Z :=
  match String.compare a b with
  | Lt => -1
  | Eq => 0
  | Gt => 1
  end.

(** The callback of the [reduce] call, with the path of the file worked
    out: [routeFilePaths[fileIndex]] is the path made of [fileName]. *)
Definition readInto (collapseWhiteSpace : string -> string) (readFile : string -> Result string)
    (join : string -> string -> string) (directory : string)
    (accumPromise : Result Endpoints) (fileName : string) : Result Endpoints :=
  match accumPromise with
  | Thrown e => Thrown e
  | Ok accum =>
      match getFileEndpoints collapseWhiteSpace readFile (join directory fileName) with
      | Thrown e => Thrown e
      | Ok fileEndpoints => Ok (setProperty accum fileName fileEndpoints)
      end
  end.

(** The endpoints found in a file, none when it cannot be read. *)
Definition endpointsIn (collapseWhiteSpace : string -> string)
    (readFile : string -> Result string) (filePath : string) : list Endpoint :=
  match getFileEndpoints collapseWhiteSpace readFile filePath with
  | Ok fileEndpoints => fileEndpoints
  | Thrown _ => []
  end.

(** * Properties *)

(** ** Numbers and dates *)

Lemma Qltb_inject_Z (x y : Z) : JS.Qltb (inject_Z x) (inject_Z y) = true <-> x < y.
Proof.
  unfold JS.Qltb, Qle_bool; simpl.
  rewrite Bool.negb_true_iff, Z.leb_gt. lia.
Qed.

Lemma nearest_exact (a : Z) : JS.nearest a 1 = a.
Proof.
  unfold JS.nearest. rewrite Z.mod_1_r, Z.div_1_r. reflexivity.
Qed.

Lemma nearest_lower (a b : Z) : 0 < b -> a / b <= JS.nearest a b.
Proof.
  intros Hb. unfold JS.nearest.
  destruct (2 * (a mod b) ?= b); [destruct (Z.even (a / b))| |]; lia.
Qed.

Lemma exponentOf_integer (n : positive) : JS.exponentOf n 1 = Z.log2 (Z.pos n).
Proof.
  unfold JS.exponentOf. change (Z.log2 1) with 0. rewrite Z.sub_0_r.
  pose proof (Z.log2_nonneg (Z.pos n)) as Hk.
  pose proof (Z.log2_spec (Z.pos n) (Pos2Z.is_pos n)) as [Hlow _].
  rewrite (Z.max_l 0 (- Z.log2 (Z.pos n))), (Z.max_r 0 (Z.log2 (Z.pos n))) by lia.
  destruct (Z.ltb_spec (Z.pos n * 2 ^ 0) (1 * 2 ^ Z.log2 (Z.pos n))); [lia | reflexivity].
Qed.

(** The significand of an integer is not zero. *)
Lemma significand_integer (n : positive) :
  let e := Z.max (JS.exponentOf n 1 - 52) (-1074) in
  0 < JS.nearest (Z.pos n * 2 ^ Z.max 0 (- e)) (1 * 2 ^ Z.max 0 e).
Proof.
  rewrite exponentOf_integer. cbv zeta.
  pose proof (Z.log2_nonneg (Z.pos n)) as Hk.
  pose proof (Z.log2_spec (Z.pos n) (Pos2Z.is_pos n)) as [Hlow _].
  set (k := Z.log2 (Z.pos n)) in *.
  rewrite (Z.max_l (k - 52) (-1074)) by lia.
  destruct (Z.le_gt_cases (k - 52) 0) as [He | He].
  - rewrite (Z.max_r 0 (- (k - 52))), (Z.max_l 0 (k - 52)) by lia.
    change (1 * 2 ^ 0) with 1. rewrite nearest_exact.
    apply Z.mul_pos_pos; [lia | apply Z.pow_pos_nonneg; lia].
  - rewrite (Z.max_l 0 (- (k - 52))), (Z.max_r 0 (k - 52)) by lia.
    rewrite Z.mul_1_l, Z.pow_0_r, Z.mul_1_r.
    assert (Hp : 0 < 2 ^ (k - 52)) by (apply Z.pow_pos_nonneg; lia).
    eapply Z.lt_le_trans; [|apply nearest_lower; exact Hp].
    apply Z.div_str_pos. split; [exact Hp|].
    eapply Z.le_trans; [|exact Hlow]. apply Z.pow_le_mono_r; lia.
Qed.

Lemma Qltb_Qred (q : Q) : JS.Qltb 0 (Qred q) = JS.Qltb 0 q.
Proof.
  unfold JS.Qltb. f_equal.
  destruct (Qle_bool (Qred q) 0) eqn:H1, (Qle_bool q 0) eqn:H2; try reflexivity.
  - apply Qle_bool_iff in H1. rewrite Qred_correct in H1. apply Qle_bool_iff in H1. congruence.
  - apply Qle_bool_iff in H2. rewrite <- (Qred_correct q) in H2. apply Qle_bool_iff in H2.
    congruence.
Qed.

Lemma nearest_nonneg (a b : Z) : 0 <= a -> 0 < b -> 0 <= JS.nearest a b.
Proof.
  intros Ha Hb. pose proof (nearest_lower a b Hb). pose proof (Z.div_pos a b Ha Hb). lia.
Qed.

(** The sign of a rounded integer is the sign of the integer. *)
Lemma round64_integer_positive (z : Z) :
  JS.isPositive (JS.round64 (z # 1)%Q) = (0 <? z).
Proof.
  unfold JS.round64. cbn [Qnum Qden]. destruct z as [|n|n]; [reflexivity | |].
  - unfold JS.magnitude. pose proof (significand_integer n) as Hm. cbv zeta in Hm.
    set (e := Z.max (JS.exponentOf n 1 - 52) (-1074)) in *.
    set (m := JS.nearest _ _) in *.
    destruct (1024 <=? Z.log2 m + e); [reflexivity|]. cbn [JS.isPositive].
    rewrite Qltb_Qred. unfold JS.Qltb, Qle_bool. cbn [Qnum Qden].
    assert (0 < m * 2 ^ Z.max 0 e) by (apply Z.mul_pos_pos; [lia | apply Z.pow_pos_nonneg; lia]).
    destruct (Z.leb_spec (m * 2 ^ Z.max 0 e * 1) (0 * Z.pos (Z.to_pos (2 ^ Z.max 0 (- e)))));
      [lia | reflexivity].
  - unfold JS.magnitude.
    set (e := Z.max (JS.exponentOf n 1 - 52) (-1074)).
    set (m := JS.nearest _ _).
    assert (Hm : 0 <= m).
    { apply nearest_nonneg; [|apply Z.mul_pos_pos; [lia | apply Z.pow_pos_nonneg; lia]].
      apply Z.mul_nonneg_nonneg; [lia | apply Z.pow_nonneg; lia]. }
    destruct (1024 <=? Z.log2 m + e); [reflexivity|]. cbn [JS.isPositive].
    unfold JS.Qltb. change (0 <? Z.neg n) with false. apply Bool.negb_false_iff.
    apply Qle_bool_iff. rewrite Qred_correct. unfold Qle. cbn [Qnum Qden Qopp].
    assert (0 <= m * 2 ^ Z.max 0 e) by (apply Z.mul_nonneg_nonneg; [lia | apply Z.pow_nonneg; lia]).
    lia.
Qed.

Lemma Qred_integer (z : Z) : Qred (z # 1)%Q = (z # 1)%Q.
Proof.
  unfold Qred. pose proof (Z.ggcd_gcd z 1) as Hg.
  pose proof (Z.ggcd_correct_divisors z 1) as Hd.
  destruct (Z.ggcd z 1) as [g [aa bb]]. cbn [fst] in Hg. rewrite Z.gcd_1_r in Hg. subst g.
  destruct Hd as [Ha Hb]. assert (bb = 1) as -> by lia. assert (aa = z) as -> by lia.
  reflexivity.
Qed.

(** An integer below [2^53] is a binary64 value. *)
Lemma round64_integer (z : Z) :
  - 2 ^ 53 < z < 2 ^ 53 -> JS.round64 (z # 1)%Q = JS.ofZ z.
Proof.
  assert (Hpos : forall n : positive, Z.pos n < 2 ^ 53 ->
            JS.magnitude n 1 = Some (Z.pos n # 1)%Q).
  { intros n Hn. unfold JS.magnitude. rewrite exponentOf_integer.
    pose proof (Z.log2_nonneg (Z.pos n)) as Hk.
    assert (Hk' : Z.log2 (Z.pos n) < 53) by (apply Z.log2_lt_pow2; lia).
    set (k := Z.log2 (Z.pos n)) in *.
    rewrite (Z.max_l (k - 52) (-1074)) by lia.
    rewrite (Z.max_r 0 (- (k - 52))), (Z.max_l 0 (k - 52)) by lia.
    change (1 * 2 ^ 0) with 1. rewrite nearest_exact.
    rewrite Z.log2_mul_pow2 by lia. fold k.
    destruct (1024 <=? _) eqn:Ho; [apply Z.leb_le in Ho; lia|].
    f_equal. rewrite Z.pow_0_r, Z.mul_1_r.
    assert (Hp : 0 < 2 ^ (- (k - 52))) by (apply Z.pow_pos_nonneg; lia).
    transitivity (Qred (Z.pos n # 1)%Q).
    - apply Qred_complete. unfold Qeq. cbn [Qnum Qden].
      rewrite Z2Pos.id by exact Hp. lia.
    - apply Qred_integer. }
  intros Hz. unfold JS.round64, JS.ofZ, inject_Z. cbn [Qnum Qden].
  destruct z as [|n|n]; [reflexivity | |].
  - rewrite Hpos by lia. reflexivity.
  - rewrite Hpos by lia. reflexivity.
Qed.

(** Known binary64 values: a tenth; the tie above [2^53], which goes to the
    even neighbour; the largest finite value, and the tie above it, which
    overflows; the smallest positive value, the tie below it, which goes to
    zero, and its threefold half, which goes up. *)
Example round64_values :
  JS.round64 (1 # 10)%Q = JS.Fin (3602879701896397 # 36028797018963968)%Q /\
  JS.round64 (inject_Z (2 ^ 53 + 1)) = JS.ofZ (2 ^ 53) /\
  JS.round64 (inject_Z (2 ^ 53 + 3)) = JS.ofZ (2 ^ 53 + 4) /\
  JS.round64 (inject_Z (2 ^ 1024 - 2 ^ 971)) = JS.ofZ (2 ^ 1024 - 2 ^ 971) /\
  JS.round64 (inject_Z (2 ^ 1024 - 2 ^ 970 - 1)) = JS.ofZ (2 ^ 1024 - 2 ^ 971) /\
  JS.round64 (inject_Z (2 ^ 1024 - 2 ^ 970)) = JS.Inf false /\
  JS.round64 (- inject_Z (2 ^ 1024))%Q = JS.Inf true /\
  JS.round64 (1 # Z.to_pos (2 ^ 1074))%Q = JS.Fin (1 # Z.to_pos (2 ^ 1074))%Q /\
  JS.round64 (1 # Z.to_pos (2 ^ 1075))%Q = JS.Fin 0 /\
  JS.round64 (3 # Z.to_pos (2 ^ 1076))%Q = JS.Fin (1 # Z.to_pos (2 ^ 1074))%Q /\
  JS.round64 (-1 # 3)%Q = JS.Fin (-6004799503160661 # 18014398509481984)%Q.
Proof. vm_compute. repeat split; reflexivity. Qed.

Lemma gt_dates (d e : JS.Date) :
  JS.gt (JS.NumberOfDate d) (JS.NumberOfDate e) = true <->
  exists t x, d = JS.DateAt t /\ e = JS.DateAt x /\ x < t.
Proof.
  destruct d as [|t], e as [|x]; simpl.
  1-3: split; [discriminate | intros (? & ? & ? & ? & ?); discriminate].
  rewrite Qltb_inject_Z. split.
  - intros H. exists t, x. auto.
  - intros (t' & x' & [= ->] & [= ->] & H). exact H.
Qed.

Lemma olderThan_spec (modifiedDate : JS.Date) (b : BranchNameWithDate) :
  olderThan modifiedDate b = true <->
  exists t x, modifiedDate = JS.DateAt t /\ lastCommitDate b = JS.DateAt x /\ x < t.
Proof. apply gt_dates. Qed.

Lemma byCommitDate_positive (a b : BranchNameWithDate) :
  JS.isPositive (byCommitDate a b) = true <->
  exists x y, lastCommitDate a = JS.DateAt x /\ lastCommitDate b = JS.DateAt y /\ y < x.
Proof.
  unfold byCommitDate.
  destruct (lastCommitDate a) as [|x], (lastCommitDate b) as [|y];
    cbn [JS.NumberOfDate JS.sub JS.ofZ JS.isPositive].
  1-3: split; [discriminate | intros (? & ? & ? & ? & ?); discriminate].
  change (inject_Z x - inject_Z y)%Q with ((x * 1 + - y * 1) # 1)%Q.
  rewrite round64_integer_positive, Z.ltb_lt. split.
  - intros H. exists x, y. repeat split; lia.
  - intros (x' & y' & [= ->] & [= ->] & H). lia.
Qed.

Lemma Date_eqb_eq (a b : JS.Date) : JS.Date_eqb a b = true <-> a = b.
Proof.
  destruct a, b; simpl; try (split; congruence).
  rewrite Z.eqb_eq. split; congruence.
Qed.

(** ** The stable sort *)

Section SortFacts.
Context {A : Type} (comparefn : A -> A -> JS.Num).

Lemma insert_Permutation (x : A) (l : list A) :
  Permutation (JS.insert comparefn x l) (x :: l).
Proof.
  induction l as [|y l IH]; simpl; [reflexivity|].
  destruct (JS.isPositive (comparefn x y)); [|reflexivity].
  rewrite IH. apply perm_swap.
Qed.

Lemma sort_Permutation (l : list A) : Permutation (JS.sort comparefn l) l.
Proof.
  induction l as [|x l IH]; simpl; [reflexivity|].
  rewrite insert_Permutation. now constructor.
Qed.

Lemma sort_In (l : list A) (x : A) : In x (JS.sort comparefn l) <-> In x l.
Proof.
  split; apply Permutation_in;
    [apply sort_Permutation | symmetry; apply sort_Permutation].
Qed.

(** Elements that the comparator does not order keep their arrival order. *)
Lemma insert_filter (P : A -> bool) (x : A) (l : list A) :
  (forall a b, P a = true -> P b = true -> JS.isPositive (comparefn a b) = false) ->
  List.filter P (JS.insert comparefn x l) = List.filter P (x :: l).
Proof.
  intros HP. induction l as [|y l IH]; [reflexivity|].
  simpl. destruct (JS.isPositive (comparefn x y)) eqn:Hc; [|reflexivity].
  simpl. rewrite IH. simpl.
  destruct (P x) eqn:Hx, (P y) eqn:Hy; try reflexivity.
  rewrite (HP x y Hx Hy) in Hc. discriminate.
Qed.

Lemma sort_filter (P : A -> bool) (l : list A) :
  (forall a b, P a = true -> P b = true -> JS.isPositive (comparefn a b) = false) ->
  List.filter P (JS.sort comparefn l) = List.filter P l.
Proof.
  intros HP. induction l as [|x l IH]; [reflexivity|].
  simpl JS.sort. rewrite insert_filter by exact HP.
  simpl. now rewrite IH.
Qed.

(** A list already in order is left as it is. *)
Lemma sort_sorted (l : list A) :
  StronglySorted (fun a b => JS.isPositive (comparefn a b) = false) l ->
  JS.sort comparefn l = l.
Proof.
  induction 1 as [|x l Hs IH Hx]; [reflexivity|].
  simpl. rewrite IH. destruct Hx as [|y l Hy _]; [reflexivity|].
  simpl. now rewrite Hy.
Qed.
End SortFacts.

(** ** The classifier *)

Lemma classifier_In (bs : list BranchNameWithDate) (d : JS.Date) (b : BranchNameWithDate) :
  In b (filterToBranchesModifiedSinceDate bs d) <-> In b bs /\ olderThan d b = true.
Proof.
  unfold filterToBranchesModifiedSinceDate.
  rewrite sort_In. apply filter_In.
Qed.

Lemma insert_commitNotAfter (x : BranchNameWithDate) (l : list BranchNameWithDate) :
  lastCommitDate x <> JS.InvalidDate ->
  Forall (fun b => lastCommitDate b <> JS.InvalidDate) l ->
  StronglySorted commitNotAfter l ->
  StronglySorted commitNotAfter (JS.insert byCommitDate x l).
Proof.
  intros Hx Hl Hs. induction Hs as [|y l Hs IH Hy]; simpl.
  - repeat constructor.
  - inversion Hl as [|? ? Hyv Hlv]; subst.
    destruct (JS.isPositive (byCommitDate x y)) eqn:Hc.
    + constructor; [now apply IH|].
      apply List.Forall_forall. intros z Hz.
      apply (Permutation_in _ (insert_Permutation byCommitDate x l)) in Hz.
      destruct Hz as [<- | Hz].
      * apply byCommitDate_positive in Hc as (a & b & Ha & Hb & Hlt).
        unfold commitNotAfter. rewrite Ha, Hb. lia.
      * rewrite List.Forall_forall in Hy. now apply Hy.
    + assert (Hxy : commitNotAfter x y).
      { unfold commitNotAfter.
        destruct (lastCommitDate x) as [|a] eqn:Ha; [congruence|].
        destruct (lastCommitDate y) as [|b] eqn:Hb; [congruence|].
        destruct (Z.le_gt_cases a b) as [Hle | Hgt]; [exact Hle|].
        assert (JS.isPositive (byCommitDate x y) = true) as Hp
          by (apply byCommitDate_positive; exists a, b; auto).
        congruence. }
      constructor; [now constructor|].
      constructor; [exact Hxy|].
      rewrite List.Forall_forall in Hy. apply List.Forall_forall. intros z Hz.
      specialize (Hy z Hz). unfold commitNotAfter in *.
      destruct (lastCommitDate x), (lastCommitDate y), (lastCommitDate z);
        try contradiction; lia.
Qed.

Lemma sort_commitNotAfter (l : list BranchNameWithDate) :
  Forall (fun b => lastCommitDate b <> JS.InvalidDate) l ->
  StronglySorted commitNotAfter (JS.sort byCommitDate l).
Proof.
  induction 1 as [|x l Hx Hl IH]; simpl; [constructor|].
  apply insert_commitNotAfter; [exact Hx | | exact IH].
  apply List.Forall_forall. intros z Hz. apply sort_In in Hz.
  rewrite List.Forall_forall in Hl. now apply Hl.
Qed.

Lemma older_dated (d : JS.Date) (bs : list BranchNameWithDate) :
  Forall (fun b => lastCommitDate b <> JS.InvalidDate) (List.filter (olderThan d) bs).
Proof.
  apply List.Forall_forall. intros b Hb. apply filter_In in Hb as [_ Hb].
  apply olderThan_spec in Hb as (t & x & _ & Hx & _). congruence.
Qed.

Lemma classifier_sorted (bs : list BranchNameWithDate) (d : JS.Date) :
  StronglySorted commitNotAfter (filterToBranchesModifiedSinceDate bs d).
Proof. apply sort_commitNotAfter, older_dated. Qed.

Lemma commitNotAfter_not_positive (a b : BranchNameWithDate) :
  commitNotAfter a b -> JS.isPositive (byCommitDate a b) = false.
Proof.
  intros H. destruct (JS.isPositive (byCommitDate a b)) eqn:Hc; [|reflexivity].
  apply byCommitDate_positive in Hc as (x & y & Hx & Hy & Hlt).
  unfold commitNotAfter in H. rewrite Hx, Hy in H. lia.
Qed.

Lemma committedAt_not_positive (d : JS.Date) (a b : BranchNameWithDate) :
  committedAt d a = true -> committedAt d b = true ->
  JS.isPositive (byCommitDate a b) = false.
Proof.
  unfold committedAt. rewrite !Date_eqb_eq. intros Ha Hb.
  destruct (JS.isPositive (byCommitDate a b)) eqn:Hc; [|reflexivity].
  apply byCommitDate_positive in Hc as (x & y & Hx & Hy & Hlt).
  rewrite Ha in Hx. rewrite Hb in Hy. rewrite Hx in Hy. injection Hy as ->. lia.
Qed.

Lemma filter_filter_andb {A : Type} (P Q : A -> bool) (l : list A) :
  List.filter P (List.filter Q l) = List.filter (fun a => P a && Q a) l.
Proof.
  induction l as [|x l IH]; [reflexivity|].
  simpl. destruct (Q x); simpl; destruct (P x); simpl; now rewrite IH.
Qed.

Lemma StronglySorted_weaken {A : Type} (R S : A -> A -> Prop) (l : list A) :
  (forall a b, R a b -> S a b) -> StronglySorted R l -> StronglySorted S l.
Proof.
  intros HRS. induction 1 as [|x l Hs IH Hx]; constructor; [exact IH|].
  eapply List.Forall_impl; [|exact Hx]. intros b. apply HRS.
Qed.

Lemma filter_all {A : Type} (P : A -> bool) (l : list A) :
  (forall a, In a l -> P a = true) -> List.filter P l = l.
Proof.
  induction l as [|x l IH]; intros H; [reflexivity|].
  simpl. rewrite (H x (or_introl eq_refl)). f_equal. apply IH.
  intros a Ha. apply H. now right.
Qed.

(** The order of the result does not depend on how the engine sorts: a list
    in ascending order of commit date that keeps, for every date, the records
    of that date in a given order is determined. *)
Lemma committedAt_own (b : BranchNameWithDate) : committedAt (lastCommitDate b) b = true.
Proof. unfold committedAt. now apply Date_eqb_eq. Qed.

Lemma ascending_stable_unique (l1 l2 : list BranchNameWithDate) :
  StronglySorted commitNotAfter l1 ->
  StronglySorted commitNotAfter l2 ->
  (forall d, List.filter (committedAt d) l1 = List.filter (committedAt d) l2) ->
  l1 = l2.
Proof.
  intros H1. revert l2. induction H1 as [|x l1 Hs1 IH Hx]; intros l2 H2 Hsame.
  - destruct l2 as [|y l2]; [reflexivity|].
    specialize (Hsame (lastCommitDate y)). simpl in Hsame.
    rewrite committedAt_own in Hsame. discriminate.
  - destruct l2 as [|y l2].
    { specialize (Hsame (lastCommitDate x)). simpl in Hsame.
      rewrite committedAt_own in Hsame. discriminate. }
    apply StronglySorted_inv in H2 as [Hs2 Hy].
    assert (Hxy : x = y).
    { pose proof (Hsame (lastCommitDate x)) as Hd. simpl in Hd.
      rewrite committedAt_own in Hd.
      destruct (committedAt (lastCommitDate x) y) eqn:Hc; [now injection Hd|].
      exfalso.
      assert (Hin2 : In x l2).
      { assert (Hin : In x (List.filter (committedAt (lastCommitDate x)) l2))
          by (rewrite <- Hd; now left).
        now apply filter_In in Hin. }
      assert (Hin1 : In y l1).
      { pose proof (Hsame (lastCommitDate y)) as He. simpl in He.
        rewrite committedAt_own in He.
        destruct (committedAt (lastCommitDate y) x) eqn:Hc'.
        - unfold committedAt in Hc, Hc'. apply Date_eqb_eq in Hc'.
          rewrite Hc' in Hc. rewrite (proj2 (Date_eqb_eq _ _) eq_refl) in Hc. discriminate.
        - assert (Hin : In y (List.filter (committedAt (lastCommitDate y)) l1))
            by (rewrite He; now left).
          now apply filter_In in Hin. }
      rewrite List.Forall_forall in Hx, Hy.
      specialize (Hx y Hin1). specialize (Hy x Hin2).
      unfold commitNotAfter in Hx, Hy. unfold committedAt in Hc.
      destruct (lastCommitDate x) as [|a], (lastCommitDate y) as [|b]; try contradiction.
      simpl in Hc. apply Z.eqb_neq in Hc. lia. }
    subst y. f_equal. apply IH; [exact Hs2|].
    intros d. specialize (Hsame d). simpl in Hsame.
    destruct (committedAt d x); [now injection Hsame | exact Hsame].
Qed.

Lemma classifier_determined (bs out : list BranchNameWithDate) (threshold : JS.Date) :
  StronglySorted commitNotAfter out ->
  (forall d, List.filter (committedAt d) out =
             List.filter (fun b => committedAt d b && olderThan threshold b) bs) ->
  out = filterToBranchesModifiedSinceDate bs threshold.
Proof.
  intros Hs Hsame. apply ascending_stable_unique; [exact Hs | apply classifier_sorted|].
  intros d. rewrite Hsame. unfold filterToBranchesModifiedSinceDate.
  rewrite sort_filter by apply committedAt_not_positive.
  now rewrite filter_filter_andb.
Qed.

(** C1: the classifier returns exactly the records whose last-commit date is
    strictly older than the threshold: its result is a rearrangement of the
    records that pass the test [threshold > commit date]; a record is in the
    result if and only if it is in the input and passes the test; the test
    holds if and only if both dates are valid and the commit time is
    numerically below the threshold time; a record committed exactly at the
    threshold is not in the result. *)
Theorem classifier_strictly_older :
  forall (bs : list BranchNameWithDate) (threshold : JS.Date),
    Permutation (filterToBranchesModifiedSinceDate bs threshold)
                (List.filter (olderThan threshold) bs) /\
    (forall b, In b (filterToBranchesModifiedSinceDate bs threshold) <->
               In b bs /\ olderThan threshold b = true) /\
    (forall b, olderThan threshold b = true <->
               exists t x, threshold = JS.DateAt t /\
                           lastCommitDate b = JS.DateAt x /\ x < t) /\
    (forall b, lastCommitDate b = threshold ->
               ~ In b (filterToBranchesModifiedSinceDate bs threshold)).
Proof.
  intros bs threshold. split; [|split; [|split]].
  - apply sort_Permutation.
  - intros b. apply classifier_In.
  - intros b. apply olderThan_spec.
  - intros b Heq Hin. apply classifier_In in Hin as [_ Hin].
    apply olderThan_spec in Hin as (t & x & Ht & Hx & Hlt).
    rewrite Heq, Ht in Hx. injection Hx as ->. lia.
Qed.

(** C7: the classifier's result is in ascending order of last-commit date,
    and the sort is stable: for every date, the records of the result with
    that commit date are the qualifying records of the input with that date,
    in their input order.  For the input [B1 (date T); B2 (date T);
    B3 (date T - 1)] and a threshold newer than T the result is
    [B3; B1; B2]. *)
Theorem classifier_sorted_stable :
  forall (bs : list BranchNameWithDate) (threshold : JS.Date),
    StronglySorted commitNotAfter (filterToBranchesModifiedSinceDate bs threshold) /\
    (forall d, List.filter (committedAt d) (filterToBranchesModifiedSinceDate bs threshold) =
               List.filter (fun b => committedAt d b && olderThan threshold b) bs) /\
    (forall (n1 n2 n3 : string) (T newer : Z),
        T < newer ->
        let B1 := {| name := n1; lastCommitDate := JS.DateAt T |} in
        let B2 := {| name := n2; lastCommitDate := JS.DateAt T |} in
        let B3 := {| name := n3; lastCommitDate := JS.DateAt (T - 1) |} in
        filterToBranchesModifiedSinceDate [B1; B2; B3] (JS.DateAt newer) = [B3; B1; B2]).
Proof.
  intros bs threshold. split; [apply classifier_sorted|]. split.
  - intros d. unfold filterToBranchesModifiedSinceDate.
    rewrite sort_filter by apply committedAt_not_positive.
    apply filter_filter_andb.
  - intros n1 n2 n3 T newer HT B1 B2 B3.
    unfold filterToBranchesModifiedSinceDate.
    assert (H1 : olderThan (JS.DateAt newer) B1 = true)
      by (apply olderThan_spec; exists newer, T; auto).
    assert (H2 : olderThan (JS.DateAt newer) B2 = true)
      by (apply olderThan_spec; exists newer, T; auto).
    assert (H3 : olderThan (JS.DateAt newer) B3 = true)
      by (apply olderThan_spec; exists newer, (T - 1); repeat split; lia).
    cbn [List.filter]. rewrite H1, H2, H3.
    assert (P23 : JS.isPositive (byCommitDate B2 B3) = true)
      by (apply byCommitDate_positive; exists T, (T - 1); repeat split; lia).
    assert (P13 : JS.isPositive (byCommitDate B1 B3) = true)
      by (apply byCommitDate_positive; exists T, (T - 1); repeat split; lia).
    assert (P12 : JS.isPositive (byCommitDate B1 B2) = false)
      by (apply commitNotAfter_not_positive; unfold commitNotAfter; simpl; lia).
    cbn [JS.sort fold_right JS.insert]. rewrite P23.
    cbn [JS.insert]. rewrite P13. cbn [JS.insert]. now rewrite P12.
Qed.

Lemma classifier_sorted_stable_witness :
  let B1 := {| name := "b1"; lastCommitDate := JS.DateAt 100 |} in
  let B2 := {| name := "b2"; lastCommitDate := JS.DateAt 100 |} in
  let B3 := {| name := "b3"; lastCommitDate := JS.DateAt 99 |} in
  100 < 101 /\
  filterToBranchesModifiedSinceDate [B1; B2; B3] (JS.DateAt 101) = [B3; B1; B2].
Proof.
  split; [lia|].
  apply (proj2 (proj2 (classifier_sorted_stable
    [ {| name := "b1"; lastCommitDate := JS.DateAt 100 |};
      {| name := "b2"; lastCommitDate := JS.DateAt 100 |};
      {| name := "b3"; lastCommitDate := JS.DateAt 99 |} ] (JS.DateAt 101)))
    "b1" "b2" "b3" 100 101).
  lia.
Defined.

(** C10: the classifier is idempotent: classifying the classifier's result
    again with the same threshold changes nothing. *)
Theorem classifier_idempotent :
  forall (bs : list BranchNameWithDate) (threshold : JS.Date),
    filterToBranchesModifiedSinceDate
      (filterToBranchesModifiedSinceDate bs threshold) threshold =
    filterToBranchesModifiedSinceDate bs threshold.
Proof.
  intros bs threshold.
  unfold filterToBranchesModifiedSinceDate at 1.
  rewrite filter_all by (intros b Hb; now apply classifier_In in Hb).
  apply sort_sorted.
  eapply StronglySorted_weaken; [|apply classifier_sorted].
  intros a b. apply commitNotAfter_not_positive.
Qed.

(** ** The branch lister *)

Lemma branchNameOfLine_thrown (regExp : RegExp) (line : string) (e : Error) :
  branchNameOfLine regExp line = Thrown e -> e = NoBranchName line.
Proof.
  unfold branchNameOfLine.
  destruct (safeMatch1 line regExp) as [b|]; [destruct (Str.isTruthy b)|]; congruence.
Qed.

Lemma branchNameOfLine_mismatch (regExp : RegExp) (line : string) :
  safeMatch1 line regExp = None -> branchNameOfLine regExp line = Thrown (NoBranchName line).
Proof. unfold branchNameOfLine. now intros ->. Qed.

(** [mapLines] throws as soon as one line does, with the error of the first. *)
Lemma mapLines_thrown (callback : string -> Result string) (lines : list string) :
  (exists line e, In line lines /\ callback line = Thrown e) ->
  exists before line after e,
    lines = (before ++ line :: after)%list /\
    (forall l, In l before -> exists b, callback l = Ok b) /\
    callback line = Thrown e /\
    mapLines callback lines = Thrown e.
Proof.
  induction lines as [|l lines IH]; intros (line & e & Hin & He); [destruct Hin|].
  destruct (callback l) as [b|e'] eqn:Hl.
  - destruct Hin as [-> | Hin]; [congruence|].
    destruct IH as (before & line' & after & e'' & -> & Hb & Hc & Hm); [eauto|].
    exists (l :: before), line', after, e''. repeat split; auto.
    + intros x [<- | Hx]; eauto.
    + simpl. now rewrite Hl, Hm.
  - exists [], l, lines, e'. repeat split; auto.
    + intros x [].
    + simpl. now rewrite Hl.
Qed.

Lemma mapLines_ok (callback : string -> Result string) (lines : list string) :
  (forall line, In line lines -> exists b, callback line = Ok b) ->
  exists names, mapLines callback lines = Ok names /\
                Forall2 (fun line b => callback line = Ok b) lines names.
Proof.
  induction lines as [|l lines IH]; intros H.
  - exists []. split; [reflexivity | constructor].
  - destruct (H l (or_introl eq_refl)) as [b Hb].
    destruct IH as (names & Hm & Hf); [intros; apply H; now right|].
    exists (b :: names). simpl. rewrite Hb, Hm. split; [reflexivity | now constructor].
Qed.

Section ListerFacts.
Context {World : Type}.
Variable exec : string -> string -> World -> ShellOutput * World.

Lemma await_getAllRemoteBranches (contextDir : string) (st : State) :
  await exec (getAllRemoteBranches contextDir) st =
  let (output, w) := exec contextDir remoteCommand (world st) in
  let st' := {| world := w;
                trace := trace st ++ [Spawned contextDir remoteCommand;
                                       Settled remoteCommand output] |} in
  if negb (exitCode output =? 0) then (Rejected (ShellRejection remoteCommand output), st')
  else match mapLines (branchNameOfLine remoteHeadLine)
               (List.filter Str.isTruthy (Str.split Str.newline (stdout output))) with
       | Thrown e => (Rejected e, st')
       | Ok branchNames => (Resolved (List.filter Str.isTruthy branchNames), st')
       end.
Proof.
  unfold getAllRemoteBranches. simpl.
  destruct (exec contextDir remoteCommand (world st)) as [output w].
  destruct (negb (exitCode output =? 0)); simpl; [reflexivity|].
  destruct (mapLines _ _); reflexivity.
Qed.

Lemma await_getAllMergedRemoteBranches (contextDir : string) (st : State) :
  await exec (getAllMergedRemoteBranches contextDir) st =
  let (output, w) := exec contextDir mergedCommand (world st) in
  let st' := {| world := w;
                trace := trace st ++ [Spawned contextDir mergedCommand;
                                       Settled mergedCommand output] |} in
  if negb (exitCode output =? 0) then (Rejected (ShellRejection mergedCommand output), st')
  else match mapLines (branchNameOfLine mergedBranchLine)
               (List.filter Str.isTruthy (Str.split Str.newline (stdout output))) with
       | Thrown e => (Rejected e, st')
       | Ok branchNames => (Resolved (List.filter Str.isTruthy branchNames), st')
       end.
Proof.
  unfold getAllMergedRemoteBranches. simpl.
  destruct (exec contextDir mergedCommand (world st)) as [output w].
  destruct (negb (exitCode output =? 0)); simpl; [reflexivity|].
  destruct (mapLines _ _); reflexivity.
Qed.
End ListerFacts.

Lemma isTruthy_iff (s : string) : Str.isTruthy s = true <-> s <> "".
Proof. destruct s; simpl; split; congruence. Qed.

(** ** The route scanner *)

Section ScannerFacts.
Variable collapseWhiteSpace : string -> string.
Variable fileLines : list string.

Lemma forEachLine_app (rest : list string) (index : nat) (endpoints : list Endpoint) :
  forEachLine collapseWhiteSpace fileLines index rest endpoints =
  (endpoints ++ forEachLine collapseWhiteSpace fileLines index rest [])%list.
Proof.
  revert index endpoints. induction rest as [|rawLine rest IH]; intros index endpoints.
  - simpl. now rewrite app_nil_r.
  - simpl. destruct (isAppLine rawLine).
    + rewrite (IH (S index) (endpoints ++ _)%list), (IH (S index) [_]).
      now rewrite <- app_assoc.
    + apply IH.
Qed.

Lemma forEachLine_length (rest : list string) (index : nat) :
  length (forEachLine collapseWhiteSpace fileLines index rest []) =
  length (List.filter isAppLine rest).
Proof.
  revert index. induction rest as [|rawLine rest IH]; intros index; [reflexivity|].
  simpl. destruct (isAppLine rawLine).
  - rewrite forEachLine_app, length_app, IH. reflexivity.
  - apply IH.
Qed.

Lemma forEachLine_lookup (rest : list string) (index k : nat) (rawLine : string) :
  rest !! k = Some rawLine -> isAppLine rawLine = true ->
  forEachLine collapseWhiteSpace fileLines index rest []
    !! length (List.filter isAppLine (firstn k rest)) =
  Some (newEndpoint collapseWhiteSpace fileLines (index + k) rawLine).
Proof.
  revert index k. induction rest as [|l rest IH]; intros index k Hk Happ; [discriminate|].
  destruct k as [|k]; simpl in Hk.
  - injection Hk as ->. simpl. rewrite Happ, forEachLine_app. simpl.
    now rewrite Nat.add_0_r.
  - simpl. destruct (isAppLine l).
    + rewrite forEachLine_app. simpl.
      rewrite (IH (S index) k Hk Happ). f_equal. f_equal. lia.
    + rewrite (IH (S index) k Hk Happ). f_equal. f_equal. lia.
Qed.
End ScannerFacts.

(** C9: in the route scanner, every line whose trimmed form starts with
    [app.] gives one endpoint record, in line order, whether or not anything
    is found on it: the result has as many records as there are such lines;
    the record of such a line has the method found on the trimmed line, or
    the empty string when the method pattern does not match, and the quoted
    path found on the line joined with the next one, or the empty string when
    there is none. *)
Theorem route_record_unconditional :
  forall (collapseWhiteSpace : string -> string) (readFile : string -> Result string)
         (filePath content : string),
    filePath <> "" ->
    readFile filePath = Ok content ->
    let fileLines := Str.split Str.newline content in
    exists endpoints,
      getFileEndpoints collapseWhiteSpace readFile filePath = Ok endpoints /\
      length endpoints = length (List.filter isAppLine fileLines) /\
      forall (index : nat) (rawLine : string),
        fileLines !! index = Some rawLine ->
        isAppLine rawLine = true ->
        exists record,
          endpoints !! appLinesBefore fileLines index = Some record /\
          let trimmedLine := Str.trim rawLine in
          let nextLine := default "" (fileLines !! (index + 1)%nat) in
          let combinedLines := collapseWhiteSpace (trimmedLine ++ nextLine) in
          type record = default "" (safeMatch1 trimmedLine appMethod) /\
          path record = default "" (safeMatch1 combinedLines quotedPath) /\
          (safeMatch1 combinedLines quotedPath = None -> path record = "") /\
          (safeMatch1 trimmedLine appMethod = None -> type record = "").
Proof.
  intros collapseWhiteSpace readFile filePath content Hpath Hread fileLines.
  exists (forEachLine collapseWhiteSpace fileLines 0 fileLines []).
  split; [|split].
  - unfold getFileEndpoints. rewrite Hread.
    destruct filePath; [congruence | reflexivity].
  - apply forEachLine_length.
  - intros index rawLine Hline Happ.
    exists (newEndpoint collapseWhiteSpace fileLines index rawLine). split.
    + unfold appLinesBefore.
      now rewrite (forEachLine_lookup collapseWhiteSpace fileLines fileLines 0 index rawLine).
    + simpl. repeat split; now intros ->.
Qed.

Lemma route_record_unconditional_witness :
  "routes.ts" <> "" /\
  exists endpoints,
    getFileEndpoints Str.trim (oneFile routeFile) "routes.ts" = Ok endpoints /\
    endpoints !! 1%nat = Some {| type := "use"; path := "" |} /\
    endpoints !! 2%nat = Some {| type := ""; path := "" |}.
Proof.
  split; [discriminate|].
  destruct (route_record_unconditional Str.trim (oneFile routeFile) "routes.ts" routeFile)
    as (endpoints & Hget & _ & Hrec); [discriminate | reflexivity |].
  exists endpoints. split; [exact Hget|]. split.
  - destruct (Hrec 1%nat "  app.use(router) ") as (record & Hl & Ht & Hp & _);
      [reflexivity | reflexivity |].
    destruct record as [t p]. simpl in Ht, Hp. subst t p. exact Hl.
  - destruct (Hrec 2%nat "app.listen") as (record & Hl & Ht & Hp & _);
      [reflexivity | reflexivity |].
    destruct record as [t p]. simpl in Ht, Hp. subst t p. exact Hl.
Defined.

(** ** [Promise.all] *)

Section PromiseAllFacts.
Context {World : Type}.
Variable exec : string -> string -> World -> ShellOutput * World.

Lemma settleAll_stop {A : Type} (order : list nat) (slots : list (Task A)) (st : State) :
  rejection slots <> None \/ fulfilled slots <> None \/ order = [] ->
  settleAll exec order slots st = (outcomeOf slots, st).
Proof.
  unfold outcomeOf. destruct order; simpl;
    destruct (rejection slots), (fulfilled slots); try reflexivity;
    intros [H | [H | H]]; congruence.
Qed.

Lemma stoppedIn_here {A : Type} (slots : list (Task A)) :
  stoppedIn slots slots (replicate (length slots) []) [].
Proof.
  split; [reflexivity|]. split; [apply length_replicate|]. split.
  - intros i task Hi. exists [], task. split; [|split; [exact Hi | constructor]].
    apply lookup_replicate_2. now apply lookup_lt_Some in Hi.
  - intros event. split; [intros []|].
    intros (i & history & Hh & Hin).
    apply lookup_replicate_1 in Hh as [-> _]. destruct Hin.
Qed.

(** Where the tasks of a [Promise.all] stop, and what was seen on the way. *)
Lemma settleAll_final {A : Type} (order : list nat) :
  forall (slots : list (Task A)) (st : State),
  exists (finals : list (Task A)) (histories : list (list Event)) (st' : State)
         (new : list Event),
    settleAll exec order slots st = (outcomeOf finals, st') /\
    trace st' = (trace st ++ new)%list /\
    stoppedIn slots finals histories new.
Proof.
  assert (Hstop : forall order (slots : list (Task A)) (st : State),
    settleAll exec order slots st = (outcomeOf slots, st) ->
    exists finals histories st' new,
      settleAll exec order slots st = (outcomeOf finals, st') /\
      trace st' = (trace st ++ new)%list /\
      stoppedIn slots finals histories new).
  { intros order' slots st Heq.
    exists slots, (replicate (length slots) []), st, [].
    split; [exact Heq|]. split; [now rewrite app_nil_r | apply stoppedIn_here]. }
  induction order as [|i order IH]; intros slots st.
  - apply Hstop, settleAll_stop. auto.
  - destruct (rejection slots) as [e|] eqn:Hrej.
    { apply Hstop, settleAll_stop. left. congruence. }
    destruct (fulfilled slots) as [values|] eqn:Hful.
    { apply Hstop, settleAll_stop. right. left. congruence. }
    simpl. rewrite Hrej, Hful.
    destruct (slots !! i) as [[a | e | dir command hooked k]|] eqn:Hi; try apply IH.
    destruct (exec dir command (world st)) as [output w].
    set (seen := (arrival hooked command output ++ started (k output))%list).
    destruct (IH (<[i := k output]> slots)
                {| world := w; trace := trace st ++ seen |})
      as (finals & histories & st' & new & Heq & Htrace & Hlf & Hlh & Hreach & Hnew).
    rewrite length_insert in Hlf, Hlh.
    assert (Hlt : (i < length slots)%nat) by (now apply lookup_lt_Some in Hi).
    destruct (Hreach i (k output)) as (history & task' & Hhi & Hfi & Hr).
    { now apply list_lookup_insert_eq. }
    exists finals, (<[i := (seen ++ history)%list]> histories), st', (seen ++ new)%list.
    split; [exact Heq|]. split.
    { rewrite Htrace. simpl. rewrite <- app_assoc. reflexivity. }
    split; [exact Hlf|]. split; [now rewrite length_insert|]. split.
    + intros j task Hj. destruct (decide (j = i)) as [->|Hne].
      * rewrite Hi in Hj. injection Hj as <-.
        exists (seen ++ history)%list, task'.
        split; [|split; [exact Hfi|]].
        -- apply list_lookup_insert_eq. lia.
        -- unfold seen. rewrite <- app_assoc. now constructor.
      * destruct (Hreach j task) as (h & t' & Hh & Hf & Hr').
        { rewrite list_lookup_insert_ne by congruence. exact Hj. }
        exists h, t'. split; [|split; assumption].
        rewrite list_lookup_insert_ne by congruence. exact Hh.
    + intros event. split.
      * intros Hin. apply in_app_or in Hin as [Hin | Hin].
        -- exists i, (seen ++ history)%list.
           split; [apply list_lookup_insert_eq; lia|].
           apply in_or_app. now left.
        -- apply Hnew in Hin as (j & h & Hh & Hin).
           destruct (decide (j = i)) as [->|Hne].
           ++ rewrite Hhi in Hh. injection Hh as <-.
              exists i, (seen ++ history)%list.
              split; [apply list_lookup_insert_eq; lia|].
              apply in_or_app. now right.
           ++ exists j, h. split; [|exact Hin].
              rewrite list_lookup_insert_ne by congruence. exact Hh.
      * intros (j & h & Hh & Hin).
        apply in_or_app.
        destruct (decide (j = i)) as [->|Hne].
        -- rewrite list_lookup_insert_eq in Hh by lia. injection Hh as <-.
           apply in_app_or in Hin as [Hin | Hin]; [now left|].
           right. apply Hnew. eauto.
        -- rewrite list_lookup_insert_ne in Hh by congruence.
           right. apply Hnew. eauto.
Qed.
End PromiseAllFacts.

(** ** The tasks of the two [Promise.all] calls *)

Lemma reaches_Return {A : Type} (a : A) (history : list Event) (task' : Task A) :
  reaches (Return a) history task' -> history = [] /\ task' = Return a.
Proof. inversion 1; subst; auto. Qed.

Lemma reaches_Throw {A : Type} (e : Error) (history : list Event) (task' : Task A) :
  reaches (Throw e) history task' -> history = [] /\ task' = Throw e.
Proof. inversion 1; subst; auto. Qed.

Lemma reaches_Await {A : Type} (dir command : string) (hooked : bool)
    (k : ShellOutput -> Task A) (history : list Event) (task' : Task A) :
  reaches (Await dir command hooked k) history task' ->
  (history = [] /\ task' = Await dir command hooked k) \/
  exists output history',
    history = (arrival hooked command output ++ started (k output) ++ history')%list /\
    reaches (k output) history' task'.
Proof. inversion 1; subst; eauto. Qed.

Lemma reaches_deleteBranch (contextDir branchName : string)
    (history : list Event) (task' : Task unit) :
  reaches (deleteBranch contextDir branchName) history task' ->
  (history = [] /\ task' = deleteBranch contextDir branchName) \/
  exists output,
    history = [Echoed (deleteCommand branchName) output;
               Settled (deleteCommand branchName) output] /\
    ((exitCode output = 0 /\ task' = Return tt) \/
     (exitCode output <> 0 /\
      task' = Throw (ShellRejection (deleteCommand branchName) output))).
Proof.
  intros H. apply reaches_Await in H as [H | (output & history' & -> & H)]; [now left|].
  right. exists output. simpl in H |- *.
  destruct (exitCode output =? 0) eqn:Hc; simpl in H |- *.
  - apply reaches_Return in H as [-> ->]. split; [reflexivity|].
    left. split; [now apply Z.eqb_eq | reflexivity].
  - apply reaches_Throw in H as [-> ->]. split; [reflexivity|].
    right. split; [now apply Z.eqb_neq | reflexivity].
Qed.

Lemma reaches_branchDate (contextDir branchName : string)
    (history : list Event) (task' : Task BranchNameWithDate) :
  reaches (branchDate contextDir branchName) history task' ->
  (history = [] /\ task' = branchDate contextDir branchName) \/
  exists fetched,
    (exitCode fetched <> 0 /\
     history = [Settled (fetchCommand branchName) fetched] /\
     exists e, task' = Throw e) \/
    (exitCode fetched = 0 /\
     ((history = [Settled (fetchCommand branchName) fetched;
                  Spawned contextDir (showCommand branchName)] /\
       exists k, task' = Await contextDir (showCommand branchName) false k) \/
      exists shown,
        history = [Settled (fetchCommand branchName) fetched;
                   Spawned contextDir (showCommand branchName);
                   Settled (showCommand branchName) shown] /\
        (((exitCode shown <> 0 \/ unusable shown = true) /\ exists e, task' = Throw e) \/
         (exitCode shown = 0 /\ unusable shown = false /\
          task' = Return {| name := branchName; lastCommitDate := commitDateOf shown |})))).
Proof.
  intros H. apply reaches_Await in H as [H | (fetched & history' & -> & H)]; [now left|].
  right. exists fetched. simpl in H |- *.
  destruct (exitCode fetched =? 0) eqn:Hf;
    simpl in H |- *; rewrite ?Hf in H |- *; simpl in H |- *.
  2: { apply reaches_Throw in H as [-> ->]. left.
       split; [now apply Z.eqb_neq|]. split; [reflexivity | eauto]. }
  right. split; [now apply Z.eqb_eq|].
  apply reaches_Await in H as [[-> ->] | (shown & history'' & -> & H)]; [left; eauto|].
  right. exists shown. simpl in H |- *.
  unfold unusable, commitDateOf.
  destruct (exitCode shown =? 0) eqn:Hs;
    simpl in H |- *; rewrite ?Hs in H |- *; simpl in H |- *.
  2: { apply reaches_Throw in H as [-> ->]. split; [reflexivity|]. left.
       split; [left; now apply Z.eqb_neq | eauto]. }
  destruct (JS.isNaN (Number (Str.trim (stdout shown)))) eqn:Hn; simpl in H |- *.
  { apply reaches_Throw in H as [-> ->]. split; [reflexivity|]. left.
    split; [now right | eauto]. }
  destruct (JS.falsy _) eqn:Hz; simpl in H |- *.
  { apply reaches_Throw in H as [-> ->]. split; [reflexivity|]. left.
    split; [now right | eauto]. }
  apply reaches_Return in H as [-> ->]. split; [reflexivity|]. right.
  split; [now apply Z.eqb_eq|]. split; reflexivity.
Qed.

Lemma fetch_not_show (a b : string) : fetchCommand a <> showCommand b.
Proof. unfold fetchCommand, showCommand. simpl. discriminate. Qed.

Lemma isDeletion_deleteCommand (dir branchName : string) :
  isDeletion (Spawned dir (deleteCommand branchName)) = true.
Proof. simpl. destruct branchName; reflexivity. Qed.

Lemma rejection_lookup {A : Type} (finals : list (Task A)) (i : nat) (e : Error) :
  finals !! i = Some (Throw e) -> exists e', rejection finals = Some e'.
Proof.
  revert i. induction finals as [|t finals IH]; intros i Hi; [discriminate|].
  destruct i as [|i]; simpl in Hi.
  - injection Hi as ->. simpl. eauto.
  - destruct t; simpl; eauto.
Qed.

Lemma fulfilled_Some {A : Type} (finals : list (Task A)) (values : list A) :
  fulfilled finals = Some values -> finals = map Return values.
Proof.
  revert values. induction finals as [|t finals IH]; intros values H; simpl in H.
  - injection H as <-. reflexivity.
  - destruct t as [a| |]; try discriminate.
    destruct (fulfilled finals) as [vs|]; [|discriminate].
    injection H as <-. simpl. f_equal. now apply IH.
Qed.

Lemma outcomeOf_Resolved {A : Type} (finals : list (Task A)) (values : list A) :
  outcomeOf finals = Resolved values -> finals = map Return values.
Proof.
  unfold outcomeOf. destruct (rejection finals); [discriminate|].
  destruct (fulfilled finals) eqn:H; [|discriminate].
  intros [= <-]. now apply fulfilled_Some.
Qed.

Lemma outcomeOf_Throw {A : Type} (finals : list (Task A)) (i : nat) (e : Error) :
  finals !! i = Some (Throw e) -> exists e', outcomeOf finals = Rejected e'.
Proof.
  intros H. apply rejection_lookup in H as [e' H]. unfold outcomeOf. rewrite H. eauto.
Qed.

Lemma outcomeOf_not_Exited {A : Type} (finals : list (Task A)) (code : Z) :
  outcomeOf finals <> Exited code.
Proof.
  unfold outcomeOf. destruct (rejection finals); [discriminate|].
  destruct (fulfilled finals); discriminate.
Qed.

Lemma stoppedIn_event {A : Type} (slots finals : list (Task A))
    (histories : list (list Event)) (new : list Event) (event : Event) :
  stoppedIn slots finals histories new -> In event new ->
  exists i task history task',
    slots !! i = Some task /\ finals !! i = Some task' /\
    reaches task history task' /\ In event history.
Proof.
  intros (Hlf & Hlh & Hreach & Hnew) Hin.
  apply Hnew in Hin as (i & history & Hh & Hin).
  destruct (lookup_lt_is_Some_2 slots i) as [task Ht].
  { rewrite <- Hlh. now apply lookup_lt_Some in Hh. }
  destruct (Hreach i task Ht) as (history' & task' & Hh' & Hf & Hr).
  rewrite Hh in Hh'. injection Hh' as <-.
  exists i, task, history, task'. auto.
Qed.

Lemma stoppedIn_slot {A : Type} (slots finals : list (Task A))
    (histories : list (list Event)) (new : list Event) (i : nat) (task : Task A) :
  stoppedIn slots finals histories new -> slots !! i = Some task ->
  exists history task',
    finals !! i = Some task' /\ reaches task history task' /\
    forall event, In event history -> In event new.
Proof.
  intros (Hlf & Hlh & Hreach & Hnew) Ht.
  destruct (Hreach i task Ht) as (history & task' & Hh & Hf & Hr).
  exists history, task'. split; [exact Hf|]. split; [exact Hr|].
  intros event Hin. apply Hnew. eauto.
Qed.

(** The events of one date lookup ask nothing and delete nothing, and a
    failure among them leaves the lookup thrown. *)
Lemma branchDate_event (contextDir branchName : string) (history : list Event)
    (task' : Task BranchNameWithDate) (event : Event) :
  reaches (branchDate contextDir branchName) history task' -> In event history ->
  harmless event /\ (lookupFails event -> exists e, task' = Throw e).
Proof.
  intros H Hin.
  apply reaches_branchDate in H
    as [[-> _] | (fetched & [(Hf & -> & He) | (Hf & [(-> & k & ->) | (shown & -> & Hs)])])].
  - destruct Hin.
  - destruct Hin as [<- | []]. split; [split; reflexivity | auto].
  - destruct Hin as [<- | [<- | []]].
    + split; [split; reflexivity|].
      intros [(b & _ & Hx) | (b & Hx & _)]; [contradiction|].
      now apply fetch_not_show in Hx.
    + split; [split; reflexivity | intros []].
  - destruct Hin as [<- | [<- | [<- | []]]].
    + split; [split; reflexivity|].
      intros [(b & _ & Hx) | (b & Hx & _)]; [contradiction|].
      now apply fetch_not_show in Hx.
    + split; [split; reflexivity | intros []].
    + split; [split; reflexivity|].
      destruct Hs as [(_ & He) | (Hc & Hu & ->)]; [auto|].
      intros [(b & Hx & _) | (b & _ & [Hx | Hx])].
      * symmetry in Hx. now apply fetch_not_show in Hx.
      * contradiction.
      * congruence.
Qed.

Lemma branchDate_Return (contextDir branchName : string) (history : list Event)
    (branch : BranchNameWithDate) :
  reaches (branchDate contextDir branchName) history (Return branch) ->
  name branch = branchName /\
  exists shown, lastCommitDate branch = commitDateOf shown /\ unusable shown = false.
Proof.
  intros H.
  apply reaches_branchDate in H
    as [[_ H] | (fetched & [(_ & _ & e & H) | (_ & [(_ & k & H) | (shown & _ & Hs)])])];
    try discriminate.
  destruct Hs as [(_ & e & H) | (_ & Hu & H)]; [discriminate|].
  injection H as ->. simpl. eauto.
Qed.

Lemma rejection_Some {A : Type} (finals : list (Task A)) (e : Error) :
  rejection finals = Some e -> exists i, finals !! i = Some (Throw e).
Proof.
  induction finals as [|t finals IH]; [discriminate|].
  destruct t as [a|e'|dir command hooked k]; simpl; intros H.
  - destruct (IH H) as [i Hi]. now exists (S i).
  - injection H as ->. now exists 0%nat.
  - destruct (IH H) as [i Hi]. now exists (S i).
Qed.

(** *** The deleter, one completion after the other *)

Lemma slotOf_rejection (contextDir : string) (branches : list BranchNameWithDate)
    (slots : list (Task unit)) :
  Forall2 (slotOf contextDir) branches slots -> rejection slots = None.
Proof.
  induction 1 as [|b t bs ts [-> | ->] _ IH]; [reflexivity | exact IH | exact IH].
Qed.

Lemma rejection_insert {A : Type} (slots : list (Task A)) (i : nat) (e : Error) :
  rejection slots = None -> (i < length slots)%nat ->
  rejection (<[i := Throw e]> slots) = Some e.
Proof.
  revert i. induction slots as [|t slots IH]; intros i Hr Hi; [simpl in Hi; lia|].
  destruct i as [|i].
  - reflexivity.
  - simpl in Hi. destruct t as [a|e'|dir command hooked k]; simpl in Hr |- *;
      [apply IH; [exact Hr | lia] | discriminate | apply IH; [exact Hr | lia]].
Qed.

Lemma completions_app (l1 l2 : list (BranchNameWithDate * ShellOutput)) :
  completions (l1 ++ l2) = (completions l1 ++ completions l2)%list.
Proof. apply flat_map_app. Qed.

Section DeleterFacts.
Context {World : Type}.
Variable exec : string -> string -> World -> ShellOutput * World.

Lemma settleAll_deleter (contextDir : string) (order : list nat) :
  forall (branches : list BranchNameWithDate) (slots : list (Task unit)) (st : State),
    Forall2 (slotOf contextDir) branches slots ->
    exists outcome st' ok failed,
      settleAll exec order slots st = (outcome, st') /\
      trace st' = (trace st ++ completions (ok ++ failed))%list /\
      Forall (fun p => exitCode (snd p) = 0 /\
                exists i, branches !! i = Some (fst p) /\
                          slots !! i = Some (deleteBranch contextDir (name (fst p)))) ok /\
      match outcome with
      | Resolved _ =>
          failed = [] /\
          forall i branch,
            branches !! i = Some branch ->
            slots !! i = Some (deleteBranch contextDir (name branch)) ->
            exists output, In (branch, output) ok
      | Rejected e =>
          exists branch output,
            failed = [(branch, output)] /\ In branch branches /\ exitCode output <> 0 /\
            e = ShellRejection (deleteCommand (name branch)) output
      | Exited _ => False
      | Pending => failed = []
      end.
Proof.
  assert (Hstop : forall order' branches (slots : list (Task unit)) (st : State),
    Forall2 (slotOf contextDir) branches slots ->
    fulfilled slots <> None \/ order' = [] ->
    exists outcome st' ok failed,
      settleAll exec order' slots st = (outcome, st') /\
      trace st' = (trace st ++ completions (ok ++ failed))%list /\
      Forall (fun p => exitCode (snd p) = 0 /\
                exists i, branches !! i = Some (fst p) /\
                          slots !! i = Some (deleteBranch contextDir (name (fst p)))) ok /\
      match outcome with
      | Resolved _ =>
          failed = [] /\
          forall i branch,
            branches !! i = Some branch ->
            slots !! i = Some (deleteBranch contextDir (name branch)) ->
            exists output, In (branch, output) ok
      | Rejected e =>
          exists branch output,
            failed = [(branch, output)] /\ In branch branches /\ exitCode output <> 0 /\
            e = ShellRejection (deleteCommand (name branch)) output
      | Exited _ => False
      | Pending => failed = []
      end).
  { intros order' branches slots st Hslots Hcase.
    exists (outcomeOf slots), st, [], [].
    split; [apply settleAll_stop; tauto|]. split; [now rewrite app_nil_r|].
    split; [constructor|].
    unfold outcomeOf. rewrite (slotOf_rejection _ _ _ Hslots).
    destruct (fulfilled slots) as [values|] eqn:Hful; [|reflexivity].
    split; [reflexivity|]. intros i branch _ Hi.
    apply fulfilled_Some in Hful. rewrite Hful, list_lookup_fmap in Hi.
    destruct (values !! i); discriminate. }
  induction order as [|i order IH]; intros branches slots st Hslots.
  - apply Hstop; auto.
  - destruct (fulfilled slots) as [values|] eqn:Hful.
    { apply Hstop; [exact Hslots|]. left. congruence. }
    pose proof (slotOf_rejection _ _ _ Hslots) as Hrej.
    simpl. rewrite Hrej, Hful.
    destruct (slots !! i) as [task|] eqn:Hi; [|now apply IH].
    destruct (Forall2_lookup_r _ _ _ _ _ Hslots Hi) as (branch & Hb & [-> | ->]);
      [|now apply IH].
    unfold deleteBranch, runShellCommand, mbind, Task_mbind, mret, Task_mret in Hi |- *.
    cbn [cwd hookUpToConsole rejectOnError Task_bind andb] in Hi |- *.
    destruct (exec contextDir (deleteCommand (name branch)) (world st)) as [output w].
    assert (Hlt : (i < length slots)%nat) by (now apply lookup_lt_Some in Hi).
    assert (Hin : In branch branches).
    { apply list_elem_of_In, list_elem_of_lookup. eauto. }
    destruct (exitCode output =? 0) eqn:Hcode; cbn [andb negb Task_bind mret Task_mret started].
    + apply Z.eqb_eq in Hcode.
      destruct (IH branches (<[i := Return tt]> slots)
                  {| world := w;
                     trace := trace st ++ arrival true (deleteCommand (name branch)) output
                                       ++ [] |})
        as (outcome & st' & ok & failed & Heq & Htrace & Hok & Hout).
      { assert (Hnext : Forall2 (slotOf contextDir) (<[i := branch]> branches)
                          (<[i := Return tt]> slots))
          by (apply Forall2_insert; [exact Hslots | now right]).
        now rewrite list_insert_id in Hnext by exact Hb. }
      exists outcome, st', ((branch, output) :: ok), failed.
      split; [exact Heq|]. split.
      { rewrite Htrace. cbn [trace]. rewrite app_nil_r, <- app_assoc. reflexivity. }
      split.
      { constructor.
        - split; [exact Hcode|]. exists i. auto.
        - eapply Forall_impl; [exact Hok|]. intros p (Hp & j & Hj & Hs).
          split; [exact Hp|]. exists j. split; [exact Hj|].
          destruct (decide (j = i)) as [->|Hne].
          + rewrite list_lookup_insert_eq in Hs by lia. discriminate.
          + now rewrite list_lookup_insert_ne in Hs by congruence. }
      destruct outcome as [values|e|code|]; [|exact Hout..].
      destruct Hout as [-> Hall]. split; [reflexivity|].
      intros j b Hj Hs. destruct (decide (j = i)) as [->|Hne].
      * rewrite Hb in Hj. injection Hj as <-. exists output. now left.
      * destruct (Hall j b Hj) as [o Ho].
        { now rewrite list_lookup_insert_ne by congruence. }
        exists o. now right.
    + apply Z.eqb_neq in Hcode.
      set (e := ShellRejection (deleteCommand (name branch)) output).
      exists (Rejected e),
        {| world := w;
           trace := trace st ++ arrival true (deleteCommand (name branch)) output ++ [] |},
        [], [(branch, output)].
      split.
      { rewrite settleAll_stop.
        - unfold outcomeOf. now rewrite (rejection_insert slots i e Hrej Hlt).
        - left. now rewrite (rejection_insert slots i e Hrej Hlt). }
      split; [reflexivity|]. split; [constructor|].
      exists branch, output. auto.
Qed.
End DeleterFacts.

Lemma completions_In (served : list (BranchNameWithDate * ShellOutput)) (event : Event) :
  In event (completions served) <->
  exists branch output,
    In (branch, output) served /\
    (event = Echoed (deleteCommand (name branch)) output \/
     event = Settled (deleteCommand (name branch)) output).
Proof.
  unfold completions. rewrite in_flat_map. split.
  - intros ([branch output] & Hin & Hev). exists branch, output. split; [exact Hin|].
    destruct Hev as [<- | [<- | []]]; auto.
  - intros (branch & output & Hin & Hev). exists (branch, output). split; [exact Hin|].
    destruct Hev as [-> | ->]; [now left | right; now left].
Qed.

Lemma deleteCommand_inj (a b : string) : deleteCommand a = deleteCommand b -> a = b.
Proof. unfold deleteCommand. simpl. intros H. now injection H. Qed.

(** What the ordered account of the deleter gives about the events seen. *)
Lemma deleterRan_ended (branches : list BranchNameWithDate) (outcome : Outcome unit)
    (ok failed : list (BranchNameWithDate * ShellOutput)) :
  deleterRan branches outcome ok failed ->
  deleterEnded branches outcome (completions (ok ++ failed)).
Proof.
  intros Hran. pose proof Hran as [Hok Hout]. rewrite List.Forall_forall in Hok.
  assert (Hfailed : forall branch output, In (branch, output) failed ->
            In branch branches /\ exitCode output <> 0 /\
            outcome = Rejected (ShellRejection (deleteCommand (name branch)) output)).
  { intros branch output Hin. destruct outcome as [[]|e|code|].
    - destruct Hout as [-> _]. destruct Hin.
    - destruct Hout as (b & o & -> & Hb & Hc & ->).
      destruct Hin as [[= <- <-] | []]. auto.
    - destruct Hout.
    - rewrite Hout in Hin. destruct Hin. }
  split; [|split; [|split; [|split; [|split]]]].
  - intros event Hin. apply completions_In in Hin as (branch & output & Hin & Hev).
    exists branch, output. split; [|exact Hev].
    apply in_app_or in Hin as [Hin | Hin].
    + exact (proj1 (Hok _ Hin)).
    + exact (proj1 (Hfailed _ _ Hin)).
  - intros command output Hin Hcode.
    apply completions_In in Hin as (branch & output' & Hin & [Hev | Hev]); [discriminate|].
    injection Hev as -> ->.
    apply in_app_or in Hin as [Hin | Hin].
    + destruct (Hok _ Hin) as [_ Hz]. contradiction.
    + destruct (Hfailed _ _ Hin) as (_ & _ & ->). eauto.
  - intros e ->. destruct Hout as (b & o & -> & Hb & Hc & ->).
    exists b, o. repeat split; auto.
    apply completions_In. exists b, o. split; [|now right].
    apply in_or_app. right. now left.
  - intros -> branch Hin. destruct Hout as [-> Hall].
    destruct (Hall branch Hin) as [output Ho]. exists output.
    split; [exact (proj2 (Hok _ Ho))|].
    apply completions_In. exists branch, output. split; [|now right].
    apply in_or_app. now left.
  - intros code ->. exact Hout.
  - exists ok, failed. split; [reflexivity | exact Hran].
Qed.

Section DeleterRun.
Context {World : Type}.
Variable exec : string -> string -> World -> ShellOutput * World.
Variable settleOrder : World -> list nat.

Lemma started_deleteBranches (contextDir : string) (branches : list BranchNameWithDate) :
  flat_map started (map (fun branch => deleteBranch contextDir (name branch)) branches) =
  map (fun branch => Spawned contextDir (deleteCommand (name branch))) branches.
Proof. induction branches as [|b l IH]; simpl; [|rewrite IH]; reflexivity. Qed.

(** The deleter: every deletion command is started, in order, before any
    output arrives; afterwards the deletions complete one after the other,
    each echoed to the console; the first that fails rejects the whole, with
    its failure, and nothing more is seen; when the whole is fulfilled every
    deletion has succeeded. *)
Lemma deleteBranches_ran (contextDir : string) (branches : list BranchNameWithDate)
    (st : State) :
  exists outcome st' ok failed,
    deleteBranches exec settleOrder contextDir branches st = (outcome, st') /\
    trace st' = (trace st ++ deletions contextDir branches
                          ++ completions (ok ++ failed))%list /\
    deleterRan branches outcome ok failed.
Proof.
  unfold deletions, deleteBranches, promiseAll.
  set (slots := map (fun branch => deleteBranch contextDir (name branch)) branches).
  assert (Hslots : Forall2 (slotOf contextDir) branches slots).
  { unfold slots. clear. induction branches as [|b l IH]; constructor; [now left | exact IH]. }
  destruct (settleAll_deleter exec contextDir (settleOrder (world st)) branches slots
              (emit (flat_map started slots) st) Hslots)
    as (outcome & st' & ok & failed & Heq & Htrace & Hok & Hout).
  exists (match outcome with
          | Resolved _ => Resolved tt
          | Rejected e => Rejected e
          | Exited code => Exited code
          | Pending => Pending
          end), st', ok, failed.
  split.
  { unfold mbind, M_mbind, M_bind. rewrite Heq. destruct outcome; reflexivity. }
  split.
  { rewrite Htrace. unfold slots. simpl. now rewrite started_deleteBranches, app_assoc. }
  split.
  - eapply Forall_impl; [exact Hok|]. intros p (Hp & i & Hi & _). split; [|exact Hp].
    apply list_elem_of_In, list_elem_of_lookup. eauto.
  - destruct outcome as [values|e|code|]; try exact Hout.
    destruct Hout as [-> Hall]. split; [reflexivity|].
    intros branch Hin. apply list_elem_of_In, list_elem_of_lookup in Hin as [i Hi].
    apply (Hall i branch Hi). unfold slots. rewrite list_lookup_fmap, Hi. reflexivity.
Qed.

Lemma deleteBranches_spec (contextDir : string) (branches : list BranchNameWithDate)
    (st : State) :
  exists outcome st' settled,
    deleteBranches exec settleOrder contextDir branches st = (outcome, st') /\
    trace st' = (trace st ++ deletions contextDir branches ++ settled)%list /\
    deleterEnded branches outcome settled.
Proof.
  destruct (deleteBranches_ran contextDir branches st)
    as (outcome & st' & ok & failed & Heq & Htrace & Hran).
  exists outcome, st', (completions (ok ++ failed)).
  split; [exact Heq|]. split; [exact Htrace|]. now apply deleterRan_ended.
Qed.
End DeleterRun.

(** ** The stages of a run *)

Section RunFacts.
Context {World : Type}.
Variable exec : string -> string -> World -> ShellOutput * World.
Variable askQuestion : string -> World -> string * World.
Variable settleOrder : World -> list nat.
Variables staleNow mergedNow : Z.

Lemma started_branchDates (contextDir : string) (branchNames : list string) :
  flat_map started (map (branchDate contextDir) branchNames) =
  map (fun branchName => Spawned contextDir (fetchCommand branchName)) branchNames.
Proof. induction branchNames as [|n l IH]; simpl; [|rewrite IH]; reflexivity. Qed.

(** The date lookups of one pass: nothing is asked or deleted; a failed
    lookup rejects the pass; a pass that is fulfilled gives one record per
    name, in order, each with a valid non-zero date. *)
Lemma getBranchDates_spec (contextDir : string) (branchNames : list string) (st : State) :
  exists outcome st' new,
    getBranchDates exec settleOrder contextDir branchNames st = (outcome, st') /\
    trace st' = (trace st ++ new)%list /\
    Forall harmless new /\
    (forall event, In event new -> lookupFails event -> exists e, outcome = Rejected e) /\
    (forall branches, outcome = Resolved branches ->
       map name branches = branchNames /\
       Forall (fun branch => exists shown,
                 lastCommitDate branch = commitDateOf shown /\ unusable shown = false)
              branches) /\
    (forall code, outcome <> Exited code).
Proof.
  unfold getBranchDates, promiseAll.
  set (slots := map (branchDate contextDir) branchNames).
  destruct (settleAll_final exec (settleOrder (world st)) slots
              (emit (flat_map started slots) st))
    as (finals & histories & st' & new & Heq & Htrace & Hstop).
  exists (outcomeOf finals), st', (flat_map started slots ++ new)%list.
  split; [exact Heq|]. split; [now rewrite Htrace, app_assoc|].
  assert (Hslot : forall i task, slots !! i = Some task ->
            exists branchName, branchNames !! i = Some branchName /\
                               task = branchDate contextDir branchName).
  { intros i task Hi. unfold slots in Hi. rewrite list_lookup_fmap in Hi.
    destruct (branchNames !! i) as [n|]; [|discriminate].
    injection Hi as <-. eauto. }
  split; [|split; [|split]].
  - apply Forall_app. split.
    + unfold slots. rewrite started_branchDates.
      apply List.Forall_forall. intros event Hin.
      apply in_map_iff in Hin as (n & <- & _). split; reflexivity.
    + apply List.Forall_forall. intros event Hin.
      destruct (stoppedIn_event _ _ _ _ _ Hstop Hin) as (i & task & h & t' & Hi & _ & Hr & Hh).
      destruct (Hslot i task Hi) as (n & _ & ->).
      now apply (branchDate_event contextDir n h t').
  - intros event Hin Hfail. apply in_app_or in Hin as [Hin | Hin].
    + unfold slots in Hin. rewrite started_branchDates in Hin.
      apply in_map_iff in Hin as (n & <- & _). destruct Hfail.
    + destruct (stoppedIn_event _ _ _ _ _ Hstop Hin) as (i & task & h & t' & Hi & Hf & Hr & Hh).
      destruct (Hslot i task Hi) as (n & _ & ->).
      destruct (branchDate_event contextDir n h t' event Hr Hh) as [_ Ht].
      destruct (Ht Hfail) as [e ->]. now apply outcomeOf_Throw in Hf.
  - intros branches Hres. apply outcomeOf_Resolved in Hres.
    assert (Hone : forall i branch, branches !! i = Some branch ->
              exists n, branchNames !! i = Some n /\ name branch = n /\
                exists shown, lastCommitDate branch = commitDateOf shown /\
                              unusable shown = false).
    { intros i branch Hb.
      assert (Hfi : finals !! i = Some (Return branch))
        by (rewrite Hres, list_lookup_fmap, Hb; reflexivity).
      destruct (lookup_lt_is_Some_2 slots i) as [task Ht].
      { destruct Hstop as (Hl & _). rewrite <- Hl. now apply lookup_lt_Some in Hfi. }
      destruct (stoppedIn_slot _ _ _ _ _ _ Hstop Ht) as (h & t' & Hf & Hr & _).
      rewrite Hfi in Hf. injection Hf as <-.
      destruct (Hslot i task Ht) as (n & Hn & ->).
      apply branchDate_Return in Hr as [Hname Hdate]. eauto. }
    split.
    + apply list_eq. intros i. rewrite list_lookup_fmap.
      destruct (branches !! i) as [branch|] eqn:Hb; simpl.
      * destruct (Hone i branch Hb) as (n & Hn & <- & _). now rewrite Hn.
      * symmetry. apply lookup_ge_None. apply lookup_ge_None in Hb.
        destruct Hstop as (Hl & _). unfold slots in Hl.
        rewrite Hres, !length_map in Hl. lia.
    + apply List.Forall_forall. intros branch Hin.
      apply list_elem_of_In, list_elem_of_lookup in Hin as [i Hb].
      destruct (Hone i branch Hb) as (n & _ & _ & Hd). exact Hd.
  - intros code. apply outcomeOf_not_Exited.
Qed.
Lemma await_pruneRemote (contextDir : string) (st : State) :
  await exec (pruneRemote contextDir) st =
  let (output, w) := exec contextDir pruneCommand (world st) in
  let st' := {| world := w;
                trace := trace st ++ [Spawned contextDir pruneCommand;
                                       Settled pruneCommand output] |} in
  if negb (exitCode output =? 0) then (Rejected (ShellRejection pruneCommand output), st')
  else (Resolved tt, st').
Proof.
  unfold pruneRemote. simpl.
  destruct (exec contextDir pruneCommand (world st)) as [output w].
  destruct (negb (exitCode output =? 0)); reflexivity.
Qed.

(** A step that only runs one of the three listing commands. *)
Lemma beforeGate_listing {A : Type} (outcome : Outcome A) (dir command : string)
    (output : ShellOutput) :
  command = pruneCommand \/ command = remoteCommand \/ command = mergedCommand ->
  (forall code, outcome <> Exited code) ->
  beforeGate outcome [Spawned dir command; Settled command output].
Proof.
  intros Hc Hex. split; [|split; [|exact Hex]].
  - repeat constructor; destruct Hc as [-> | [-> | ->]]; reflexivity.
  - intros event [<- | [<- | []]]; [intros []|].
    intros [(b & Hb & _) | (b & Hb & _)];
      destruct Hc as [-> | [-> | ->]]; discriminate Hb.
Qed.

(** A step that went through, followed by another step. *)
Lemma beforeGate_app {A B : Type} (a : A) (outcome : Outcome B) (new1 new2 : list Event) :
  beforeGate (Resolved a) new1 -> beforeGate outcome new2 ->
  beforeGate outcome (new1 ++ new2).
Proof.
  intros (H1 & F1 & _) (H2 & F2 & E2). split; [|split; [|exact E2]].
  - apply Forall_app. now split.
  - intros event Hin Hfail. apply in_app_or in Hin as [Hin | Hin]; [|eauto].
    destruct (F1 event Hin Hfail) as [e He]. discriminate.
Qed.

Lemma beforeGate_cast {A B : Type} (outcome : Outcome A) (outcome' : Outcome B)
    (new : list Event) :
  beforeGate outcome new ->
  (forall e, outcome = Rejected e -> outcome' = Rejected e) ->
  (forall code, outcome' <> Exited code) ->
  beforeGate outcome' new.
Proof.
  intros (H & F & _) Hrej Hex. split; [exact H|]. split; [|exact Hex].
  intros event Hin Hfail. destruct (F event Hin Hfail) as [e He]. eauto.
Qed.
Lemma filterOutKeyBranchNames_In (branchNames : list string) (branchName : string) :
  In branchName (filterOutKeyBranchNames branchNames) <->
  In branchName branchNames /\ includes ignoreTheseBranches branchName = false.
Proof.
  unfold filterOutKeyBranchNames. rewrite filter_In, Bool.negb_true_iff. reflexivity.
Qed.

Lemma dated_names_kept (branchNames : list string) (branches : list BranchNameWithDate) :
  map name branches = filterOutKeyBranchNames branchNames ->
  Forall (fun branch => In (name branch) branchNames /\
                        includes ignoreTheseBranches (name branch) = false) branches.
Proof.
  intros Hnames. apply List.Forall_forall. intros branch Hin.
  apply filterOutKeyBranchNames_In. rewrite <- Hnames. now apply in_map.
Qed.

(** The classification stage: what it does to the outside, and how the two
    sets it returns are made. *)
Lemma classifyBranches_spec (contextDir : string) (st : State) :
  exists outcome st' new,
    classifyBranches exec settleOrder staleNow mergedNow contextDir st = (outcome, st') /\
    trace st' = (trace st ++ new)%list /\
    beforeGate outcome new /\
    forall stale merged, outcome = Resolved (stale, merged) ->
      exists remoteNames mergedNames remoteDated mergedDated,
        map name remoteDated = filterOutKeyBranchNames remoteNames /\
        map name mergedDated = filterOutKeyBranchNames mergedNames /\
        stale = filterToBranchesModifiedSinceDate remoteDated (staleBranchDate staleNow) /\
        merged = filterToBranchesModifiedSinceDate
                   (List.filter
                      (fun branch =>
                         negb (has (list_to_set (map name stale)) (name branch)))
                      mergedDated)
                   (mergedBranchDate mergedNow).
Proof.
  unfold classifyBranches. unfold mbind, M_mbind, M_bind.
  rewrite await_pruneRemote.
  destruct (exec contextDir pruneCommand (world st)) as [o1 w1].
  destruct (negb (exitCode o1 =? 0)); cbv beta iota zeta.
  { eexists _, _, _. split; [reflexivity|]. split; [reflexivity|].
    split; [apply beforeGate_listing; [auto | discriminate] | discriminate]. }
  assert (G1 : beforeGate (Resolved tt) [Spawned contextDir pruneCommand;
                                         Settled pruneCommand o1])
    by (apply beforeGate_listing; [auto | discriminate]).
  rewrite await_getAllRemoteBranches. cbn [world trace].
  destruct (exec contextDir remoteCommand w1) as [o2 w2].
  assert (G2 : forall (A : Type) (o : Outcome A), (forall code, o <> Exited code) ->
            beforeGate o ([Spawned contextDir pruneCommand; Settled pruneCommand o1]
                          ++ [Spawned contextDir remoteCommand; Settled remoteCommand o2])).
  { intros A o Ho. apply (beforeGate_app tt); [exact G1|].
    apply beforeGate_listing; auto. }
  destruct (negb (exitCode o2 =? 0)); cbv beta iota zeta.
  { eexists _, _, _. split; [reflexivity|]. split; [cbn [trace]; now rewrite <- app_assoc|].
    split; [apply G2; discriminate | discriminate]. }
  destruct (mapLines (branchNameOfLine remoteHeadLine) _) as [remoteNames'|e2];
    cbv beta iota zeta.
  2: { eexists _, _, _. split; [reflexivity|].
       split; [cbn [trace]; now rewrite <- app_assoc|].
       split; [apply G2; discriminate | discriminate]. }
  set (remoteNames := List.filter Str.isTruthy remoteNames').
  rewrite await_getAllMergedRemoteBranches. cbn [world trace].
  destruct (exec contextDir mergedCommand w2) as [o3 w3].
  set (listed := ([Spawned contextDir pruneCommand; Settled pruneCommand o1]
                  ++ [Spawned contextDir remoteCommand; Settled remoteCommand o2]
                  ++ [Spawned contextDir mergedCommand; Settled mergedCommand o3])%list).
  assert (G3 : forall (A : Type) (o : Outcome A), (forall code, o <> Exited code) ->
            beforeGate o listed).
  { intros A o Ho. unfold listed. rewrite app_assoc.
    apply (beforeGate_app tt); [apply G2; discriminate|].
    apply beforeGate_listing; auto. }
  assert (T3 : forall x : list Event,
            (((x ++ [Spawned contextDir pruneCommand; Settled pruneCommand o1])
              ++ [Spawned contextDir remoteCommand; Settled remoteCommand o2])
             ++ [Spawned contextDir mergedCommand; Settled mergedCommand o3])%list
            = (x ++ listed)%list).
  { intros x. unfold listed. now rewrite <- !app_assoc. }
  rewrite T3.
  destruct (negb (exitCode o3 =? 0)); cbv beta iota zeta.
  { eexists _, _, _. split; [reflexivity|]. split; [reflexivity|].
    split; [apply G3; discriminate | discriminate]. }
  destruct (mapLines (branchNameOfLine mergedBranchLine) _) as [mergedNames'|e3];
    cbv beta iota zeta.
  2: { eexists _, _, _. split; [reflexivity|]. split; [reflexivity|].
       split; [apply G3; discriminate | discriminate]. }
  set (mergedNames := List.filter Str.isTruthy mergedNames').
  destruct (getBranchDates_spec contextDir (filterOutKeyBranchNames remoteNames)
              {| world := w3; trace := trace st ++ listed |})
    as (o4 & st4 & new4 & Heq4 & Htr4 & Hh4 & Hf4 & Hr4 & He4).
  rewrite Heq4. cbn [trace] in Htr4. cbv beta iota zeta.
  assert (G4 : beforeGate o4 (listed ++ new4)).
  { apply (beforeGate_app tt); [apply G3; discriminate|]. repeat split; assumption. }
  destruct o4 as [remoteDated|e4|code4|].
  2: { eexists _, _, _. split; [reflexivity|]. split; [now rewrite Htr4, <- app_assoc|].
       split; [|discriminate].
       eapply beforeGate_cast; [exact G4 | congruence | discriminate]. }
  2: { now destruct (He4 code4). }
  2: { eexists _, _, _. split; [reflexivity|]. split; [now rewrite Htr4, <- app_assoc|].
       split; [|discriminate].
       eapply beforeGate_cast; [exact G4 | discriminate | discriminate]. }
  destruct (Hr4 remoteDated eq_refl) as [Hn4 _].
  destruct (getBranchDates_spec contextDir (filterOutKeyBranchNames mergedNames) st4)
    as (o5 & st5 & new5 & Heq5 & Htr5 & Hh5 & Hf5 & Hr5 & He5).
  rewrite Heq5. cbv beta iota zeta.
  assert (G5 : beforeGate o5 ((listed ++ new4) ++ new5)).
  { apply (beforeGate_app remoteDated); [exact G4|]. repeat split; assumption. }
  assert (T5 : trace st5 = (trace st ++ (listed ++ new4) ++ new5)%list)
    by (rewrite Htr5, Htr4; now rewrite <- !app_assoc).
  destruct o5 as [mergedDated|e5|code5|].
  2: { eexists _, _, _. split; [reflexivity|]. split; [exact T5|]. split; [|discriminate].
       eapply beforeGate_cast; [exact G5 | congruence | discriminate]. }
  2: { now destruct (He5 code5). }
  2: { eexists _, _, _. split; [reflexivity|]. split; [exact T5|]. split; [|discriminate].
       eapply beforeGate_cast; [exact G5 | discriminate | discriminate]. }
  destruct (Hr5 mergedDated eq_refl) as [Hn5 _].
  eexists _, _, _. split; [reflexivity|]. split; [exact T5|]. split.
  { eapply beforeGate_cast; [exact G5 | discriminate | discriminate]. }
  intros stale merged [= <- <-].
  exists remoteNames, mergedNames, remoteDated, mergedDated. auto.
Qed.
(** The whole run: either it stops before the gate, or it asks once and
    then, on any answer but "yes", says so and exits with code 0, and on
    "yes" runs the deleter on the stale set followed by the merged set. *)
Lemma run_shape (contextDir : string) (st : State) :
  exists outcome st' new,
    deleteStaleAndMergedBranches exec askQuestion settleOrder staleNow mergedNow
      contextDir st = (outcome, st') /\
    trace st' = (trace st ++ new)%list /\
    ((beforeGate outcome new /\ (forall a, outcome <> Resolved a) /\
      forall sets st1,
        classifyBranches exec settleOrder staleNow mergedNow contextDir st
          <> (Resolved sets, st1)) \/
     exists stale merged st1 pre response w,
       classifyBranches exec settleOrder staleNow mergedNow contextDir st
         = (Resolved (stale, merged), st1) /\
       beforeGate (Resolved (stale, merged)) pre /\
       askQuestion question (world st1) = (response, w) /\
       ((response <> "yes" /\ outcome = Exited 0 /\
         new = (pre ++ gateReport staleNow mergedNow stale merged
                    ++ [Asked question response; Info Declined])%list) \/
        (response = "yes" /\
         exists settled,
           deleterEnded (stale ++ merged) outcome settled /\
           new = (pre ++ gateReport staleNow mergedNow stale merged
                      ++ [Asked question response]
                      ++ deletions contextDir (stale ++ merged)
                      ++ settled ++ afterDeleter outcome)%list))).
Proof.
  unfold deleteStaleAndMergedBranches. unfold mbind at 1. unfold M_mbind, M_bind.
  destruct (classifyBranches_spec contextDir st)
    as (o & st1 & pre & Heq & Htr & Hgate & Hsets).
  rewrite Heq.
  destruct o as [[stale merged]|e|code|].
  2: { eexists _, _, _. split; [reflexivity|]. split; [exact Htr|]. left.
       split; [|split; [discriminate|]].
       - eapply beforeGate_cast; [exact Hgate | congruence | discriminate].
       - intros sets st2. discriminate. }
  2: { destruct Hgate as (_ & _ & He). now destruct (He code). }
  2: { eexists _, _, _. split; [reflexivity|]. split; [exact Htr|]. left.
       split; [|split; [discriminate|]].
       - eapply beforeGate_cast; [exact Hgate | discriminate | discriminate].
       - intros sets st2. discriminate. }
  cbn [fst snd].
  unfold confirmAndDelete, waitForUserToAccept, info, ask.
  unfold mbind, M_mbind, M_bind, mret, M_mret, emit. cbn [world trace].
  destruct (askQuestion question (world st1)) as [response w] eqn:Hask.
  rewrite Htr.
  destruct (String.eqb response "yes") eqn:Hyes.
  - apply String.eqb_eq in Hyes.
    match goal with
    | |- context [deleteBranches _ _ _ _ ?s] =>
        destruct (deleteBranches_spec exec settleOrder contextDir (stale ++ merged)%list s)
          as (deleted & st2 & settled & Hdel & Htr2 & Hended)
    end.
    rewrite Hdel. cbn [trace] in Htr2.
    exists deleted. destruct deleted as [[]|e|code|].
    + eexists _, _. split; [reflexivity|]. cbn [trace]. split.
      2: { right. exists stale, merged, st1, pre, response, w.
           split; [reflexivity|]. split; [exact Hgate|]. split; [exact Hask|].
           right. split; [exact Hyes|]. exists settled. split; [exact Hended|].
           reflexivity. }
      rewrite Htr2. unfold gateReport, afterDeleter. rewrite <- !app_assoc. reflexivity.
    + eexists _, _. split; [reflexivity|]. split.
      2: { right. exists stale, merged, st1, pre, response, w.
           split; [reflexivity|]. split; [exact Hgate|]. split; [exact Hask|].
           right. split; [exact Hyes|]. exists settled. split; [exact Hended|].
           reflexivity. }
      rewrite Htr2. unfold gateReport, afterDeleter. rewrite <- !app_assoc.
      rewrite app_nil_r. reflexivity.
    + destruct Hended as (_ & _ & _ & _ & He & _). now destruct (He code).
    + eexists _, _. split; [reflexivity|]. split.
      2: { right. exists stale, merged, st1, pre, response, w.
           split; [reflexivity|]. split; [exact Hgate|]. split; [exact Hask|].
           right. split; [exact Hyes|]. exists settled. split; [exact Hended|].
           reflexivity. }
      rewrite Htr2. unfold gateReport, afterDeleter. rewrite <- !app_assoc.
      rewrite app_nil_r. reflexivity.
  - apply String.eqb_neq in Hyes.
    eexists _, _, _. split; [reflexivity|]. cbn [trace]. split.
    2: { right. exists stale, merged, st1, pre, response, w.
         split; [reflexivity|]. split; [exact Hgate|]. split; [exact Hask|].
         left. split; [exact Hyes|]. split; reflexivity. }
    unfold gateReport. rewrite <- !app_assoc. reflexivity.
Qed.
(** The entry point, in the terms of [run_shape]. *)
Lemma main_shape (gitDir : string) (w : World) :
  let start := {| world := w; trace := [Info (UsingDirectory gitDir)] |} in
  exists outcome st' new,
    deleteStaleAndMergedBranches exec askQuestion settleOrder staleNow mergedNow
      gitDir start = (outcome, st') /\
    main exec askQuestion settleOrder staleNow mergedNow gitDir w =
      (exitCodeOf outcome,
       (Info (UsingDirectory gitDir) :: new ++ errorLog outcome)%list) /\
    ((beforeGate outcome new /\ (forall a, outcome <> Resolved a) /\
      forall sets st1,
        classifyBranches exec settleOrder staleNow mergedNow gitDir start
          <> (Resolved sets, st1)) \/
     exists stale merged st1 pre response,
       classifyBranches exec settleOrder staleNow mergedNow gitDir start
         = (Resolved (stale, merged), st1) /\
       beforeGate (Resolved (stale, merged)) pre /\
       ((response <> "yes" /\ outcome = Exited 0 /\
         new = (pre ++ gateReport staleNow mergedNow stale merged
                    ++ [Asked question response; Info Declined])%list) \/
        (response = "yes" /\
         exists settled,
           deleterEnded (stale ++ merged) outcome settled /\
           new = (pre ++ gateReport staleNow mergedNow stale merged
                      ++ [Asked question response]
                      ++ deletions gitDir (stale ++ merged)
                      ++ settled ++ afterDeleter outcome)%list))).
Proof.
  intros start.
  destruct (run_shape gitDir start) as (outcome & st' & new & Heq & Htr & Hshape).
  exists outcome, st', new. split; [exact Heq|]. split.
  - unfold main. fold start. rewrite Heq. cbn [trace] in Htr. rewrite Htr.
    destruct outcome; simpl; rewrite ?app_nil_r; reflexivity.
  - destruct Hshape as [(Hg & Hr & Hc) | (stale & merged & st1 & pre & response & w' & H)].
    + left. auto.
    + right. exists stale, merged, st1, pre, response.
      destruct H as (Hc & Hg & _ & Hcase). auto.
Qed.
End RunFacts.

(** ** The two result sets *)

Lemma has_In (names : list string) (branchName : string) :
  has (list_to_set names) branchName = true <-> In branchName names.
Proof.
  unfold has. rewrite bool_decide_eq_true, elem_of_list_to_set. apply list_elem_of_In.
Qed.

Lemma includes_In (names : list string) (branchName : string) :
  includes names branchName = true <-> In branchName names.
Proof.
  unfold includes. rewrite existsb_exists. split.
  - intros (x & Hx & Heq). apply String.eqb_eq in Heq. now subst.
  - intros H. exists branchName. split; [exact H | apply String.eqb_refl].
Qed.

(** C2: the branch names of the stale set are removed from the
    merged-candidate pool before the merged-threshold filter runs: the merged
    set is the classifier's result on a pool that holds no record with the
    name of a stale record; so a merged candidate with the name of a stale
    record is not in the merged set, whatever its commit date, and no branch
    name is in both the stale set and the merged set of a run. *)
Theorem stale_names_leave_merged_pool :
  forall (World : Type) (exec : string -> string -> World -> ShellOutput * World)
         (settleOrder : World -> list nat) (staleNow mergedNow : Z)
         (contextDir : string) (st st' : State)
         (stale merged : list BranchNameWithDate),
    classifyBranches exec settleOrder staleNow mergedNow contextDir st
      = (Resolved (stale, merged), st') ->
    (exists candidates pool,
       pool = List.filter
                (fun branch => negb (has (list_to_set (map name stale)) (name branch)))
                candidates /\
       merged = filterToBranchesModifiedSinceDate pool (mergedBranchDate mergedNow) /\
       (forall branch, In branch pool -> ~ In (name branch) (map name stale)) /\
       (forall branch, In branch candidates -> In (name branch) (map name stale) ->
                       ~ In branch merged)) /\
    (forall b1 b2, In b1 stale -> In b2 merged -> name b1 <> name b2).
Proof.
  intros World exec settleOrder staleNow mergedNow contextDir st st' stale merged Hrun.
  destruct (classifyBranches_spec exec settleOrder staleNow mergedNow contextDir st)
    as (o & st1 & new & Heq & _ & _ & Hsets).
  rewrite Hrun in Heq. injection Heq as <- <-.
  destruct (Hsets stale merged eq_refl)
    as (remoteNames & mergedNames & remoteDated & mergedDated & _ & _ & _ & Hmerged).
  assert (Hpool : forall branch,
            In branch (List.filter
                         (fun branch => negb (has (list_to_set (map name stale)) (name branch)))
                         mergedDated) ->
            ~ In (name branch) (map name stale)).
  { intros branch Hin Hname. apply filter_In in Hin as [_ Hin].
    apply has_In in Hname. rewrite Hname in Hin. discriminate. }
  assert (Hout : forall branch, In branch merged -> ~ In (name branch) (map name stale)).
  { intros branch Hin. rewrite Hmerged in Hin. apply classifier_In in Hin as [Hin _].
    now apply Hpool. }
  split.
  - exists mergedDated, (List.filter
                         (fun branch => negb (has (list_to_set (map name stale)) (name branch)))
                         mergedDated).
    split; [reflexivity|]. split; [exact Hmerged|]. split; [exact Hpool|].
    intros branch _ Hname Hin. now apply (Hout branch).
  - intros b1 b2 H1 H2 Hname. apply (Hout b2 H2). rewrite <- Hname. now apply in_map.
Qed.

Lemma stale_names_leave_merged_pool_witness :
  classifyBranches (Scripted.exec scenario) (Scripted.inOrder scenarioOrder)
    scenarioNow scenarioNow "/repo" (fresh tt)
    = (Resolved ([featureA], [featureC]),
       snd (classifyBranches (Scripted.exec scenario) (Scripted.inOrder scenarioOrder)
              scenarioNow scenarioNow "/repo" (fresh tt))) /\
  name featureA <> name featureC.
Proof.
  assert (H : classifyBranches (Scripted.exec scenario) (Scripted.inOrder scenarioOrder)
                scenarioNow scenarioNow "/repo" (fresh tt)
              = (Resolved ([featureA], [featureC]),
                 snd (classifyBranches (Scripted.exec scenario)
                        (Scripted.inOrder scenarioOrder)
                        scenarioNow scenarioNow "/repo" (fresh tt))))
    by (vm_compute; reflexivity).
  split; [exact H|].
  apply (proj2 (stale_names_leave_merged_pool unit (Scripted.exec scenario)
                  (Scripted.inOrder scenarioOrder) scenarioNow scenarioNow "/repo"
                  (fresh tt) _ [featureA] [featureC] H) featureA featureC);
    left; reflexivity.
Defined.

(** C6: none of the protected names [main], [master], [staging],
    [production] is the name of a record of the stale set or of the merged
    set, whatever the listings and the commit dates are; a listed name is
    kept exactly when it is equal, as a string, to none of the four. *)
Theorem protected_names_never_classified :
  forall (World : Type) (exec : string -> string -> World -> ShellOutput * World)
         (settleOrder : World -> list nat) (staleNow mergedNow : Z)
         (contextDir : string) (st st' : State)
         (stale merged : list BranchNameWithDate),
    classifyBranches exec settleOrder staleNow mergedNow contextDir st
      = (Resolved (stale, merged), st') ->
    (forall branch, In branch (stale ++ merged) ->
       name branch <> "main" /\ name branch <> "master" /\
       name branch <> "staging" /\ name branch <> "production") /\
    (forall (branchNames : list string) (branchName : string),
       In branchName (filterOutKeyBranchNames branchNames) <->
       In branchName branchNames /\
       branchName <> "main" /\ branchName <> "master" /\
       branchName <> "staging" /\ branchName <> "production").
Proof.
  intros World exec settleOrder staleNow mergedNow contextDir st st' stale merged Hrun.
  assert (Hkeep : forall branchName,
            includes ignoreTheseBranches branchName = false <->
            branchName <> "main" /\ branchName <> "master" /\
            branchName <> "staging" /\ branchName <> "production").
  { intros branchName. rewrite <- Bool.not_true_iff_false, includes_In. simpl.
    intuition congruence. }
  split.
  - destruct (classifyBranches_spec exec settleOrder staleNow mergedNow contextDir st)
      as (o & st1 & new & Heq & _ & _ & Hsets).
    rewrite Hrun in Heq. injection Heq as <- <-.
    destruct (Hsets stale merged eq_refl)
      as (remoteNames & mergedNames & remoteDated & mergedDated & Hr & Hm & Hstale & Hmerged).
    intros branch Hin. apply Hkeep.
    apply in_app_or in Hin as [Hin | Hin].
    + rewrite Hstale in Hin. apply classifier_In in Hin as [Hin _].
      apply (in_map name) in Hin. rewrite Hr in Hin.
      now apply filterOutKeyBranchNames_In in Hin.
    + rewrite Hmerged in Hin. apply classifier_In in Hin as [Hin _].
      apply filter_In in Hin as [Hin _].
      apply (in_map name) in Hin. rewrite Hm in Hin.
      now apply filterOutKeyBranchNames_In in Hin.
  - intros branchNames branchName. split.
    + intros H. apply filterOutKeyBranchNames_In in H as [H1 H2].
      split; [exact H1 | now apply Hkeep].
    + intros [H1 H2]. apply filterOutKeyBranchNames_In.
      split; [exact H1 | now apply Hkeep].
Qed.

Lemma protected_names_never_classified_witness :
  classifyBranches (Scripted.exec scenario) (Scripted.inOrder scenarioOrder)
    scenarioNow scenarioNow "/repo" (fresh tt)
    = (Resolved ([featureA], [featureC]),
       snd (classifyBranches (Scripted.exec scenario) (Scripted.inOrder scenarioOrder)
              scenarioNow scenarioNow "/repo" (fresh tt))) /\
  (name featureC <> "main" /\ name featureC <> "master" /\
   name featureC <> "staging" /\ name featureC <> "production").
Proof.
  assert (H : classifyBranches (Scripted.exec scenario) (Scripted.inOrder scenarioOrder)
                scenarioNow scenarioNow "/repo" (fresh tt)
              = (Resolved ([featureA], [featureC]),
                 snd (classifyBranches (Scripted.exec scenario)
                        (Scripted.inOrder scenarioOrder)
                        scenarioNow scenarioNow "/repo" (fresh tt))))
    by (vm_compute; reflexivity).
  split; [exact H|].
  apply (proj1 (protected_names_never_classified unit (Scripted.exec scenario)
                  (Scripted.inOrder scenarioOrder) scenarioNow scenarioNow "/repo"
                  (fresh tt) _ [featureA] [featureC] H) featureC).
  right. left. reflexivity.
Defined.

(** ** Events of a run, by kind *)

Lemma filter_none {A : Type} (f : A -> bool) (l : list A) :
  (forall x, In x l -> f x = false) -> List.filter f l = [].
Proof.
  induction l as [|x l IH]; intros H; [reflexivity|].
  simpl. rewrite (H x (or_introl eq_refl)). apply IH. intros y Hy. apply H. now right.
Qed.

Lemma harmless_filters (events : list Event) :
  Forall harmless events ->
  List.filter isAsked events = [] /\ List.filter isDeletion events = [].
Proof.
  intros H. rewrite List.Forall_forall in H.
  split; apply filter_none; intros event Hin; now destruct (H event Hin).
Qed.

Lemma settled_filters (branches : list BranchNameWithDate) (settled : list Event) :
  (forall event, In event settled ->
     exists branch output,
       In branch branches /\
       (event = Echoed (deleteCommand (name branch)) output \/
        event = Settled (deleteCommand (name branch)) output)) ->
  Forall harmless settled /\
  (forall event, In event settled -> ~ lookupFails event).
Proof.
  intros H. split.
  - apply List.Forall_forall. intros event Hin.
    destruct (H event Hin) as (b & o & _ & [-> | ->]); split; reflexivity.
  - intros event Hin. destruct (H event Hin) as (b & o & _ & [-> | ->]); [intros []|].
    intros [(x & Hx & _) | (x & Hx & _)]; discriminate Hx.
Qed.

Lemma deletions_filters (dir : string) (branches : list BranchNameWithDate) :
  List.filter isAsked (deletions dir branches) = [] /\
  List.filter isDeletion (deletions dir branches) = deletions dir branches.
Proof.
  unfold deletions. induction branches as [|b l [IH1 IH2]]; [split; reflexivity|].
  split.
  - simpl. exact IH1.
  - cbn [map List.filter]. rewrite isDeletion_deleteCommand. now rewrite IH2.
Qed.

Lemma gateReport_filters (staleNow mergedNow : Z) (stale merged : list BranchNameWithDate) :
  Forall harmless (gateReport staleNow mergedNow stale merged) /\
  (forall event, In event (gateReport staleNow mergedNow stale merged) ->
     ~ lookupFails event).
Proof.
  split.
  - repeat constructor.
  - intros event Hin. repeat (destruct Hin as [<- | Hin]; [intros [] |]). destruct Hin.
Qed.

Lemma tail_filters (outcome : Outcome unit) :
  Forall harmless (afterDeleter outcome ++ errorLog outcome).
Proof. destruct outcome; repeat constructor. Qed.

(** ** Failed date lookups *)

(** C4, as the code has it: the resolution of a branch's commit date is fatal
    to the whole run whenever the fetch fails, the date query fails, or the
    text it prints does not convert to a number whose product with 1000
    makes a valid date other than the epoch (the text is not a number, or the
    date made of it is the epoch or is out of the range of dates).  Then the
    asynchronous function is rejected, no classification result is produced,
    nothing is asked and nothing is deleted in the whole run, the error is
    printed and the process exits with code 1. *)
Theorem lookup_failure_aborts_run :
  forall (World : Type) (exec : string -> string -> World -> ShellOutput * World)
         (askQuestion : string -> World -> string * World)
         (settleOrder : World -> list nat) (staleNow mergedNow : Z)
         (gitDir : string) (w : World) (event : Event),
    let start := {| world := w; trace := [Info (UsingDirectory gitDir)] |} in
    let result := main exec askQuestion settleOrder staleNow mergedNow gitDir w in
    In event (snd result) ->
    lookupFails event ->
    fst result = Some 1 /\
    Forall harmless (snd result) /\
    (exists e st',
       deleteStaleAndMergedBranches exec askQuestion settleOrder staleNow mergedNow
         gitDir start = (Rejected e, st') /\
       In (ErrorLogged e) (snd result)) /\
    (forall sets st1,
       classifyBranches exec settleOrder staleNow mergedNow gitDir start
         <> (Resolved sets, st1)).
Proof.
  intros World exec askQuestion settleOrder staleNow mergedNow gitDir w event start result.
  destruct (main_shape exec askQuestion settleOrder staleNow mergedNow gitDir w)
    as (outcome & st' & new & Hrun & Hmain & Hshape).
  fold start in Hrun, Hshape. subst result. rewrite Hmain. cbn [fst snd].
  intros Hin Hfail.
  assert (Hnew : In event new).
  { destruct Hin as [<- | Hin]; [destruct Hfail|].
    apply in_app_or in Hin as [Hin | Hin]; [exact Hin|].
    destruct outcome; simpl in Hin;
      [destruct Hin | destruct Hin as [<- | []]; destruct Hfail | destruct Hin | destruct Hin]. }
  destruct Hshape as [((Hh & Hf & Hex) & Hr & Hc) | (stale & merged & st1 & pre & response & H)].
  - destruct (Hf event Hnew Hfail) as [e ->].
    split; [reflexivity|]. split; [|split; [|exact Hc]].
    + constructor; [split; reflexivity|]. apply Forall_app. split; [exact Hh|].
      repeat constructor.
    + exists e, st'. split; [exact Hrun|]. right. apply in_or_app. right. now left.
  - exfalso. destruct H as (_ & (_ & Hf & _) & Hcase).
    assert (Hpre : ~ In event pre).
    { intros Hp. destruct (Hf event Hp Hfail) as [e He]. discriminate. }
    assert (Hrep : ~ In event (gateReport staleNow mergedNow stale merged)).
    { intros Hp. now apply (proj2 (gateReport_filters staleNow mergedNow stale merged) event). }
    destruct Hcase as [(_ & _ & ->) | (_ & settled & Hended & ->)].
    + apply in_app_or in Hnew as [Hp | Hp]; [now apply Hpre|].
      apply in_app_or in Hp as [Hp | Hp]; [now apply Hrep|].
      destruct Hp as [<- | [<- | []]]; destruct Hfail.
    + apply in_app_or in Hnew as [Hp | Hp]; [now apply Hpre|].
      apply in_app_or in Hp as [Hp | Hp]; [now apply Hrep|].
      apply in_app_or in Hp as [Hp | Hp]; [destruct Hp as [<- | []]; destruct Hfail|].
      apply in_app_or in Hp as [Hp | Hp].
      { unfold deletions in Hp. apply in_map_iff in Hp as (b & <- & _). destruct Hfail. }
      apply in_app_or in Hp as [Hp | Hp].
      { destruct Hended as (Hs & _).
        now apply (proj2 (settled_filters _ _ Hs) event). }
      destruct outcome; simpl in Hp;
        [destruct Hp as [<- | []]; destruct Hfail | destruct Hp | destruct Hp | destruct Hp].
Qed.

Lemma lookup_failure_aborts_run_witness :
  fst (main (Scripted.exec brokenLookup) (Scripted.respond "yes")
         (Scripted.inOrder scenarioOrder) scenarioNow scenarioNow "/repo" tt) = Some 1 /\
  Forall harmless
    (snd (main (Scripted.exec brokenLookup) (Scripted.respond "yes")
            (Scripted.inOrder scenarioOrder) scenarioNow scenarioNow "/repo" tt)).
Proof.
  destruct (lookup_failure_aborts_run unit (Scripted.exec brokenLookup)
              (Scripted.respond "yes") (Scripted.inOrder scenarioOrder)
              scenarioNow scenarioNow "/repo" tt
              (Settled (showCommand "feature-b") (Scripted.failed 128 "fatal: bad revision")))
    as (Hcode & Hquiet & _).
  - vm_compute. find_event.
  - right. exists "feature-b". split; [reflexivity|]. left. discriminate.
  - split; assumption.
Defined.

(** The claim C4 fails on the code for a text that is a number but not a
    positive integer: the date query of the only branch [x] prints [-5]; the
    resolver makes the date 5 seconds before the epoch of it, the branch is
    classified as stale and shown, the question is asked, and the run ends
    with exit code 0 on the answer [no]. *)
Lemma negative_timestamp_accepted :
  isPositiveInteger (Str.trim "-5") = false /\
  unusable (Scripted.ok "-5") = false /\
  let result := main (Scripted.exec beforeEpoch) (Scripted.respond "no")
                  (Scripted.inOrder scenarioOrder) scenarioNow scenarioNow "/repo" tt in
  In (Settled (showCommand "x") (Scripted.ok "-5")) (snd result) /\
  In (Info (BranchList [{| name := "x"; lastCommitDate := JS.DateAt (-5000) |}]))
     (snd result) /\
  In (Asked question "no") (snd result) /\
  fst result = Some 0 /\
  fst (classifyBranches (Scripted.exec beforeEpoch) (Scripted.inOrder scenarioOrder)
         scenarioNow scenarioNow "/repo" (scenarioStart "/repo"))
    = Resolved ([{| name := "x"; lastCommitDate := JS.DateAt (-5000) |}], []).
Proof.
  split; [reflexivity|]. split; [reflexivity|].
  vm_compute. repeat split; find_event.
Qed.

(** Texts on which the rounding of numbers shows.  The text
    [0.00099999999999999999999] is read as the number nearest to a
    thousandth, whose product with 1000 is 1: the date is one millisecond
    after the epoch and the lookup succeeds.  The product of [1.001] with
    1000 is below 1001, so the date is 1000.  The product of [0.0001] with
    1000 is a tenth: the date is the epoch and the lookup fails.  An integer
    above [2^53] is read as its even neighbour, and [1e400] as infinity,
    which makes no date. *)
Example rounded_timestamps :
  commitDateOf (Scripted.ok "0.00099999999999999999999") = JS.DateAt 1 /\
  unusable (Scripted.ok "0.00099999999999999999999") = false /\
  commitDateOf (Scripted.ok "1.001") = JS.DateAt 1000 /\
  commitDateOf (Scripted.ok "0.0001") = JS.DateAt 0 /\
  unusable (Scripted.ok "0.0001") = true /\
  Number "9007199254740993" = JS.ofZ 9007199254740992 /\
  Number "1e400" = JS.Inf false /\
  commitDateOf (Scripted.ok "1e400") = JS.InvalidDate /\
  unusable (Scripted.ok "1e400") = true.
Proof. vm_compute. repeat split; reflexivity. Qed.

(** A branch whose date query prints [1.001] is dated 1000, one millisecond
    before a threshold of 1001: it is stale, and on the answer "yes" it is
    deleted. *)
Example fractional_timestamp_is_truncated :
  let now := staleBranchAge + 1001 in
  let result := main (Scripted.exec [ (remoteCommand,
                                       Scripted.ok (Scripted.unlines ["a1 refs/heads/x"]));
                                      (showCommand "x", Scripted.ok "1.001") ])
                  (Scripted.respond "yes") (Scripted.inOrder scenarioOrder)
                  now now "/repo" tt in
  staleBranchDate now = JS.DateAt 1001 /\
  In (Info (BranchList [{| name := "x"; lastCommitDate := JS.DateAt 1000 |}])) (snd result) /\
  In (Spawned "/repo" (deleteCommand "x")) (snd result) /\
  fst result = Some 0.
Proof. vm_compute. repeat split; find_event. Qed.

(** ** The confirmation gate *)

(** The questions asked and the deletion commands started in each of the
    three ways a run can go. *)
Lemma asked_and_deleted :
  forall (World : Type) (exec : string -> string -> World -> ShellOutput * World)
         (askQuestion : string -> World -> string * World)
         (settleOrder : World -> list nat) (staleNow mergedNow : Z)
         (gitDir : string) (w : World),
    let start := {| world := w; trace := [Info (UsingDirectory gitDir)] |} in
    let result := main exec askQuestion settleOrder staleNow mergedNow gitDir w in
    (List.filter isAsked (snd result) = [] /\ List.filter isDeletion (snd result) = []) \/
    (exists response,
       response <> "yes" /\ fst result = Some 0 /\
       In (Info Declined) (snd result) /\
       List.filter isAsked (snd result) = [Asked question response] /\
       List.filter isDeletion (snd result) = []) \/
    (exists stale merged st1,
       classifyBranches exec settleOrder staleNow mergedNow gitDir start
         = (Resolved (stale, merged), st1) /\
       List.filter isAsked (snd result) = [Asked question "yes"] /\
       List.filter isDeletion (snd result) = deletions gitDir (stale ++ merged)).
Proof.
  intros World exec askQuestion settleOrder staleNow mergedNow gitDir w start result.
  destruct (main_shape exec askQuestion settleOrder staleNow mergedNow gitDir w)
    as (outcome & st' & new & Hrun & Hmain & Hshape).
  fold start in Hrun, Hshape. subst result. rewrite Hmain. cbn [fst snd].
  destruct Hshape as [((Hh & _) & _) | (stale & merged & st1 & pre & response & H)].
  - left. apply harmless_filters. constructor; [split; reflexivity|].
    apply Forall_app. split; [exact Hh|]. destruct outcome; repeat constructor.
  - right. destruct H as (Hclass & (Hpre & _) & Hcase).
    destruct (harmless_filters pre Hpre) as [Ha Hd].
    destruct (harmless_filters _ (proj1 (gateReport_filters staleNow mergedNow stale merged)))
      as [Hra Hrd].
    destruct Hcase as [(Hno & -> & ->) | (-> & settled & Hended & ->)].
    + left. exists response. split; [exact Hno|]. split; [reflexivity|]. split.
      { right. apply in_or_app. left. apply in_or_app. right. apply in_or_app. right.
        right. now left. }
      cbn [errorLog]. rewrite app_nil_r. cbn [List.filter isAsked isDeletion].
      rewrite !List.filter_app, Ha, Hd, Hra, Hrd. split; reflexivity.
    + right. exists stale, merged, st1. split; [exact Hclass|].
      destruct (deletions_filters gitDir (stale ++ merged)) as [Hda Hdd].
      destruct Hended as (Hs & _).
      destruct (harmless_filters _ (proj1 (settled_filters _ _ Hs))) as [Hsa Hsd].
      destruct (harmless_filters _ (tail_filters outcome)) as [Hta Htd].
      cbn [List.filter isAsked isDeletion].
      rewrite <- !app_assoc.
      rewrite !List.filter_app, Ha, Hd, Hra, Hrd, Hda, Hdd, Hsa, Hsd.
      rewrite <- !List.filter_app, Hta, Htd. cbn [List.filter isAsked isDeletion].
      rewrite !app_nil_r. split; reflexivity.
Qed.

Lemma asked_in_filter (events : list Event) (q r : string) :
  In (Asked q r) events -> In (Asked q r) (List.filter isAsked events).
Proof. intros H. apply filter_In. split; [exact H | reflexivity]. Qed.

(** What each response leads to. *)
Lemma responses_and_deletions :
  forall (World : Type) (exec : string -> string -> World -> ShellOutput * World)
         (askQuestion : string -> World -> string * World)
         (settleOrder : World -> list nat) (staleNow mergedNow : Z)
         (gitDir : string) (w : World),
    let start := {| world := w; trace := [Info (UsingDirectory gitDir)] |} in
    let result := main exec askQuestion settleOrder staleNow mergedNow gitDir w in
    (forall q response,
       In (Asked q response) (snd result) -> response <> "yes" ->
       fst result = Some 0 /\
       In (Info Declined) (snd result) /\
       List.filter isDeletion (snd result) = []) /\
    (forall q,
       In (Asked q "yes") (snd result) ->
       exists stale merged st1,
         classifyBranches exec settleOrder staleNow mergedNow gitDir start
           = (Resolved (stale, merged), st1) /\
         List.filter isDeletion (snd result) = deletions gitDir (stale ++ merged)) /\
    (forall event,
       In event (snd result) -> isDeletion event = true ->
       In (Asked question "yes") (snd result)).
Proof.
  intros World exec askQuestion settleOrder staleNow mergedNow gitDir w start result.
  destruct (asked_and_deleted World exec askQuestion settleOrder staleNow mergedNow gitDir w)
    as [(Ha & Hd) | [(response & Hno & Hcode & Hdecl & Ha & Hd)
                    | (stale & merged & st1 & Hclass & Ha & Hd)]];
    fold start in Hclass || idtac; fold result in Ha, Hd.
  - split; [|split].
    + intros q r Hin _. apply asked_in_filter in Hin. rewrite Ha in Hin. destruct Hin.
    + intros q Hin. apply asked_in_filter in Hin. rewrite Ha in Hin. destruct Hin.
    + intros event Hin Hdel.
      assert (Hf : In event (List.filter isDeletion (snd result)))
        by (apply filter_In; now split).
      rewrite Hd in Hf. destruct Hf.
  - fold result in Hcode, Hdecl. split; [|split].
    + intros q r Hin _. auto.
    + intros q Hin. apply asked_in_filter in Hin. rewrite Ha in Hin.
      destruct Hin as [Heq | []]. injection Heq as _ Heq. congruence.
    + intros event Hin Hdel.
      assert (Hf : In event (List.filter isDeletion (snd result)))
        by (apply filter_In; now split).
      rewrite Hd in Hf. destruct Hf.
  - split; [|split].
    + intros q r Hin Hno. apply asked_in_filter in Hin. rewrite Ha in Hin.
      destruct Hin as [Heq | []]. injection Heq as _ Heq. congruence.
    + intros q _. exists stale, merged, st1. split; assumption.
    + intros event _ _.
      assert (Hf : In (Asked question "yes") (List.filter isAsked (snd result)))
        by (rewrite Ha; now left).
      now apply filter_In in Hf.
Qed.

(** C5, as the code has it: no deletion command is started unless the
    response is exactly "yes", compared as a string, with no tolerance for
    case or white space.  On any other response, the empty one included, the
    run says that the user declined and exits with code 0, and no deletion
    command is started; on "yes" one deletion command is started for each
    record of the stale set followed by the merged set; a run in which a
    deletion command is started is a run in which "yes" was the response; so
    a deletion command is started if and only if the response is "yes" and
    there is a record to delete. *)
Theorem only_yes_deletes :
  forall (World : Type) (exec : string -> string -> World -> ShellOutput * World)
         (askQuestion : string -> World -> string * World)
         (settleOrder : World -> list nat) (staleNow mergedNow : Z)
         (gitDir : string) (w : World),
    let start := {| world := w; trace := [Info (UsingDirectory gitDir)] |} in
    let result := main exec askQuestion settleOrder staleNow mergedNow gitDir w in
    (forall q response,
       In (Asked q response) (snd result) -> response <> "yes" ->
       fst result = Some 0 /\
       In (Info Declined) (snd result) /\
       List.filter isDeletion (snd result) = []) /\
    (forall q,
       In (Asked q "yes") (snd result) ->
       exists stale merged st1,
         classifyBranches exec settleOrder staleNow mergedNow gitDir start
           = (Resolved (stale, merged), st1) /\
         List.filter isDeletion (snd result) = deletions gitDir (stale ++ merged)) /\
    (forall event,
       In event (snd result) -> isDeletion event = true ->
       In (Asked question "yes") (snd result)) /\
    (forall stale merged st1,
       classifyBranches exec settleOrder staleNow mergedNow gitDir start
         = (Resolved (stale, merged), st1) ->
       ((exists event, In event (snd result) /\ isDeletion event = true) <->
        In (Asked question "yes") (snd result) /\ (stale ++ merged)%list <> [])).
Proof.
  intros World exec askQuestion settleOrder staleNow mergedNow gitDir w start result.
  destruct (responses_and_deletions World exec askQuestion settleOrder staleNow mergedNow
              gitDir w) as (H1 & H2 & H3).
  fold start in H2. fold result in H1, H2, H3.
  split; [exact H1|]. split; [exact H2|]. split; [exact H3|].
  intros stale merged st1 Hclass. split.
  - intros (event & Hin & Hdel). pose proof (H3 event Hin Hdel) as Hyes.
    split; [exact Hyes|].
    destruct (H2 question Hyes) as (stale' & merged' & st1' & Hclass' & Hfil).
    rewrite Hclass in Hclass'. injection Hclass' as <- <- <-.
    intros Hnil. rewrite Hnil in Hfil.
    assert (Hf : In event (List.filter isDeletion (snd result)))
      by (apply filter_In; now split).
    rewrite Hfil in Hf. destruct Hf.
  - intros [Hyes Hne].
    destruct (H2 question Hyes) as (stale' & merged' & st1' & Hclass' & Hfil).
    rewrite Hclass in Hclass'. injection Hclass' as <- <- <-.
    destruct (stale ++ merged)%list as [|b l]; [congruence|].
    exists (Spawned gitDir (deleteCommand (name b))).
    apply (filter_In isDeletion). rewrite Hfil. now left.
Qed.

Lemma only_yes_deletes_witness :
  (fst (main (Scripted.exec scenario) (Scripted.respond "Yes")
          (Scripted.inOrder scenarioOrder) scenarioNow scenarioNow "/repo" tt) = Some 0 /\
   In (Info Declined)
      (snd (main (Scripted.exec scenario) (Scripted.respond "Yes")
              (Scripted.inOrder scenarioOrder) scenarioNow scenarioNow "/repo" tt)) /\
   List.filter isDeletion
     (snd (main (Scripted.exec scenario) (Scripted.respond "Yes")
             (Scripted.inOrder scenarioOrder) scenarioNow scenarioNow "/repo" tt)) = []) /\
  (fst (main (Scripted.exec scenario) (Scripted.respond "")
          (Scripted.inOrder scenarioOrder) scenarioNow scenarioNow "/repo" tt) = Some 0 /\
   In (Info Declined)
      (snd (main (Scripted.exec scenario) (Scripted.respond "")
              (Scripted.inOrder scenarioOrder) scenarioNow scenarioNow "/repo" tt)) /\
   List.filter isDeletion
     (snd (main (Scripted.exec scenario) (Scripted.respond "")
             (Scripted.inOrder scenarioOrder) scenarioNow scenarioNow "/repo" tt)) = []) /\
  (exists stale merged st1,
     classifyBranches (Scripted.exec scenario) (Scripted.inOrder scenarioOrder)
       scenarioNow scenarioNow "/repo" (scenarioStart "/repo")
       = (Resolved (stale, merged), st1) /\
     List.filter isDeletion
       (snd (main (Scripted.exec scenario) (Scripted.respond "yes")
               (Scripted.inOrder scenarioOrder) scenarioNow scenarioNow "/repo" tt))
       = deletions "/repo" (stale ++ merged)).
Proof.
  split; [|split].
  - apply (proj1 (only_yes_deletes unit (Scripted.exec scenario) (Scripted.respond "Yes")
                    (Scripted.inOrder scenarioOrder) scenarioNow scenarioNow "/repo" tt)
             question "Yes").
    + vm_compute. find_event.
    + discriminate.
  - apply (proj1 (only_yes_deletes unit (Scripted.exec scenario) (Scripted.respond "")
                    (Scripted.inOrder scenarioOrder) scenarioNow scenarioNow "/repo" tt)
             question "").
    + vm_compute. find_event.
    + discriminate.
  - apply (proj1 (proj2 (only_yes_deletes unit (Scripted.exec scenario)
                    (Scripted.respond "yes") (Scripted.inOrder scenarioOrder)
                    scenarioNow scenarioNow "/repo" tt)) question).
    vm_compute. find_event.
Defined.

(** The claim C5 fails on the code when nothing is classified: only
    protected branches are listed, the response is exactly "yes", and no
    deletion command is started; the run says that it is done and exits with
    code 0. *)
Lemma yes_with_nothing_to_delete :
  let result := main (Scripted.exec onlyProtected) (Scripted.respond "yes")
                  (Scripted.inOrder []) scenarioNow scenarioNow "/repo" tt in
  In (Asked question "yes") (snd result) /\
  List.filter isDeletion (snd result) = [] /\
  (forall event, In event (snd result) -> isDeletion event = false) /\
  In (Info Done) (snd result) /\
  fst result = Some 0 /\
  fst (classifyBranches (Scripted.exec onlyProtected) (Scripted.inOrder [])
         scenarioNow scenarioNow "/repo" (scenarioStart "/repo"))
    = Resolved ([], []).
Proof.
  vm_compute. split; [find_event|]. split; [reflexivity|]. split.
  - intros event Hin.
    repeat (destruct Hin as [<- | Hin]; [reflexivity|]). destruct Hin.
  - split; [find_event|]. split; reflexivity.
Qed.

(** ** The deleter *)



(** The scenario of the spec: of the approved deletions the second fails.
    Both deletion commands have been started; the output of the first has
    arrived, echoed to the console, and nothing undoes it; the run ends with
    the echo of the failed deletion, its output and the error printed, and
    exit code 1. *)
Example second_deletion_fails :
  main (Scripted.exec brokenDeletion) (Scripted.respond "yes")
    (Scripted.inOrder scenarioOrder) scenarioNow scenarioNow "/repo" tt
  = (Some 1,
     ([Info (UsingDirectory "/repo")]
      ++ [Spawned "/repo" pruneCommand; Settled pruneCommand (Scripted.ok "")]
      ++ [Spawned "/repo" remoteCommand;
          Settled remoteCommand (Scripted.lookup scenario remoteCommand)]
      ++ [Spawned "/repo" mergedCommand;
          Settled mergedCommand (Scripted.lookup scenario mergedCommand)]
      ++ [Spawned "/repo" (fetchCommand "feature-a");
          Spawned "/repo" (fetchCommand "feature-b");
          Spawned "/repo" (fetchCommand "feature-c");
          Settled (fetchCommand "feature-a") (Scripted.ok "");
          Spawned "/repo" (showCommand "feature-a");
          Settled (fetchCommand "feature-b") (Scripted.ok "");
          Spawned "/repo" (showCommand "feature-b");
          Settled (fetchCommand "feature-c") (Scripted.ok "");
          Spawned "/repo" (showCommand "feature-c");
          Settled (showCommand "feature-a") (Scripted.ok "1665440000");
          Settled (showCommand "feature-b") (Scripted.ok "1699136000");
          Settled (showCommand "feature-c") (Scripted.ok "1698272000")]
      ++ [Spawned "/repo" (fetchCommand "feature-a");
          Spawned "/repo" (fetchCommand "feature-c");
          Settled (fetchCommand "feature-a") (Scripted.ok "");
          Spawned "/repo" (showCommand "feature-a");
          Settled (fetchCommand "feature-c") (Scripted.ok "");
          Spawned "/repo" (showCommand "feature-c");
          Settled (showCommand "feature-a") (Scripted.ok "1665440000");
          Settled (showCommand "feature-c") (Scripted.ok "1698272000")]
      ++ gateReport scenarioNow scenarioNow [featureA] [featureC]
      ++ [Asked question "yes"]
      ++ deletions "/repo" [featureA; featureC]
      ++ completions [(featureA, Scripted.ok "");
                      (featureC, Scripted.failed 1 "remote rejected")]
      ++ [ErrorLogged (ShellRejection (deleteCommand "feature-c")
                         (Scripted.failed 1 "remote rejected"))])%list).
Proof. vm_compute. reflexivity. Qed.
(** * Further properties *)

(** ** More on the classifier *)

Lemma filter_ext_in_bool {A : Type} (f g : A -> bool) (l : list A) :
  (forall a, In a l -> f a = g a) -> List.filter f l = List.filter g l.
Proof.
  induction l as [|x l IH]; intros H; [reflexivity|].
  simpl. rewrite (H x (or_introl eq_refl)), IH; [reflexivity|].
  intros a Ha. apply H. now right.
Qed.

Lemma olderThan_later (t1 t2 : Z) (b : BranchNameWithDate) :
  t1 <= t2 -> olderThan (JS.DateAt t1) b = true -> olderThan (JS.DateAt t2) b = true.
Proof.
  intros Hle H. apply olderThan_spec in H as (t & x & [= <-] & Hx & Hlt).
  apply olderThan_spec. exists t2, x. repeat split; [exact Hx | lia].
Qed.

(** X1: a later threshold classifies more: every record classified with a
    threshold is classified with any later one; and classifying with the
    later threshold first and the earlier one afterwards gives the same list
    as classifying with the earlier one at once. *)
Theorem classifier_narrowing :
  forall (bs : list BranchNameWithDate) (t1 t2 : Z),
    t1 <= t2 ->
    (forall b, In b (filterToBranchesModifiedSinceDate bs (JS.DateAt t1)) ->
               In b (filterToBranchesModifiedSinceDate bs (JS.DateAt t2))) /\
    filterToBranchesModifiedSinceDate
      (filterToBranchesModifiedSinceDate bs (JS.DateAt t2)) (JS.DateAt t1)
    = filterToBranchesModifiedSinceDate bs (JS.DateAt t1).
Proof.
  intros bs t1 t2 Hle. split.
  - intros b Hb. apply classifier_In in Hb as [Hin Ho]. apply classifier_In.
    split; [exact Hin | now apply (olderThan_later t1 t2)].
  - apply classifier_determined; [apply classifier_sorted|].
    intros d. unfold filterToBranchesModifiedSinceDate at 1.
    rewrite sort_filter by apply committedAt_not_positive.
    rewrite filter_filter_andb. unfold filterToBranchesModifiedSinceDate.
    rewrite sort_filter.
    2: { intros a b Ha Hb. apply andb_prop in Ha as [Ha _]. apply andb_prop in Hb as [Hb _].
         now apply (committedAt_not_positive d). }
    rewrite filter_filter_andb. apply filter_ext_in_bool. intros b _.
    destruct (committedAt d b); simpl; [|reflexivity].
    destruct (olderThan (JS.DateAt t1) b) eqn:H1; simpl; [|reflexivity].
    now rewrite (olderThan_later t1 t2 b Hle H1).
Qed.

Lemma classifier_narrowing_witness :
  1665440000001 <= 1698272000001 /\
  filterToBranchesModifiedSinceDate
    (filterToBranchesModifiedSinceDate [featureC; featureA] (JS.DateAt 1698272000001))
    (JS.DateAt 1665440000001)
  = filterToBranchesModifiedSinceDate [featureC; featureA] (JS.DateAt 1665440000001).
Proof.
  split; [lia|].
  apply (proj2 (classifier_narrowing [featureC; featureA] 1665440000001 1698272000001 ltac:(lia))).
Defined.

(** ** More on the date lookups *)

Lemma falsy_date (d : JS.Date) :
  JS.falsy (JS.NumberOfDate d) = false <-> exists ms, d = JS.DateAt ms /\ ms <> 0.
Proof.
  destruct d as [|ms]; simpl.
  - split; [discriminate | intros (? & ? & _); discriminate].
  - split.
    + intros H. exists ms. split; [reflexivity|]. intros ->. discriminate H.
    + intros (x & [= <-] & Hx). apply Bool.not_true_iff_false. intros Ht.
      apply Qeq_bool_iff in Ht. unfold Qeq in Ht. simpl in Ht. lia.
Qed.

Lemma reaches_branchDate_Throw (contextDir branchName : string)
    (history : list Event) (e : Error) :
  reaches (branchDate contextDir branchName) history (Throw e) ->
  exists command output,
    In (Settled command output) history /\ lookupError branchName command output e.
Proof.
  intros H. apply reaches_Await in H as [[_ H] | (fetched & history' & -> & H)];
    [discriminate|].
  simpl in H |- *.
  destruct (exitCode fetched =? 0) eqn:Hf;
    simpl in H |- *; rewrite ?Hf in H |- *; simpl in H |- *.
  2: { apply reaches_Throw in H as [-> [= ->]].
       exists (fetchCommand branchName), fetched. split; [now left|]. left.
       split; [reflexivity|]. split; [now apply Z.eqb_neq | reflexivity]. }
  apply reaches_Await in H as [[_ H] | (shown & history'' & -> & H)]; [discriminate|].
  exists (showCommand branchName), shown. split; [right; right; now left|].
  simpl in H. unfold lookupError, commitDateOf.
  destruct (exitCode shown =? 0) eqn:Hs; simpl in H; rewrite ?Hs in H; simpl in H.
  2: { apply reaches_Throw in H as [_ [= ->]]. right. left.
       split; [reflexivity|]. split; [now apply Z.eqb_neq | reflexivity]. }
  apply Z.eqb_eq in Hs.
  destruct (JS.isNaN (Number (Str.trim (stdout shown)))) eqn:Hn; simpl in H.
  { apply reaches_Throw in H as [_ [= ->]]. right. right. left. auto. }
  destruct (JS.falsy _) eqn:Hz; simpl in H.
  { apply reaches_Throw in H as [_ [= ->]]. right. right. right. auto 6. }
  apply reaches_Return in H as [_ H]. discriminate.
Qed.

Lemma branchDate_resolvedFrom (contextDir branchName : string) (history : list Event)
    (branch : BranchNameWithDate) :
  reaches (branchDate contextDir branchName) history (Return branch) ->
  resolvedFrom history branchName branch.
Proof.
  intros H.
  apply reaches_branchDate in H
    as [[_ H] | (fetched & [(_ & _ & e & H) | (Hf & [(_ & k & H) | (shown & -> & Hs)])])];
    try discriminate.
  destruct Hs as [(_ & e & H) | (Hc & Hu & H)]; [discriminate|].
  injection H as ->. split; [reflexivity|].
  unfold unusable in Hu. apply Bool.orb_false_iff in Hu as [_ Hu].
  apply falsy_date in Hu as (ms & Hms & Hne).
  exists fetched, shown, ms. simpl. repeat split; auto.
Qed.

Lemma branchDate_lookupEvent (contextDir branchName : string) (history : list Event)
    (task' : Task BranchNameWithDate) (event : Event) :
  reaches (branchDate contextDir branchName) history task' -> In event history ->
  event = Spawned contextDir (showCommand branchName) \/
  (exists output, event = Settled (fetchCommand branchName) output) \/
  (exists output, event = Settled (showCommand branchName) output).
Proof.
  intros H Hin.
  apply reaches_branchDate in H
    as [[-> _] | (fetched & [(Hf & -> & He) | (Hf & [(-> & k & ->) | (shown & -> & Hs)])])].
  - destruct Hin.
  - destruct Hin as [<- | []]. eauto.
  - destruct Hin as [<- | [<- | []]]; eauto.
  - destruct Hin as [<- | [<- | [<- | []]]]; eauto.
Qed.

Section MoreRunFacts.
Context {World : Type}.
Variable exec : string -> string -> World -> ShellOutput * World.
Variable askQuestion : string -> World -> string * World.
Variable settleOrder : World -> list nat.
Variables staleNow mergedNow : Z.

(** One pass of date lookups, in full: every fetch is started, in order,
    before any output arrives; what follows belongs to the lookups of the
    given names; a command that fails rejects the pass; a rejection is the
    error of one lookup whose output was seen; a fulfilled pass gives, for
    each name in order, a record resolved from outputs that were seen. *)
Lemma getBranchDates_full (contextDir : string) (branchNames : list string) (st : State) :
  exists outcome st' later,
    getBranchDates exec settleOrder contextDir branchNames st = (outcome, st') /\
    trace st' =
      (trace st
       ++ map (fun branchName => Spawned contextDir (fetchCommand branchName)) branchNames
       ++ later)%list /\
    (forall event, In event later -> lookupEvent contextDir branchNames event) /\
    (forall command output,
       In (Settled command output) later -> exitCode output <> 0 ->
       exists e, outcome = Rejected e) /\
    (forall e, outcome = Rejected e ->
       exists branchName command output,
         In branchName branchNames /\ In (Settled command output) later /\
         lookupError branchName command output e) /\
    (forall branches, outcome = Resolved branches ->
       Forall2 (resolvedFrom later) branchNames branches) /\
    (forall code, outcome <> Exited code).
Proof.
  unfold getBranchDates, promiseAll.
  set (slots := map (branchDate contextDir) branchNames).
  destruct (settleAll_final exec (settleOrder (world st)) slots
              (emit (flat_map started slots) st))
    as (finals & histories & st' & new & Heq & Htrace & Hstop).
  exists (outcomeOf finals), st', new.
  split; [exact Heq|]. split.
  { rewrite Htrace. unfold slots. simpl. now rewrite started_branchDates, app_assoc. }
  assert (Hslot : forall i task, slots !! i = Some task ->
            exists branchName, branchNames !! i = Some branchName /\
                               In branchName branchNames /\
                               task = branchDate contextDir branchName).
  { intros i task Hi. unfold slots in Hi. rewrite list_lookup_fmap in Hi.
    destruct (branchNames !! i) as [n|] eqn:Hn; [|discriminate].
    injection Hi as <-. exists n. split; [reflexivity|]. split; [|reflexivity].
    apply list_elem_of_In, list_elem_of_lookup. eauto. }
  split; [|split; [|split; [|split]]].
  - intros event Hin.
    destruct (stoppedIn_event _ _ _ _ _ Hstop Hin) as (i & task & h & t' & Hi & _ & Hr & Hh).
    destruct (Hslot i task Hi) as (n & _ & Hn & ->).
    exists n. split; [exact Hn|].
    destruct (branchDate_lookupEvent contextDir n h t' event Hr Hh) as [H | [H | H]]; auto.
  - intros command output Hin Hcode.
    destruct (stoppedIn_event _ _ _ _ _ Hstop Hin) as (i & task & h & t' & Hi & Hf & Hr & Hh).
    destruct (Hslot i task Hi) as (n & _ & Hn & ->).
    destruct (branchDate_event contextDir n h t' _ Hr Hh) as [_ Ht].
    destruct Ht as [e ->]; [|now apply outcomeOf_Throw in Hf].
    destruct (branchDate_lookupEvent contextDir n h t' _ Hr Hh)
      as [H | [(o & H) | (o & H)]]; [discriminate| |]; injection H as -> ->.
    + left. exists n. split; [reflexivity | exact Hcode].
    + right. exists n. split; [reflexivity | left; exact Hcode].
  - intros e He.
    assert (Hrej : rejection finals = Some e).
    { unfold outcomeOf in He. destruct (rejection finals) as [e'|].
      - now injection He as ->.
      - destruct (fulfilled finals); discriminate. }
    apply rejection_Some in Hrej as [i Hi].
    destruct (lookup_lt_is_Some_2 slots i) as [task Ht].
    { destruct Hstop as (Hl & _). rewrite <- Hl. now apply lookup_lt_Some in Hi. }
    destruct (stoppedIn_slot _ _ _ _ _ _ Hstop Ht) as (h & t' & Hf & Hr & Hsub).
    rewrite Hi in Hf. injection Hf as <-.
    destruct (Hslot i task Ht) as (n & _ & Hn & ->).
    apply reaches_branchDate_Throw in Hr as (command & output & Hin & Herr).
    exists n, command, output. auto.
  - intros branches Hres. apply outcomeOf_Resolved in Hres.
    apply Forall2_same_length_lookup_2.
    + destruct Hstop as (Hl & _). unfold slots in Hl. rewrite Hres, !length_map in Hl.
      lia.
    + intros i n branch Hn Hb.
      assert (Hfi : finals !! i = Some (Return branch))
        by (rewrite Hres, list_lookup_fmap, Hb; reflexivity).
      assert (Ht : slots !! i = Some (branchDate contextDir n))
        by (unfold slots; rewrite list_lookup_fmap, Hn; reflexivity).
      destruct (stoppedIn_slot _ _ _ _ _ _ Hstop Ht) as (h & t' & Hf & Hr & Hsub).
      rewrite Hfi in Hf. injection Hf as <-.
      apply branchDate_resolvedFrom in Hr as (Hname & fetched & shown & ms & H).
      split; [exact Hname|]. exists fetched, shown, ms.
      destruct H as (H1 & H2 & H3 & H4 & H5 & H6 & H7). repeat split; auto.
  - intros code. apply outcomeOf_not_Exited.
Qed.

End MoreRunFacts.

(** ** More on the stages of a run *)

Lemma mapLines_Thrown_inv (callback : string -> Result string) (lines : list string)
    (e : Error) :
  mapLines callback lines = Thrown e ->
  exists line, In line lines /\ callback line = Thrown e.
Proof.
  induction lines as [|l lines IH]; [discriminate|]. simpl.
  destruct (callback l) as [b|e'] eqn:Hl.
  - destruct (mapLines callback lines) as [bs|e'']; [discriminate|].
    intros [= ->]. destruct (IH eq_refl) as (line & Hin & Hc). eauto.
  - intros [= ->]. eauto.
Qed.

Lemma namesOfListing_Thrown (regExp : RegExp) (output : ShellOutput) (e : Error) :
  namesOfListing regExp output = Thrown e ->
  exists line,
    In line (Str.split Str.newline (stdout output)) /\ line <> "" /\ e = NoBranchName line.
Proof.
  unfold namesOfListing.
  destruct (mapLines _ _) as [names|e'] eqn:Hm; [discriminate|]. intros [= ->].
  apply mapLines_Thrown_inv in Hm as (line & Hin & Hc).
  apply filter_In in Hin as [Hin Ht]. apply branchNameOfLine_thrown in Hc.
  exists line. split; [exact Hin|]. split; [now apply isTruthy_iff | exact Hc].
Qed.

Lemma runError_incl (events events' : list Event) (e : Error) :
  (forall event, In event events -> In event events') ->
  runError events e -> runError events' e.
Proof.
  intros Hsub [(c & o & Hin & H) | [(c & o & l & Hc & Hin & H) | (n & o & Hin & H)]].
  - left. exists c, o. auto.
  - right. left. exists c, o, l. auto.
  - right. right. exists n, o. auto.
Qed.

Lemma resolvedFrom_incl (events events' : list Event) (branchName : string)
    (branch : BranchNameWithDate) :
  (forall event, In event events -> In event events') ->
  resolvedFrom events branchName branch -> resolvedFrom events' branchName branch.
Proof.
  intros Hsub (Hn & f & s & ms & H1 & H2 & H3 & H4 & H5 & H6 & H7).
  split; [exact Hn|]. exists f, s, ms. repeat split; auto.
Qed.

Lemma stepLeaves_app {A B : Type} (contextDir : string) (a : A) (outcome : Outcome B)
    (events1 events2 : list Event) :
  stepLeaves contextDir (Resolved a) events1 ->
  stepLeaves contextDir outcome events2 ->
  stepLeaves contextDir outcome (events1 ++ events2).
Proof.
  intros (F1 & _ & H1 & D1 & _ & K1) (F2 & R2 & H2 & D2 & E2 & K2).
  split; [|split; [|split; [|split; [|split]]]].
  - intros c o Hin Hcode. apply in_app_or in Hin as [Hin | Hin]; [|eauto].
    destruct (F1 c o Hin Hcode) as [e He]. discriminate.
  - intros e He. eapply runError_incl; [|apply (R2 e He)].
    intros event Hin. apply in_or_app. now right.
  - apply Forall_app. now split.
  - intros d c Hin. apply in_app_or in Hin as [Hin | Hin]; eauto.
  - exact E2.
  - apply Forall_app. now split.
Qed.

Lemma stepLeaves_Rejected {A B : Type} (contextDir : string) (e : Error)
    (events : list Event) :
  stepLeaves contextDir (Rejected e : Outcome A) events ->
  stepLeaves contextDir (Rejected e : Outcome B) events.
Proof.
  intros (F & R & H & D & _ & K). split; [|split; [|split; [|split; [|split]]]].
  - intros c o Hin Hcode. eauto.
  - intros e' [= <-]. now apply R.
  - exact H.
  - exact D.
  - discriminate.
  - exact K.
Qed.

Lemma stepLeaves_Pending {A B : Type} (contextDir : string) (events : list Event) :
  stepLeaves contextDir (Pending : Outcome A) events ->
  stepLeaves contextDir (Pending : Outcome B) events.
Proof.
  intros (F & R & H & D & _ & K). split; [|split; [|split; [|split; [|split]]]].
  - intros c o Hin Hcode. destruct (F c o Hin Hcode) as [e He]. discriminate.
  - discriminate.
  - exact H.
  - exact D.
  - discriminate.
  - exact K.
Qed.

Lemma stepLeaves_Resolved {A B : Type} (contextDir : string) (a : A) (b : B)
    (events : list Event) :
  stepLeaves contextDir (Resolved a) events -> stepLeaves contextDir (Resolved b) events.
Proof.
  intros (F & R & H & D & _ & K). split; [|split; [|split; [|split; [|split]]]].
  - intros c o Hin Hcode. destruct (F c o Hin Hcode) as [e He]. discriminate.
  - discriminate.
  - exact H.
  - exact D.
  - discriminate.
  - exact K.
Qed.

(** A step that runs one of the three listing commands. *)
Lemma stepLeaves_listing {A : Type} (contextDir command : string) (output : ShellOutput)
    (outcome : Outcome A) :
  command = pruneCommand \/ command = remoteCommand \/ command = mergedCommand ->
  (exitCode output <> 0 /\ outcome = Rejected (ShellRejection command output)) \/
  (exitCode output = 0 /\
   ((exists a, outcome = Resolved a) \/
    (exists line, (command = remoteCommand \/ command = mergedCommand) /\
                  In line (Str.split Str.newline (stdout output)) /\ line <> "" /\
                  outcome = Rejected (NoBranchName line)))) ->
  stepLeaves contextDir outcome [Spawned contextDir command; Settled command output].
Proof.
  intros Hc Hcase. split; [|split; [|split; [|split; [|split]]]].
  - intros c o [Hin | [Hin | []]] Hcode; [discriminate|]. injection Hin as -> ->.
    destruct Hcase as [(_ & ->) | (Hz & _)]; [eauto | contradiction].
  - intros e ->.
    destruct Hcase as [(Hz & [= ->]) | (Hz & [(a & Ha) | (line & Hl & Hin & Hne & [= ->])])].
    + left. exists command, output. split; [right; now left | auto].
    + discriminate.
    + right. left. exists command, output, line.
      split; [exact Hl|]. split; [right; now left | auto].
  - repeat constructor; destruct Hc as [-> | [-> | ->]]; reflexivity.
  - intros d c [Hin | [Hin | []]]; [now injection Hin as <- | discriminate].
  - intros code.
    destruct Hcase as [(_ & ->) | (_ & [(a & ->) | (line & _ & _ & _ & ->)])]; discriminate.
  - repeat (constructor; [simpl; unfold stageCommand; tauto|]). constructor.
Qed.

Section MoreStages.
Context {World : Type}.
Variable exec : string -> string -> World -> ShellOutput * World.
Variable askQuestion : string -> World -> string * World.
Variable settleOrder : World -> list nat.
Variables staleNow mergedNow : Z.

Lemma getBranchDates_leaves (contextDir : string) (branchNames : list string) (st : State) :
  exists outcome st' new,
    getBranchDates exec settleOrder contextDir branchNames st = (outcome, st') /\
    trace st' = (trace st ++ new)%list /\
    stepLeaves contextDir outcome new /\
    (forall branches, outcome = Resolved branches ->
       Forall2 (resolvedFrom new) branchNames branches).
Proof.
  destruct (getBranchDates_full exec settleOrder contextDir branchNames st)
    as (outcome & st' & later & Heq & Htr & Hev & Hfail & Hrej & Hres & Hex).
  exists outcome, st',
    (map (fun branchName => Spawned contextDir (fetchCommand branchName)) branchNames
     ++ later)%list.
  split; [exact Heq|]. split; [exact Htr|]. split.
  - split; [|split; [|split; [|split; [|split]]]].
    + intros c o Hin Hcode. apply in_app_or in Hin as [Hin | Hin]; [|eauto].
      apply in_map_iff in Hin as (n & Hn & _). discriminate.
    + intros e He. destruct (Hrej e He) as (n & c & o & _ & Hin & Herr).
      assert (Hin' : In (Settled c o)
                (map (fun branchName => Spawned contextDir (fetchCommand branchName))
                   branchNames ++ later)) by (apply in_or_app; now right).
      destruct Herr as [(-> & Hc & ->) | [(-> & Hc & ->) | [(-> & Hc & Hn & ->)
                                                          | (-> & Hc & Hn & Hz & ->)]]].
      * left. eauto.
      * left. eauto.
      * right. right. exists n, o. auto.
      * right. right. exists n, o. auto 6.
    + apply Forall_app. split; apply List.Forall_forall; intros event Hin.
      * apply in_map_iff in Hin as (n & <- & _). split; reflexivity.
      * destruct (Hev event Hin) as (n & _ & [-> | [-> | [(o & ->) | (o & ->)]]]);
          split; reflexivity.
    + intros d c Hin. apply in_app_or in Hin as [Hin | Hin].
      * apply in_map_iff in Hin as (n & Hn & _). now injection Hn.
      * destruct (Hev _ Hin) as (n & _ & [H | [H | [(o & H) | (o & H)]]]);
          try discriminate; now injection H.
    + exact Hex.
    + apply Forall_app. split; apply List.Forall_forall; intros event Hin.
      * apply in_map_iff in Hin as (n & <- & _). simpl. unfold stageCommand. eauto 6.
      * destruct (Hev event Hin) as (n & _ & [-> | [-> | [(o & ->) | (o & ->)]]]);
          simpl; unfold stageCommand; eauto 6.
  - intros branches Hb. eapply Forall2_impl; [apply (Hres branches Hb)|].
    intros n b. apply resolvedFrom_incl. intros event Hin. apply in_or_app. now right.
Qed.

(** The classification stage, in full. *)
Lemma classifyBranches_full (contextDir : string) (st : State) :
  exists outcome st' new,
    classifyBranches exec settleOrder staleNow mergedNow contextDir st = (outcome, st') /\
    trace st' = (trace st ++ new)%list /\
    classifyLeaves contextDir staleNow mergedNow outcome new.
Proof.
  unfold classifyBranches. unfold mbind, M_mbind, M_bind.
  rewrite await_pruneRemote.
  destruct (exec contextDir pruneCommand (world st)) as [o1 w1].
  set (pruning := [Spawned contextDir pruneCommand; Settled pruneCommand o1]).
  destruct (exitCode o1 =? 0) eqn:H1; cbn [negb]; cbv beta iota zeta.
  2: { apply Z.eqb_neq in H1.
       eexists _, _, pruning. split; [reflexivity|]. split; [reflexivity|].
       split; [|split].
       - apply stepLeaves_listing; auto.
       - exists o1, []. split; [reflexivity | auto].
       - discriminate. }
  apply Z.eqb_eq in H1.
  assert (S1 : stepLeaves contextDir (Resolved tt) pruning)
    by (apply stepLeaves_listing; eauto).
  rewrite await_getAllRemoteBranches. cbn [world trace].
  destruct (exec contextDir remoteCommand w1) as [o2 w2].
  set (listing := [Spawned contextDir remoteCommand; Settled remoteCommand o2]).
  assert (P2 : forall rest : list Event, exists pruned rest',
            (pruning ++ rest = [Spawned contextDir pruneCommand; Settled pruneCommand pruned]
                               ++ rest')%list /\
            (exitCode pruned <> 0 -> rest' = [])).
  { intros rest. exists o1, rest. split; [reflexivity | intros H; contradiction]. }
  destruct (exitCode o2 =? 0) eqn:H2; cbn [negb]; cbv beta iota zeta.
  2: { apply Z.eqb_neq in H2.
       eexists _, _, (pruning ++ listing)%list. split; [reflexivity|].
       split; [cbn [trace]; now rewrite <- app_assoc|].
       split; [|split; [apply P2 | discriminate]].
       apply (stepLeaves_app _ tt); [exact S1|]. apply stepLeaves_listing; auto. }
  apply Z.eqb_eq in H2.
  assert (N2 : namesOfListing remoteHeadLine o2 =
               match mapLines (branchNameOfLine remoteHeadLine)
                       (List.filter Str.isTruthy (Str.split Str.newline (stdout o2))) with
               | Ok names => Ok (List.filter Str.isTruthy names)
               | Thrown e => Thrown e
               end) by reflexivity.
  destruct (mapLines (branchNameOfLine remoteHeadLine) _) as [remoteNames'|e2];
    cbv beta iota zeta.
  2: { apply namesOfListing_Thrown in N2 as (line & Hin & Hne & ->).
       eexists _, _, (pruning ++ listing)%list. split; [reflexivity|].
       split; [cbn [trace]; now rewrite <- app_assoc|].
       split; [|split; [apply P2 | discriminate]].
       apply (stepLeaves_app _ tt); [exact S1|]. apply stepLeaves_listing; [auto|].
       right. split; [exact H2|]. right. exists line. auto. }
  set (remoteNames := List.filter Str.isTruthy remoteNames') in *.
  assert (S2 : stepLeaves contextDir (Resolved tt) (pruning ++ listing)).
  { apply (stepLeaves_app _ tt); [exact S1|]. apply stepLeaves_listing; eauto. }
  rewrite await_getAllMergedRemoteBranches. cbn [world trace].
  destruct (exec contextDir mergedCommand w2) as [o3 w3].
  set (merging := [Spawned contextDir mergedCommand; Settled mergedCommand o3]).
  set (listed := ((pruning ++ listing) ++ merging)%list).
  assert (T3 : forall x : list Event,
            (((x ++ pruning) ++ listing) ++ merging)%list = (x ++ listed)%list).
  { intros x. unfold listed. now rewrite <- !app_assoc. }
  unfold pruning, listing, merging in T3. rewrite T3. clear T3.
  assert (P3 : forall rest : list Event, exists pruned rest',
            (listed ++ rest = [Spawned contextDir pruneCommand; Settled pruneCommand pruned]
                              ++ rest')%list /\
            (exitCode pruned <> 0 -> rest' = [])).
  { intros rest. exists o1, ((listing ++ merging) ++ rest)%list. split.
    - unfold listed. now rewrite <- !app_assoc.
    - intros H; contradiction. }
  destruct (exitCode o3 =? 0) eqn:H3; cbn [negb]; cbv beta iota zeta.
  2: { apply Z.eqb_neq in H3.
       eexists _, _, listed. split; [reflexivity|]. split; [reflexivity|].
       split; [|split; [rewrite <- (app_nil_r listed); apply P3 | discriminate]].
       apply (stepLeaves_app _ tt); [exact S2|]. apply stepLeaves_listing; auto. }
  apply Z.eqb_eq in H3.
  assert (N3 : namesOfListing mergedBranchLine o3 =
               match mapLines (branchNameOfLine mergedBranchLine)
                       (List.filter Str.isTruthy (Str.split Str.newline (stdout o3))) with
               | Ok names => Ok (List.filter Str.isTruthy names)
               | Thrown e => Thrown e
               end) by reflexivity.
  destruct (mapLines (branchNameOfLine mergedBranchLine) _) as [mergedNames'|e3];
    cbv beta iota zeta.
  2: { apply namesOfListing_Thrown in N3 as (line & Hin & Hne & ->).
       eexists _, _, listed. split; [reflexivity|]. split; [reflexivity|].
       split; [|split; [rewrite <- (app_nil_r listed); apply P3 | discriminate]].
       apply (stepLeaves_app _ tt); [exact S2|]. apply stepLeaves_listing; [auto|].
       right. split; [exact H3|]. right. exists line. auto. }
  set (mergedNames := List.filter Str.isTruthy mergedNames') in *.
  assert (S3 : stepLeaves contextDir (Resolved tt) listed).
  { apply (stepLeaves_app _ tt); [exact S2|]. apply stepLeaves_listing; eauto. }
  destruct (getBranchDates_leaves contextDir (filterOutKeyBranchNames remoteNames)
              {| world := w3; trace := trace st ++ listed |})
    as (o4 & st4 & new4 & Heq4 & Htr4 & S4 & Hr4).
  rewrite Heq4. cbn [trace] in Htr4. cbv beta iota zeta.
  assert (T4 : trace st4 = (trace st ++ listed ++ new4)%list)
    by (now rewrite Htr4, <- app_assoc).
  assert (G4 : stepLeaves contextDir o4 (listed ++ new4))
    by (apply (stepLeaves_app _ tt); assumption).
  destruct o4 as [remoteDated|e4|code4|].
  2: { eexists _, _, _. split; [reflexivity|]. split; [exact T4|].
       split; [|split; [apply P3 | discriminate]]. exact (stepLeaves_Rejected _ _ _ G4). }
  2: { destruct S4 as (_ & _ & _ & _ & He & _). now destruct (He code4). }
  2: { eexists _, _, _. split; [reflexivity|]. split; [exact T4|].
       split; [|split; [apply P3 | discriminate]]. exact (stepLeaves_Pending _ _ G4). }
  destruct (getBranchDates_leaves contextDir (filterOutKeyBranchNames mergedNames) st4)
    as (o5 & st5 & new5 & Heq5 & Htr5 & S5 & Hr5).
  rewrite Heq5. cbv beta iota zeta.
  assert (T5 : trace st5 = (trace st ++ listed ++ new4 ++ new5)%list)
    by (rewrite Htr5, T4; now rewrite <- !app_assoc).
  assert (G5 : stepLeaves contextDir o5 (listed ++ new4 ++ new5)).
  { rewrite app_assoc. apply (stepLeaves_app _ remoteDated); assumption. }
  destruct o5 as [mergedDated|e5|code5|].
  2: { eexists _, _, _. split; [reflexivity|]. split; [exact T5|].
       split; [|split; [apply P3 | discriminate]]. exact (stepLeaves_Rejected _ _ _ G5). }
  2: { destruct S5 as (_ & _ & _ & _ & He & _). now destruct (He code5). }
  2: { eexists _, _, _. split; [reflexivity|]. split; [exact T5|].
       split; [|split; [apply P3 | discriminate]]. exact (stepLeaves_Pending _ _ G5). }
  eexists _, _, _. split; [reflexivity|]. split; [exact T5|].
  split; [|split; [apply P3|]].
  { eapply stepLeaves_Resolved. exact G5. }
  intros stale merged [= <- <-].
  exists o2, o3, remoteNames, mergedNames, remoteDated, mergedDated.
  split; [|split; [exact N2|split; [|split; [exact N3|split; [|split; [|split; reflexivity]]]]]].
  - apply in_or_app. left. unfold listed. apply in_or_app. left. apply in_or_app. right.
    right. now left.
  - apply in_or_app. left. unfold listed. apply in_or_app. right. right. now left.
  - eapply Forall2_impl; [apply (Hr4 remoteDated eq_refl)|].
    intros n b. apply resolvedFrom_incl. intros event Hin.
    apply in_or_app. right. apply in_or_app. now left.
  - eapply Forall2_impl; [apply (Hr5 mergedDated eq_refl)|].
    intros n b. apply resolvedFrom_incl. intros event Hin.
    apply in_or_app. right. apply in_or_app. now right.
Qed.

(** The entry point, in full: what the classification stage left behind, and
    what follows it. *)
Lemma main_full (gitDir : string) (w : World) :
  let start := {| world := w; trace := [Info (UsingDirectory gitDir)] |} in
  let result := main exec askQuestion settleOrder staleNow mergedNow gitDir w in
  exists classified st1 pre,
    classifyBranches exec settleOrder staleNow mergedNow gitDir start = (classified, st1) /\
    trace st1 = (Info (UsingDirectory gitDir) :: pre)%list /\
    classifyLeaves gitDir staleNow mergedNow classified pre /\
    ((exists e, classified = Rejected e /\
                result = (Some 1, (Info (UsingDirectory gitDir) :: pre
                                   ++ [ErrorLogged e])%list)) \/
     (classified = Pending /\ result = (None, (Info (UsingDirectory gitDir) :: pre)%list)) \/
     (exists stale merged response w',
        classified = Resolved (stale, merged) /\
        askQuestion question (world st1) = (response, w') /\
        ((response <> "yes" /\
          result = (Some 0,
                    (Info (UsingDirectory gitDir) :: pre
                     ++ gateReport staleNow mergedNow stale merged
                     ++ [Asked question response; Info Declined])%list)) \/
         (response = "yes" /\
          exists asked st2 outcome settled,
            world asked = w' /\
            deleteBranches exec settleOrder gitDir (stale ++ merged) asked
              = (outcome, st2) /\
            deleterEnded (stale ++ merged) outcome settled /\
            result = (exitCodeOf outcome,
                      (Info (UsingDirectory gitDir) :: pre
                       ++ gateReport staleNow mergedNow stale merged
                       ++ [Asked question response]
                       ++ deletions gitDir (stale ++ merged)
                       ++ settled ++ afterDeleter outcome ++ errorLog outcome)%list))))).
Proof.
  intros start result.
  destruct (classifyBranches_full gitDir start) as (o & st1 & pre & Heq & Htr & Hleaves).
  unfold start in Htr. simpl in Htr.
  assert (Hmain : result =
            let (o', st) :=
              match o with
              | Resolved sets =>
                  confirmAndDelete exec askQuestion settleOrder staleNow mergedNow
                    gitDir sets.1 sets.2 st1
              | Rejected e => (Rejected e, st1)
              | Exited code => (Exited code, st1)
              | Pending => (Pending, st1)
              end in
            match o' with
            | Resolved _ => (Some 0, trace st)
            | Rejected e => (Some 1, (trace st ++ [ErrorLogged e])%list)
            | Exited code => (Some code, trace st)
            | Pending => (None, trace st)
            end).
  { subst result. unfold main. fold start.
    unfold deleteStaleAndMergedBranches. unfold mbind at 1. unfold M_mbind, M_bind.
    rewrite Heq. destruct o; reflexivity. }
  clearbody result.
  exists o, st1, pre. split; [exact Heq|]. split; [exact Htr|]. split; [exact Hleaves|].
  destruct o as [[stale merged]|e|code|]; cbv beta iota zeta in Hmain.
  2: { left. exists e. split; [reflexivity|]. now rewrite Hmain, Htr. }
  2: { destruct Hleaves as ((_ & _ & _ & _ & He & _) & _). now destruct (He code). }
  2: { right. left. split; [reflexivity|]. now rewrite Hmain, Htr. }
  right. right. cbn [fst snd] in Hmain.
  unfold confirmAndDelete, waitForUserToAccept, info, ask in Hmain.
  unfold mbind, M_mbind, M_bind, mret, M_mret, emit in Hmain. cbn [world trace] in Hmain.
  destruct (askQuestion question (world st1)) as [response w'] eqn:Hask.
  exists stale, merged, response, w'. split; [reflexivity|]. split; [reflexivity|].
  rewrite Htr in Hmain.
  destruct (String.eqb response "yes") eqn:Hyes.
  - apply String.eqb_eq in Hyes. right. split; [exact Hyes|].
    match type of Hmain with
    | context [deleteBranches _ _ _ _ ?s] =>
        destruct (deleteBranches_spec exec settleOrder gitDir (stale ++ merged)%list s)
          as (deleted & st2 & settled & Hdel & Htr2 & Hended)
    end.
    rewrite Hdel in Hmain. cbn [trace] in Htr2.
    eexists _, st2, deleted, settled. split; [|split; [exact Hdel|]]; [reflexivity|].
    split; [exact Hended|]. rewrite Hmain.
    destruct deleted as [[]|e|code|]; cbn [exitCodeOf afterDeleter errorLog trace];
      rewrite ?Htr2; unfold gateReport; cbn [app];
      rewrite <- ?app_assoc, <- ?app_comm_cons; cbn [app]; rewrite ?app_nil_r;
      reflexivity.
  - apply String.eqb_neq in Hyes. left. split; [exact Hyes|]. rewrite Hmain.
    cbn [trace]. unfold gateReport. cbn [app].
    rewrite <- ?app_assoc, <- ?app_comm_cons. cbn [app]. reflexivity.
Qed.

End MoreStages.

(** ** More on whole runs *)

Lemma gateReport_no_Settled (staleNow mergedNow : Z) (stale merged : list BranchNameWithDate)
    (event : Event) :
  In event (gateReport staleNow mergedNow stale merged) -> exists m, event = Info m.
Proof.
  intros Hin. repeat (destruct Hin as [<- | Hin]; [eauto|]). destruct Hin.
Qed.

Lemma deletions_In (dir : string) (branches : list BranchNameWithDate) (event : Event) :
  In event (deletions dir branches) <->
  exists branch, In branch branches /\ event = Spawned dir (deleteCommand (name branch)).
Proof.
  unfold deletions. rewrite in_map_iff. split; intros (b & H1 & H2); exists b; auto.
Qed.

(** X2: no failure of a command is ignored.  Every command of the run is run
    with [rejectOnError]: when any of them, whether it prunes, lists, fetches,
    queries a date or deletes, exits with a non-zero code, the run ends with
    exit code 1 and an error printed last. *)
Theorem command_failure_is_fatal :
  forall (World : Type) (exec : string -> string -> World -> ShellOutput * World)
         (askQuestion : string -> World -> string * World)
         (settleOrder : World -> list nat) (staleNow mergedNow : Z)
         (gitDir : string) (w : World) (command : string) (output : ShellOutput),
    let result := main exec askQuestion settleOrder staleNow mergedNow gitDir w in
    In (Settled command output) (snd result) ->
    exitCode output <> 0 ->
    fst result = Some 1 /\
    exists e before, snd result = (before ++ [ErrorLogged e])%list.
Proof.
  intros World exec askQuestion settleOrder staleNow mergedNow gitDir w command output result.
  destruct (main_full exec askQuestion settleOrder staleNow mergedNow gitDir w)
    as (classified & st1 & pre & Hclass & Htr & ((Hfail & _) & _) & Hcase).
  fold result in Hcase.
  destruct Hcase as [(e & -> & Hres) | [(-> & Hres)
    | (stale & merged & response & w' & -> & Hask & [(Hno & Hres)
       | (-> & asked & st2 & outcome & settled & _ & _ & Hended & Hres)])]];
    rewrite Hres; cbn [fst snd]; intros Hin Hcode.
  - split; [reflexivity|]. exists e, (Info (UsingDirectory gitDir) :: pre). reflexivity.
  - exfalso. destruct Hin as [Hin | Hin]; [discriminate|].
    destruct (Hfail _ _ Hin Hcode) as [e He]. discriminate.
  - exfalso. destruct Hin as [Hin | Hin]; [discriminate|].
    apply in_app_or in Hin as [Hin | Hin].
    { destruct (Hfail _ _ Hin Hcode) as [e He]. discriminate. }
    apply in_app_or in Hin as [Hin | Hin].
    { apply gateReport_no_Settled in Hin as [m Hm]. discriminate. }
    destruct Hin as [Hin | [Hin | []]]; discriminate.
  - destruct Hin as [Hin | Hin]; [discriminate|].
    apply in_app_or in Hin as [Hin | Hin].
    { destruct (Hfail _ _ Hin Hcode) as [e He]. discriminate. }
    apply in_app_or in Hin as [Hin | Hin].
    { apply gateReport_no_Settled in Hin as [m Hm]. discriminate. }
    apply in_app_or in Hin as [Hin | Hin]; [destruct Hin as [Hin | []]; discriminate|].
    apply in_app_or in Hin as [Hin | Hin].
    { apply deletions_In in Hin as (b & _ & Hb). discriminate. }
    assert (Hrej : exists e, outcome = Rejected e).
    { apply in_app_or in Hin as [Hin | Hin].
      - destruct Hended as (_ & Hf & _). eauto.
      - destruct outcome; simpl in Hin;
          [destruct Hin as [Hin | []]; discriminate | eauto | destruct Hin | destruct Hin]. }
    destruct Hrej as [e ->]. split; [reflexivity|]. cbn [afterDeleter errorLog app].
    exists e,
      (Info (UsingDirectory gitDir) :: pre ++ gateReport staleNow mergedNow stale merged
       ++ [Asked question "yes"] ++ deletions gitDir (stale ++ merged) ++ settled)%list.
    cbn [app]. f_equal.
    repeat first [rewrite <- app_assoc | rewrite <- app_comm_cons]. reflexivity.
Qed.

Lemma command_failure_is_fatal_witness :
  fst (main (Scripted.exec brokenPrune) (Scripted.respond "yes")
         (Scripted.inOrder scenarioOrder) scenarioNow scenarioNow "/repo" tt) = Some 1 /\
  exists e before,
    snd (main (Scripted.exec brokenPrune) (Scripted.respond "yes")
           (Scripted.inOrder scenarioOrder) scenarioNow scenarioNow "/repo" tt)
    = (before ++ [ErrorLogged e])%list.
Proof.
  apply (command_failure_is_fatal unit (Scripted.exec brokenPrune) (Scripted.respond "yes")
           (Scripted.inOrder scenarioOrder) scenarioNow scenarioNow "/repo" tt
           pruneCommand (Scripted.failed 1 "could not prune")).
  - vm_compute. find_event.
  - discriminate.
Defined.

Lemma stageEvent_inv (events : list Event) (event : Event) :
  Forall stageEvent events -> In event events ->
  exists command, stageCommand command /\
    ((exists dir, event = Spawned dir command) \/ (exists output, event = Settled command output)).
Proof.
  intros H Hin. rewrite List.Forall_forall in H. specialize (H event Hin).
  destruct event; simpl in H; try contradiction; eauto.
Qed.

Lemma settled_inv (branches : list BranchNameWithDate) (outcome : Outcome unit)
    (settled : list Event) (event : Event) :
  deleterEnded branches outcome settled -> In event settled ->
  exists branch output,
    In branch branches /\
    (event = Echoed (deleteCommand (name branch)) output \/
     event = Settled (deleteCommand (name branch)) output).
Proof. intros (H & _) Hin. exact (H event Hin). Qed.

Lemma stageCommand_not_deletion (command branchName : string) :
  stageCommand command -> command <> deleteCommand branchName.
Proof.
  intros [-> | [-> | [-> | (n & [-> | ->])]]]; discriminate.
Qed.

(** X3: the error that the entry point prints is the last thing of the run,
    which then exits with code 1, and the entry point has printed no other
    error before it.  What the runner has passed through to the console
    before it is the own output of deletion commands only; in particular,
    when the error is the rejection of a deletion command, the output that
    made the command fail has been passed through to the console, and its
    arrival is the last event before the error.  The error is explained by
    what was seen:
    it is the rejection of a command seen to exit with a non-zero code, or
    the complaint about a non-empty line of a listing, or about the text of a
    date query.  In particular it is never the [Error(stderr)] of the tests
    of [exitCode] that follow the commands run with [rejectOnError]. *)
Theorem printed_error_is_explained :
  forall (World : Type) (exec : string -> string -> World -> ShellOutput * World)
         (askQuestion : string -> World -> string * World)
         (settleOrder : World -> list nat) (staleNow mergedNow : Z)
         (gitDir : string) (w : World) (e : Error),
    let result := main exec askQuestion settleOrder staleNow mergedNow gitDir w in
    In (ErrorLogged e) (snd result) ->
    fst result = Some 1 /\
    (exists before,
       snd result = (before ++ [ErrorLogged e])%list /\
       (forall e', ~ In (ErrorLogged e') before) /\
       (forall command output,
          In (Echoed command output) before ->
          exists branchName, command = deleteCommand branchName) /\
       (forall branchName output,
          e = ShellRejection (deleteCommand branchName) output ->
          exists earlier,
            before = (earlier ++ [Settled (deleteCommand branchName) output])%list /\
            In (Echoed (deleteCommand branchName) output) earlier)) /\
    runError (snd result) e /\
    (forall text, e <> StderrError text).
Proof.
  intros World exec askQuestion settleOrder staleNow mergedNow gitDir w e result.
  destruct (main_full exec askQuestion settleOrder staleNow mergedNow gitDir w)
    as (classified & st1 & pre & Hclass & Htr & ((_ & Hrej & _ & _ & _ & Hstage) & _) & Hcase).
  fold result in Hcase.
  assert (Hpre : forall event, In event pre ->
            exists command, stageCommand command /\
              ((exists dir, event = Spawned dir command) \/
               (exists output, event = Settled command output)))
    by (intros event; apply stageEvent_inv, Hstage).
  assert (Hgate : forall stale merged event,
            In event (gateReport staleNow mergedNow stale merged) -> exists m, event = Info m)
    by (intros stale merged event; apply gateReport_no_Settled).
  assert (Hexplained : forall events, runError events e -> forall text, e <> StderrError text).
  { intros events [(c & o & _ & _ & ->) | [(c & o & l & _ & _ & _ & _ & _ & ->)
      | (n & o & _ & _ & [(_ & ->) | (_ & _ & ->)])]]; discriminate. }
  destruct Hcase as [(e0 & -> & Hres) | [(-> & Hres)
    | (stale & merged & response & w' & -> & Hask & [(Hno & Hres)
       | (-> & asked & st2 & outcome & settled & _ & _ & Hended & Hres)])]];
    rewrite Hres; cbn [fst snd]; intros Hin.
  - assert (He : e = e0).
    { split_trace Hin; try discriminate; [|now injection Hin].
      destruct (Hpre _ Hin) as (c & _ & [(d & H) | (o & H)]); discriminate. }
    subst e0. specialize (Hrej e eq_refl).
    split; [reflexivity|]. split; [|split; [|now apply (Hexplained pre)]].
    + exists (Info (UsingDirectory gitDir) :: pre). split; [reflexivity|].
      split; [|split].
      * intros e' H. split_trace H; [discriminate|].
        destruct (Hpre _ H) as (c & _ & [(d & H') | (o & H')]); discriminate.
      * intros command output H. split_trace H; [discriminate|].
        destruct (Hpre _ H) as (c & _ & [(d & H') | (o & H')]); discriminate.
      * intros branchName output ->. exfalso.
        destruct Hrej as [(c & o & Hseen & _ & Heq) | [(c & o & l & _ & _ & _ & _ & _ & Heq)
          | (n & o & _ & _ & [(_ & Heq) | (_ & _ & Heq)])]]; try discriminate.
        injection Heq as <- <-.
        destruct (Hpre _ Hseen) as (c & Hc & [(d & H') | (o' & H')]); [discriminate|].
        injection H' as <- _. exact (stageCommand_not_deletion _ branchName Hc eq_refl).
    + eapply runError_incl; [|exact Hrej]. intros event H. right. apply in_or_app. now left.
  - exfalso. split_trace Hin; [discriminate|].
    destruct (Hpre _ Hin) as (c & _ & [(d & H) | (o & H)]); discriminate.
  - exfalso. split_trace Hin; try discriminate.
    + destruct (Hpre _ Hin) as (c & _ & [(d & H) | (o & H)]); discriminate.
    + destruct (Hgate _ _ _ Hin) as (m & H); discriminate.
  - assert (He : outcome = Rejected e).
    { split_trace Hin; try discriminate.
      - destruct (Hpre _ Hin) as (c & _ & [(d & H) | (o & H)]); discriminate.
      - destruct (Hgate _ _ _ Hin) as (m & H); discriminate.
      - apply deletions_In in Hin as (b & _ & H). discriminate.
      - destruct (settled_inv _ _ _ _ Hended Hin) as (b & o & _ & [H | H]); discriminate.
      - destruct outcome; cbn [afterDeleter] in Hin; split_trace Hin; discriminate.
      - destruct outcome; cbn [errorLog] in Hin; split_trace Hin; try discriminate.
        now injection Hin as ->. }
    subst outcome. cbn [exitCodeOf afterDeleter errorLog app].
    destruct Hended as (Hs & _ & Hr & _ & _ & ok & failed & Hsettled & _ & Hran).
    destruct Hran as (fb & fo & -> & Hbf & Hcf & Hef).
    destruct (Hr e eq_refl) as (b & o & Hb & Hcode & He & Hseen).
    assert (Hrun : runError settled e).
    { left. exists (deleteCommand (name b)), o. auto. }
    split; [reflexivity|]. split; [|split; [|now apply (Hexplained settled)]].
    + exists (Info (UsingDirectory gitDir) :: pre ++ gateReport staleNow mergedNow stale merged
              ++ [Asked question "yes"] ++ deletions gitDir (stale ++ merged) ++ settled)%list.
      split; [|split; [|split]].
      * cbn [app]. f_equal.
        repeat first [rewrite <- app_assoc | rewrite <- app_comm_cons]. reflexivity.
      * intros e' H. split_trace H; try discriminate.
        -- destruct (Hpre _ H) as (c & _ & [(d & H') | (o' & H')]); discriminate.
        -- destruct (Hgate _ _ _ H) as (m & H'); discriminate.
        -- apply deletions_In in H as (b' & _ & H'). discriminate.
        -- destruct (Hs _ H) as (b' & o' & _ & [H' | H']); discriminate.
      * intros command output H. split_trace H; try discriminate.
        -- destruct (Hpre _ H) as (c & _ & [(d & H') | (o' & H')]); discriminate.
        -- destruct (Hgate _ _ _ H) as (m & H'); discriminate.
        -- apply deletions_In in H as (b' & _ & H'). discriminate.
        -- rewrite Hsettled in H. apply completions_In in H as (b' & o' & Hserved & [H' | H']);
             [|discriminate].
           injection H' as -> ->. eauto.
      * intros branchName output Heq. rewrite Hef in Heq.
        assert (Hn : name fb = branchName) by (apply deleteCommand_inj; congruence).
        assert (Ho : fo = output) by congruence. rewrite <- Ho.
        exists (Info (UsingDirectory gitDir) :: pre
                ++ gateReport staleNow mergedNow stale merged
                ++ [Asked question "yes"] ++ deletions gitDir (stale ++ merged)
                ++ completions ok ++ [Echoed (deleteCommand (name fb)) fo])%list.
        split.
        -- rewrite Hsettled, completions_app, <- Hn.
           cbn [completions flat_map arrival app fst snd].
           cbn [app]. f_equal.
           repeat first [rewrite <- app_assoc | rewrite <- app_comm_cons]. reflexivity.
        -- rewrite <- Hn. in_trace.
    + eapply runError_incl; [|exact Hrun]. intros event H. right.
      apply in_or_app. right. apply in_or_app. right. right.
      apply in_or_app. right. apply in_or_app. now left.
Qed.

Lemma printed_error_is_explained_witness :
  fst (main (Scripted.exec brokenDeletion) (Scripted.respond "yes")
         (Scripted.inOrder scenarioOrder) scenarioNow scenarioNow "/repo" tt) = Some 1 /\
  (exists earlier,
     snd (main (Scripted.exec brokenDeletion) (Scripted.respond "yes")
            (Scripted.inOrder scenarioOrder) scenarioNow scenarioNow "/repo" tt)
     = (earlier ++ [Settled (deleteCommand "feature-c") (Scripted.failed 1 "remote rejected");
                    ErrorLogged (ShellRejection (deleteCommand "feature-c")
                                   (Scripted.failed 1 "remote rejected"))])%list /\
     In (Echoed (deleteCommand "feature-c") (Scripted.failed 1 "remote rejected")) earlier) /\
  runError
    (snd (main (Scripted.exec brokenDeletion) (Scripted.respond "yes")
            (Scripted.inOrder scenarioOrder) scenarioNow scenarioNow "/repo" tt))
    (ShellRejection (deleteCommand "feature-c") (Scripted.failed 1 "remote rejected")).
Proof.
  destruct (printed_error_is_explained unit (Scripted.exec brokenDeletion)
              (Scripted.respond "yes") (Scripted.inOrder scenarioOrder)
              scenarioNow scenarioNow "/repo" tt
              (ShellRejection (deleteCommand "feature-c")
                 (Scripted.failed 1 "remote rejected")))
    as (H1 & (before & Hbefore & _ & _ & Hlast) & H2 & _).
  - vm_compute. find_event.
  - split; [exact H1|]. split; [|exact H2].
    destruct (Hlast "feature-c" (Scripted.failed 1 "remote rejected") eq_refl)
      as (earlier & Hearlier & Hecho).
    exists earlier. split; [|exact Hecho].
    rewrite Hbefore, Hearlier, <- app_assoc. reflexivity.
Defined.

Lemma Forall2_In_r {A B : Type} (P : A -> B -> Prop) (l : list A) (k : list B) (y : B) :
  Forall2 P l k -> In y k -> exists x, In x l /\ P x y.
Proof.
  induction 1 as [|a b l k Hab _ IH]; intros Hin; [destruct Hin|].
  destruct Hin as [<- | Hin].
  - exists a. split; [now left | exact Hab].
  - destruct (IH Hin) as (x & Hx & Hp). exists x. split; [now right | exact Hp].
Qed.

Lemma classifiedFrom_incl (events events' : list Event) (staleNow mergedNow : Z)
    (stale merged : list BranchNameWithDate) :
  (forall event, In event events -> In event events') ->
  classifiedFrom events staleNow mergedNow stale merged ->
  classifiedFrom events' staleNow mergedNow stale merged.
Proof.
  intros Hsub (lr & lm & rn & mn & rd & md & H1 & H2 & H3 & H4 & H5 & H6 & H7 & H8).
  exists lr, lm, rn, mn, rd, md.
  split; [auto|]. split; [exact H2|]. split; [auto|]. split; [exact H4|].
  split; [|split; [|split; assumption]].
  - eapply Forall2_impl; [exact H5|]. intros n b. now apply resolvedFrom_incl.
  - eapply Forall2_impl; [exact H6|]. intros n b. now apply resolvedFrom_incl.
Qed.

(** Where a record of the two sets comes from. *)
Lemma classifiedFrom_In (events : list Event) (staleNow mergedNow : Z)
    (stale merged : list BranchNameWithDate) (branch : BranchNameWithDate) :
  classifiedFrom events staleNow mergedNow stale merged ->
  In branch (stale ++ merged) ->
  includes ignoreTheseBranches (name branch) = false /\
  resolvedFrom events (name branch) branch /\
  ((exists listed names,
      In (Settled remoteCommand listed) events /\
      namesOfListing remoteHeadLine listed = Ok names /\ In (name branch) names /\
      olderThan (staleBranchDate staleNow) branch = true) \/
   (exists listed names,
      In (Settled mergedCommand listed) events /\
      namesOfListing mergedBranchLine listed = Ok names /\ In (name branch) names /\
      olderThan (mergedBranchDate mergedNow) branch = true)).
Proof.
  intros (lr & lm & rn & mn & rd & md & H1 & H2 & H3 & H4 & H5 & H6 & -> & ->) Hin.
  apply in_app_or in Hin as [Hin | Hin].
  - apply classifier_In in Hin as [Hin Hold].
    destruct (Forall2_In_r _ _ _ _ H5 Hin) as (n & Hn & Hres).
    assert (Hname : name branch = n) by apply Hres. subst n.
    apply filterOutKeyBranchNames_In in Hn as [Hn Hkeep].
    split; [exact Hkeep|]. split; [exact Hres|]. left. exists lr, rn. auto.
  - apply classifier_In in Hin as [Hin Hold]. apply filter_In in Hin as [Hin _].
    destruct (Forall2_In_r _ _ _ _ H6 Hin) as (n & Hn & Hres).
    assert (Hname : name branch = n) by apply Hres. subst n.
    apply filterOutKeyBranchNames_In in Hn as [Hn Hkeep].
    split; [exact Hkeep|]. split; [exact Hres|]. right. exists lm, mn. auto.
Qed.

(** X4: where a deletion comes from.  A deletion command is only started, in
    the given directory, for a branch name that is not protected, that one of
    the two listings seen in the run has given, and whose fetch and date query
    were seen to succeed in the run with a date strictly older than the stale
    threshold (name from the remote listing) or than the merged threshold
    (name from the merged listing). *)
Theorem deletion_provenance :
  forall (World : Type) (exec : string -> string -> World -> ShellOutput * World)
         (askQuestion : string -> World -> string * World)
         (settleOrder : World -> list nat) (staleNow mergedNow : Z)
         (gitDir : string) (w : World) (dir branchName : string),
    let result := main exec askQuestion settleOrder staleNow mergedNow gitDir w in
    In (Spawned dir (deleteCommand branchName)) (snd result) ->
    dir = gitDir /\
    includes ignoreTheseBranches branchName = false /\
    exists branch,
      resolvedFrom (snd result) branchName branch /\
      ((exists listed names,
          In (Settled remoteCommand listed) (snd result) /\
          namesOfListing remoteHeadLine listed = Ok names /\ In branchName names /\
          olderThan (staleBranchDate staleNow) branch = true) \/
       (exists listed names,
          In (Settled mergedCommand listed) (snd result) /\
          namesOfListing mergedBranchLine listed = Ok names /\ In branchName names /\
          olderThan (mergedBranchDate mergedNow) branch = true)).
Proof.
  intros World exec askQuestion settleOrder staleNow mergedNow gitDir w dir branchName result.
  destruct (main_full exec askQuestion settleOrder staleNow mergedNow gitDir w)
    as (classified & st1 & pre & Hclass & Htr
        & ((_ & _ & _ & _ & _ & Hstage) & _ & Hsets) & Hcase).
  fold result in Hcase.
  assert (Hpre : ~ In (Spawned dir (deleteCommand branchName)) pre).
  { intros Hin. destruct (stageEvent_inv _ _ Hstage Hin) as (c & Hc & [(d & H) | (o & H)]);
      [|discriminate].
    injection H as _ H. now apply (stageCommand_not_deletion c branchName). }
  destruct Hcase as [(e0 & -> & Hres) | [(-> & Hres)
    | (stale & merged & response & w' & -> & Hask & [(Hno & Hres)
       | (-> & asked & st2 & outcome & settled & _ & _ & Hended & Hres)])]];
    rewrite Hres; cbn [fst snd]; intros Hin.
  1-3: exfalso; split_trace Hin; try discriminate; try contradiction.
  { destruct (gateReport_no_Settled _ _ _ _ _ Hin) as (m & H). discriminate. }
  assert (Hb : exists branch, In branch (stale ++ merged) /\ name branch = branchName /\
                              dir = gitDir).
  { split_trace Hin; try discriminate; try contradiction.
    - destruct (gateReport_no_Settled _ _ _ _ _ Hin) as (m & H). discriminate.
    - apply deletions_In in Hin as (b & Hb & H).
      assert (Hd : dir = gitDir) by congruence.
      assert (Hc : deleteCommand (name b) = deleteCommand branchName) by congruence.
      apply deleteCommand_inj in Hc. eauto.
    - destruct (settled_inv _ _ _ _ Hended Hin) as (b & o & _ & [H | H]); discriminate.
    - destruct outcome; cbn [afterDeleter] in Hin; split_trace Hin; discriminate.
    - destruct outcome; cbn [errorLog] in Hin; split_trace Hin; discriminate. }
  destruct Hb as (branch & Hb & <- & ->).
  assert (Hfrom : classifiedFrom
            (Info (UsingDirectory gitDir) :: pre
             ++ gateReport staleNow mergedNow stale merged
             ++ [Asked question "yes"] ++ deletions gitDir (stale ++ merged)
             ++ settled ++ afterDeleter outcome ++ errorLog outcome)
            staleNow mergedNow stale merged).
  { eapply classifiedFrom_incl; [|apply (Hsets stale merged eq_refl)].
    intros event H. right. apply in_or_app. now left. }
  destruct (classifiedFrom_In _ _ _ _ _ _ Hfrom Hb) as (H1 & H2 & H3).
  split; [reflexivity|]. split; [exact H1|]. exists branch. split; [exact H2 | exact H3].
Qed.

Lemma deletion_provenance_witness :
  "/repo" = "/repo" /\
  includes ignoreTheseBranches "feature-a" = false /\
  exists branch,
    resolvedFrom
      (snd (main (Scripted.exec scenario) (Scripted.respond "yes")
              (Scripted.inOrder scenarioOrder) scenarioNow scenarioNow "/repo" tt))
      "feature-a" branch /\
    ((exists listed names,
        In (Settled remoteCommand listed)
          (snd (main (Scripted.exec scenario) (Scripted.respond "yes")
                  (Scripted.inOrder scenarioOrder) scenarioNow scenarioNow "/repo" tt)) /\
        namesOfListing remoteHeadLine listed = Ok names /\ In "feature-a" names /\
        olderThan (staleBranchDate scenarioNow) branch = true) \/
     (exists listed names,
        In (Settled mergedCommand listed)
          (snd (main (Scripted.exec scenario) (Scripted.respond "yes")
                  (Scripted.inOrder scenarioOrder) scenarioNow scenarioNow "/repo" tt)) /\
        namesOfListing mergedBranchLine listed = Ok names /\ In "feature-a" names /\
        olderThan (mergedBranchDate scenarioNow) branch = true)).
Proof.
  apply (deletion_provenance unit (Scripted.exec scenario) (Scripted.respond "yes")
           (Scripted.inOrder scenarioOrder) scenarioNow scenarioNow "/repo" tt
           "/repo" "feature-a").
  vm_compute. find_event.
Defined.

(** X5: what is confirmed is what was shown.  The question is asked once,
    with the fixed wording, right after the report of the two sets, which are
    the sets made from the outputs seen before; nothing is asked or deleted
    before it, and any command started after it is the deletion of a record
    of the two sets that the report has shown. *)
Theorem confirmation_follows_report :
  forall (World : Type) (exec : string -> string -> World -> ShellOutput * World)
         (askQuestion : string -> World -> string * World)
         (settleOrder : World -> list nat) (staleNow mergedNow : Z)
         (gitDir : string) (w : World) (q response : string),
    let result := main exec askQuestion settleOrder staleNow mergedNow gitDir w in
    In (Asked q response) (snd result) ->
    q = question /\
    exists stale merged before after,
      snd result = (before ++ gateReport staleNow mergedNow stale merged
                           ++ Asked question response :: after)%list /\
      classifiedFrom before staleNow mergedNow stale merged /\
      Forall harmless before /\
      (forall event, In event after -> isAsked event = false) /\
      (forall dir command, In (Spawned dir command) after ->
         response = "yes" /\
         exists branch, In branch (stale ++ merged) /\ command = deleteCommand (name branch)).
Proof.
  intros World exec askQuestion settleOrder staleNow mergedNow gitDir w q response result.
  destruct (main_full exec askQuestion settleOrder staleNow mergedNow gitDir w)
    as (classified & st1 & pre & Hclass & Htr
        & ((_ & _ & Hharmless & _ & _ & Hstage) & _ & Hsets) & Hcase).
  fold result in Hcase.
  assert (Hpre : forall event, In event pre ->
            exists command, stageCommand command /\
              ((exists dir, event = Spawned dir command) \/
               (exists output, event = Settled command output)))
    by (intros event; apply stageEvent_inv, Hstage).
  assert (Hbefore : Forall harmless (Info (UsingDirectory gitDir) :: pre))
    by (constructor; [split; reflexivity | exact Hharmless]).
  destruct Hcase as [(e0 & -> & Hres) | [(-> & Hres)
    | (stale & merged & r & w' & -> & Hask & [(Hno & Hres)
       | (-> & asked & st2 & outcome & settled & _ & _ & Hended & Hres)])]];
    rewrite Hres; cbn [fst snd]; intros Hin.
  1-2: exfalso; split_trace Hin; try discriminate;
       destruct (Hpre _ Hin) as (c & _ & [(d & H) | (o & H)]); discriminate.
  - assert (Hq : q = question /\ response = r).
    { split_trace Hin; try discriminate.
      - destruct (Hpre _ Hin) as (c & _ & [(d & H) | (o & H)]); discriminate.
      - destruct (gateReport_no_Settled _ _ _ _ _ Hin) as (m & H). discriminate.
      - now injection Hin as <- <-. }
    destruct Hq as [-> ->]. split; [reflexivity|].
    exists stale, merged, (Info (UsingDirectory gitDir) :: pre), [Info Declined].
    split; [reflexivity|]. split; [|split; [exact Hbefore|split]].
    + eapply classifiedFrom_incl; [|apply (Hsets stale merged eq_refl)].
      intros event H. now right.
    + intros event [<- | []]. reflexivity.
    + intros d c [H | []]. discriminate.
  - assert (Hq : q = question /\ response = "yes").
    { split_trace Hin; try discriminate.
      - destruct (Hpre _ Hin) as (c & _ & [(d & H) | (o & H)]); discriminate.
      - destruct (gateReport_no_Settled _ _ _ _ _ Hin) as (m & H). discriminate.
      - now injection Hin as <- <-.
      - apply deletions_In in Hin as (b & _ & H). discriminate.
      - destruct (settled_inv _ _ _ _ Hended Hin) as (b & o & _ & [H | H]); discriminate.
      - destruct outcome; cbn [afterDeleter] in Hin; split_trace Hin; discriminate.
      - destruct outcome; cbn [errorLog] in Hin; split_trace Hin; discriminate. }
    destruct Hq as [-> ->]. split; [reflexivity|].
    exists stale, merged, (Info (UsingDirectory gitDir) :: pre),
      (deletions gitDir (stale ++ merged) ++ settled
       ++ afterDeleter outcome ++ errorLog outcome)%list.
    split; [reflexivity|]. split; [|split; [exact Hbefore|split]].
    + eapply classifiedFrom_incl; [|apply (Hsets stale merged eq_refl)].
      intros event H. now right.
    + intros event H. split_trace H.
      * apply deletions_In in H as (b & _ & ->). reflexivity.
      * destruct (settled_inv _ _ _ _ Hended H) as (b & o & _ & [-> | ->]); reflexivity.
      * destruct outcome; cbn [afterDeleter] in H; split_trace H; now subst.
      * destruct outcome; cbn [errorLog] in H; split_trace H; now subst.
    + intros d c H. split; [reflexivity|]. split_trace H.
      * apply deletions_In in H as (b & Hb & H).
        assert (Hc : c = deleteCommand (name b)) by congruence. eauto.
      * destruct (settled_inv _ _ _ _ Hended H) as (b & o & _ & [H' | H']); discriminate.
      * destruct outcome; cbn [afterDeleter] in H; split_trace H; discriminate.
      * destruct outcome; cbn [errorLog] in H; split_trace H; discriminate.
Qed.

Lemma confirmation_follows_report_witness :
  question = question /\
  exists stale merged before after,
    snd (main (Scripted.exec scenario) (Scripted.respond "yes")
           (Scripted.inOrder scenarioOrder) scenarioNow scenarioNow "/repo" tt)
    = (before ++ gateReport scenarioNow scenarioNow stale merged
              ++ Asked question "yes" :: after)%list /\
    classifiedFrom before scenarioNow scenarioNow stale merged /\
    Forall harmless before /\
    (forall event, In event after -> isAsked event = false) /\
    (forall dir command, In (Spawned dir command) after ->
       "yes" = "yes" /\
       exists branch, In branch (stale ++ merged) /\ command = deleteCommand (name branch)).
Proof.
  apply (confirmation_follows_report unit (Scripted.exec scenario) (Scripted.respond "yes")
           (Scripted.inOrder scenarioOrder) scenarioNow scenarioNow "/repo" tt
           question "yes").
  vm_compute. find_event.
Defined.

(** X6: pruning comes first.  After the directory is announced the run
    starts [git remote prune origin] in it and waits for its output before
    anything else; when pruning fails nothing else is run: the rejection is
    printed and the run exits with code 1. *)
Theorem prune_runs_first :
  forall (World : Type) (exec : string -> string -> World -> ShellOutput * World)
         (askQuestion : string -> World -> string * World)
         (settleOrder : World -> list nat) (staleNow mergedNow : Z)
         (gitDir : string) (w : World),
    let result := main exec askQuestion settleOrder staleNow mergedNow gitDir w in
    exists pruned rest,
      snd result = (Info (UsingDirectory gitDir) :: Spawned gitDir pruneCommand
                    :: Settled pruneCommand pruned :: rest) /\
      (exitCode pruned <> 0 ->
       rest = [ErrorLogged (ShellRejection pruneCommand pruned)] /\ fst result = Some 1).
Proof.
  intros World exec askQuestion settleOrder staleNow mergedNow gitDir w result.
  destruct (main_full exec askQuestion settleOrder staleNow mergedNow gitDir w)
    as (classified & st1 & pre & Hclass & Htr
        & ((Hfail & Hrej & _) & (pruned & rest & -> & Hrest) & _) & Hcase).
  fold result in Hcase.
  assert (Hpruned : exitCode pruned <> 0 ->
            rest = [] /\ classified = Rejected (ShellRejection pruneCommand pruned)).
  { intros Hcode. specialize (Hrest Hcode). subst rest. split; [reflexivity|].
    destruct (Hfail pruneCommand pruned) as [e ->]; [right; now left | exact Hcode|].
    f_equal.
    destruct (Hrej e eq_refl) as [(c & o & Hin & _ & ->) | [(c & o & l & Hc & Hin & _)
      | (n & o & Hin & _)]]; destruct Hin as [Hin | [Hin | []]]; try discriminate.
    - now injection Hin as <- <-.
    - injection Hin as <- <-. destruct Hc; discriminate. }
  destruct Hcase as [(e0 & -> & Hres) | [(-> & Hres)
    | (stale & merged & response & w' & -> & Hask & [(Hno & Hres)
       | (-> & asked & st2 & outcome & settled & _ & _ & Hended & Hres)])]];
    rewrite Hres; cbn [fst snd app]; eexists pruned, _; (split; [reflexivity|]);
    intros Hcode; destruct (Hpruned Hcode) as [-> Hc]; try discriminate.
  injection Hc as ->. split; reflexivity.
Qed.

(** X7: the commands of a run.  Every command of a run is started in the
    given directory and is one of six: the pruning, the two listings, the
    fetch or the date query of a branch, or the deletion of a branch. *)
Theorem commands_of_a_run :
  forall (World : Type) (exec : string -> string -> World -> ShellOutput * World)
         (askQuestion : string -> World -> string * World)
         (settleOrder : World -> list nat) (staleNow mergedNow : Z)
         (gitDir : string) (w : World) (dir command : string),
    let result := main exec askQuestion settleOrder staleNow mergedNow gitDir w in
    In (Spawned dir command) (snd result) ->
    dir = gitDir /\
    (command = pruneCommand \/ command = remoteCommand \/ command = mergedCommand \/
     exists branchName,
       command = fetchCommand branchName \/ command = showCommand branchName \/
       command = deleteCommand branchName).
Proof.
  intros World exec askQuestion settleOrder staleNow mergedNow gitDir w dir command result.
  destruct (main_full exec askQuestion settleOrder staleNow mergedNow gitDir w)
    as (classified & st1 & pre & Hclass & Htr
        & ((_ & _ & _ & Hdir & _ & Hstage) & _) & Hcase).
  fold result in Hcase.
  assert (Hpre : In (Spawned dir command) pre ->
            dir = gitDir /\
            (command = pruneCommand \/ command = remoteCommand \/ command = mergedCommand \/
             exists branchName,
               command = fetchCommand branchName \/ command = showCommand branchName \/
               command = deleteCommand branchName)).
  { intros Hin. split; [exact (Hdir _ _ Hin)|].
    destruct (stageEvent_inv _ _ Hstage Hin) as (c & Hc & [(d & H) | (o & H)]);
      [|discriminate].
    injection H as _ ->.
    destruct Hc as [-> | [-> | [-> | (n & [-> | ->])]]]; eauto 7. }
  destruct Hcase as [(e0 & -> & Hres) | [(-> & Hres)
    | (stale & merged & response & w' & -> & Hask & [(Hno & Hres)
       | (-> & asked & st2 & outcome & settled & _ & _ & Hended & Hres)])]];
    rewrite Hres; cbn [fst snd]; intros Hin; split_trace Hin; try discriminate; auto.
  1-2: destruct (gateReport_no_Settled _ _ _ _ _ Hin) as (m & H); discriminate.
  - apply deletions_In in Hin as (b & _ & H).
    assert (Hd : dir = gitDir) by congruence.
    assert (Hc : command = deleteCommand (name b)) by congruence.
    split; [exact Hd|]. right. right. right. exists (name b). auto.
  - destruct (settled_inv _ _ _ _ Hended Hin) as (b & o & _ & [H | H]); discriminate.
  - destruct outcome; cbn [afterDeleter] in Hin; split_trace Hin; discriminate.
  - destruct outcome; cbn [errorLog] in Hin; split_trace Hin; discriminate.
Qed.

Lemma commands_of_a_run_witness :
  "/repo" = "/repo" /\
  (fetchCommand "feature-b" = pruneCommand \/ fetchCommand "feature-b" = remoteCommand \/
   fetchCommand "feature-b" = mergedCommand \/
   exists branchName,
     fetchCommand "feature-b" = fetchCommand branchName \/
     fetchCommand "feature-b" = showCommand branchName \/
     fetchCommand "feature-b" = deleteCommand branchName).
Proof.
  apply (commands_of_a_run unit (Scripted.exec scenario) (Scripted.respond "no")
           (Scripted.inOrder scenarioOrder) scenarioNow scenarioNow "/repo" tt
           "/repo" (fetchCommand "feature-b")).
  vm_compute. find_event.
Defined.

(** The exit code and what the entry point has printed. *)
Lemma exit_codes :
  forall (World : Type) (exec : string -> string -> World -> ShellOutput * World)
         (askQuestion : string -> World -> string * World)
         (settleOrder : World -> list nat) (staleNow mergedNow : Z)
         (gitDir : string) (w : World),
    let result := main exec askQuestion settleOrder staleNow mergedNow gitDir w in
    (fst result = Some 1 <-> exists e, In (ErrorLogged e) (snd result)) /\
    (fst result = Some 0 <->
     In (Info Done) (snd result) \/ In (Info Declined) (snd result)) /\
    (forall code, fst result = Some code -> code = 0 \/ code = 1).
Proof.
  intros World exec askQuestion settleOrder staleNow mergedNow gitDir w result.
  destruct (main_full exec askQuestion settleOrder staleNow mergedNow gitDir w)
    as (classified & st1 & pre & Hclass & Htr
        & ((_ & _ & _ & _ & _ & Hstage) & _) & Hcase).
  fold result in Hcase.
  assert (Hpre : forall event, In event pre ->
            (forall e, event <> ErrorLogged e) /\ (forall m, event <> Info m)).
  { intros event Hin.
    destruct (stageEvent_inv _ _ Hstage Hin) as (c & _ & [(d & ->) | (o & ->)]);
      split; discriminate. }
  assert (Hgate : forall stale merged event,
            In event (gateReport staleNow mergedNow stale merged) ->
            (forall e, event <> ErrorLogged e) /\ event <> Info Done /\
            event <> Info Declined).
  { intros stale merged event Hin. unfold gateReport in Hin. split_trace Hin; subst event;
      repeat split; discriminate. }
  destruct Hcase as [(e0 & -> & Hres) | [(-> & Hres)
    | (stale & merged & response & w' & -> & Hask & [(Hno & Hres)
       | (-> & asked & st2 & outcome & settled & _ & _ & Hended & Hres)])]];
    rewrite Hres; cbn [fst snd].
  - split; [|split].
    + split; [|reflexivity]. intros _. exists e0. in_trace.
    + split; [discriminate|].
      intros [Hin | Hin]; exfalso; split_trace Hin; try discriminate;
        exact (proj2 (Hpre _ Hin) _ eq_refl).
    + intros code [= <-]. now right.
  - split; [|split]; [split | split |]; try discriminate.
    + intros [e Hin]. exfalso. split_trace Hin; [discriminate|].
      exact (proj1 (Hpre _ Hin) e eq_refl).
    + intros [Hin | Hin]; exfalso; split_trace Hin; try discriminate;
        exact (proj2 (Hpre _ Hin) _ eq_refl).
  - split; [|split].
    + split; [discriminate|]. intros [e Hin]. exfalso. split_trace Hin; try discriminate.
      * exact (proj1 (Hpre _ Hin) e eq_refl).
      * exact (proj1 (Hgate _ _ _ Hin) e eq_refl).
    + split; [|reflexivity]. intros _. right. in_trace.
    + intros code [= <-]. now left.
  - assert (Hsettled : forall event, In event settled ->
              (forall e, event <> ErrorLogged e) /\ (forall m, event <> Info m)).
    { intros event Hin.
      destruct (settled_inv _ _ _ _ Hended Hin) as (b & o & _ & [-> | ->]);
        split; discriminate. }
    assert (Hdel : forall event, In event (deletions gitDir (stale ++ merged)) ->
              (forall e, event <> ErrorLogged e) /\ (forall m, event <> Info m)).
    { intros event Hin. apply deletions_In in Hin as (b & _ & ->). split; discriminate. }
    assert (Hnot : forall code, outcome <> Exited code) by (exact (proj1 (proj2 (proj2 (proj2 (proj2 Hended)))))).
    split; [|split].
    + split.
      * destruct outcome as [[]|e|code|];
          [discriminate | | now destruct (Hnot code) | discriminate].
        intros _. exists e. in_trace.
      * intros [e Hin]. split_trace Hin; try discriminate.
        -- destruct (proj1 (Hpre _ Hin) e eq_refl).
        -- destruct (proj1 (Hgate _ _ _ Hin) e eq_refl).
        -- destruct (proj1 (Hdel _ Hin) e eq_refl).
        -- destruct (proj1 (Hsettled _ Hin) e eq_refl).
        -- destruct outcome; cbn [afterDeleter] in Hin; split_trace Hin; discriminate.
        -- destruct outcome; cbn [errorLog] in Hin; split_trace Hin; reflexivity.
    + split.
      * destruct outcome as [[]|e|code|];
          [| discriminate | now destruct (Hnot code) | discriminate].
        intros _. left. in_trace.
      * intros [Hin | Hin]; split_trace Hin; try discriminate.
        all: try (destruct (proj2 (Hpre _ Hin) _ eq_refl)).
        all: try (destruct (Hgate _ _ _ Hin) as (_ & H1 & H2); congruence).
        all: try (destruct (proj2 (Hdel _ Hin) _ eq_refl)).
        all: try (destruct (proj2 (Hsettled _ Hin) _ eq_refl)).
        all: destruct outcome; cbn [afterDeleter errorLog] in Hin; split_trace Hin;
          try discriminate; reflexivity.
    + intros code. destruct outcome as [[]|e|code'|]; cbn [exitCodeOf]; try discriminate.
      * intros [= <-]. now left.
      * intros [= <-]. now right.
      * now destruct (Hnot code').
Qed.

(** What the runner has passed through to the console. *)
Lemma echoes_of_a_run :
  forall (World : Type) (exec : string -> string -> World -> ShellOutput * World)
         (askQuestion : string -> World -> string * World)
         (settleOrder : World -> list nat) (staleNow mergedNow : Z)
         (gitDir : string) (w : World) (command : string) (output : ShellOutput),
    let result := main exec askQuestion settleOrder staleNow mergedNow gitDir w in
    In (Echoed command output) (snd result) ->
    (exists branchName, command = deleteCommand branchName) /\
    In (Asked question "yes") (snd result).
Proof.
  intros World exec askQuestion settleOrder staleNow mergedNow gitDir w command output result.
  destruct (main_full exec askQuestion settleOrder staleNow mergedNow gitDir w)
    as (classified & st1 & pre & Hclass & Htr
        & ((_ & _ & _ & _ & _ & Hstage) & _) & Hcase).
  fold result in Hcase.
  assert (Hpre : forall event, In event pre -> forall c o, event <> Echoed c o).
  { intros event Hin c o.
    destruct (stageEvent_inv _ _ Hstage Hin) as (c' & _ & [(d & ->) | (o' & ->)]);
      discriminate. }
  assert (Hgate : forall stale merged event,
            In event (gateReport staleNow mergedNow stale merged) ->
            forall c o, event <> Echoed c o).
  { intros stale merged event Hin c o.
    destruct (gateReport_no_Settled _ _ _ _ _ Hin) as (m & ->). discriminate. }
  destruct Hcase as [(e0 & -> & Hres) | [(-> & Hres)
    | (stale & merged & response & w' & -> & Hask & [(Hno & Hres)
       | (-> & asked & st2 & outcome & settled & _ & _ & Hended & Hres)])]];
    rewrite Hres; cbn [fst snd]; intros Hin.
  - exfalso. split_trace Hin; try discriminate. exact (Hpre _ Hin _ _ eq_refl).
  - exfalso. split_trace Hin; try discriminate. exact (Hpre _ Hin _ _ eq_refl).
  - exfalso. split_trace Hin; try discriminate.
    + exact (Hpre _ Hin _ _ eq_refl).
    + exact (Hgate _ _ _ Hin _ _ eq_refl).
  - assert (Hthere : In (Echoed command output) settled).
    { split_trace Hin; try discriminate.
      - destruct (Hpre _ Hin _ _ eq_refl).
      - destruct (Hgate _ _ _ Hin _ _ eq_refl).
      - apply deletions_In in Hin as (b & _ & H). discriminate.
      - exact Hin.
      - destruct outcome; cbn [afterDeleter] in Hin; split_trace Hin; discriminate.
      - destruct outcome; cbn [errorLog] in Hin; split_trace Hin; discriminate. }
    destruct (settled_inv _ _ _ _ Hended Hthere) as (b & o & _ & [H | H]); [|discriminate].
    injection H as -> ->.
    split; [eauto | in_trace].
Qed.

(** X8: what the exit code tells, and what the echo does not.  The run exits
    with code 1 exactly when the entry point has printed an error (the call
    of [console.error] in its handler), and with code 0 exactly when it has
    said that it is done or that the user declined; it exits with no other
    code.  What the runner passes through to the console tells nothing of
    this: it is the own output of a deletion command, in a run in which "yes"
    was the response, whether the command has failed or not. *)
Theorem exit_code_tells_outcome :
  forall (World : Type) (exec : string -> string -> World -> ShellOutput * World)
         (askQuestion : string -> World -> string * World)
         (settleOrder : World -> list nat) (staleNow mergedNow : Z)
         (gitDir : string) (w : World),
    let result := main exec askQuestion settleOrder staleNow mergedNow gitDir w in
    (fst result = Some 1 <-> exists e, In (ErrorLogged e) (snd result)) /\
    (fst result = Some 0 <->
     In (Info Done) (snd result) \/ In (Info Declined) (snd result)) /\
    (forall code, fst result = Some code -> code = 0 \/ code = 1) /\
    (forall command output,
       In (Echoed command output) (snd result) ->
       (exists branchName, command = deleteCommand branchName) /\
       In (Asked question "yes") (snd result)).
Proof.
  intros World exec askQuestion settleOrder staleNow mergedNow gitDir w result.
  destruct (exit_codes World exec askQuestion settleOrder staleNow mergedNow gitDir w)
    as (H1 & H2 & H3).
  split; [exact H1|]. split; [exact H2|]. split; [exact H3|].
  intros command output. apply echoes_of_a_run.
Qed.

Lemma exit_code_tells_outcome_witness :
  (exists branchName, deleteCommand "feature-a" = deleteCommand branchName) /\
  In (Asked question "yes")
     (snd (main (Scripted.exec chattyDeletion) (Scripted.respond "yes")
             (Scripted.inOrder scenarioOrder) scenarioNow scenarioNow "/repo" tt)).
Proof.
  apply (proj2 (proj2 (proj2 (exit_code_tells_outcome unit (Scripted.exec chattyDeletion)
                                (Scripted.respond "yes") (Scripted.inOrder scenarioOrder)
                                scenarioNow scenarioNow "/repo" tt)))
           (deleteCommand "feature-a")
           {| exitCode := 0; stdout := ""; stderr := " - [deleted] feature-a" |}).
  vm_compute. find_event.
Defined.

(** A run in which the deletions print on their standard error, as git
    does, and succeed: what they print is passed through to the console, no
    error is printed by the entry point and the exit code is 0. *)
Example echo_in_a_run_that_succeeds :
  let result := main (Scripted.exec chattyDeletion) (Scripted.respond "yes")
                  (Scripted.inOrder scenarioOrder) scenarioNow scenarioNow "/repo" tt in
  fst result = Some 0 /\
  In (Echoed (deleteCommand "feature-a")
        {| exitCode := 0; stdout := ""; stderr := " - [deleted] feature-a" |})
     (snd result) /\
  In (Info Done) (snd result) /\
  List.filter (fun event => match event with ErrorLogged _ => true | _ => false end)
    (snd result) = [].
Proof. vm_compute. repeat split; find_event. Qed.

(** X9: [done.] means that everything succeeded.  When the run says that it
    is done, the response was "yes", the exit code is 0, every output seen
    in the run has exit code 0, and the output of every deletion command that
    was started has been seen. *)
Theorem done_means_all_succeeded :
  forall (World : Type) (exec : string -> string -> World -> ShellOutput * World)
         (askQuestion : string -> World -> string * World)
         (settleOrder : World -> list nat) (staleNow mergedNow : Z)
         (gitDir : string) (w : World),
    let result := main exec askQuestion settleOrder staleNow mergedNow gitDir w in
    In (Info Done) (snd result) ->
    fst result = Some 0 /\
    In (Asked question "yes") (snd result) /\
    (forall command output, In (Settled command output) (snd result) -> exitCode output = 0) /\
    (forall dir branchName,
       In (Spawned dir (deleteCommand branchName)) (snd result) ->
       exists output, In (Settled (deleteCommand branchName) output) (snd result)).
Proof.
  intros World exec askQuestion settleOrder staleNow mergedNow gitDir w result.
  destruct (main_full exec askQuestion settleOrder staleNow mergedNow gitDir w)
    as (classified & st1 & pre & Hclass & Htr
        & ((Hfail & _ & _ & _ & _ & Hstage) & _) & Hcase).
  fold result in Hcase.
  assert (Hpre : forall event, In event pre ->
            exists command, stageCommand command /\
              ((exists dir, event = Spawned dir command) \/
               (exists output, event = Settled command output)))
    by (intros event; apply stageEvent_inv, Hstage).
  destruct Hcase as [(e0 & -> & Hres) | [(-> & Hres)
    | (stale & merged & response & w' & -> & Hask & [(Hno & Hres)
       | (-> & asked & st2 & outcome & settled & _ & _ & Hended & Hres)])]];
    rewrite Hres; cbn [fst snd]; intros Hin.
  1-3: exfalso; split_trace Hin; try discriminate;
       try (destruct (Hpre _ Hin) as (c & _ & [(d & H) | (o & H)]); discriminate).
  { unfold gateReport in Hin. split_trace Hin; discriminate. }
  assert (Hout : outcome = Resolved tt).
  { split_trace Hin; try discriminate.
    - destruct (Hpre _ Hin) as (c & _ & [(d & H) | (o & H)]); discriminate.
    - unfold gateReport in Hin. split_trace Hin; discriminate.
    - apply deletions_In in Hin as (b & _ & H). discriminate.
    - destruct (settled_inv _ _ _ _ Hended Hin) as (b & o & _ & [H | H]); discriminate.
    - destruct outcome as [[]|e|code|]; cbn [afterDeleter] in Hin; split_trace Hin;
        try discriminate; reflexivity.
    - destruct outcome as [[]|e|code|]; cbn [errorLog] in Hin; split_trace Hin;
        discriminate. }
  subst outcome. cbn [exitCodeOf afterDeleter errorLog].
  destruct Hended as (Hs & Hf & _ & Hall & _).
  split; [reflexivity|]. split; [|split].
  - in_trace.
  - intros c o H. destruct (Z.eq_dec (exitCode o) 0) as [Hz | Hnz]; [exact Hz|]. exfalso.
    split_trace H; try discriminate.
    + destruct (Hfail c o H Hnz) as [e He]. discriminate.
    + destruct (gateReport_no_Settled _ _ _ _ _ H) as (m & H'). discriminate.
    + apply deletions_In in H as (b & _ & H'). discriminate.
    + destruct (Hf c o H Hnz) as [e He]. discriminate.
  - intros d n H.
    assert (Hb : exists b, In b (stale ++ merged) /\ name b = n).
    { split_trace H; try discriminate.
      - exfalso. destruct (Hpre _ H) as (c & Hc & [(d' & H') | (o & H')]); [|discriminate].
        injection H' as _ H'. now apply (stageCommand_not_deletion c n).
      - destruct (gateReport_no_Settled _ _ _ _ _ H) as (m & H'). discriminate.
      - apply deletions_In in H as (b & Hb & H').
        assert (Hc : deleteCommand (name b) = deleteCommand n) by congruence.
        apply deleteCommand_inj in Hc. eauto.
      - destruct (Hs _ H) as (b & o & _ & [H' | H']); discriminate. }
    destruct Hb as (b & Hb & <-). destruct (Hall eq_refl b Hb) as (o & _ & Ho).
    exists o. in_trace.
Qed.

Lemma done_means_all_succeeded_witness :
  fst (main (Scripted.exec scenario) (Scripted.respond "yes")
         (Scripted.inOrder scenarioOrder) scenarioNow scenarioNow "/repo" tt) = Some 0 /\
  In (Asked question "yes")
    (snd (main (Scripted.exec scenario) (Scripted.respond "yes")
            (Scripted.inOrder scenarioOrder) scenarioNow scenarioNow "/repo" tt)).
Proof.
  destruct (done_means_all_succeeded unit (Scripted.exec scenario) (Scripted.respond "yes")
              (Scripted.inOrder scenarioOrder) scenarioNow scenarioNow "/repo" tt)
    as (H1 & H2 & _).
  - vm_compute. find_event.
  - split; [exact H1 | exact H2].
Defined.

(** ** Settling *)

Section Settling.
Context {World : Type}.
Variable exec : string -> string -> World -> ShellOutput * World.
Variable settleOrder : World -> list nat.

Lemma atMost_mono {A : Type} (n m : nat) (task : Task A) :
  (n <= m)%nat -> atMost n task -> atMost m task.
Proof.
  revert m task. induction n as [|n IH]; intros m task Hle H.
  - destruct task as [a|e|dir command hooked k]; [exact I | exact I | destruct H].
  - destruct task as [a|e|dir command hooked k]; [exact I | exact I |].
    destruct m as [|m]; [lia|]. intros output. apply (IH m); [lia | apply H].
Qed.

Lemma unsettled_slot {A : Type} (slots : list (Task A)) :
  rejection slots = None -> fulfilled slots = None ->
  exists i dir command hooked k, slots !! i = Some (Await dir command hooked k).
Proof.
  induction slots as [|task slots IH]; [discriminate|].
  destruct task as [a|e|dir command hooked k]; simpl.
  - intros Hr Hf. destruct (fulfilled slots); [discriminate|].
    destruct (IH Hr eq_refl) as (i & d & c & h & k & Hi). exists (S i), d, c, h, k. exact Hi.
  - discriminate.
  - intros _ _. exists 0%nat, dir, command, hooked, k. reflexivity.
Qed.

(** When every task is served as often as it may need, the whole settles. *)
Lemma settleAll_settles {A : Type} (order : list nat) (slots : list (Task A)) (st : State) :
  serves order slots ->
  fst (settleAll exec order slots st) <> Pending.
Proof.
  revert slots st. induction order as [|j order IH]; intros slots st Hserves.
  - simpl. destruct (rejection slots) eqn:Hr; [discriminate|].
    destruct (fulfilled slots) eqn:Hf; [discriminate|].
    destruct (unsettled_slot slots Hr Hf) as (i & d & c & h & k & Hi).
    specialize (Hserves i _ Hi). simpl in Hserves. contradiction.
  - simpl. destruct (rejection slots) eqn:Hr; [discriminate|].
    destruct (fulfilled slots) eqn:Hf; [discriminate|].
    assert (Hskip : (forall d c h k, slots !! j <> Some (Await d c h k)) -> serves order slots).
    { intros Hj i task Hi. specialize (Hserves i task Hi). simpl in Hserves.
      destruct (Nat.eq_dec j i) as [<- | Hne]; [|exact Hserves].
      destruct task as [a|e|d c h k]; simpl; try exact I. now destruct (Hj d c h k). }
    destruct (slots !! j) as [[a|e|d c h k]|] eqn:Hj.
    1,2,4: apply IH, Hskip; intros d' c' h' k'; discriminate.
    destruct (exec d c (world st)) as [output w]. apply IH.
    intros i task Hi. destruct (Nat.eq_dec j i) as [<- | Hne].
    + rewrite list_lookup_insert_eq in Hi by (eapply lookup_lt_Some; exact Hj).
      injection Hi as <-. specialize (Hserves j _ Hj). simpl in Hserves.
      destruct (Nat.eq_dec j j) as [_ | Hne]; [|contradiction]. apply Hserves.
    + rewrite list_lookup_insert_ne in Hi by exact Hne.
      specialize (Hserves i task Hi). simpl in Hserves.
      destruct (Nat.eq_dec j i) as [Heq | _]; [contradiction | exact Hserves].
Qed.

Lemma atMost_branchDate (contextDir branchName : string) :
  atMost 2 (branchDate contextDir branchName).
Proof.
  unfold branchDate, getLastCommitDateOfBranch, runShellCommand. simpl.
  intros fetched.
  repeat (match goal with |- context [if ?b then _ else _] => destruct b end;
          simpl; try exact I).
  intros shown.
  repeat (match goal with |- context [if ?b then _ else _] => destruct b end;
          simpl; try exact I).
Qed.

Lemma atMost_deleteBranch (contextDir branchName : string) :
  atMost 1 (deleteBranch contextDir branchName).
Proof.
  unfold deleteBranch, runShellCommand. simpl. intros output.
  destruct (negb (exitCode output =? 0)); exact I.
Qed.

End Settling.

Lemma resolved_names (events : list Event) (branchNames : list string)
    (branches : list BranchNameWithDate) :
  Forall2 (resolvedFrom events) branchNames branches -> map name branches = branchNames.
Proof.
  induction 1 as [|n b ns bs Hnb _ IH]; [reflexivity|].
  simpl. rewrite IH. f_equal. apply Hnb.
Qed.

(** X10: one pass of date lookups.  All the fetches are started, in the
    order of the names, before any output arrives, and only fetches and date
    queries of the given names follow.  Whatever the order in which the
    commands complete, a fulfilled pass gives one record per name, in the
    order of the names, each with the date made of the text that its own date
    query was seen to print, a valid date other than the epoch; a rejected
    pass gives the error of one lookup whose output was seen. *)
Theorem date_lookups_keep_order :
  forall (World : Type) (exec : string -> string -> World -> ShellOutput * World)
         (settleOrder : World -> list nat)
         (contextDir : string) (branchNames : list string) (st : State),
    exists outcome st' later,
      getBranchDates exec settleOrder contextDir branchNames st = (outcome, st') /\
      trace st' =
        (trace st
         ++ map (fun branchName => Spawned contextDir (fetchCommand branchName)) branchNames
         ++ later)%list /\
      (forall event, In event later -> lookupEvent contextDir branchNames event) /\
      (forall branches, outcome = Resolved branches ->
         map name branches = branchNames /\
         Forall2 (resolvedFrom later) branchNames branches) /\
      (forall e, outcome = Rejected e ->
         exists branchName command output,
           In branchName branchNames /\ In (Settled command output) later /\
           lookupError branchName command output e).
Proof.
  intros World exec settleOrder contextDir branchNames st.
  destruct (getBranchDates_full exec settleOrder contextDir branchNames st)
    as (outcome & st' & later & Heq & Htr & Hev & _ & Hrej & Hres & _).
  exists outcome, st', later.
  split; [exact Heq|]. split; [exact Htr|]. split; [exact Hev|]. split; [|exact Hrej].
  intros branches Hb. specialize (Hres branches Hb).
  split; [now apply (resolved_names later) | exact Hres].
Qed.

(** X11: when every command that is started completes, the whole settles.
    A pass of date lookups runs at most two commands per name and the deleter
    one per record; when the completion order serves every one of them that
    often, the pass, and the deleter, end fulfilled or rejected and are not
    left pending. *)
Theorem served_commands_settle :
  forall (World : Type) (exec : string -> string -> World -> ShellOutput * World)
         (settleOrder : World -> list nat) (contextDir : string)
         (branchNames : list string) (branches : list BranchNameWithDate) (st : State),
    (forall i, (i < length branchNames)%nat ->
       (2 <= count_occ Nat.eq_dec (settleOrder (world st)) i)%nat) ->
    (forall i, (i < length branches)%nat ->
       (1 <= count_occ Nat.eq_dec (settleOrder (world st)) i)%nat) ->
    fst (getBranchDates exec settleOrder contextDir branchNames st) <> Pending /\
    fst (deleteBranches exec settleOrder contextDir branches st) <> Pending.
Proof.
  intros World exec settleOrder contextDir branchNames branches st Hnames Hbranches.
  split.
  - unfold getBranchDates, promiseAll. apply settleAll_settles.
    intros i task Hi. pose proof (lookup_lt_Some _ _ _ Hi) as Hlt.
    rewrite length_map in Hlt. rewrite list_lookup_fmap in Hi.
    destruct (branchNames !! i) as [n|]; [|discriminate]. injection Hi as <-.
    cbn [emit world]. eapply atMost_mono; [apply (Hnames i Hlt) | apply atMost_branchDate].
  - unfold deleteBranches, promiseAll, mbind, M_mbind, M_bind.
    match goal with
    | |- fst (match ?s with _ => _ end) <> _ =>
        assert (Hs : fst s <> Pending); [|destruct s as [[]]; simpl in *; congruence]
    end.
    apply settleAll_settles.
    intros i task Hi. pose proof (lookup_lt_Some _ _ _ Hi) as Hlt.
    rewrite length_map in Hlt. rewrite list_lookup_fmap in Hi.
    destruct (branches !! i) as [b|]; [|discriminate]. injection Hi as <-.
    cbn [emit world]. eapply atMost_mono; [apply (Hbranches i Hlt) | apply atMost_deleteBranch].
Qed.

Lemma served_commands_settle_witness :
  fst (getBranchDates (Scripted.exec scenario) (Scripted.inOrder scenarioOrder) "/repo"
         ["feature-a"; "feature-b"; "feature-c"] (scenarioStart "/repo")) <> Pending /\
  fst (deleteBranches (Scripted.exec scenario) (Scripted.inOrder scenarioOrder) "/repo"
         [featureA; featureC] (scenarioStart "/repo")) <> Pending.
Proof.
  apply (served_commands_settle unit (Scripted.exec scenario)
           (Scripted.inOrder scenarioOrder) "/repo"
           ["feature-a"; "feature-b"; "feature-c"] [featureA; featureC]
           (scenarioStart "/repo")).
  - intros i Hi. simpl in Hi.
    destruct i as [|[|[|i]]]; [vm_compute; lia | vm_compute; lia | vm_compute; lia | lia].
  - intros i Hi. simpl in Hi.
    destruct i as [|[|i]]; [vm_compute; lia | vm_compute; lia | lia].
Defined.

(** X12: nothing to delete.  When both sets are empty the report is still
    printed and the question still asked; whatever the response, no command
    is started after it and the run exits with code 0, saying that it is done
    when the response is "yes" and that the user declined otherwise. *)
Theorem nothing_to_delete :
  forall (World : Type) (exec : string -> string -> World -> ShellOutput * World)
         (askQuestion : string -> World -> string * World)
         (settleOrder : World -> list nat) (staleNow mergedNow : Z)
         (gitDir : string) (w : World) (st1 : State),
    let start := {| world := w; trace := [Info (UsingDirectory gitDir)] |} in
    let result := main exec askQuestion settleOrder staleNow mergedNow gitDir w in
    classifyBranches exec settleOrder staleNow mergedNow gitDir start
      = (Resolved ([], []), st1) ->
    fst result = Some 0 /\
    snd result =
      (trace st1 ++ gateReport staleNow mergedNow [] []
       ++ [Asked question (fst (askQuestion question (world st1)));
           Info (if String.eqb (fst (askQuestion question (world st1))) "yes"
                 then Done else Declined)])%list.
Proof.
  intros World exec askQuestion settleOrder staleNow mergedNow gitDir w st1 start result.
  destruct (main_full exec askQuestion settleOrder staleNow mergedNow gitDir w)
    as (classified & st1' & pre & Hclass & Htr & _ & Hcase).
  fold start in Hclass. fold result in Hcase. intros Hrun.
  rewrite Hrun in Hclass. injection Hclass as <- <-.
  destruct Hcase as [(e0 & H & _) | [(H & _)
    | (stale & merged & response & w' & H & Hask & [(Hno & Hres)
       | (-> & asked & st2 & outcome & settled & _ & Hdel & Hended & Hres)])]];
    try discriminate; injection H as <- <-; rewrite Hask, Hres; cbn [fst snd].
  - apply String.eqb_neq in Hno. rewrite Hno, Htr. split; reflexivity.
  - assert (Hout : outcome = Resolved tt).
    { unfold deleteBranches, promiseAll, mbind, M_mbind, M_bind in Hdel. simpl in Hdel.
      destruct (settleOrder (world asked)); simpl in Hdel; now injection Hdel. }
    assert (Hset : settled = []).
    { destruct settled as [|event settled]; [reflexivity|].
      destruct Hended as (Hs & _).
      destruct (Hs event (or_introl eq_refl)) as (b & o & [] & _). }
    subst outcome settled. rewrite Htr. split; reflexivity.
Qed.

Lemma nothing_to_delete_witness :
  fst (main (Scripted.exec onlyProtected) (Scripted.respond "yes")
         (Scripted.inOrder []) scenarioNow scenarioNow "/repo" tt) = Some 0 /\
  snd (main (Scripted.exec onlyProtected) (Scripted.respond "yes")
         (Scripted.inOrder []) scenarioNow scenarioNow "/repo" tt)
  = (trace (snd (classifyBranches (Scripted.exec onlyProtected) (Scripted.inOrder [])
                   scenarioNow scenarioNow "/repo" (scenarioStart "/repo")))
     ++ gateReport scenarioNow scenarioNow [] []
     ++ [Asked question "yes"; Info Done])%list.
Proof.
  apply (nothing_to_delete unit (Scripted.exec onlyProtected) (Scripted.respond "yes")
           (Scripted.inOrder []) scenarioNow scenarioNow "/repo" tt
           (snd (classifyBranches (Scripted.exec onlyProtected) (Scripted.inOrder [])
                   scenarioNow scenarioNow "/repo" (scenarioStart "/repo")))).
  vm_compute. reflexivity.
Defined.

(** ** The patterns of the listers *)

Lemma matchHere_cons (a : Atom) (r : Pattern) (toEnd : bool) (s : list ascii) :
  matchHere (a :: r) toEnd s =
  match quantifier a with
  | Once =>
      match s with
      | c :: s' =>
          if class a c then option_map (keep a c) (matchHere r toEnd s') else None
      | [] => None
      end
  | Plus =>
      match s with
      | c :: s' =>
          if class a c then option_map (keep a c) (manyOf a (matchHere r toEnd) s')
          else None
      | [] => None
      end
  | Star => manyOf a (matchHere r toEnd) s
  end.
Proof. reflexivity. Qed.

Lemma keep_kept (a : Atom) (c : ascii) (run g : list ascii) :
  keep a c (kept a run ++ g) = (kept a (c :: run) ++ g)%list.
Proof. unfold keep, kept. destruct (captured a); reflexivity. Qed.

Lemma kept_nil (a : Atom) : kept a [] = [].
Proof. unfold kept. now destruct (captured a). Qed.

Lemma manyOf_sound (a : Atom) (next : list ascii -> option (list ascii))
    (s g : list ascii) :
  manyOf a next s = Some g ->
  exists run s' g',
    s = (run ++ s')%list /\ Forall (fun c => class a c = true) run /\
    next s' = Some g' /\ g = (kept a run ++ g')%list.
Proof.
  revert g. induction s as [|c s IH]; intros g H.
  - exists [], [], g. simpl in H. unfold kept. destruct (captured a); auto.
  - simpl in H. fold (manyOf a next) in H.
    assert (Hnext : next (c :: s) = Some g ->
              exists run s' g',
                c :: s = (run ++ s')%list /\ Forall (fun c => class a c = true) run /\
                next s' = Some g' /\ g = (kept a run ++ g')%list).
    { intros Hn. exists [], (c :: s), g. unfold kept. destruct (captured a); auto. }
    destruct (class a c) eqn:Hc; [|auto].
    destruct (manyOf a next s) as [g0|] eqn:Hm; [|auto].
    injection H as <-.
    destruct (IH g0 eq_refl) as (run & s' & g' & -> & Hrun & Hn & ->).
    exists (c :: run), s', g'. split; [reflexivity|]. split; [now constructor|].
    split; [exact Hn | apply keep_kept].
Qed.

Lemma manyOf_complete (a : Atom) (next : list ascii -> option (list ascii))
    (run s : list ascii) :
  Forall (fun c => class a c = true) run ->
  next s <> None -> manyOf a next (run ++ s) <> None.
Proof.
  intros Hrun Hnext. induction Hrun as [|c run Hc _ IH].
  - simpl. destruct s as [|c s]; [exact Hnext|]. simpl. fold (manyOf a next).
    destruct (class a c); [|exact Hnext].
    destruct (manyOf a next s); [discriminate | exact Hnext].
  - simpl. fold (manyOf a next). rewrite Hc.
    destruct (manyOf a next (run ++ s)); [discriminate | contradiction].
Qed.

(** The matcher only finds matches. *)
Lemma matchHere_sound (toEnd : bool) (r : Pattern) (s g : list ascii) :
  matchHere r toEnd s = Some g -> Matches toEnd r s g.
Proof.
  revert s g. induction r as [|a r IH]; intros s g H.
  - simpl in H. destruct s as [|c s].
    + injection H as <-. now constructor.
    + destruct toEnd; [discriminate|]. injection H as <-. constructor. discriminate.
  - rewrite matchHere_cons in H. destruct (quantifier a) eqn:Hq.
    + destruct s as [|c s]; [discriminate|].
      destruct (class a c) eqn:Hc; [|discriminate].
      destruct (matchHere r toEnd s) as [g0|] eqn:Hm; [|discriminate].
      injection H as <-.
      replace (keep a c g0) with (kept a [c] ++ g0)%list
        by (now rewrite <- keep_kept, kept_nil). apply (MatchesAtom toEnd a r [c] s g0).
      * now repeat constructor.
      * now rewrite Hq.
      * now apply IH.
    + destruct s as [|c s]; [discriminate|].
      destruct (class a c) eqn:Hc; [|discriminate].
      destruct (manyOf a (matchHere r toEnd) s) as [g0|] eqn:Hm; [|discriminate].
      injection H as <-.
      apply manyOf_sound in Hm as (run & s' & g' & -> & Hrun & Hn & ->).
      rewrite keep_kept. apply (MatchesAtom toEnd a r (c :: run) s' g').
      * now constructor.
      * rewrite Hq. simpl. lia.
      * now apply IH.
    + apply manyOf_sound in H as (run & s' & g' & -> & Hrun & Hn & ->).
      apply MatchesAtom; [exact Hrun | now rewrite Hq | now apply IH].
Qed.

(** The matcher finds a match when there is one. *)
Lemma matchHere_complete (toEnd : bool) (r : Pattern) (s g : list ascii) :
  Matches toEnd r s g -> matchHere r toEnd s <> None.
Proof.
  induction 1 as [s Hend | a r run s g Hrun Hrep _ IH].
  - simpl. destruct s as [|c s]; [discriminate|].
    destruct toEnd; [now specialize (Hend eq_refl) | discriminate].
  - rewrite matchHere_cons. destruct (quantifier a); simpl in Hrep.
    + destruct run as [|c [|c' run]]; try discriminate.
      apply Forall_inv in Hrun. simpl. rewrite Hrun.
      destruct (matchHere r toEnd s); [discriminate | contradiction].
    + destruct run as [|c run]; [simpl in Hrep; lia|].
      pose proof (Forall_inv Hrun) as Hc. apply Forall_inv_tail in Hrun.
      simpl. rewrite Hc.
      pose proof (manyOf_complete a (matchHere r toEnd) run s Hrun IH) as Hm.
      destruct (manyOf a (matchHere r toEnd) (run ++ s)); [discriminate | contradiction].
    + now apply manyOf_complete.
Qed.

Lemma chars_app (a b : string) : chars (a ++ b) = (chars a ++ chars b)%list.
Proof. unfold chars. induction a as [|c a IH]; [reflexivity|]. simpl. now rewrite IH. Qed.

Lemma string_of_chars (s : string) : string_of_list_ascii (chars s) = s.
Proof. apply string_of_list_ascii_of_string. Qed.

Lemma chars_of_list (l : list ascii) : chars (string_of_list_ascii l) = l.
Proof. apply list_ascii_of_string_of_list_ascii. Qed.

Lemma chars_inj (a b : string) : chars a = chars b -> a = b.
Proof. intros H. rewrite <- (string_of_chars a), <- (string_of_chars b). now rewrite H. Qed.

Lemma chars_nil (s : string) : chars s = [] <-> s = "".
Proof. destruct s; simpl; split; congruence. Qed.

(** A text is cut in one way only into characters of a class followed by a
    text that does not begin with one. *)
Lemma run_unique (P : ascii -> bool) (l1 l2 r1 r2 : list ascii) :
  (l1 ++ r1 = l2 ++ r2)%list ->
  Forall (fun c => P c = true) l1 -> Forall (fun c => P c = true) l2 ->
  (forall c r, r1 = c :: r -> P c = false) ->
  (forall c r, r2 = c :: r -> P c = false) ->
  l1 = l2 /\ r1 = r2.
Proof.
  revert l2. induction l1 as [|x l1 IH]; intros l2 Heq H1 H2 Hr1 Hr2.
  - destruct l2 as [|y l2]; [auto|]. simpl in Heq.
    pose proof (Forall_inv H2) as Hy. simpl in Hy.
    rewrite (Hr1 y (l2 ++ r2)%list Heq) in Hy. discriminate.
  - destruct l2 as [|y l2]; simpl in Heq.
    + symmetry in Heq. pose proof (Forall_inv H1) as Hx. simpl in Hx.
      rewrite (Hr2 x (l1 ++ r1)%list Heq) in Hx. discriminate.
    + injection Heq as <- Heq.
      destruct (IH l2 Heq (Forall_inv_tail H1) (Forall_inv_tail H2) Hr1 Hr2) as [-> ->].
      auto.
Qed.

Lemma Matches_cons_inv (toEnd : bool) (a : Atom) (r : Pattern) (s g : list ascii) :
  Matches toEnd (a :: r) s g ->
  exists run s' g',
    s = (run ++ s')%list /\ g = (kept a run ++ g')%list /\
    Forall (fun c => class a c = true) run /\
    repeats (quantifier a) (length run) /\ Matches toEnd r s' g'.
Proof. inversion 1; subst. eauto 10. Qed.

Lemma Matches_nil_inv (toEnd : bool) (s g : list ascii) :
  Matches toEnd [] s g -> g = [] /\ (toEnd = true -> s = []).
Proof. inversion 1; subst. auto. Qed.

Lemma Forall_lit (x : ascii) (run : list ascii) :
  Forall (fun c => lit x c = true) run -> run = repeat x (length run).
Proof.
  induction 1 as [|c run Hc _ IH]; [reflexivity|].
  simpl. unfold lit in Hc. apply Ascii.eqb_eq in Hc. subst c. now rewrite <- IH.
Qed.

Lemma space_not_slash (c : ascii) : space c = true -> notLit "/" c = true.
Proof.
  unfold notLit. destruct (Ascii.eqb c "/") eqn:Hc; [|reflexivity].
  apply Ascii.eqb_eq in Hc. subst c. discriminate.
Qed.

Lemma notLit_neq (x c : ascii) : notLit x c = true <-> c <> x.
Proof.
  unfold notLit. rewrite Bool.negb_true_iff. split.
  - intros H ->. now rewrite Ascii.eqb_refl in H.
  - intros H. now apply Ascii.eqb_neq.
Qed.

Lemma dot_one_line (c : ascii) : dot c = true <-> Str.isLineTerminator c = false.
Proof. unfold dot. apply Bool.negb_true_iff. Qed.

Lemma safeMatch1_fromStart (line name : string) (regExp : RegExp) :
  fromStart regExp = true ->
  (safeMatch1 line regExp = Some name <->
   matchHere (pattern regExp) (toEnd regExp) (chars line) = Some (chars name)).
Proof.
  intros Hs. unfold safeMatch1. rewrite Hs. fold (chars line).
  destruct (matchHere _ _ _) as [g|]; simpl; split; try discriminate.
  - intros [= <-]. now rewrite chars_of_list.
  - intros [= ->]. now rewrite string_of_chars.
Qed.

Lemma safeMatch1_found (line : string) (regExp : RegExp) :
  fromStart regExp = true ->
  matchHere (pattern regExp) (toEnd regExp) (chars line) <> None ->
  exists found, safeMatch1 line regExp = Some found.
Proof.
  intros Hs Hm. unfold safeMatch1. rewrite Hs. fold (chars line).
  destruct (matchHere _ _ _); [eexists; reflexivity | contradiction].
Qed.

(** What the pattern of the merged lister finds on a line. *)
Lemma mergedBranchLine_sound (line name : string) :
  safeMatch1 line mergedBranchLine = Some name ->
  exists remote,
    line = remote ++ "/" ++ name /\ remote <> "" /\ without "/" remote /\
    name <> "" /\ onOneLine name.
Proof.
  intros H. apply safeMatch1_fromStart in H; [|reflexivity].
  apply matchHere_sound in H. cbn in H.
  apply Matches_cons_inv in H as (run1 & s1 & g1 & Hs1 & Hg1 & Hc1 & _ & H).
  apply Matches_cons_inv in H as (run2 & s2 & g2 & -> & -> & Hc2 & Hr2 & H).
  apply Matches_cons_inv in H as (run3 & s3 & g3 & -> & -> & Hc3 & Hr3 & H).
  apply Matches_cons_inv in H as (run4 & s4 & g4 & -> & -> & Hc4 & Hr4 & H).
  apply Matches_nil_inv in H as (-> & Hend). rewrite (Hend eq_refl) in Hs1.
  apply Forall_lit in Hc3. cbn in Hr2, Hr3, Hr4, Hc3, Hg1. rewrite Hr3 in Hc3.
  subst run3. rewrite !app_nil_r in *. cbn [repeat app] in Hs1.
  assert (Hname : name = string_of_list_ascii run4)
    by (now rewrite <- Hg1, string_of_chars).
  exists (string_of_list_ascii (run1 ++ run2)). split; [|split; [|split; [|split]]].
  - apply chars_inj. rewrite Hs1, Hname, !chars_app, !chars_of_list.
    now rewrite <- app_assoc.
  - intros He. apply chars_nil in He. rewrite chars_of_list in He.
    apply app_eq_nil in He as [_ ->]. simpl in Hr2. lia.
  - unfold without. rewrite chars_of_list. apply Forall_app. split.
    + eapply Forall_impl; [exact Hc1|]. intros c Hc. cbn in Hc.
      now apply notLit_neq, space_not_slash.
    + eapply Forall_impl; [exact Hc2|]. intros c Hc. now apply notLit_neq.
  - intros He. rewrite He in Hg1. simpl in Hg1. subst run4. simpl in Hr4. lia.
  - unfold onOneLine. rewrite Hg1. eapply Forall_impl; [exact Hc4|].
    intros c Hc. now apply dot_one_line.
Qed.

Lemma mergedBranchLine_complete (remote name : string) :
  remote <> "" -> without "/" remote -> name <> "" -> onOneLine name ->
  safeMatch1 (remote ++ "/" ++ name) mergedBranchLine = Some name.
Proof.
  intros Hremote Hslash Hname Hline.
  assert (Hm : Matches true (pattern mergedBranchLine)
                 (chars (remote ++ "/" ++ name)) (chars name)).
  { rewrite !chars_app. cbn [pattern mergedBranchLine app text map].
    apply (MatchesAtom true (star space) _ [] _ (chars name)); [constructor | exact I |].
    apply (MatchesAtom true (plus (notLit "/")) _ (chars remote) _ (chars name)).
    { eapply Forall_impl; [exact Hslash|]. intros c Hc. now apply notLit_neq. }
    { cbn. destruct remote; [contradiction | simpl; lia]. }
    apply (MatchesAtom true (once (lit "/")) _ ["/"%char] _ (chars name));
      [now repeat constructor | reflexivity |].
    rewrite <- (app_nil_r (chars name)) at 1.
    replace (chars name) with (kept (group (plus dot)) (chars name) ++ [])%list at 2
      by (cbn; apply app_nil_r).
    apply MatchesAtom.
    - eapply Forall_impl; [exact Hline|]. intros c Hc. now apply dot_one_line.
    - cbn. destruct name; [contradiction | simpl; lia].
    - now constructor. }
  apply matchHere_complete in Hm.
  destruct (safeMatch1_found _ mergedBranchLine eq_refl Hm) as [found Hfound].
  rewrite Hfound. f_equal.
  apply mergedBranchLine_sound in Hfound as (remote' & Heq & _ & Hslash' & _).
  apply (f_equal chars) in Heq. rewrite !chars_app in Heq. cbn [chars list_ascii_of_string app] in Heq.
  destruct (run_unique (notLit "/") (chars remote) (chars remote')
              ("/"%char :: chars name) ("/"%char :: chars found)) as [_ Hsame].
  - exact Heq.
  - eapply Forall_impl; [exact Hslash|]. intros c Hc. now apply notLit_neq.
  - eapply Forall_impl; [exact Hslash'|]. intros c Hc. now apply notLit_neq.
  - intros c r Hc. injection Hc as <- _. reflexivity.
  - intros c r Hc. injection Hc as <- _. reflexivity.
  - injection Hsame as Hsame. symmetry. now apply chars_inj.
Qed.

(** X13: the line pattern of the merged lister.  A line of [git branch -r
    --merged] gives a branch name exactly when a [/] follows a non-empty
    beginning without [/], and something on the same line follows it: the
    name is everything after the first [/] of the line, further [/] and
    spaces included. *)
Theorem merged_line_shape :
  forall line name : string,
    safeMatch1 line mergedBranchLine = Some name <->
    exists remote,
      line = remote ++ "/" ++ name /\ remote <> "" /\ without "/" remote /\
      name <> "" /\ onOneLine name.
Proof.
  intros line name. split; [apply mergedBranchLine_sound|].
  intros (remote & -> & Hremote & Hslash & Hname & Hline).
  now apply mergedBranchLine_complete.
Qed.

Lemma Matches_text_inv (toEnd : bool) (t : string) (r : Pattern) (s g : list ascii) :
  Matches toEnd (text t ++ r)%list s g ->
  exists s', s = (chars t ++ s')%list /\ Matches toEnd r s' g.
Proof.
  revert s. induction t as [|x t IH]; intros s H; [now exists s|].
  cbn in H. apply Matches_cons_inv in H as (run & s1 & g1 & -> & -> & Hc & Hr & H).
  apply Forall_lit in Hc. cbn in Hr, Hc. rewrite Hr in Hc. subst run.
  apply IH in H as (s' & -> & H). exists s'. split; [reflexivity | exact H].
Qed.

Lemma Matches_text (toEnd : bool) (t : string) (r : Pattern) (s g : list ascii) :
  Matches toEnd r s g -> Matches toEnd (text t ++ r)%list (chars t ++ s)%list g.
Proof.
  intros H. induction t as [|x t IH]; [exact H|].
  cbn. apply (MatchesAtom toEnd (once (lit x)) _ [x] _ g); [|reflexivity | exact IH].
  repeat constructor. apply Ascii.eqb_refl.
Qed.

Lemma space_not_word (c : ascii) : space c = true -> word c = false.
Proof.
  destruct c as [[] [] [] [] [] [] [] []]; vm_compute; congruence.
Qed.

(** What the pattern of the remote lister finds on a line. *)
Lemma remoteHeadLine_sound (line name : string) :
  safeMatch1 line remoteHeadLine = Some name ->
  exists hash gap,
    line = hash ++ gap ++ "refs/heads/" ++ name /\
    hash <> "" /\ Forall (fun c => word c = true) (chars hash) /\
    gap <> "" /\ Forall (fun c => Str.isWhiteSpace c = true) (chars gap) /\
    name <> "" /\ onOneLine name.
Proof.
  intros H. apply safeMatch1_fromStart in H; [|reflexivity].
  apply matchHere_sound in H. cbn [pattern toEnd remoteHeadLine app] in H.
  apply Matches_cons_inv in H as (run1 & s1 & g1 & Hs1 & Hg1 & Hc1 & Hr1 & H).
  apply Matches_cons_inv in H as (run2 & s2 & g2 & -> & -> & Hc2 & Hr2 & H).
  apply Matches_text_inv in H as (s3 & -> & H).
  apply Matches_cons_inv in H as (run4 & s4 & g4 & -> & -> & Hc4 & Hr4 & H).
  apply Matches_nil_inv in H as (-> & Hend). rewrite (Hend eq_refl) in Hs1.
  cbn in Hr1, Hr2, Hr4, Hg1, Hc1, Hc2. rewrite !app_nil_r in *.
  assert (Hname : name = string_of_list_ascii run4)
    by (now rewrite <- Hg1, string_of_chars).
  exists (string_of_list_ascii run1), (string_of_list_ascii run2).
  rewrite !chars_of_list.
  split; [|split; [|split; [|split; [|split; [|split]]]]].
  - apply chars_inj. rewrite Hs1, Hname, !chars_app, !chars_of_list. reflexivity.
  - intros He. apply chars_nil in He. rewrite chars_of_list in He. subst run1.
    simpl in Hr1. lia.
  - exact Hc1.
  - intros He. apply chars_nil in He. rewrite chars_of_list in He. subst run2.
    simpl in Hr2. lia.
  - exact Hc2.
  - intros He. rewrite He in Hg1. simpl in Hg1. subst run4. simpl in Hr4. lia.
  - unfold onOneLine. rewrite Hg1. eapply Forall_impl; [exact Hc4|].
    intros c Hc. now apply dot_one_line.
Qed.

Lemma remoteHeadLine_complete (hash gap name : string) :
  hash <> "" -> Forall (fun c => word c = true) (chars hash) ->
  gap <> "" -> Forall (fun c => Str.isWhiteSpace c = true) (chars gap) ->
  name <> "" -> onOneLine name ->
  safeMatch1 (hash ++ gap ++ "refs/heads/" ++ name) remoteHeadLine = Some name.
Proof.
  intros Hhash Hword Hgap Hspace Hname Hline.
  assert (Hm : Matches (toEnd remoteHeadLine) (pattern remoteHeadLine)
                 (chars (hash ++ gap ++ "refs/heads/" ++ name)) (chars name)).
  { rewrite !chars_app. cbn [pattern toEnd remoteHeadLine app].
    apply (MatchesAtom true (plus word) _ (chars hash) _ (chars name)); [exact Hword | |].
    { cbn. destruct hash; [contradiction | simpl; lia]. }
    apply (MatchesAtom true (plus space) _ (chars gap) _ (chars name)); [exact Hspace | |].
    { cbn. destruct gap; [contradiction | simpl; lia]. }
    apply Matches_text.
    rewrite <- (app_nil_r (chars name)) at 1.
    replace (chars name) with (kept (group (plus dot)) (chars name) ++ [])%list at 2
      by (cbn; apply app_nil_r).
    apply MatchesAtom.
    - eapply Forall_impl; [exact Hline|]. intros c Hc. now apply dot_one_line.
    - cbn. destruct name; [contradiction | simpl; lia].
    - now constructor. }
  apply matchHere_complete in Hm.
  destruct (safeMatch1_found _ remoteHeadLine eq_refl Hm) as [found Hfound].
  rewrite Hfound. f_equal.
  apply remoteHeadLine_sound in Hfound
    as (hash' & gap' & Heq & _ & Hword' & Hgap' & Hspace' & _).
  apply (f_equal chars) in Heq. rewrite !chars_app in Heq.
  assert (Hfirst : forall g rest c r, g <> "" ->
            Forall (fun c => Str.isWhiteSpace c = true) (chars g) ->
            (chars g ++ rest)%list = c :: r -> word c = false).
  { intros g rest c r Hg Hs Hc. destruct g as [|x g]; [contradiction|].
    injection Hc as <- _. apply space_not_word. now apply Forall_inv in Hs. }
  destruct (run_unique word (chars hash) (chars hash')
              (chars gap ++ chars "refs/heads/" ++ chars name)
              (chars gap' ++ chars "refs/heads/" ++ chars found))
    as [_ Hrest]; [exact Heq | exact Hword | exact Hword' | | |].
  { intros c r. now apply Hfirst. }
  { intros c r. now apply Hfirst. }
  destruct (run_unique space (chars gap) (chars gap')
              (chars "refs/heads/" ++ chars name) (chars "refs/heads/" ++ chars found))
    as [_ Hlast]; [exact Hrest | exact Hspace | exact Hspace' | | |].
  { intros c r Hc. injection Hc as <- _. reflexivity. }
  { intros c r Hc. injection Hc as <- _. reflexivity. }
  apply app_inv_head in Hlast. symmetry. now apply chars_inj.
Qed.

(** X14: the line pattern of the remote lister.  A line of [git ls-remote
    --heads origin] gives a branch name exactly when it is made of letters,
    digits or underscores, then white space, then [refs/heads/], then
    something on the same line: the name is everything after [refs/heads/]. *)
Theorem remote_line_shape :
  forall line name : string,
    safeMatch1 line remoteHeadLine = Some name <->
    exists hash gap,
      line = hash ++ gap ++ "refs/heads/" ++ name /\
      hash <> "" /\ Forall (fun c => word c = true) (chars hash) /\
      gap <> "" /\ Forall (fun c => Str.isWhiteSpace c = true) (chars gap) /\
      name <> "" /\ onOneLine name.
Proof.
  intros line name. split; [apply remoteHeadLine_sound|].
  intros (hash & gap & -> & Hhash & Hword & Hgap & Hspace & Hname & Hline).
  now apply remoteHeadLine_complete.
Qed.

Lemma mapLines_Ok_iff (callback : string -> Result string) (lines names : list string) :
  mapLines callback lines = Ok names <->
  Forall2 (fun line name => callback line = Ok name) lines names.
Proof.
  revert names. induction lines as [|l lines IH]; intros names; simpl.
  - split; [intros [= <-]; constructor | now inversion 1].
  - destruct (callback l) as [b|e] eqn:Hl.
    + destruct (mapLines callback lines) as [bs|e]; split.
      * intros [= <-]. constructor; [exact Hl | now apply IH].
      * inversion 1 as [|? n ? ns Hn Hns]; subst. apply IH in Hns.
        injection Hns as <-. congruence.
      * discriminate.
      * inversion 1 as [|? n ? ns Hn Hns]; subst. apply IH in Hns. discriminate.
    + split; [discriminate|]. inversion 1; subst. congruence.
Qed.

Lemma branchNameOfLine_Ok (regExp : RegExp) (line name : string) :
  branchNameOfLine regExp line = Ok name <->
  safeMatch1 line regExp = Some name /\ name <> "".
Proof.
  unfold branchNameOfLine. destruct (safeMatch1 line regExp) as [b|].
  - destruct (Str.isTruthy b) eqn:Hb; split.
    + intros [= <-]. split; [reflexivity | now apply isTruthy_iff].
    + now intros [[= <-] _].
    + discriminate.
    + intros [[= <-] Hne]. apply isTruthy_iff in Hne. congruence.
  - split; [discriminate | now intros [? _]].
Qed.

(** The names of a listing, for a pattern whose capture group is not empty:
    the two calls of [filter(isTruthy)] on the names change nothing. *)
Lemma listing_names (regExp : RegExp) (lines names : list string) :
  (forall line name, safeMatch1 line regExp = Some name -> name <> "") ->
  (match mapLines (branchNameOfLine regExp) lines with
   | Ok branchNames => Some (List.filter Str.isTruthy branchNames)
   | Thrown _ => None
   end = Some names <->
   Forall2 (fun line name => safeMatch1 line regExp = Some name) lines names).
Proof.
  intros Hne. split.
  - destruct (mapLines _ _) as [found|e] eqn:Hm; [|discriminate]. intros [= <-].
    apply mapLines_Ok_iff in Hm.
    assert (Hall : List.filter Str.isTruthy found = found).
    { apply filter_all. intros name Hin.
      destruct (Forall2_In_r _ _ _ _ Hm Hin) as (line & _ & Hl).
      apply branchNameOfLine_Ok in Hl as [_ Hl]. now apply isTruthy_iff. }
    rewrite Hall. eapply Forall2_impl; [exact Hm|].
    intros line name Hl. now apply branchNameOfLine_Ok in Hl.
  - intros H.
    assert (Hm : mapLines (branchNameOfLine regExp) lines = Ok names).
    { apply mapLines_Ok_iff. eapply Forall2_impl; [exact H|].
      intros line name Hl. apply branchNameOfLine_Ok. split; [exact Hl | exact (Hne _ _ Hl)]. }
    rewrite Hm. f_equal. apply filter_all. intros name Hin.
    destruct (Forall2_In_r _ _ _ _ H Hin) as (line & _ & Hl).
    apply isTruthy_iff. exact (Hne _ _ Hl).
Qed.

(** ** The listers and the lines of the wrong shape *)

Lemma mapLines_first (callback : string -> Result string) (before after : list string)
    (bad : string) (e : Error) :
  (forall line, In line before -> exists name, callback line = Ok name) ->
  callback bad = Thrown e ->
  mapLines callback (before ++ bad :: after) = Thrown e.
Proof.
  intros Hbefore Hbad. induction before as [|line before IH]; simpl.
  - now rewrite Hbad.
  - destruct (Hbefore line (or_introl eq_refl)) as [name ->].
    rewrite IH; [reflexivity|]. intros l Hl. apply Hbefore. now right.
Qed.

Lemma remoteHeadLine_named (line name : string) :
  safeMatch1 line remoteHeadLine = Some name -> name <> "".
Proof.
  intros H. apply remoteHeadLine_sound in H as (h & g & _ & _ & _ & _ & _ & H & _). exact H.
Qed.

Lemma mergedBranchLine_named (line name : string) :
  safeMatch1 line mergedBranchLine = Some name -> name <> "".
Proof.
  intros H. apply mergedBranchLine_sound in H as (r & _ & _ & _ & H & _). exact H.
Qed.

Lemma named_lines (regExp : RegExp) (lines : list string) :
  (forall line name, safeMatch1 line regExp = Some name -> name <> "") ->
  Forall (fun line => safeMatch1 line regExp <> None) lines ->
  forall line, In line lines -> exists name, branchNameOfLine regExp line = Ok name.
Proof.
  intros Hnamed Hlines line Hin. rewrite List.Forall_forall in Hlines.
  specialize (Hlines line Hin).
  destruct (safeMatch1 line regExp) as [name|] eqn:Hm; [|contradiction].
  exists name. apply branchNameOfLine_Ok. split; [exact Hm | exact (Hnamed _ _ Hm)].
Qed.

(** The first line from which no name is extracted ends the loop of the
    lister. *)
Lemma first_mismatch (regExp : RegExp) (before after : list string) (bad : string) :
  (forall line name, safeMatch1 line regExp = Some name -> name <> "") ->
  Forall (fun line => safeMatch1 line regExp <> None) before ->
  safeMatch1 bad regExp = None ->
  mapLines (branchNameOfLine regExp) (before ++ bad :: after) = Thrown (NoBranchName bad).
Proof.
  intros Hnamed Hbefore Hbad. apply mapLines_first.
  - now apply named_lines.
  - now apply branchNameOfLine_mismatch.
Qed.

Section ListingRuns.
Context {World : Type}.
Variable exec : string -> string -> World -> ShellOutput * World.
Variable askQuestion : string -> World -> string * World.
Variable settleOrder : World -> list nat.
Variables staleNow mergedNow : Z.

(** When a lister is fulfilled, and with what. *)
Lemma lister_names_iff (contextDir : string) (st : State) (names : list string) :
  let listedRemote := fst (exec contextDir remoteCommand (world st)) in
  let listedMerged := fst (exec contextDir mergedCommand (world st)) in
  (fst (await exec (getAllRemoteBranches contextDir) st) = Resolved names <->
   exitCode listedRemote = 0 /\
   Forall2 (fun line name => safeMatch1 line remoteHeadLine = Some name)
     (List.filter Str.isTruthy (Str.split Str.newline (stdout listedRemote))) names) /\
  (fst (await exec (getAllMergedRemoteBranches contextDir) st) = Resolved names <->
   exitCode listedMerged = 0 /\
   Forall2 (fun line name => safeMatch1 line mergedBranchLine = Some name)
     (List.filter Str.isTruthy (Str.split Str.newline (stdout listedMerged))) names).
Proof.
  intros listedRemote listedMerged.
  split.
  - rewrite await_getAllRemoteBranches. subst listedRemote.
    destruct (exec contextDir remoteCommand (world st)) as [output w]. cbn [fst].
    rewrite <- (listing_names remoteHeadLine _ names remoteHeadLine_named).
    destruct (exitCode output =? 0) eqn:Hz; cbn [negb].
    + apply Z.eqb_eq in Hz. destruct (mapLines _ _) as [found|e]; cbn [fst]; split.
      * intros [= <-]. auto.
      * intros [_ [= <-]]. reflexivity.
      * discriminate.
      * intros [_ H]. discriminate.
    + apply Z.eqb_neq in Hz. cbn [fst]. split; [discriminate | intros [H _]; contradiction].
  - rewrite await_getAllMergedRemoteBranches. subst listedMerged.
    destruct (exec contextDir mergedCommand (world st)) as [output w]. cbn [fst].
    rewrite <- (listing_names mergedBranchLine _ names mergedBranchLine_named).
    destruct (exitCode output =? 0) eqn:Hz; cbn [negb].
    + apply Z.eqb_eq in Hz. destruct (mapLines _ _) as [found|e]; cbn [fst]; split.
      * intros [= <-]. auto.
      * intros [_ [= <-]]. reflexivity.
      * discriminate.
      * intros [_ H]. discriminate.
    + apply Z.eqb_neq in Hz. cbn [fst]. split; [discriminate | intros [H _]; contradiction].
Qed.

Lemma remote_mismatch (contextDir : string) (st : State) (output : ShellOutput) (w : World)
    (before after : list string) (bad : string) :
  exec contextDir remoteCommand (world st) = (output, w) ->
  exitCode output = 0 ->
  List.filter Str.isTruthy (Str.split Str.newline (stdout output))
    = (before ++ bad :: after)%list ->
  Forall (fun line => safeMatch1 line remoteHeadLine <> None) before ->
  safeMatch1 bad remoteHeadLine = None ->
  await exec (getAllRemoteBranches contextDir) st
  = (Rejected (NoBranchName bad),
     {| world := w;
        trace := trace st ++ [Spawned contextDir remoteCommand;
                               Settled remoteCommand output] |}).
Proof.
  intros Hexec Hcode Hlines Hbefore Hbad.
  rewrite await_getAllRemoteBranches, Hexec, Hcode, Hlines. cbn [Z.eqb negb].
  now rewrite (first_mismatch _ _ _ _ remoteHeadLine_named Hbefore Hbad).
Qed.

Lemma merged_mismatch (contextDir : string) (st : State) (output : ShellOutput) (w : World)
    (before after : list string) (bad : string) :
  exec contextDir mergedCommand (world st) = (output, w) ->
  exitCode output = 0 ->
  List.filter Str.isTruthy (Str.split Str.newline (stdout output))
    = (before ++ bad :: after)%list ->
  Forall (fun line => safeMatch1 line mergedBranchLine <> None) before ->
  safeMatch1 bad mergedBranchLine = None ->
  await exec (getAllMergedRemoteBranches contextDir) st
  = (Rejected (NoBranchName bad),
     {| world := w;
        trace := trace st ++ [Spawned contextDir mergedCommand;
                               Settled mergedCommand output] |}).
Proof.
  intros Hexec Hcode Hlines Hbefore Hbad.
  rewrite await_getAllMergedRemoteBranches, Hexec, Hcode, Hlines. cbn [Z.eqb negb].
  now rewrite (first_mismatch _ _ _ _ mergedBranchLine_named Hbefore Hbad).
Qed.

(** A run whose remote listing has a line of the wrong shape. *)
Lemma run_remote_mismatch (gitDir : string) (w w1 w2 : World) (pruned output : ShellOutput)
    (before after : list string) (bad : string) :
  exec gitDir pruneCommand w = (pruned, w1) -> exitCode pruned = 0 ->
  exec gitDir remoteCommand w1 = (output, w2) -> exitCode output = 0 ->
  List.filter Str.isTruthy (Str.split Str.newline (stdout output))
    = (before ++ bad :: after)%list ->
  Forall (fun line => safeMatch1 line remoteHeadLine <> None) before ->
  safeMatch1 bad remoteHeadLine = None ->
  main exec askQuestion settleOrder staleNow mergedNow gitDir w
  = (Some 1,
     [Info (UsingDirectory gitDir);
      Spawned gitDir pruneCommand; Settled pruneCommand pruned;
      Spawned gitDir remoteCommand; Settled remoteCommand output;
      ErrorLogged (NoBranchName bad)]).
Proof.
  intros Hprune Hp Hexec Hcode Hlines Hbefore Hbad.
  unfold main, deleteStaleAndMergedBranches, classifyBranches.
  unfold mbind, M_mbind, M_bind.
  rewrite await_pruneRemote. cbn [world trace]. rewrite Hprune, Hp.
  cbn [Z.eqb negb]. cbv beta iota zeta.
  erewrite remote_mismatch; [reflexivity | exact Hexec | exact Hcode | exact Hlines
                            | exact Hbefore | exact Hbad].
Qed.

(** A run whose merged listing has a line of the wrong shape. *)
Lemma run_merged_mismatch (gitDir : string) (w w1 w2 w3 : World)
    (pruned listed output : ShellOutput) (before after : list string) (bad : string) :
  exec gitDir pruneCommand w = (pruned, w1) -> exitCode pruned = 0 ->
  exec gitDir remoteCommand w1 = (listed, w2) -> exitCode listed = 0 ->
  Forall (fun line => safeMatch1 line remoteHeadLine <> None)
    (List.filter Str.isTruthy (Str.split Str.newline (stdout listed))) ->
  exec gitDir mergedCommand w2 = (output, w3) -> exitCode output = 0 ->
  List.filter Str.isTruthy (Str.split Str.newline (stdout output))
    = (before ++ bad :: after)%list ->
  Forall (fun line => safeMatch1 line mergedBranchLine <> None) before ->
  safeMatch1 bad mergedBranchLine = None ->
  main exec askQuestion settleOrder staleNow mergedNow gitDir w
  = (Some 1,
     [Info (UsingDirectory gitDir);
      Spawned gitDir pruneCommand; Settled pruneCommand pruned;
      Spawned gitDir remoteCommand; Settled remoteCommand listed;
      Spawned gitDir mergedCommand; Settled mergedCommand output;
      ErrorLogged (NoBranchName bad)]).
Proof.
  intros Hprune Hp Hremote Hr Hlisted Hexec Hcode Hlines Hbefore Hbad.
  unfold main, deleteStaleAndMergedBranches, classifyBranches.
  unfold mbind, M_mbind, M_bind.
  rewrite await_pruneRemote. cbn [world trace]. rewrite Hprune, Hp.
  cbn [Z.eqb negb]. cbv beta iota zeta.
  rewrite await_getAllRemoteBranches. cbn [world trace]. rewrite Hremote, Hr.
  cbn [Z.eqb negb]. cbv beta iota zeta.
  destruct (mapLines_ok (branchNameOfLine remoteHeadLine) _
              (named_lines _ _ remoteHeadLine_named Hlisted)) as (names & -> & _).
  erewrite merged_mismatch; [reflexivity | exact Hexec | exact Hcode | exact Hlines
                            | exact Hbefore | exact Hbad].
Qed.
End ListingRuns.

(** C3, as the code has it: in each of the two branch-listing queries, a
    non-empty output line that does not match the expected shape is not
    dropped.  The callback of [map] throws "Failed to extract branch name"
    for the first such line, whatever follows it: the query is rejected with
    that error as soon as the output of the command has arrived, and the run
    aborts there: the error is printed, nothing else is done and the exit
    code is 1.  Only empty lines are dropped: a query is fulfilled exactly
    when its command succeeds and every non-empty line has the expected
    shape, and its result then holds one name per non-empty line, in the
    order of the lines. *)
Theorem listing_mismatch_rejects :
  forall (World : Type) (exec : string -> string -> World -> ShellOutput * World)
         (askQuestion : string -> World -> string * World)
         (settleOrder : World -> list nat) (staleNow mergedNow : Z),
    (forall (contextDir : string) (st : State) (output : ShellOutput) (w : World)
            (before after : list string) (bad : string),
       exec contextDir remoteCommand (world st) = (output, w) ->
       exitCode output = 0 ->
       List.filter Str.isTruthy (Str.split Str.newline (stdout output))
         = (before ++ bad :: after)%list ->
       Forall (fun line => safeMatch1 line remoteHeadLine <> None) before ->
       safeMatch1 bad remoteHeadLine = None ->
       await exec (getAllRemoteBranches contextDir) st
       = (Rejected (NoBranchName bad),
          {| world := w;
             trace := trace st ++ [Spawned contextDir remoteCommand;
                                    Settled remoteCommand output] |})) /\
    (forall (contextDir : string) (st : State) (output : ShellOutput) (w : World)
            (before after : list string) (bad : string),
       exec contextDir mergedCommand (world st) = (output, w) ->
       exitCode output = 0 ->
       List.filter Str.isTruthy (Str.split Str.newline (stdout output))
         = (before ++ bad :: after)%list ->
       Forall (fun line => safeMatch1 line mergedBranchLine <> None) before ->
       safeMatch1 bad mergedBranchLine = None ->
       await exec (getAllMergedRemoteBranches contextDir) st
       = (Rejected (NoBranchName bad),
          {| world := w;
             trace := trace st ++ [Spawned contextDir mergedCommand;
                                    Settled mergedCommand output] |})) /\
    (forall (gitDir : string) (w w1 w2 : World) (pruned output : ShellOutput)
            (before after : list string) (bad : string),
       exec gitDir pruneCommand w = (pruned, w1) -> exitCode pruned = 0 ->
       exec gitDir remoteCommand w1 = (output, w2) -> exitCode output = 0 ->
       List.filter Str.isTruthy (Str.split Str.newline (stdout output))
         = (before ++ bad :: after)%list ->
       Forall (fun line => safeMatch1 line remoteHeadLine <> None) before ->
       safeMatch1 bad remoteHeadLine = None ->
       main exec askQuestion settleOrder staleNow mergedNow gitDir w
       = (Some 1,
          [Info (UsingDirectory gitDir);
           Spawned gitDir pruneCommand; Settled pruneCommand pruned;
           Spawned gitDir remoteCommand; Settled remoteCommand output;
           ErrorLogged (NoBranchName bad)])) /\
    (forall (gitDir : string) (w w1 w2 w3 : World) (pruned listed output : ShellOutput)
            (before after : list string) (bad : string),
       exec gitDir pruneCommand w = (pruned, w1) -> exitCode pruned = 0 ->
       exec gitDir remoteCommand w1 = (listed, w2) -> exitCode listed = 0 ->
       Forall (fun line => safeMatch1 line remoteHeadLine <> None)
         (List.filter Str.isTruthy (Str.split Str.newline (stdout listed))) ->
       exec gitDir mergedCommand w2 = (output, w3) -> exitCode output = 0 ->
       List.filter Str.isTruthy (Str.split Str.newline (stdout output))
         = (before ++ bad :: after)%list ->
       Forall (fun line => safeMatch1 line mergedBranchLine <> None) before ->
       safeMatch1 bad mergedBranchLine = None ->
       main exec askQuestion settleOrder staleNow mergedNow gitDir w
       = (Some 1,
          [Info (UsingDirectory gitDir);
           Spawned gitDir pruneCommand; Settled pruneCommand pruned;
           Spawned gitDir remoteCommand; Settled remoteCommand listed;
           Spawned gitDir mergedCommand; Settled mergedCommand output;
           ErrorLogged (NoBranchName bad)])) /\
    (forall (contextDir : string) (st : State) (names : list string),
       let listedRemote := fst (exec contextDir remoteCommand (world st)) in
       let listedMerged := fst (exec contextDir mergedCommand (world st)) in
       (fst (await exec (getAllRemoteBranches contextDir) st) = Resolved names <->
        exitCode listedRemote = 0 /\
        Forall2 (fun line name => safeMatch1 line remoteHeadLine = Some name)
          (List.filter Str.isTruthy (Str.split Str.newline (stdout listedRemote)))
          names) /\
       (fst (await exec (getAllMergedRemoteBranches contextDir) st) = Resolved names <->
        exitCode listedMerged = 0 /\
        Forall2 (fun line name => safeMatch1 line mergedBranchLine = Some name)
          (List.filter Str.isTruthy (Str.split Str.newline (stdout listedMerged)))
          names)).
Proof.
  intros World exec askQuestion settleOrder staleNow mergedNow.
  split; [|split; [|split; [|split]]].
  - intros contextDir st output w before after bad. apply remote_mismatch.
  - intros contextDir st output w before after bad. apply merged_mismatch.
  - intros gitDir w w1 w2 pruned output before after bad. apply run_remote_mismatch.
  - intros gitDir w w1 w2 w3 pruned listed output before after bad.
    apply run_merged_mismatch.
  - intros contextDir st names. apply lister_names_iff.
Qed.

Lemma listing_mismatch_rejects_witness :
  await (Scripted.exec oddListing) (getAllRemoteBranches "/repo") (fresh tt)
  = (Rejected (NoBranchName "garbage"),
     {| world := tt;
        trace := trace (fresh tt)
                 ++ [Spawned "/repo" remoteCommand;
                     Settled remoteCommand (Scripted.lookup oddListing remoteCommand)] |}) /\
  await (Scripted.exec oddMerged) (getAllMergedRemoteBranches "/repo") (fresh tt)
  = (Rejected (NoBranchName "nothing merged"),
     {| world := tt;
        trace := trace (fresh tt)
                 ++ [Spawned "/repo" mergedCommand;
                     Settled mergedCommand (Scripted.lookup oddMerged mergedCommand)] |}) /\
  main (Scripted.exec oddListing) (Scripted.respond "yes") (Scripted.inOrder [])
    scenarioNow scenarioNow "/repo" tt
  = (Some 1,
     [Info (UsingDirectory "/repo");
      Spawned "/repo" pruneCommand; Settled pruneCommand (Scripted.ok "");
      Spawned "/repo" remoteCommand;
      Settled remoteCommand (Scripted.lookup oddListing remoteCommand);
      ErrorLogged (NoBranchName "garbage")]) /\
  main (Scripted.exec oddMerged) (Scripted.respond "yes") (Scripted.inOrder [])
    scenarioNow scenarioNow "/repo" tt
  = (Some 1,
     [Info (UsingDirectory "/repo");
      Spawned "/repo" pruneCommand; Settled pruneCommand (Scripted.ok "");
      Spawned "/repo" remoteCommand;
      Settled remoteCommand (Scripted.lookup oddMerged remoteCommand);
      Spawned "/repo" mergedCommand;
      Settled mergedCommand (Scripted.lookup oddMerged mergedCommand);
      ErrorLogged (NoBranchName "nothing merged")]).
Proof.
  split; [|split; [|split]].
  - apply (proj1 (listing_mismatch_rejects unit (Scripted.exec oddListing)
                    (Scripted.respond "yes") (Scripted.inOrder []) scenarioNow scenarioNow)
             "/repo" (fresh tt) (Scripted.lookup oddListing remoteCommand) tt
             [] ["a1 refs/heads/feature-a"] "garbage").
    + reflexivity.
    + reflexivity.
    + vm_compute. reflexivity.
    + constructor.
    + vm_compute. reflexivity.
  - apply (proj1 (proj2 (listing_mismatch_rejects unit (Scripted.exec oddMerged)
                    (Scripted.respond "yes") (Scripted.inOrder []) scenarioNow scenarioNow))
             "/repo" (fresh tt) (Scripted.lookup oddMerged mergedCommand) tt
             ["  origin/feature-a"] ["also not a branch"] "nothing merged").
    + reflexivity.
    + reflexivity.
    + vm_compute. reflexivity.
    + constructor; [vm_compute; discriminate | constructor].
    + vm_compute. reflexivity.
  - apply (proj1 (proj2 (proj2 (listing_mismatch_rejects unit (Scripted.exec oddListing)
                    (Scripted.respond "yes") (Scripted.inOrder []) scenarioNow scenarioNow)))
             "/repo" tt tt tt (Scripted.ok "") (Scripted.lookup oddListing remoteCommand)
             [] ["a1 refs/heads/feature-a"] "garbage").
    + reflexivity.
    + reflexivity.
    + reflexivity.
    + reflexivity.
    + vm_compute. reflexivity.
    + constructor.
    + vm_compute. reflexivity.
  - apply (proj1 (proj2 (proj2 (proj2 (listing_mismatch_rejects unit
                    (Scripted.exec oddMerged) (Scripted.respond "yes") (Scripted.inOrder [])
                    scenarioNow scenarioNow))))
             "/repo" tt tt tt tt (Scripted.ok "") (Scripted.lookup oddMerged remoteCommand)
             (Scripted.lookup oddMerged mergedCommand)
             ["  origin/feature-a"] ["also not a branch"] "nothing merged").
    + reflexivity.
    + reflexivity.
    + reflexivity.
    + reflexivity.
    + constructor; [vm_compute; discriminate | constructor].
    + reflexivity.
    + reflexivity.
    + vm_compute. reflexivity.
    + constructor; [vm_compute; discriminate | constructor].
    + vm_compute. reflexivity.
Defined.

(** The claim C3 fails on the code: with the line "garbage" in the output of
    the remote listing, and the line "nothing merged" in the output of the
    merged listing, neither line is dropped and no list is produced; each
    query is rejected, and the run ends with exit code 1 before any other
    step. *)
Lemma listing_mismatch_not_dropped :
  safeMatch1 "garbage" remoteHeadLine = None /\
  fst (await (Scripted.exec oddListing) (getAllRemoteBranches "/repo") (fresh tt))
    = Rejected (NoBranchName "garbage") /\
  fst (await (Scripted.exec oddListing) (getAllRemoteBranches "/repo") (fresh tt))
    <> Resolved ["feature-a"] /\
  safeMatch1 "nothing merged" mergedBranchLine = None /\
  fst (await (Scripted.exec oddListing) (getAllMergedRemoteBranches "/repo") (fresh tt))
    = Rejected (NoBranchName "nothing merged") /\
  fst (await (Scripted.exec oddListing) (getAllMergedRemoteBranches "/repo") (fresh tt))
    <> Resolved ["feature-a"] /\
  fst (main (Scripted.exec oddListing) (Scripted.respond "yes") (Scripted.inOrder [])
         0 0 "/repo" tt) = Some 1.
Proof.
  repeat split; try (vm_compute; reflexivity); vm_compute; discriminate.
Qed.

(** X15: the listers name every line.  A lister is fulfilled exactly when
    its command exits with code 0 and every non-empty line of its output has
    the shape of its pattern; its result then holds the name found on each
    non-empty line, one per line and in the order of the lines, with nothing
    removed by the last [filter(isTruthy)]. *)
Theorem listers_name_every_line :
  forall (World : Type) (exec : string -> string -> World -> ShellOutput * World)
         (contextDir : string) (st : State) (names : list string),
    let listedRemote := fst (exec contextDir remoteCommand (world st)) in
    let listedMerged := fst (exec contextDir mergedCommand (world st)) in
    (fst (await exec (getAllRemoteBranches contextDir) st) = Resolved names <->
     exitCode listedRemote = 0 /\
     Forall2 (fun line name => safeMatch1 line remoteHeadLine = Some name)
       (List.filter Str.isTruthy (Str.split Str.newline (stdout listedRemote))) names) /\
    (fst (await exec (getAllMergedRemoteBranches contextDir) st) = Resolved names <->
     exitCode listedMerged = 0 /\
     Forall2 (fun line name => safeMatch1 line mergedBranchLine = Some name)
       (List.filter Str.isTruthy (Str.split Str.newline (stdout listedMerged))) names).
Proof.
  intros World exec contextDir st names. apply lister_names_iff.
Qed.

(** ** Timestamps *)

Lemma digits_uint (d : Decimal.uint) (rest : list ascii) :
  (forall c r, rest = c :: r -> StringToNumber.digitValue 10 c = None) ->
  StringToNumber.digits 10 (chars (NilEmpty.string_of_uint d) ++ rest)
  = (uintDigits d, rest).
Proof.
  intros Hrest. unfold chars.
  induction d; cbn [NilEmpty.string_of_uint list_ascii_of_string app];
    try (cbn [StringToNumber.digits uintDigits];
         match goal with
         | |- context [StringToNumber.digitValue 10 ?c] =>
             let v := eval vm_compute in (StringToNumber.digitValue 10 c) in
             change (StringToNumber.digitValue 10 c) with v
         end;
         cbv beta iota; now rewrite IHd).
  destruct rest as [|c r]; [reflexivity|]. simpl. now rewrite (Hrest c r eq_refl).
Qed.

Lemma valueOf_acc (d : Decimal.uint) (acc : positive) :
  fold_left (fun acc d => acc * 10 + d) (uintDigits d) (Z.pos acc)
  = Z.pos (Pos.of_uint_acc d acc).
Proof.
  revert acc. induction d; intros acc; cbn [uintDigits fold_left Pos.of_uint_acc];
    [reflexivity | ..]; rewrite <- IHd; f_equal; lia.
Qed.

Lemma valueOf_uint (d : Decimal.uint) :
  StringToNumber.valueOf 10 (uintDigits d) = Z.of_N (Pos.of_uint d).
Proof.
  unfold StringToNumber.valueOf.
  induction d; cbn [uintDigits fold_left Pos.of_uint]; [reflexivity | exact IHd | ..];
    cbn [Z.mul Z.add Z.of_N]; apply valueOf_acc.
Qed.

Lemma uint_chars_digit (d : Decimal.uint) :
  Forall (fun c => digit c = true) (chars (NilEmpty.string_of_uint d)).
Proof. induction d; simpl; constructor; auto. Qed.

Lemma digit_plain (c : ascii) :
  digit c = true ->
  Str.isWhiteSpace c = false /\
  StringToNumber.isChar "+" c = false /\ StringToNumber.isChar "-" c = false /\
  StringToNumber.isChar "x" c = false /\ StringToNumber.isChar "X" c = false /\
  StringToNumber.isChar "o" c = false /\ StringToNumber.isChar "O" c = false /\
  StringToNumber.isChar "b" c = false /\ StringToNumber.isChar "B" c = false /\
  Ascii.eqb c "I" = false.
Proof.
  destruct c as [[] [] [] [] [] [] [] []]; vm_compute; intros H;
    first [discriminate H | repeat split].
Qed.

Lemma dropWhile_blank (pad l : list ascii) :
  Forall (fun c => Str.isWhiteSpace c = true) pad ->
  Str.dropWhile Str.isWhiteSpace (pad ++ l) = Str.dropWhile Str.isWhiteSpace l.
Proof. induction 1 as [|c pad Hc _ IH]; [reflexivity|]. simpl. now rewrite Hc. Qed.

Lemma dropWhile_stop (l : list ascii) :
  (forall c r, l = c :: r -> Str.isWhiteSpace c = false) ->
  Str.dropWhile Str.isWhiteSpace l = l.
Proof. destruct l as [|c r]; [reflexivity|]. intros H. simpl. now rewrite (H c r). Qed.

(** Trimming removes the white space around a text without any. *)
Lemma trimChars_padded (before l after : list ascii) :
  Forall (fun c => Str.isWhiteSpace c = true) before ->
  Forall (fun c => Str.isWhiteSpace c = true) after ->
  Forall (fun c => Str.isWhiteSpace c = false) l ->
  Str.trimChars (before ++ l ++ after) = l.
Proof.
  intros Hb Ha Hl. unfold Str.trimChars. rewrite dropWhile_blank by exact Hb.
  assert (Hstop : Str.dropWhile Str.isWhiteSpace (l ++ after) = (l ++ after)%list \/ l = []).
  { destruct l as [|c l]; [now right|]. left. apply dropWhile_stop.
    intros c' r [= <- _]. now apply Forall_inv in Hl. }
  destruct Hstop as [-> | ->].
  - rewrite rev_app_distr, dropWhile_blank by (now apply Forall_rev).
    rewrite dropWhile_stop; [apply rev_involutive|].
    intros c r Hc. apply Forall_rev in Hl. rewrite Hc in Hl. now apply Forall_inv in Hl.
  - simpl. rewrite <- (app_nil_r after) at 1. rewrite dropWhile_blank by exact Ha. simpl.
    reflexivity.
Qed.

Lemma decimal_digits (t : N) :
  exists c r,
    chars (decimal t) = c :: r /\ Forall (fun c => digit c = true) (c :: r) /\
    StringToNumber.digits 10 (c :: r) = (uintDigits (N.to_uint t), []) /\
    uintDigits (N.to_uint t) <> [] /\
    StringToNumber.valueOf 10 (uintDigits (N.to_uint t)) = Z.of_N t.
Proof.
  pose proof (uint_chars_digit (N.to_uint t)) as Hd.
  pose proof (digits_uint (N.to_uint t) []) as Hdig. rewrite app_nil_r in Hdig.
  pose proof (valueOf_uint (N.to_uint t)) as Hv.
  change (Pos.of_uint (N.to_uint t)) with (N.of_uint (N.to_uint t)) in Hv.
  rewrite DecimalN.Unsigned.of_to in Hv.
  assert (Hne : N.to_uint t <> Decimal.Nil).
  { destruct t as [|p]; [discriminate|]. intros Hnil.
    pose proof (DecimalN.Unsigned.of_to (N.pos p)) as Hof. rewrite Hnil in Hof.
    discriminate. }
  unfold decimal. destruct (N.to_uint t) as [|d|d|d|d|d|d|d|d|d|d] eqn:Hu;
    [contradiction | ..]; eexists _, _; (split; [reflexivity|]);
    (split; [exact Hd|]); (split; [apply Hdig; discriminate|]);
    (split; [discriminate | exact Hv]).
Qed.

(** [Number] of a decimal text with white space around it: an integer below
    [2^53] is read back exactly. *)
Lemma Number_decimal (t : N) (before after : string) :
  blank before -> blank after -> Z.of_N t < 2 ^ 53 ->
  Str.trim (before ++ decimal t ++ after) = decimal t /\
  Number (decimal t) = JS.ofZ (Z.of_N t).
Proof.
  intros Hb Ha Hsmall.
  destruct (decimal_digits t) as (c & r & Hchars & Hdigit & Hdigits & Hne & Hv).
  assert (Hplain : Forall (fun c => Str.isWhiteSpace c = false) (c :: r)).
  { eapply Forall_impl; [exact Hdigit|]. intros x Hx. now apply digit_plain. }
  split.
  - unfold Str.trim. fold (chars (before ++ decimal t ++ after)).
    rewrite !chars_app, Hchars, (trimChars_padded _ _ _ Hb Ha Hplain), <- Hchars.
    apply string_of_chars.
  - unfold Number. fold (chars (decimal t)). rewrite Hchars.
    rewrite <- (app_nil_r (c :: r)), <- (app_nil_l (_ ++ _)).
    rewrite trimChars_padded by first [exact Hplain | constructor].
    destruct (digit_plain c (Forall_inv Hdigit))
      as (_ & Hplus & Hminus & _ & _ & _ & _ & _ & _ & HI).
    assert (Hu : StringToNumber.unsignedDecimal (c :: r) = JS.ofZ (Z.of_N t)).
    { unfold StringToNumber.unsignedDecimal. cbn [string_of_list_ascii String.eqb].
      rewrite HI, Hdigits. cbn [app].
      destruct (uintDigits (N.to_uint t)) as [|d ds] eqn:Hds; [contradiction|].
      cbn [app StringToNumber.exponentPart length Z.of_nat].
      rewrite app_nil_r, Hv.
      change (StringToNumber.timesPowerOfTen (Z.of_N t) (0 - Z.of_nat 0))
        with (Z.of_N t * 1 # 1)%Q.
      rewrite Z.mul_1_r. apply round64_integer. lia. }
    unfold StringToNumber.numericLiteral. rewrite Hplus, Hminus.
    destruct r as [|x r']; [exact Hu|].
    destruct (digit_plain x (Forall_inv (Forall_inv_tail Hdigit)))
      as (_ & _ & _ & H1 & H2 & H3 & H4 & H5 & H6 & _).
    rewrite H1, H2, H3, H4, H5, H6. cbn [orb]. rewrite Bool.andb_false_r. exact Hu.
Qed.

Lemma Qle_bool_inject_Z (x y : Z) : Qle_bool (inject_Z x) (inject_Z y) = (x <=? y).
Proof. unfold Qle_bool, inject_Z. simpl. now rewrite !Z.mul_1_r. Qed.

(** The date made of a number of seconds. *)
Lemma newDate_seconds (t : Z) :
  - JS.maxTime <= t * 1000 <= JS.maxTime ->
  JS.newDate (JS.scale (JS.ofZ t) 1000) = JS.DateAt (t * 1000).
Proof.
  intros Hrange. unfold JS.scale, JS.ofZ.
  change (inject_Z t * inject_Z 1000)%Q with (t * 1000 # 1)%Q.
  rewrite round64_integer by (unfold JS.maxTime in Hrange; lia).
  unfold JS.ofZ, JS.newDate. rewrite !Qle_bool_inject_Z.
  destruct (Z.leb_spec (- JS.maxTime) (t * 1000)); [|lia].
  destruct (Z.leb_spec (t * 1000) JS.maxTime); [|lia].
  simpl. now rewrite Z.quot_1_r.
Qed.

(** X16: reading back a time stamp.  When the fetch and the date query of a
    branch succeed and the date query prints the decimal notation of a number
    of seconds, with white space around it (git ends it with a new line), the
    lookup gives the record of the branch with the date of that many seconds
    after the epoch, in milliseconds, provided the number is not zero and
    within the range of dates. *)
Theorem timestamp_round_trip :
  forall (World : Type) (exec : string -> string -> World -> ShellOutput * World)
         (contextDir branchName : string) (st : State)
         (fetched shown : ShellOutput) (w1 w2 : World)
         (t : N) (before after : string),
    exec contextDir (fetchCommand branchName) (world st) = (fetched, w1) ->
    exitCode fetched = 0 ->
    exec contextDir (showCommand branchName) w1 = (shown, w2) ->
    exitCode shown = 0 ->
    stdout shown = before ++ decimal t ++ after ->
    blank before -> blank after ->
    (0 < t)%N -> Z.of_N t * 1000 <= JS.maxTime ->
    fst (await exec (branchDate contextDir branchName) st)
    = Resolved {| name := branchName;
                  lastCommitDate := JS.DateAt (Z.of_N t * 1000) |}.
Proof.
  intros World exec contextDir branchName st fetched shown w1 w2 t before after
    Hfetch Hf Hshow Hs Hout Hb Ha Hpos Hmax.
  destruct (Number_decimal t before after Hb Ha) as [Htrim Hnumber];
    [unfold JS.maxTime in Hmax; lia|].
  assert (Hdate : JS.newDate (JS.scale (Number (Str.trim (stdout shown))) 1000)
                  = JS.DateAt (Z.of_N t * 1000)).
  { rewrite Hout, Htrim, Hnumber. apply newDate_seconds. unfold JS.maxTime in *. lia. }
  assert (Hnumber' : JS.isNaN (Number (Str.trim (stdout shown))) = false)
    by (now rewrite Hout, Htrim, Hnumber).
  assert (Hnz : JS.falsy (JS.NumberOfDate (JS.DateAt (Z.of_N t * 1000))) = false).
  { simpl. destruct (Qeq_bool _ _) eqn:Hq; [|reflexivity]. apply Qeq_bool_iff in Hq.
    unfold Qeq in Hq. simpl in Hq. lia. }
  unfold branchDate, getLastCommitDateOfBranch, runShellCommand.
  simpl in Hfetch, Hshow |- *.
  repeat (progress (rewrite ?Hfetch, ?Hf, ?Hshow, ?Hs, ?Hnumber'; simpl)).
  rewrite Hdate, Hnz. reflexivity.
Qed.

Lemma timestamp_round_trip_witness :
  fst (await (Scripted.exec scenario) (branchDate "/repo" "feature-a") (scenarioStart "/repo"))
  = Resolved {| name := "feature-a";
                lastCommitDate := JS.DateAt (Z.of_N 1665440000 * 1000) |}.
Proof.
  apply (timestamp_round_trip unit (Scripted.exec scenario) "/repo" "feature-a"
           (scenarioStart "/repo") (Scripted.ok "") (Scripted.ok "1665440000") tt tt
           1665440000%N "" "").
  - reflexivity.
  - reflexivity.
  - reflexivity.
  - reflexivity.
  - vm_compute. reflexivity.
  - constructor.
  - constructor.
  - reflexivity.
  - vm_compute. discriminate.
Defined.

(** X17: a date query that prints nothing.  When the fetch and the date
    query of a branch succeed but the date query prints only white space, or
    nothing at all, the text counts as the number 0: the lookup does not
    complain about the time stamp but about the date, which is the epoch. *)
Theorem blank_timestamp_is_epoch :
  forall (World : Type) (exec : string -> string -> World -> ShellOutput * World)
         (contextDir branchName : string) (st : State)
         (fetched shown : ShellOutput) (w1 w2 : World),
    exec contextDir (fetchCommand branchName) (world st) = (fetched, w1) ->
    exitCode fetched = 0 ->
    exec contextDir (showCommand branchName) w1 = (shown, w2) ->
    exitCode shown = 0 ->
    blank (stdout shown) ->
    Number (Str.trim (stdout shown)) = JS.ofZ 0 /\
    fst (await exec (branchDate contextDir branchName) st)
    = Rejected (NoLastCommitDate branchName (JS.DateAt 0)).
Proof.
  intros World exec contextDir branchName st fetched shown w1 w2 Hfetch Hf Hshow Hs Hblank.
  assert (Htrim : Str.trim (stdout shown) = "").
  { unfold Str.trim. fold (chars (stdout shown)).
    rewrite <- (app_nil_r (chars (stdout shown))).
    rewrite <- (app_nil_l ([] : list ascii)) at 1.
    now rewrite (trimChars_padded (chars (stdout shown)) [] []). }
  assert (Hnumber : Number (Str.trim (stdout shown)) = JS.ofZ 0) by (now rewrite Htrim).
  split; [exact Hnumber|].
  assert (Hnan : JS.isNaN (Number (Str.trim (stdout shown))) = false) by (now rewrite Hnumber).
  assert (Hdate : JS.newDate (JS.scale (Number (Str.trim (stdout shown))) 1000) = JS.DateAt 0)
    by (now rewrite Hnumber).
  unfold branchDate, getLastCommitDateOfBranch, runShellCommand.
  simpl in Hfetch, Hshow |- *.
  repeat (progress (rewrite ?Hfetch, ?Hf, ?Hshow, ?Hs, ?Hnan; simpl)).
  rewrite Hdate. reflexivity.
Qed.

Lemma blank_timestamp_is_epoch_witness :
  Number (Str.trim (stdout (Scripted.ok (String Str.newline "")))) = JS.ofZ 0 /\
  fst (await (Scripted.exec [(showCommand "x", Scripted.ok (String Str.newline ""))])
         (branchDate "/repo" "x") (scenarioStart "/repo"))
  = Rejected (NoLastCommitDate "x" (JS.DateAt 0)).
Proof.
  apply (blank_timestamp_is_epoch unit
           (Scripted.exec [(showCommand "x", Scripted.ok (String Str.newline ""))])
           "/repo" "x" (scenarioStart "/repo")
           (Scripted.ok "") (Scripted.ok (String Str.newline "")) tt tt).
  - reflexivity.
  - reflexivity.
  - reflexivity.
  - reflexivity.
  - repeat constructor.
Defined.

(** X18: a symbolic reference in the merged listing.  A line such as
    [origin/HEAD -> origin/main], which [git branch -r --merged] prints for
    the head of a remote, has the shape of the pattern: what follows the
    first [/] is taken as a branch name.  That name is none of the protected
    ones, so it stays among the candidates, and the commands of its date
    lookup are made with it. *)
Theorem symbolic_reference_is_a_candidate :
  forall (indent remote target : string),
    blank indent -> remote <> "" -> without "/" remote -> onOneLine target ->
    let line := indent ++ remote ++ "/HEAD -> " ++ target in
    let branchName := "HEAD -> " ++ target in
    branchNameOfLine mergedBranchLine line = Ok branchName /\
    filterOutKeyBranchNames [branchName] = [branchName] /\
    fetchCommand branchName = "git fetch origin HEAD -> " ++ target.
Proof.
  intros indent remote target Hindent Hremote Hslash Hline line branchName.
  split; [|split; reflexivity].
  apply branchNameOfLine_Ok. split; [|discriminate].
  assert (Hcut : line = (indent ++ remote) ++ "/" ++ branchName).
  { unfold line, branchName. apply chars_inj. rewrite !chars_app.
    now rewrite <- !app_assoc. }
  rewrite Hcut. apply mergedBranchLine_complete.
  - destruct indent; [exact Hremote | discriminate].
  - unfold without. rewrite chars_app. apply Forall_app. split; [|exact Hslash].
    eapply Forall_impl; [exact Hindent|]. intros c Hc.
    now apply notLit_neq, space_not_slash.
  - discriminate.
  - unfold onOneLine, branchName. rewrite chars_app. apply Forall_app.
    split; [repeat constructor | exact Hline].
Qed.

Lemma symbolic_reference_is_a_candidate_witness :
  branchNameOfLine mergedBranchLine ("  " ++ "origin" ++ "/HEAD -> " ++ "origin/main")
  = Ok ("HEAD -> " ++ "origin/main") /\
  filterOutKeyBranchNames ["HEAD -> " ++ "origin/main"] = ["HEAD -> " ++ "origin/main"] /\
  fetchCommand ("HEAD -> " ++ "origin/main") = "git fetch origin HEAD -> " ++ "origin/main".
Proof.
  apply (symbolic_reference_is_a_candidate "  " "origin" "origin/main").
  - repeat constructor.
  - discriminate.
  - repeat constructor; discriminate.
  - repeat constructor.
Defined.

(** ** The arguments of the scripts *)

Lemma search_found (r : Pattern) (toEnd : bool) (s : list ascii) :
  search r toEnd s <> None <->
  exists before rest g, s = (before ++ rest)%list /\ Matches toEnd r rest g.
Proof.
  split.
  - induction s as [|c s IH]; simpl.
    + destruct (matchHere r toEnd []) as [g|] eqn:Hm; [|contradiction].
      intros _. exists [], [], g. split; [reflexivity | now apply matchHere_sound].
    + destruct (matchHere r toEnd (c :: s)) as [g|] eqn:Hm.
      * intros _. exists [], (c :: s), g. split; [reflexivity | now apply matchHere_sound].
      * intros H. destruct (IH H) as (before & rest & g & -> & Hr).
        exists (c :: before), rest, g. split; [reflexivity | exact Hr].
  - intros (before & rest & g & -> & Hr). apply matchHere_complete in Hr.
    induction before as [|c before IH]; simpl.
    + destruct rest as [|c rest]; simpl;
        destruct (matchHere r toEnd _); [discriminate | contradiction | discriminate
                                        | contradiction].
    + destruct (matchHere r toEnd (c :: before ++ rest)); [discriminate | exact IH].
Qed.

Lemma plain_not_dot (c : ascii) : isSyntax c = false -> Ascii.eqb c "." = false.
Proof.
  intros H. destruct (Ascii.eqb c ".") eqn:Hc; [|reflexivity].
  apply Ascii.eqb_eq in Hc. subst c. discriminate.
Qed.

Lemma nameSource_plain (name : string) : plain name -> nameSource name = text name.
Proof.
  unfold plain, nameSource, text. fold (chars name).
  induction 1 as [|c l Hc _ IH]; [reflexivity|].
  simpl. now rewrite (plain_not_dot c Hc), IH.
Qed.

Lemma nameSource_app (a b : string) :
  nameSource (a ++ b) = (nameSource a ++ nameSource b)%list.
Proof. unfold nameSource. now rewrite chars_app, map_app. Qed.

Lemma Matches_once_inv (toEnd : bool) (p : ascii -> bool) (r : Pattern) (s g : list ascii) :
  Matches toEnd (once p :: r) s g ->
  exists c s', s = c :: s' /\ p c = true /\ Matches toEnd r s' g.
Proof.
  intros H. apply Matches_cons_inv in H as (run & s' & g' & -> & -> & Hc & Hr & H).
  cbn in Hr, Hc. destruct run as [|c [|c' run]]; try discriminate.
  exists c, s'. split; [reflexivity|]. split; [now apply Forall_inv in Hc | exact H].
Qed.

Lemma Matches_once (toEnd : bool) (p : ascii -> bool) (r : Pattern) (c : ascii)
    (s g : list ascii) :
  p c = true -> Matches toEnd r s g -> Matches toEnd (once p :: r) (c :: s) g.
Proof.
  intros Hc H. apply (MatchesAtom toEnd (once p) r [c] s g); [|reflexivity | exact H].
  now repeat constructor.
Qed.

(** Where the pattern of a script with a plain name is found. *)
Lemma scriptPattern_found (name extension argv : string) :
  plain name ->
  (search (scriptPattern name extension) true (chars argv) <> None <->
   exists before c,
     argv = before ++ name ++ String c extension /\ Str.isLineTerminator c = false).
Proof.
  intros Hplain. unfold scriptPattern. rewrite nameSource_plain by exact Hplain.
  rewrite search_found. split.
  - intros (before & rest & g & Hcut & H).
    apply Matches_text_inv in H as (s1 & -> & H). cbn [app] in H.
    apply Matches_once_inv in H as (c & s2 & -> & Hc & H).
    rewrite <- (app_nil_r (text extension)) in H.
    apply Matches_text_inv in H as (s3 & -> & H).
    apply Matches_nil_inv in H as (_ & Hend). rewrite (Hend eq_refl), app_nil_r in Hcut.
    exists (string_of_list_ascii before), c. split; [|now apply dot_one_line].
    apply chars_inj. rewrite Hcut, !chars_app, chars_of_list. reflexivity.
  - intros (before & c & -> & Hc).
    exists (chars before), (chars name ++ c :: chars extension)%list, [].
    split; [now rewrite !chars_app|].
    apply Matches_text. cbn [app]. apply Matches_once; [now apply dot_one_line|].
    rewrite <- (app_nil_r (text extension)), <- (app_nil_r (chars extension)).
    apply Matches_text. now constructor.
Qed.

(** X19: the argument that names the script.  For a script whose name has no
    character with a meaning in a pattern, an argument names the script
    exactly when it ends with the name, then one character, any but a line
    terminator, then [ts] or [js]: the dot before the extension is not
    required. *)
Theorem script_argument_shape :
  forall name argv : string,
    plain name ->
    (namesScript name argv = true <->
     exists before c extension,
       argv = before ++ name ++ String c extension /\
       Str.isLineTerminator c = false /\ (extension = "ts" \/ extension = "js")).
Proof.
  intros name argv Hplain. unfold namesScript.
  pose proof (scriptPattern_found name "ts" argv Hplain) as Hts.
  pose proof (scriptPattern_found name "js" argv Hplain) as Hjs.
  rewrite Bool.orb_true_iff. split.
  - intros [H | H].
    + destruct (search (scriptPattern name "ts") true (chars argv)); [|discriminate].
      destruct (proj1 Hts) as (before & c & Hcut & Hc); [discriminate|].
      exists before, c, "ts". auto.
    + destruct (search (scriptPattern name "js") true (chars argv)); [|discriminate].
      destruct (proj1 Hjs) as (before & c & Hcut & Hc); [discriminate|].
      exists before, c, "js". auto.
  - intros (before & c & extension & Hcut & Hc & [-> | ->]).
    + left. destruct (search (scriptPattern name "ts") true (chars argv)); [reflexivity|].
      exfalso. apply (proj2 Hts); eauto.
    + right. destruct (search (scriptPattern name "js") true (chars argv)); [reflexivity|].
      exfalso. apply (proj2 Hjs); eauto.
Qed.

Lemma script_argument_shape_witness :
  namesScript "get-express-endpoints" "src/get-express-endpointsXts" = true <->
  exists before c extension,
    "src/get-express-endpointsXts" = before ++ "get-express-endpoints" ++ String c extension /\
    Str.isLineTerminator c = false /\ (extension = "ts" \/ extension = "js").
Proof.
  apply (script_argument_shape "get-express-endpoints" "src/get-express-endpointsXts").
  repeat constructor.
Defined.

Lemma namesScript_source (name dir : string) :
  plain name -> namesScript name (dir ++ name ++ ".ts") = true.
Proof.
  intros Hplain. unfold namesScript. apply Bool.orb_true_iff. left.
  destruct (search (scriptPattern name "ts") true (chars (dir ++ name ++ ".ts"))) eqn:Hs;
    [reflexivity|].
  exfalso. revert Hs. apply (scriptPattern_found name "ts" _ Hplain).
  exists dir, "."%char. split; reflexivity.
Qed.

Lemma withoutTsExtension_ts (name : string) : withoutTsExtension (name ++ ".ts") = name.
Proof.
  unfold withoutTsExtension. rewrite chars_app, rev_app_distr. simpl.
  rewrite rev_involutive. apply string_of_chars.
Qed.

Lemma withoutTsExtension_js (name : string) :
  withoutTsExtension (name ++ ".js") = name ++ ".js".
Proof. unfold withoutTsExtension. rewrite chars_app, rev_app_distr. reflexivity. Qed.

Lemma findIndex_none {A : Type} (predicate : A -> bool) (l : list A) :
  Forall (fun x => predicate x = false) l -> findIndex predicate l = None.
Proof. induction 1 as [|x l Hx _ IH]; [reflexivity|]. simpl. now rewrite Hx, IH. Qed.

(** X20: the usual way to run a script.  When the script is run from its
    source, [name.ts], with the path of the source as second argument and the
    first argument (the program that runs it) does not name the script, the
    relevant arguments are those that follow the path; the script is then
    started on the first of them, or on the working directory of the process
    when there is none. *)
Theorem arguments_follow_the_script :
  forall (R : Type) (script : string -> R) (name runner dir cwd : string)
         (args : list string),
    plain name ->
    namesScript name runner = false ->
    let argv := runner :: (dir ++ name ++ ".ts") :: args in
    getRelevantArguments (name ++ ".ts") argv = RelevantArguments args /\
    runAsMain script (name ++ ".ts") argv cwd
    = Started (default cwd (head args)) (script (default cwd (head args))).
Proof.
  intros R script name runner dir cwd args Hplain Hrunner argv.
  assert (Hargs : getRelevantArguments (name ++ ".ts") argv = RelevantArguments args).
  { unfold getRelevantArguments, argv. rewrite withoutTsExtension_ts. simpl.
    now rewrite Hrunner, (namesScript_source name dir Hplain). }
  split; [exact Hargs|]. unfold runAsMain. now rewrite Hargs.
Qed.

Lemma arguments_follow_the_script_witness :
  getRelevantArguments ("get-express-endpoints" ++ ".ts")
    ["node"; "src/" ++ "get-express-endpoints" ++ ".ts"; "routes"]
  = RelevantArguments ["routes"] /\
  runAsMain String.length ("get-express-endpoints" ++ ".ts")
    ["node"; "src/" ++ "get-express-endpoints" ++ ".ts"; "routes"] "/home"
  = Started (default "/home" (head ["routes"]))
      (String.length (default "/home" (head ["routes"]))).
Proof.
  apply (arguments_follow_the_script nat String.length "get-express-endpoints" "node"
           "src/" "/home" ["routes"]).
  - repeat constructor.
  - vm_compute. reflexivity.
Defined.

(** The path of a compiled script does not name it. *)
Lemma compiled_path_unnamed (stem dir : string) (x y : ascii) :
  plain (stem ++ String x (String y "")) ->
  String x (String y "") <> "js" ->
  namesScript (stem ++ String x (String y "") ++ ".js")
    (dir ++ stem ++ String x (String y "") ++ ".js") = false.
Proof.
  intros Hplain Hxy.
  assert (Hno : forall extension, extension = "ts" \/ extension = "js" ->
            search (scriptPattern (stem ++ String x (String y "") ++ ".js") extension) true
              (chars (dir ++ stem ++ String x (String y "") ++ ".js")) = None).
  { intros extension Hext.
    destruct (search _ _ _) eqn:Hs; [|reflexivity]. exfalso.
    assert (Hfound : search (scriptPattern (stem ++ String x (String y "") ++ ".js")
                               extension) true
                       (chars (dir ++ stem ++ String x (String y "") ++ ".js")) <> None)
      by (rewrite Hs; discriminate).
    clear Hs. apply search_found in Hfound as (before & rest & g & Hcut & H).
    unfold scriptPattern in H.
    replace (stem ++ String x (String y "") ++ ".js")
      with ((stem ++ String x (String y "")) ++ ".js") in H
      by (apply chars_inj; rewrite !chars_app; now rewrite <- app_assoc).
    rewrite nameSource_app, nameSource_plain in H by exact Hplain.
    rewrite <- app_assoc in H.
    apply Matches_text_inv in H as (s1 & -> & H). cbn [nameSource chars list_ascii_of_string
      map Ascii.eqb Bool.eqb app] in H.
    apply Matches_once_inv in H as (c1 & s2 & -> & _ & H).
    apply Matches_once_inv in H as (c2 & s3 & -> & Hj & H).
    apply Matches_once_inv in H as (c3 & s4 & -> & Hs & H).
    apply Matches_once_inv in H as (c4 & s5 & -> & _ & H).
    rewrite <- (app_nil_r (text extension)) in H.
    apply Matches_text_inv in H as (s6 & -> & H).
    apply Matches_nil_inv in H as (_ & Hend). rewrite (Hend eq_refl) in Hcut.
    unfold lit in Hj, Hs. apply Ascii.eqb_eq in Hj, Hs. subst c2 c3.
    apply (f_equal (@rev ascii)) in Hcut.
    rewrite !chars_app in Hcut. repeat rewrite ?rev_app_distr, <- ?app_assoc in Hcut.
    destruct Hext as [-> | ->]; simpl in Hcut; [discriminate|].
    injection Hcut as _ Hy Hx _. apply Hxy. now subst. }
  unfold namesScript. now rewrite (Hno "ts"), (Hno "js") by auto.
Qed.

(** X21: a compiled script does not find itself.  When the file of the
    script is [name.js], the extension is not removed and becomes part of the
    pattern, which then asks for [name.js] followed by a character and a
    second extension.  The path of the script does not name it (for a name
    that does not end with [js]), and unless another argument does, the
    relevant arguments are not found and nothing is started. *)
Theorem compiled_script_is_not_found :
  forall (R : Type) (script : string -> R) (stem runner dir cwd : string) (x y : ascii)
         (args : list string),
    let name := stem ++ String x (String y "") in
    plain name ->
    String x (String y "") <> "js" ->
    Forall (fun arg => namesScript (name ++ ".js") arg = false) (runner :: args) ->
    let argv := runner :: (dir ++ name ++ ".js") :: args in
    getRelevantArguments (name ++ ".js") argv = ScriptNotFound argv /\
    runAsMain script (name ++ ".js") argv cwd = NotStarted argv.
Proof.
  intros R script stem runner dir cwd x y args name Hplain Hxy Hothers argv.
  assert (Hargs : getRelevantArguments (name ++ ".js") argv = ScriptNotFound argv).
  { unfold getRelevantArguments. rewrite withoutTsExtension_js.
    rewrite findIndex_none; [reflexivity|].
    constructor; [now apply Forall_inv in Hothers|].
    constructor; [|now apply Forall_inv_tail in Hothers].
    unfold name.
    replace ((stem ++ String x (String y "")) ++ ".js")
      with (stem ++ String x (String y "") ++ ".js")
      by (apply chars_inj; rewrite !chars_app; now rewrite <- app_assoc).
    replace (dir ++ (stem ++ String x (String y "")) ++ ".js")
      with (dir ++ stem ++ String x (String y "") ++ ".js")
      by (apply chars_inj; rewrite !chars_app; now rewrite <- !app_assoc).
    now apply compiled_path_unnamed. }
  split; [exact Hargs|]. unfold runAsMain. now rewrite Hargs.
Qed.

Lemma compiled_script_is_not_found_witness :
  getRelevantArguments (("get-express-endpoin" ++ "ts") ++ ".js")
    ["node"; "dist/" ++ ("get-express-endpoin" ++ "ts") ++ ".js"; "routes"]
  = ScriptNotFound ["node"; "dist/" ++ ("get-express-endpoin" ++ "ts") ++ ".js"; "routes"] /\
  runAsMain String.length (("get-express-endpoin" ++ "ts") ++ ".js")
    ["node"; "dist/" ++ ("get-express-endpoin" ++ "ts") ++ ".js"; "routes"] "/home"
  = NotStarted ["node"; "dist/" ++ ("get-express-endpoin" ++ "ts") ++ ".js"; "routes"].
Proof.
  apply (compiled_script_is_not_found nat String.length "get-express-endpoin" "node"
           "dist/" "/home" "t"%char "s"%char ["routes"]).
  - repeat constructor.
  - discriminate.
  - repeat constructor.
Defined.

(** ** The report of the route scanner *)

Lemma ascii_compare_N (a b : ascii) :
  Ascii.compare a b = (N_of_ascii a ?= N_of_ascii b)%N.
Proof. reflexivity. Qed.

Lemma string_leb_trans (a b c : string) :
  String.leb a b = true -> String.leb b c = true -> String.leb a c = true.
Proof.
  unfold String.leb. revert b c. induction a as [|x a IH]; intros b c.
  - destruct c; reflexivity.
  - destruct b as [|y b]; [discriminate|]. destruct c as [|z c]; [intros _ H; discriminate H|].
    simpl. rewrite !ascii_compare_N.
    destruct (N.compare_spec (N_of_ascii x) (N_of_ascii y)) as [Hxy | Hxy | Hxy];
      destruct (N.compare_spec (N_of_ascii y) (N_of_ascii z)) as [Hyz | Hyz | Hyz];
      destruct (N.compare_spec (N_of_ascii x) (N_of_ascii z)) as [Hxz | Hxz | Hxz];
      try discriminate; try reflexivity; try lia; try (intros; apply (IH b c); assumption).
Qed.

Section SortOrder.
Context {A : Type} (comparefn : A -> A -> JS.Num).
Hypothesis total :
  forall a b, JS.isPositive (comparefn a b) = false \/ JS.isPositive (comparefn b a) = false.
Hypothesis trans :
  forall a b c,
    JS.isPositive (comparefn a b) = false -> JS.isPositive (comparefn b c) = false ->
    JS.isPositive (comparefn a c) = false.

Lemma insert_ordered (x : A) (l : list A) :
  StronglySorted (fun a b => JS.isPositive (comparefn a b) = false) l ->
  StronglySorted (fun a b => JS.isPositive (comparefn a b) = false)
    (JS.insert comparefn x l).
Proof.
  induction 1 as [|y l Hs IH Hy]; simpl; [repeat constructor|].
  destruct (JS.isPositive (comparefn x y)) eqn:Hc.
  - constructor; [exact IH|].
    assert (Hyx : JS.isPositive (comparefn y x) = false).
    { destruct (total x y) as [H | H]; [congruence | exact H]. }
    apply List.Forall_forall. intros z Hz.
    apply (Permutation_in _ (insert_Permutation comparefn x l)) in Hz.
    destruct Hz as [<- | Hz]; [exact Hyx|].
    rewrite List.Forall_forall in Hy. now apply Hy.
  - constructor; [now constructor|]. constructor; [exact Hc|].
    eapply List.Forall_impl; [|exact Hy]. intros z Hz. now apply (trans x y z).
Qed.

Lemma sort_ordered (l : list A) :
  StronglySorted (fun a b => JS.isPositive (comparefn a b) = false) (JS.sort comparefn l).
Proof.
  induction l as [|x l IH]; simpl; [constructor | now apply insert_ordered].
Qed.
End SortOrder.

Lemma codeUnitOrder_leb (a b : string) :
  JS.isPositive (codeUnitOrder a b) = false <-> String.leb a b = true.
Proof.
  unfold codeUnitOrder, String.leb.
  destruct (String.compare a b); simpl; split; intros H; try reflexivity; discriminate.
Qed.

(** The names in the order of the report: by code units. *)
Lemma sort_names_ordered (names : list string) :
  StronglySorted (fun a b => String.leb a b = true) (JS.sort codeUnitOrder names).
Proof.
  eapply StronglySorted_weaken;
    [|apply (sort_ordered codeUnitOrder)].
  - intros a b H. now apply codeUnitOrder_leb.
  - intros a b. rewrite !codeUnitOrder_leb. apply String.leb_total.
  - intros a b c. rewrite !codeUnitOrder_leb. apply string_leb_trans.
Qed.

Lemma ordered_unique {A : Type} (R : A -> A -> Prop) (l1 l2 : list A) :
  (forall a b, R a b -> R b a -> a = b) ->
  StronglySorted R l1 -> StronglySorted R l2 -> Permutation l1 l2 -> l1 = l2.
Proof.
  intros Hanti H1. revert l2. induction H1 as [|x l1 Hs1 IH Hx]; intros l2 H2 Hperm.
  - now apply Permutation_nil in Hperm.
  - destruct l2 as [|y l2]; [symmetry in Hperm; now apply Permutation_nil in Hperm|].
    apply StronglySorted_inv in H2 as [Hs2 Hy].
    rewrite List.Forall_forall in Hx, Hy.
    assert (Hxy : x = y).
    { assert (Hin2 : In x (y :: l2)) by (eapply Permutation_in; [exact Hperm | now left]).
      assert (Hin1 : In y (x :: l1))
        by (eapply Permutation_in; [symmetry; exact Hperm | now left]).
      destruct Hin2 as [Heq | Hin2]; [now symmetry|].
      destruct Hin1 as [Heq | Hin1]; [exact Heq|].
      apply Hanti; auto. }
    subst y. f_equal. apply IH; [exact Hs2|]. now apply Permutation_cons_inv in Hperm.
Qed.

(** Sorting erases the order in which the names were listed. *)
Lemma sort_names_unique (names1 names2 : list string) :
  Permutation names1 names2 ->
  JS.sort codeUnitOrder names1 = JS.sort codeUnitOrder names2.
Proof.
  intros Hperm.
  apply (ordered_unique (fun a b => String.leb a b = true)).
  - intros a b. apply String.leb_antisym.
  - apply sort_names_ordered.
  - apply sort_names_ordered.
  - now rewrite !sort_Permutation.
Qed.

Section ReportFacts.
Variable collapseWhiteSpace : string -> string.
Variable readFile : string -> Result string.
Variable join : string -> string -> string.
Variable localeCompare : string -> string -> Z.
Variable directory : string.

Lemma lookup_map_middle {A B : Type} (f : A -> B) (done rest : list A) (x : A) :
  map f (done ++ x :: rest) !! length done = Some (f x).
Proof. induction done as [|y done IH]; [reflexivity | exact IH]. Qed.

Lemma reduce_paths (done rest : list string) (accumPromise : Result Endpoints) :
  fold_left (reduceStep collapseWhiteSpace readFile (map (join directory) (done ++ rest)))
    (imap (fun i => pair (length done + i)%nat) rest) accumPromise
  = fold_left (readInto collapseWhiteSpace readFile join directory) rest accumPromise.
Proof.
  revert done accumPromise. induction rest as [|name rest IH]; intros done accumPromise;
    [reflexivity|].
  rewrite imap_cons. cbn [fold_left].
  assert (Hstep : reduceStep collapseWhiteSpace readFile
                    (map (join directory) (done ++ name :: rest)) accumPromise
                    ((length done + 0)%nat, name)
                  = readInto collapseWhiteSpace readFile join directory accumPromise name).
  { unfold reduceStep, readInto. destruct accumPromise as [accum|e]; [|reflexivity].
    assert (Hpath : map (join directory) (done ++ name :: rest) !! (length done + 0)%nat
                    = Some (join directory name)).
    { rewrite Nat.add_0_r. apply lookup_map_middle. }
    now rewrite Hpath. }
  rewrite Hstep.
  replace (done ++ name :: rest)%list with ((done ++ [name]) ++ rest)%list
    by (now rewrite <- app_assoc).
  rewrite <- (IH (done ++ [name])%list). f_equal.
  apply imap_ext. intros i x _. unfold compose. f_equal.
  rewrite length_app. simpl. lia.
Qed.

Lemma readInto_Thrown (rest : list string) (e : Error) :
  fold_left (readInto collapseWhiteSpace readFile join directory) rest (Thrown e) = Thrown e.
Proof. induction rest as [|name rest IH]; [reflexivity | exact IH]. Qed.

Lemma assign_fresh (accum : Endpoints) (fileName : string) (fileEndpoints : list Endpoint) :
  ~ In fileName (ownKeys accum) ->
  assign accum fileName fileEndpoints = (accum ++ [(fileName, fileEndpoints)])%list.
Proof.
  induction accum as [|[key value] accum IH]; intros Hfresh; [reflexivity|].
  simpl. destruct (String.eqb key fileName) eqn:Hk.
  - apply String.eqb_eq in Hk. subst key. exfalso. apply Hfresh. now left.
  - rewrite IH; [reflexivity|]. intros Hin. apply Hfresh. now right.
Qed.

(** All the files are read into the object, but the one named
    [__proto__]. *)
Lemma readInto_all (rest : list string) (accum : Endpoints) :
  List.NoDup (ownKeys accum ++ rest) ->
  (forall name, In name rest ->
     exists fileEndpoints,
       getFileEndpoints collapseWhiteSpace readFile (join directory name)
       = Ok fileEndpoints) ->
  fold_left (readInto collapseWhiteSpace readFile join directory) rest (Ok accum)
  = Ok (accum ++ map (fun name => (name, endpointsIn collapseWhiteSpace readFile
                                            (join directory name)))
                   (List.filter makesProperty rest))%list.
Proof.
  revert accum. induction rest as [|name rest IH]; intros accum Hfresh Hread.
  - simpl. now rewrite app_nil_r.
  - destruct (Hread name (or_introl eq_refl)) as [fileEndpoints Hname].
    cbn [fold_left readInto]. rewrite Hname.
    assert (Hin : endpointsIn collapseWhiteSpace readFile (join directory name)
                  = fileEndpoints) by (unfold endpointsIn; now rewrite Hname).
    unfold setProperty, makesProperty. cbn [List.filter].
    destruct (String.eqb name "__proto__") eqn:Hproto; cbn [negb].
    + apply IH; [|intros n Hn; apply Hread; now right].
      now apply List.NoDup_remove_1 in Hfresh.
    + rewrite assign_fresh.
      2: { apply List.NoDup_remove_2 in Hfresh. intros Hk. apply Hfresh.
           apply in_or_app. now left. }
      rewrite IH.
      * cbn [map]. rewrite Hin, <- app_assoc. reflexivity.
      * unfold ownKeys in *. rewrite map_app. cbn [map fst].
        now rewrite <- app_assoc.
      * intros n Hn. apply Hread. now right.
Qed.

Lemma readInto_Ok_inv (rest : list string) (accum endpoints : Endpoints) :
  fold_left (readInto collapseWhiteSpace readFile join directory) rest (Ok accum)
  = Ok endpoints ->
  forall name, In name rest ->
    exists fileEndpoints,
      getFileEndpoints collapseWhiteSpace readFile (join directory name) = Ok fileEndpoints.
Proof.
  revert accum. induction rest as [|n rest IH]; intros accum Hfold name Hin; [destruct Hin|].
  cbn [fold_left readInto] in Hfold.
  destruct (getFileEndpoints collapseWhiteSpace readFile (join directory n))
    as [fileEndpoints|e] eqn:Hn.
  - destruct Hin as [<- | Hin]; [eauto|]. now apply (IH _ Hfold).
  - rewrite readInto_Thrown in Hfold. discriminate.
Qed.

Lemma readInto_before (before : list string) (accum : Endpoints) :
  (forall name, In name before ->
     exists fileEndpoints,
       getFileEndpoints collapseWhiteSpace readFile (join directory name)
       = Ok fileEndpoints) ->
  exists accum',
    fold_left (readInto collapseWhiteSpace readFile join directory) before (Ok accum)
    = Ok accum'.
Proof.
  revert accum. induction before as [|n before IH]; intros accum Hread; [eauto|].
  destruct (Hread n (or_introl eq_refl)) as [fileEndpoints Hn].
  cbn [fold_left readInto]. rewrite Hn. apply IH. intros name Hin. apply Hread. now right.
Qed.

Lemma getProperty_found (found : string -> list Endpoint) (keys : list string)
    (fileName : string) :
  In fileName keys ->
  getProperty (map (fun name => (name, found name)) keys) fileName = Some (found fileName).
Proof.
  induction keys as [|key keys IH]; intros Hin; [destruct Hin|].
  simpl. destruct (String.eqb key fileName) eqn:Hk.
  - apply String.eqb_eq in Hk. now subst.
  - destruct Hin as [-> | Hin]; [now rewrite String.eqb_refl in Hk | now apply IH].
Qed.

(** The report of an object that holds what was found for each name. *)
Lemma formatEndpoints_found (found : string -> list Endpoint) (keys : list string) :
  formatEndpoints localeCompare (map (fun name => (name, found name)) keys)
  = joinLines (map (fun name => fileReport localeCompare name (found name))
                   (JS.sort codeUnitOrder keys)).
Proof.
  unfold formatEndpoints, ownKeys. rewrite map_map. cbn [fst]. rewrite map_id.
  f_equal. apply map_ext_in. intros name Hin. apply sort_In in Hin.
  now rewrite getProperty_found.
Qed.

(** The report of a directory whose files can all be read. *)
Lemma getExpressEndpoints_Ok (readdir : string -> Result (list string))
    (names : list string) :
  readdir directory = Ok names -> List.NoDup names ->
  (forall name, In name names ->
     exists fileEndpoints,
       getFileEndpoints collapseWhiteSpace readFile (join directory name)
       = Ok fileEndpoints) ->
  getExpressEndpoints collapseWhiteSpace readFile readdir join localeCompare directory
  = Ok (joinLines
          (map (fun name =>
                  fileReport localeCompare name
                    (endpointsIn collapseWhiteSpace readFile (join directory name)))
               (JS.sort codeUnitOrder (List.filter makesProperty names)))).
Proof.
  intros Hdir Hdup Hread. unfold getExpressEndpoints. rewrite Hdir.
  change (imap pair names) with (imap (fun i => pair (length (@nil string) + i)%nat) names).
  change names with ([] ++ names)%list at 1.
  rewrite reduce_paths, readInto_all by assumption.
  cbn [app]. now rewrite formatEndpoints_found.
Qed.

End ReportFacts.

Lemma isPositive_ofZ (z : Z) : JS.isPositive (JS.ofZ z) = false <-> z <= 0.
Proof.
  unfold JS.isPositive, JS.ofZ. change 0%Q with (inject_Z 0).
  pose proof (Qltb_inject_Z 0 z) as H.
  destruct (JS.Qltb (inject_Z 0) (inject_Z z)); split; intros H'; try reflexivity.
  - discriminate.
  - assert (0 < z) by (now apply H). lia.
  - destruct (Z.le_gt_cases z 0) as [Hle | Hgt]; [exact Hle|].
    apply H in Hgt. discriminate.
Qed.

Lemma plainCompare_leb (a b : string) : plainCompare a b <= 0 <-> String.leb a b = true.
Proof.
  unfold plainCompare, String.leb.
  destruct (String.compare a b); split; intros H; try reflexivity; try lia; discriminate.
Qed.

Section EndpointOrder.
Variable localeCompare : string -> string -> Z.
Hypothesis total : forall a b, localeCompare a b <= 0 \/ localeCompare b a <= 0.
Hypothesis trans :
  forall a b c, localeCompare a b <= 0 -> localeCompare b c <= 0 -> localeCompare a c <= 0.

(** The endpoints of a file as the report shows them: the same endpoints,
    each before those that [localeCompare] puts after it, and those that it
    holds for equal in the order in which they were found. *)
Lemma sort_endpoints (found : list Endpoint) :
  let shown := JS.sort (byTypeAndPath localeCompare) found in
  Permutation shown found /\
  StronglySorted
    (fun a b => localeCompare (type a ++ path a) (type b ++ path b) <= 0) shown /\
  (forall pivot,
     let same := fun e =>
       (localeCompare (type e ++ path e) (type pivot ++ path pivot) <=? 0)
       && (localeCompare (type pivot ++ path pivot) (type e ++ path e) <=? 0) in
     List.filter same shown = List.filter same found).
Proof.
  intros shown. split; [apply sort_Permutation|]. split.
  - eapply StronglySorted_weaken; [|apply (sort_ordered (byTypeAndPath localeCompare))].
    + intros a b H. now apply isPositive_ofZ in H.
    + intros a b. unfold byTypeAndPath. rewrite !isPositive_ofZ. apply total.
    + intros a b c. unfold byTypeAndPath. rewrite !isPositive_ofZ. apply trans.
  - intros pivot same. apply sort_filter. intros a b Ha Hb.
    unfold same in Ha, Hb. apply andb_prop in Ha as [Ha _]. apply andb_prop in Hb as [_ Hb].
    apply Z.leb_le in Ha, Hb. unfold byTypeAndPath. apply isPositive_ofZ.
    exact (trans _ _ _ Ha Hb).
Qed.
End EndpointOrder.

(** X22: the report of a directory.  When the directory is listed, with
    each name once, and every file in it can be read, the report is printed:
    one title per file, the files by name in the order of their code units;
    each title is followed by one line per endpoint found in the file, the
    endpoints in the order of [localeCompare] on the type followed by the
    path, and those that compare as equal in the order in which they were
    found (given that [localeCompare] is a consistent ordering).  A file
    named [__proto__] is not in the report, and every other listed file is,
    once. *)
Theorem report_of_a_directory :
  forall (collapseWhiteSpace : string -> string) (readFile : string -> Result string)
         (readdir : string -> Result (list string)) (join : string -> string -> string)
         (localeCompare : string -> string -> Z) (directory : string)
         (names : list string),
    (forall a b, localeCompare a b <= 0 \/ localeCompare b a <= 0) ->
    (forall a b c,
       localeCompare a b <= 0 -> localeCompare b c <= 0 -> localeCompare a c <= 0) ->
    readdir directory = Ok names ->
    List.NoDup names ->
    (forall name, In name names ->
       exists fileEndpoints,
         getFileEndpoints collapseWhiteSpace readFile (join directory name)
         = Ok fileEndpoints) ->
    exists (reported : list string) (shown : string -> list Endpoint),
      getExpressEndpoints collapseWhiteSpace readFile readdir join localeCompare directory
      = Ok (joinLines
              (map (fun name =>
                      (" * **" ++ name ++ "**")
                      ++ String Str.newline (joinLines (map endpointLine (shown name))))
                   reported)) /\
      StronglySorted (fun a b => String.leb a b = true) reported /\
      List.NoDup reported /\
      (forall name, In name reported <-> In name names /\ name <> "__proto__") /\
      (forall name,
         let found := endpointsIn collapseWhiteSpace readFile (join directory name) in
         Permutation (shown name) found /\
         StronglySorted
           (fun a b => localeCompare (type a ++ path a) (type b ++ path b) <= 0)
           (shown name) /\
         (forall pivot,
            let same := fun e =>
              (localeCompare (type e ++ path e) (type pivot ++ path pivot) <=? 0)
              && (localeCompare (type pivot ++ path pivot) (type e ++ path e) <=? 0) in
            List.filter same (shown name) = List.filter same found)).
Proof.
  intros collapseWhiteSpace readFile readdir join localeCompare directory names
    Htotal Htrans Hdir Hdup Hread.
  exists (JS.sort codeUnitOrder (List.filter makesProperty names)),
    (fun name => JS.sort (byTypeAndPath localeCompare)
                   (endpointsIn collapseWhiteSpace readFile (join directory name))).
  split; [now apply getExpressEndpoints_Ok|]. split; [apply sort_names_ordered|]. split.
  - eapply Permutation_NoDup; [symmetry; apply sort_Permutation|].
    now apply List.NoDup_filter.
  - split.
    + intros name. rewrite sort_In, filter_In. unfold makesProperty.
      rewrite Bool.negb_true_iff, String.eqb_neq. reflexivity.
    + intros name. now apply sort_endpoints.
Qed.

Lemma report_of_a_directory_witness :
  exists (reported : list string) (shown : string -> list Endpoint),
    getExpressEndpoints Str.trim (fun filePath => Ok (routesOf filePath))
      (listing ["users.ts"; "__proto__"; "orders.ts"]) slashJoin plainCompare "dir"
    = Ok (joinLines
            (map (fun name =>
                    (" * **" ++ name ++ "**")
                    ++ String Str.newline (joinLines (map endpointLine (shown name))))
                 reported)) /\
    StronglySorted (fun a b => String.leb a b = true) reported /\
    List.NoDup reported /\
    (forall name, In name reported <->
                  In name ["users.ts"; "__proto__"; "orders.ts"] /\ name <> "__proto__") /\
    (forall name,
       let found := endpointsIn Str.trim (fun filePath => Ok (routesOf filePath))
                      (slashJoin "dir" name) in
       Permutation (shown name) found /\
       StronglySorted
         (fun a b => plainCompare (type a ++ path a) (type b ++ path b) <= 0)
         (shown name) /\
       (forall pivot,
          let same := fun e =>
            (plainCompare (type e ++ path e) (type pivot ++ path pivot) <=? 0)
            && (plainCompare (type pivot ++ path pivot) (type e ++ path e) <=? 0) in
          List.filter same (shown name) = List.filter same found)).
Proof.
  apply (report_of_a_directory Str.trim (fun filePath => Ok (routesOf filePath))
           (listing ["users.ts"; "__proto__"; "orders.ts"]) slashJoin plainCompare "dir"
           ["users.ts"; "__proto__"; "orders.ts"]).
  - intros a b. rewrite !plainCompare_leb. apply String.leb_total.
  - intros a b c. rewrite !plainCompare_leb. apply string_leb_trans.
  - reflexivity.
  - repeat constructor; simpl; intuition discriminate.
  - intros name [<- | [<- | [<- | []]]]; eexists; vm_compute; reflexivity.
Defined.

(** The report of that directory: the two endpoints of [orders.ts] are found
    as [post] then [get] and shown as [get] then [post]. *)
Example report_of_orders :
  endpointsIn Str.trim (fun filePath => Ok (routesOf filePath)) (slashJoin "dir" "orders.ts")
  = [ {| type := "post"; path := "/orders" |}; {| type := "get"; path := "/orders" |} ] /\
  getExpressEndpoints Str.trim (fun filePath => Ok (routesOf filePath))
    (listing ["users.ts"; "__proto__"; "orders.ts"]) slashJoin plainCompare "dir"
  = Ok (joinLines
          [ " * **orders.ts**";
            endpointLine {| type := "get"; path := "/orders" |};
            endpointLine {| type := "post"; path := "/orders" |};
            " * **users.ts**";
            endpointLine {| type := "get"; path := "/users" |} ]).
Proof. split; vm_compute; reflexivity. Qed.

(** X23: the report does not depend on the order of the listing.  When a
    report is printed for a directory, the same report is printed whatever
    the order in which the directory lists the same files. *)
Theorem report_ignores_listing_order :
  forall (collapseWhiteSpace : string -> string) (readFile : string -> Result string)
         (readdir1 readdir2 : string -> Result (list string))
         (join : string -> string -> string) (localeCompare : string -> string -> Z)
         (directory : string) (names1 names2 : list string) (report : string),
    readdir1 directory = Ok names1 ->
    readdir2 directory = Ok names2 ->
    List.NoDup names1 ->
    Permutation names1 names2 ->
    getExpressEndpoints collapseWhiteSpace readFile readdir1 join localeCompare directory
    = Ok report ->
    getExpressEndpoints collapseWhiteSpace readFile readdir2 join localeCompare directory
    = Ok report.
Proof.
  intros collapseWhiteSpace readFile readdir1 readdir2 join localeCompare directory
    names1 names2 report Hdir1 Hdir2 Hdup Hperm Hreport.
  assert (Hread : forall name, In name names1 ->
            exists fileEndpoints,
              getFileEndpoints collapseWhiteSpace readFile (join directory name)
              = Ok fileEndpoints).
  { unfold getExpressEndpoints in Hreport. rewrite Hdir1 in Hreport.
    change (imap pair names1)
      with (imap (fun i => pair (length (@nil string) + i)%nat) names1) in Hreport.
    change names1 with ([] ++ names1)%list in Hreport at 1.
    rewrite reduce_paths in Hreport.
    destruct (fold_left (readInto collapseWhiteSpace readFile join directory) names1 (Ok []))
      as [endpoints|e] eqn:Hfold; [|discriminate].
    exact (readInto_Ok_inv _ _ _ _ _ _ _ Hfold). }
  rewrite (getExpressEndpoints_Ok _ _ _ _ _ _ names1 Hdir1 Hdup Hread) in Hreport.
  rewrite (getExpressEndpoints_Ok _ _ _ _ _ _ names2 Hdir2).
  - rewrite <- Hreport. do 3 f_equal. apply sort_names_unique.
    symmetry. clear -Hperm. induction Hperm; simpl.
    + reflexivity.
    + destruct (makesProperty x); [now constructor | assumption].
    + destruct (makesProperty x), (makesProperty y); try reflexivity. apply perm_swap.
    + etransitivity; eassumption.
  - eapply Permutation_NoDup; eassumption.
  - intros name Hin. apply Hread. eapply Permutation_in; [symmetry; exact Hperm | exact Hin].
Qed.

Lemma report_ignores_listing_order_witness :
  getExpressEndpoints Str.trim (fun filePath => Ok (routesOf filePath))
    (listing ["admin.ts"; "users.ts"]) slashJoin plainCompare "dir"
  = getExpressEndpoints Str.trim (fun filePath => Ok (routesOf filePath))
      (listing ["users.ts"; "admin.ts"]) slashJoin plainCompare "dir".
Proof.
  apply (report_ignores_listing_order Str.trim (fun filePath => Ok (routesOf filePath))
           (listing ["users.ts"; "admin.ts"]) (listing ["admin.ts"; "users.ts"])
           slashJoin plainCompare "dir" ["users.ts"; "admin.ts"] ["admin.ts"; "users.ts"]).
  - reflexivity.
  - reflexivity.
  - repeat constructor; simpl; intuition discriminate.
  - apply perm_swap.
  - vm_compute. reflexivity.
Defined.

(** X24: the first file that cannot be read ends the scan.  The files are
    read one after the other in the order of the listing; when one of them
    cannot be read, or its path is empty, after the files before it have
    been read, the scan is rejected with the error of that file and no
    report is printed, whatever follows in the listing. *)
Theorem first_unreadable_file_aborts :
  forall (collapseWhiteSpace : string -> string) (readFile : string -> Result string)
         (readdir : string -> Result (list string)) (join : string -> string -> string)
         (localeCompare : string -> string -> Z) (directory : string)
         (before after : list string) (bad : string) (e : Error),
    readdir directory = Ok (before ++ bad :: after)%list ->
    (forall name, In name before ->
       exists fileEndpoints,
         getFileEndpoints collapseWhiteSpace readFile (join directory name)
         = Ok fileEndpoints) ->
    getFileEndpoints collapseWhiteSpace readFile (join directory bad) = Thrown e ->
    getExpressEndpoints collapseWhiteSpace readFile readdir join localeCompare directory
    = Thrown e.
Proof.
  intros collapseWhiteSpace readFile readdir join localeCompare directory before after
    bad e Hdir Hbefore Hbad.
  unfold getExpressEndpoints. rewrite Hdir.
  change (imap pair (before ++ bad :: after))
    with (imap (fun i => pair (length (@nil string) + i)%nat) (before ++ bad :: after)).
  change (map (join directory) (before ++ bad :: after))
    with (map (join directory) ([] ++ (before ++ bad :: after))).
  rewrite reduce_paths, fold_left_app.
  destruct (readInto_before collapseWhiteSpace readFile join directory before [] Hbefore)
    as [accum Haccum].
  unfold Endpoints in *. rewrite Haccum. cbn [fold_left readInto]. rewrite Hbad.
  now rewrite readInto_Thrown.
Qed.

Lemma first_unreadable_file_aborts_witness :
  getExpressEndpoints Str.trim (oneFile routeFile) (listing ["routes.ts"; "gone.ts"; "x.ts"])
    (fun directory fileName => fileName) plainCompare "dir"
  = Thrown (ReadFileError "gone.ts").
Proof.
  apply (first_unreadable_file_aborts Str.trim (oneFile routeFile)
           (listing ["routes.ts"; "gone.ts"; "x.ts"]) (fun directory fileName => fileName)
           plainCompare "dir" ["routes.ts"] ["x.ts"] "gone.ts" (ReadFileError "gone.ts")).
  - reflexivity.
  - intros name [<- | []]. eexists. vm_compute. reflexivity.
  - reflexivity.
Defined.

(** ** The patterns of the route scanner *)

Lemma search_here (r : Pattern) (toEnd : bool) (s g : list ascii) :
  matchHere r toEnd s = Some g -> search r toEnd s = Some g.
Proof. intros H. destruct s; simpl; now rewrite H. Qed.

Lemma search_skip (x : ascii) (r : Pattern) (toEnd : bool) (before s : list ascii) :
  Forall (fun c => c <> x) before ->
  search (once (lit x) :: r) toEnd (before ++ s) = search (once (lit x) :: r) toEnd s.
Proof.
  induction 1 as [|c before Hc _ IH]; [reflexivity|].
  cbn [app search]. rewrite matchHere_cons. cbn [quantifier once class].
  unfold lit at 1. now rewrite (proj2 (Ascii.eqb_neq c x) Hc).
Qed.

Lemma quote_not_space (c : ascii) : quote c = true -> space c = false.
Proof. destruct c as [[] [] [] [] [] [] [] []]; vm_compute; congruence. Qed.

Lemma safeMatch1_search (line : string) (regExp : RegExp) (g : list ascii) :
  fromStart regExp = false ->
  search (pattern regExp) (toEnd regExp) (chars line) = Some g ->
  safeMatch1 line regExp = Some (string_of_list_ascii g).
Proof. intros Hs H. unfold safeMatch1. rewrite Hs. fold (chars line). now rewrite H. Qed.

(** The method of a line that begins with [app.], a name and a bracket. *)
Lemma appMethod_found (method rest : string) :
  method <> "" -> without "(" method ->
  safeMatch1 ("app." ++ method ++ "(" ++ rest) appMethod = Some method.
Proof.
  intros Hne Hopen.
  assert (Hrun : Forall (fun c => notLit "(" c = true) (chars method)).
  { eapply Forall_impl; [exact Hopen|]. intros c Hc. now apply notLit_neq. }
  assert (Hm : Matches false (pattern appMethod)
                 (chars ("app." ++ method ++ "(" ++ rest)) (chars method)).
  { rewrite !chars_app. cbn [pattern appMethod]. apply Matches_text. cbn [app].
    replace (chars method) with (kept (group (plus (notLit "("))) (chars method) ++ [])%list
      at 2 by (cbn; apply app_nil_r).
    apply MatchesAtom; [exact Hrun | |].
    { cbn. destruct method; [contradiction | simpl; lia]. }
    rewrite <- (app_nil_r (text "(")). apply Matches_text. constructor. discriminate. }
  apply matchHere_complete in Hm.
  destruct (matchHere (pattern appMethod) false (chars ("app." ++ method ++ "(" ++ rest)))
    as [g|] eqn:Hg; [|contradiction].
  rewrite (safeMatch1_search _ appMethod g eq_refl (search_here _ _ _ _ Hg)).
  f_equal. apply chars_inj. rewrite chars_of_list.
  apply matchHere_sound in Hg. cbn [pattern appMethod] in Hg.
  apply Matches_text_inv in Hg as (s1 & Hs1 & Hg). cbn [app] in Hg.
  apply Matches_cons_inv in Hg as (run & s2 & g2 & -> & -> & Hc & _ & Hg).
  rewrite <- (app_nil_r (text "(")) in Hg.
  apply Matches_text_inv in Hg as (s3 & -> & Hg).
  apply Matches_nil_inv in Hg as (-> & _).
  rewrite !chars_app in Hs1. apply app_inv_head in Hs1.
  cbn [kept group captured plus]. rewrite app_nil_r.
  destruct (run_unique (notLit "(") (chars method) run (chars "(" ++ chars rest)
              (chars "(" ++ s3)) as [Hsame _]; [exact Hs1 | exact Hrun | exact Hc | | |].
  - intros c r Heq. injection Heq as <- _. reflexivity.
  - intros c r Heq. injection Heq as <- _. reflexivity.
  - now symmetry.
Qed.

(** The path of a line whose first bracket is followed by a quoted text. *)
Lemma quotedPath_found (before gap p after : string) (q1 q2 : ascii) :
  without "(" before -> blank gap -> quote q1 = true -> quote q2 = true ->
  p <> "" -> Forall (fun c => quote c = false) (chars p) ->
  safeMatch1 (before ++ "(" ++ gap ++ String q1 (p ++ String q2 after)) quotedPath
  = Some p.
Proof.
  intros Hbefore Hgap Hq1 Hq2 Hne Hp.
  assert (Hrun : Forall (fun c => negb (quote c) = true) (chars p)).
  { eapply Forall_impl; [exact Hp|]. intros c Hc. now rewrite Hc. }
  set (s := (chars "(" ++ chars gap ++ q1 :: chars p ++ q2 :: chars after)%list).
  assert (Hchars : chars (before ++ "(" ++ gap ++ String q1 (p ++ String q2 after))
                   = (chars before ++ s)%list).
  { unfold s. rewrite !chars_app. cbn [chars list_ascii_of_string].
    fold (chars (p ++ String q2 after)). rewrite chars_app. reflexivity. }
  assert (Hm : Matches false (pattern quotedPath) s (chars p)).
  { unfold s. cbn [pattern quotedPath]. apply Matches_text. cbn [app].
    apply (MatchesAtom false (star space) _ (chars gap) _ (chars p)); [exact Hgap | exact I |].
    apply Matches_once; [exact Hq1|].
    replace (chars p)
      with (kept (group (plus (fun c => negb (quote c)))) (chars p) ++ [])%list
      at 2 by (cbn; apply app_nil_r).
    apply MatchesAtom; [exact Hrun | |].
    { cbn. destruct p; [contradiction | simpl; lia]. }
    apply Matches_once; [exact Hq2|]. constructor. discriminate. }
  apply matchHere_complete in Hm.
  destruct (matchHere (pattern quotedPath) false s) as [g|] eqn:Hg; [|contradiction].
  assert (Hfound : search (pattern quotedPath) (toEnd quotedPath)
                     (chars (before ++ "(" ++ gap ++ String q1 (p ++ String q2 after)))
                   = Some g).
  { rewrite Hchars. cbn [pattern quotedPath toEnd text chars list_ascii_of_string map app].
    rewrite search_skip by exact Hbefore. now apply search_here. }
  rewrite (safeMatch1_search _ quotedPath g eq_refl Hfound).
  f_equal. apply chars_inj. rewrite chars_of_list.
  apply matchHere_sound in Hg. cbn [pattern quotedPath] in Hg.
  apply Matches_text_inv in Hg as (s1 & Hs1 & Hg). cbn [app] in Hg.
  apply Matches_cons_inv in Hg as (run1 & s2 & g2 & -> & -> & Hc1 & _ & Hg).
  apply Matches_once_inv in Hg as (c1 & s3 & -> & Hc2 & Hg).
  apply Matches_cons_inv in Hg as (run2 & s4 & g4 & -> & -> & Hc3 & _ & Hg).
  apply Matches_once_inv in Hg as (c2 & s5 & -> & Hc4 & Hg).
  apply Matches_nil_inv in Hg as (-> & _).
  unfold s in Hs1. apply app_inv_head in Hs1.
  cbn [kept group captured plus star once class] in *. rewrite app_nil_r. cbn [app].
  destruct (run_unique space (chars gap) run1 (q1 :: chars p ++ q2 :: chars after)
              (c1 :: run2 ++ c2 :: s5)) as [_ Hrest]; [exact Hs1 | exact Hgap | exact Hc1 | | |].
  { intros c r Heq. injection Heq as <- _. now apply quote_not_space. }
  { intros c r Heq. injection Heq as <- _. now apply quote_not_space. }
  injection Hrest as _ Hrest.
  destruct (run_unique (fun c => negb (quote c)) (chars p) run2 (q2 :: chars after)
              (c2 :: s5)) as [Hsame _]; [exact Hrest | exact Hrun | exact Hc3 | | |].
  { intros c r Heq. injection Heq as <- _. now rewrite Hq2. }
  { intros c r Heq. injection Heq as <- _. now rewrite Hc4. }
  now symmetry.
Qed.

(** X25: the endpoint of a route line.  For a line that, trimmed, begins with
    [app.], a method name and an opening bracket, and when in the line joined
    with the next one the first opening bracket is followed, after optional
    white space, by a text between two quote characters, the record of the
    line has that method as type and that text as path.  The two quote
    characters need not be the same. *)
Theorem route_line_endpoint :
  forall (collapseWhiteSpace : string -> string) (fileLines : list string) (index : nat)
         (rawLine method rest before gap p after : string) (q1 q2 : ascii),
    Str.trim rawLine = "app." ++ method ++ "(" ++ rest ->
    method <> "" -> without "(" method ->
    collapseWhiteSpace (Str.trim rawLine ++ default "" (fileLines !! (index + 1)%nat))
    = before ++ "(" ++ gap ++ String q1 (p ++ String q2 after) ->
    without "(" before -> blank gap -> quote q1 = true -> quote q2 = true ->
    p <> "" -> Forall (fun c => quote c = false) (chars p) ->
    isAppLine rawLine = true /\
    newEndpoint collapseWhiteSpace fileLines index rawLine
    = {| type := method; path := p |}.
Proof.
  intros collapseWhiteSpace fileLines index rawLine method rest before gap p after q1 q2
    Htrim Hmethod Hopen Hjoined Hbefore Hgap Hq1 Hq2 Hp Hplain.
  split.
  - unfold isAppLine, Str.startsWith. rewrite Htrim. simpl.
    repeat rewrite Ascii.eqb_refl. now destruct (method ++ "(" ++ rest).
  - unfold newEndpoint. cbv zeta. rewrite Hjoined, Htrim.
    rewrite appMethod_found by assumption.
    rewrite quotedPath_found by assumption. reflexivity.
Qed.

Lemma route_line_endpoint_witness :
  isAppLine "  app.get('/users`, list);" = true /\
  newEndpoint Str.trim ["  app.get('/users`, list);"] 0 "  app.get('/users`, list);"
  = {| type := "get"; path := "/users" |}.
Proof.
  apply (route_line_endpoint Str.trim ["  app.get('/users`, list);"] 0%nat
           "  app.get('/users`, list);" "get" "'/users`, list);" "app.get" "" "/users"
           ", list);" "'"%char "`"%char).
  - vm_compute. reflexivity.
  - discriminate.
  - repeat constructor; discriminate.
  - vm_compute. reflexivity.
  - repeat constructor; discriminate.
  - constructor.
  - reflexivity.
  - reflexivity.
  - discriminate.
  - repeat constructor.
Defined.
